(** * A shallow embedding of the Bw-tree of [src/backend/index/bwtree.h]

    The C++ class [BWTree<KeyType, ValueType, KeyComparator,
    KeyEqualityChecker>] is embedded as pure functions over an explicit
    tree state.  Heap nodes are values of an inductive type; a node's
    [next] pointer is the nested sub-term, and every node carries the
    address it was allocated at, so that the compare-and-swap of the
    mapping table compares pointers, as the source does.  Operations that
    can fail (a fatal assertion, undefined behaviour such as reading the
    top of an empty stack, a loop that cannot exit) return an error. *)

From Stdlib Require Import ZArith Lia Bool.
From stdpp Require Import base tactics option numbers list gmap sets.

Open Scope Z_scope.

(** ** Results of fallible code *)

Inductive error : Type :=
| AssertFail   (* a fatal [assert] fired *)
| Undefined    (* undefined behaviour: null dereference, out-of-range
                  array or vector access, [top()] of an empty stack *)
| Diverges     (* a loop whose state no longer changes *)
| OutOfFuel.   (* the step budget of the model is exhausted *)

Inductive result (A : Type) : Type :=
| Ok (a : A)
| Err (e : error).
Arguments Ok {A} a.
Arguments Err {A} e.

#[export] Instance result_ret : MRet result := fun A a => Ok a.
#[export] Instance result_bind : MBind result := fun A B f m =>
  match m with
  | Ok a => f a
  | Err e => Err e
  end.

Definition is_ok {A} (r : result A) : bool :=
  match r with Ok _ => true | Err _ => false end.

(** [a[i]] on a C array or [v[i]] on a [std::vector]: reading outside the
    storage is undefined. *)
Definition at_index {A} (l : list A) (i : nat) : result A :=
  match l !! i with
  | Some x => Ok x
  | None => Err Undefined
  end.

(** [a[i] = x] on a C array. *)
Definition store_index {A} (l : list A) (i : nat) (x : A) : result (list A) :=
  if decide (i < length l)%nat then Ok (<[i := x]> l) else Err Undefined.

(** [*p] for a pointer that may be null. *)
Definition deref {A} (p : option A) : result A :=
  match p with
  | Some x => Ok x
  | None => Err Undefined
  end.

(** ** Constants of the source *)

Definition BWTREE_NODE_SIZE : Z := 256.
Definition BWTREE_MAX (a b : Z) : Z := if a <? b then b else a.
Definition MAX_DELTA_CHAIN_LEN : Z := 8.
Definition MAPPING_TABLE_SIZE_BITNUM : Z := 10.
Definition MAPPING_TABLE_SIZE : Z := Z.shiftl 1 MAPPING_TABLE_SIZE_BITNUM.
Definition GET_TIER1_INDEX (pid : Z) : Z := Z.shiftr pid 10.
Definition GET_TIER2_INDEX (pid : Z) : Z := Z.land pid 0x3ff.
Definition NULL_PID : Z := -1.

(** [typedef long long PidType] *)
Abbreviation PidType := Z.

(** [unsigned short] arithmetic ([slotuse]). *)
Definition ushort (z : Z) : Z := z mod 65536.

(** [int] arithmetic, two's complement on 32 bits (the counters of
    [count_pair]). *)
Definition INT_MAX : Z := 2147483647.
Definition wrap_int (z : Z) : Z := (z + 2147483648) mod 4294967296 - 2147483648.

Inductive NodeType : Type :=
| LEAF | INNER | RECORD_DELTA | INDEX_ENTRY_DELTA | REMOVE_NODE_DELTA
| MERGE_DELTA | DELETE_INDEX_TERM_DELTA | SPLIT_DELTA.

(** ** Values: [ItemPointer] *)

Record ItemPointer : Type := mkItemPointer { block : Z; offset : Z }.

#[export] Instance ItemPointer_eq_dec : EqDecision ItemPointer.
Proof. solve_decision. Defined.

#[export] Instance ItemPointer_countable : Countable ItemPointer.
Proof.
  refine (inj_countable' (fun p => (block p, offset p))
                         (fun q => mkItemPointer q.1 q.2) _).
  by intros [].
Defined.

(** [ItemPointerEqualityChecker::operator()] *)
Definition ItemPointerEqualityChecker (lhs rhs : ItemPointer) : bool :=
  (block lhs =? block rhs) && (offset lhs =? offset rhs).

(** [ItemPointerComparator::operator()] *)
Definition ItemPointerComparator (lhs rhs : ItemPointer) : bool :=
  (block lhs <? block rhs) ||
  ((block lhs =? block rhs) && (offset lhs <? offset rhs)).

Abbreviation ValueType := ItemPointer.

(** [DelSet]: the [unordered_set] of deleted values. *)
Abbreviation DelSet := (gset ItemPointer).

Definition delset_count (deleted : DelSet) (v : ValueType) : bool :=
  bool_decide (v ∈ deleted).

(** ** The template and constructor parameters

    [KeyType] with its comparator and equality checker, the answer of the
    metadata object to [HasUniqueKeys()], a default-constructed key
    ([KeyType waste;]) and the object sizes that fix the slot counts. *)

Class KeyOps (KeyType : Type) : Type := {
  m_key_less : KeyType -> KeyType -> bool;
  m_key_equal : KeyType -> KeyType -> bool;
  HasUniqueKeys : bool;
  waste : KeyType;
  sizeof_KeyType : Z;
  sizeof_ValueType : Z;
}.

(** What the index expects of the comparator: a strict total order whose
    equality checker is the induced equality. *)
Class KeyLaws (KeyType : Type) `{KeyOps KeyType} : Prop := {
  key_less_irrefl : forall a, m_key_less a a = false;
  key_less_trans : forall a b c,
      m_key_less a b = true -> m_key_less b c = true -> m_key_less a c = true;
  key_less_total : forall a b,
      m_key_less a b = false -> m_key_less b a = false -> a = b;
  key_equal_spec : forall a b, m_key_equal a b = true <-> a = b;
}.

Section BWTree.

Context {KeyType : Type} `{KeyOps KeyType}.

Definition sizeof_PidType : Z := 8.

Definition leafslotmax : Z :=
  ushort (BWTREE_MAX 8 (BWTREE_NODE_SIZE / (sizeof_KeyType + sizeof_ValueType))).
Definition innerslotmax : Z :=
  ushort (BWTREE_MAX 8 (BWTREE_NODE_SIZE / (sizeof_KeyType + sizeof_PidType))).
Definition minleafslots : Z := ushort (leafslotmax / 2).
Definition mininnerslots : Z := ushort (innerslotmax / 2).

(** ** Nodes *)

(** The fields of [struct Node].  [addr] is the address of the object
    (what a [Node*] compares by); [pid] is not initialised by the
    constructor. *)
Record NodeHdr : Type := mkNodeHdr {
  addr : Z;
  delta_list_len : Z;
  next_leafnode : PidType;
  is_leaf : bool;
  low_key : KeyType;
  high_key : KeyType;
  inf_lowkey : bool;
  inf_highkey : bool;
  slotuse : Z;
  pid : option PidType;
}.

Inductive RecordType : Type := INSERT | DELETE | UPDATE.

Inductive Node : Type :=
| LeafNode (hdr : NodeHdr) (slotkey : list KeyType)
           (slotdata : list (option (list ValueType)))
| InnerNode (hdr : NodeHdr) (slotkey : list KeyType)
            (childid : list (option PidType))
| RecordDelta (hdr : NodeHdr) (op_type : RecordType) (key : KeyType)
              (value : ValueType) (next : Node)
| SplitDelta (hdr : NodeHdr) (Kp : KeyType) (pQ : PidType) (next : Node)
| IndexEntryDelta (hdr : NodeHdr) (Kp Kq : KeyType) (inf_Kq : bool)
                  (pQ : PidType) (next : Node)
| RemoveDelta (hdr : NodeHdr) (next : Node)
| MergeDelta (hdr : NodeHdr) (Kp : KeyType) (orignal_node : Node) (next : Node).

Definition hdr_of (n : Node) : NodeHdr :=
  match n with
  | LeafNode h _ _ | InnerNode h _ _ | RecordDelta h _ _ _ _
  | SplitDelta h _ _ _ | IndexEntryDelta h _ _ _ _ _ | RemoveDelta h _
  | MergeDelta h _ _ _ => h
  end.

Definition node_type (n : Node) : NodeType :=
  match n with
  | LeafNode _ _ _ => LEAF
  | InnerNode _ _ _ => INNER
  | RecordDelta _ _ _ _ _ => RECORD_DELTA
  | SplitDelta _ _ _ _ => SPLIT_DELTA
  | IndexEntryDelta _ _ _ _ _ _ => INDEX_ENTRY_DELTA
  | RemoveDelta _ _ => REMOVE_NODE_DELTA
  | MergeDelta _ _ _ _ => MERGE_DELTA
  end.

(** [node->next]; null for the two base nodes. *)
Definition next_of (n : Node) : option Node :=
  match n with
  | LeafNode _ _ _ | InnerNode _ _ _ => None
  | RecordDelta _ _ _ _ nx | SplitDelta _ _ _ nx
  | IndexEntryDelta _ _ _ _ _ nx | RemoveDelta _ nx | MergeDelta _ _ _ nx =>
      Some nx
  end.

Definition with_hdr (f : NodeHdr -> NodeHdr) (n : Node) : Node :=
  match n with
  | LeafNode h ks ds => LeafNode (f h) ks ds
  | InnerNode h ks cs => InnerNode (f h) ks cs
  | RecordDelta h op k v nx => RecordDelta (f h) op k v nx
  | SplitDelta h kp q nx => SplitDelta (f h) kp q nx
  | IndexEntryDelta h kp kq i q nx => IndexEntryDelta (f h) kp kq i q nx
  | RemoveDelta h nx => RemoveDelta (f h) nx
  | MergeDelta h kp o nx => MergeDelta (f h) kp o nx
  end.

Definition set_pid (p : PidType) (h : NodeHdr) : NodeHdr :=
  mkNodeHdr (addr h) (delta_list_len h) (next_leafnode h) (is_leaf h)
            (low_key h) (high_key h) (inf_lowkey h) (inf_highkey h)
            (slotuse h) (Some p).

Definition set_slotuse (s : Z) (h : NodeHdr) : NodeHdr :=
  mkNodeHdr (addr h) (delta_list_len h) (next_leafnode h) (is_leaf h)
            (low_key h) (high_key h) (inf_lowkey h) (inf_highkey h)
            s (pid h).

Definition set_low_key (k : KeyType) (h : NodeHdr) : NodeHdr :=
  mkNodeHdr (addr h) (delta_list_len h) (next_leafnode h) (is_leaf h)
            k (high_key h) (inf_lowkey h) (inf_highkey h)
            (slotuse h) (pid h).

Definition set_high_key (k : KeyType) (h : NodeHdr) : NodeHdr :=
  mkNodeHdr (addr h) (delta_list_len h) (next_leafnode h) (is_leaf h)
            (low_key h) k (inf_lowkey h) (inf_highkey h)
            (slotuse h) (pid h).

(** [Node::Node]: [slotuse] starts at 0, [pid] is left uninitialised. *)
Definition Node_ctor (a : Z) (delta_l : Z) (next_leaf : PidType)
    (is_lf : bool) (lowkey highkey : KeyType) (inf_low inf_high : bool)
  : NodeHdr :=
  mkNodeHdr a delta_l next_leaf is_lf lowkey highkey inf_low inf_high 0 None.

Definition need_split (h : NodeHdr) : bool :=
  if is_leaf h then bool_decide (leafslotmax <= slotuse h)
  else bool_decide (innerslotmax <= slotuse h).

Definition need_merge (h : NodeHdr) : bool :=
  if is_leaf h then bool_decide (slotuse h <= minleafslots)
  else bool_decide (slotuse h <= mininnerslots).

(** [prepend]: the chain length of the delta is one more than that of the
    node it is put in front of.  [delta_list_len] is a [size_t]; it counts
    heap objects, which the address space bounds far below [2^64], so the
    increment is exact. *)
Definition prepend (delta_hdr : NodeHdr) (orig_node : Node) : NodeHdr :=
  mkNodeHdr (addr delta_hdr) (delta_list_len (hdr_of orig_node) + 1)
            (next_leafnode delta_hdr) (is_leaf delta_hdr)
            (low_key delta_hdr) (high_key delta_hdr)
            (inf_lowkey delta_hdr) (inf_highkey delta_hdr)
            (slotuse delta_hdr) (pid delta_hdr).

(** The constructors of the node classes.  [a] is the address [new]
    returns.  The key arrays hold default-constructed keys, the data
    pointers of a leaf are null, the child array of an inner node is not
    initialised ([None]: reading such a slot is undefined). *)
Definition InnerNode_hdr (a : Z) (lowkey highkey : KeyType)
    (inf_low inf_high : bool) : NodeHdr :=
  Node_ctor a 0 NULL_PID false lowkey highkey inf_low inf_high.

Definition InnerNode_slotkey : list KeyType :=
  replicate (Z.to_nat (innerslotmax + 1)) waste.

Definition InnerNode_childid : list (option PidType) :=
  replicate (Z.to_nat (innerslotmax + 1 + 1)) None.

Definition InnerNode_ctor (a : Z) (lowkey highkey : KeyType)
    (inf_low inf_high : bool) : Node :=
  InnerNode (InnerNode_hdr a lowkey highkey inf_low inf_high)
            InnerNode_slotkey InnerNode_childid.

Definition LeafNode_hdr (a : Z) (next_leaf : PidType)
    (lowkey highkey : KeyType) (inf_low inf_high : bool) : NodeHdr :=
  Node_ctor a 0 next_leaf true lowkey highkey inf_low inf_high.

Definition LeafNode_slotkey : list KeyType :=
  replicate (Z.to_nat (leafslotmax + 1)) waste.

Definition LeafNode_slotdata : list (option (list ValueType)) :=
  replicate (Z.to_nat (leafslotmax + 1)) None.

Definition LeafNode_ctor (a : Z) (next_leaf : PidType)
    (lowkey highkey : KeyType) (inf_low inf_high : bool) : Node :=
  LeafNode (LeafNode_hdr a next_leaf lowkey highkey inf_low inf_high)
           LeafNode_slotkey LeafNode_slotdata.

Definition RecordDelta_ctor (a : Z) (next : Node) (op : RecordType)
    (k : KeyType) (v : ValueType) (next_leaf : PidType)
    (lowkey highkey : KeyType) (inf_low inf_high : bool) : Node :=
  let h := Node_ctor a 0 next_leaf (is_leaf (hdr_of next)) lowkey highkey
                     inf_low inf_high in
  let h := prepend h next in
  RecordDelta (set_slotuse (slotuse (hdr_of next)) h) op k v next.

Definition SplitDelta_ctor (a : Z) (next : Node) (Kp : KeyType) (pQ : PidType)
    (next_leaf : PidType) (lowkey highkey : KeyType)
    (inf_low inf_high : bool) : Node :=
  let h := Node_ctor a 0 next_leaf (is_leaf (hdr_of next)) lowkey highkey
                     inf_low inf_high in
  let h := prepend h next in
  SplitDelta (set_slotuse (ushort (slotuse (hdr_of next) / 2)) h) Kp pQ next.

Definition IndexEntryDelta_ctor (a : Z) (next : Node) (Kp Kq : KeyType)
    (Kq_is_inf : bool) (pQ : PidType) (next_leaf : PidType)
    (lowkey highkey : KeyType) (inf_low inf_high : bool) : Node :=
  let h := Node_ctor a 0 next_leaf (is_leaf (hdr_of next)) lowkey highkey
                     inf_low inf_high in
  let h := prepend h next in
  IndexEntryDelta (set_slotuse (ushort (slotuse (hdr_of next) + 1)) h)
                  Kp Kq Kq_is_inf pQ next.

(** The two merge deltas do not call [prepend]. *)
Definition RemoveDelta_ctor (a : Z) (next : Node) (next_leaf : PidType)
    (lowkey highkey : KeyType) (inf_low inf_high : bool) : Node :=
  RemoveDelta (Node_ctor a 0 next_leaf (is_leaf (hdr_of next)) lowkey highkey
                         inf_low inf_high) next.

Definition MergeDelta_ctor (a : Z) (next : Node) (Kp : KeyType)
    (orignal_node : Node) (next_leaf : PidType)
    (lowkey highkey : KeyType) (inf_low inf_high : bool) : Node :=
  MergeDelta (Node_ctor a 0 next_leaf (is_leaf (hdr_of next)) lowkey highkey
                        inf_low inf_high) Kp orignal_node next.

(** ** Key comparisons *)

Definition key_less (a b : KeyType) (b_max_inf : bool) : bool :=
  if b_max_inf then true else m_key_less a b.

Definition key_lessequal (a b : KeyType) (b_max_inf : bool) : bool :=
  if b_max_inf then true else negb (m_key_less b a).

Definition key_greater (a b : KeyType) (b_min_inf : bool) : bool :=
  if b_min_inf then true else m_key_less b a.

Definition key_greaterequal (a b : KeyType) (b_min_inf : bool) : bool :=
  if b_min_inf then true else negb (m_key_less a b).

Definition key_equal (a b : KeyType) : bool := m_key_equal a b.

Definition value_equal (a b : ValueType) : bool :=
  ItemPointerEqualityChecker a b.

Definition key_in_node (key : KeyType) (node : NodeHdr) : bool :=
  key_greaterequal key (low_key node) (inf_lowkey node)
  && key_less key (high_key node) (inf_highkey node).

(** ** Vector operations used by the consolidation helpers *)

(** [v.insert(v.begin() + pos, x)] *)
Definition vec_insert {A} (pos : nat) (x : A) (v : list A) : result (list A) :=
  if decide (pos <= length v)%nat then Ok (take pos v ++ x :: drop pos v)
  else Err Undefined.

(** [v.erase(v.begin() + pos)] *)
Definition vec_erase {A} (pos : nat) (v : list A) : result (list A) :=
  if decide (pos < length v)%nat then Ok (delete pos v) else Err Undefined.

(** [v.resize(n)]: new elements are value-initialised. *)
Definition vec_resize {A} (dflt : A) (n : nat) (v : list A) : list A :=
  take n v ++ replicate (n - length v) dflt.

(** Index of the first element satisfying [p], scanning upwards. *)
Fixpoint find_first {A} (p : A -> bool) (l : list A) : option nat :=
  match l with
  | [] => None
  | x :: l' => if p x then Some O else S <$> find_first p l'
  end.

(** ** Readers of one delta chain *)

(** The [LEAF] case of [key_is_in]: slots [i .. i + cnt - 1]. *)
Fixpoint key_is_in_leaf (key : KeyType) (slotkey : list KeyType)
    (slotdata : list (option (list ValueType))) (deleted : DelSet)
    (i cnt : nat) : result bool :=
  match cnt with
  | O => Ok false
  | S cnt' =>
      k ← at_index slotkey i;
      if key_equal k key then
        p ← at_index slotdata i;
        vals ← deref p;
        Ok (existsb (fun val => negb (delset_count deleted val)) vals)
      else key_is_in_leaf key slotkey slotdata deleted (S i) cnt'
  end.

(** [key_is_in(key, listhead, deleted)] for a non-null [listhead]; the set
    [deleted] is passed by reference and every recursive call is a tail
    call, so it is threaded as an argument. *)
Fixpoint key_is_in_from (key : KeyType) (node : Node) (deleted : DelSet)
  : result bool :=
  match node with
  | RecordDelta _ op k v next =>
      match op with
      | INSERT =>
          if key_equal k key && negb (delset_count deleted v) then Ok true
          else key_is_in_from key next deleted
      | DELETE =>
          if key_equal k key then key_is_in_from key next ({[v]} ∪ deleted)
          else key_is_in_from key next deleted
      | UPDATE => key_is_in_from key next deleted
      end
  | LeafNode h slotkey slotdata =>
      key_is_in_leaf key slotkey slotdata deleted 0 (Z.to_nat (slotuse h))
  | MergeDelta _ Kp orignal_node next =>
      if key_greaterequal key Kp false
      then key_is_in_from key orignal_node deleted
      else key_is_in_from key next deleted
  | SplitDelta _ Kp _ next =>
      if key_greaterequal key Kp false then Err AssertFail
      else key_is_in_from key next deleted
  | _ => Ok false
  end.

(** [key_is_in(key, listhead)] *)
Definition key_is_in (key : KeyType) (listhead : option Node) : result bool :=
  match listhead with
  | None => Ok false
  | Some node => key_is_in_from key node ∅
  end.

(** The inner loop of the [LEAF] case of [count_pair] over the values of
    one slot. *)
Fixpoint count_pair_vals (value : ValueType) (vals : list ValueType)
    (deleted : DelSet) (total_count pair_count : Z) : Z * Z :=
  match vals with
  | [] => (total_count, pair_count)
  | v :: vals' =>
      if delset_count deleted v
      then count_pair_vals value vals' deleted total_count pair_count
      else count_pair_vals value vals' deleted
             (wrap_int (total_count + 1))
             (if value_equal v value then wrap_int (pair_count + 1)
              else pair_count)
  end.

Fixpoint count_pair_leaf (key : KeyType) (value : ValueType)
    (slotkey : list KeyType) (slotdata : list (option (list ValueType)))
    (deleted : DelSet) (total_count pair_count : Z) (i cnt : nat)
  : result (Z * Z) :=
  match cnt with
  | O => Ok (total_count, pair_count)
  | S cnt' =>
      k ← at_index slotkey i;
      if key_equal k key then
        p ← at_index slotdata i;
        vals ← deref p;
        Ok (count_pair_vals value vals deleted total_count pair_count)
      else count_pair_leaf key value slotkey slotdata deleted
             total_count pair_count (S i) cnt'
  end.

(** The [while (node != nullptr)] loop of [count_pair].  The [default]
    case leaves [node] unchanged, so the loop cannot exit. *)
Fixpoint count_pair_from (key : KeyType) (value : ValueType) (node : Node)
    (deleted : DelSet) (total_count pair_count : Z) : result (Z * Z) :=
  match node with
  | RecordDelta _ op k v next =>
      match op with
      | INSERT =>
          if key_equal k key && negb (delset_count deleted v)
          then count_pair_from key value next deleted
                 (wrap_int (total_count + 1))
                 (if value_equal v value then wrap_int (pair_count + 1)
                  else pair_count)
          else count_pair_from key value next deleted total_count pair_count
      | DELETE =>
          if key_equal k key
          then count_pair_from key value next ({[v]} ∪ deleted)
                 total_count pair_count
          else count_pair_from key value next deleted total_count pair_count
      | UPDATE => count_pair_from key value next deleted total_count pair_count
      end
  | LeafNode h slotkey slotdata =>
      count_pair_leaf key value slotkey slotdata deleted
        total_count pair_count 0 (Z.to_nat (slotuse h))
  | MergeDelta _ Kp orignal_node next =>
      if key_greaterequal key Kp false
      then count_pair_from key value orignal_node deleted
             total_count pair_count
      else count_pair_from key value next deleted total_count pair_count
  | SplitDelta _ Kp _ next =>
      if key_greaterequal key Kp false then Err AssertFail
      else count_pair_from key value next deleted total_count pair_count
  | _ => Err Diverges
  end.

(** [count_pair(key, value, listhead)]: (number of visible values of the
    key, number of those equal to [value]). *)
Definition count_pair (key : KeyType) (value : ValueType)
    (listhead : option Node) : result (Z * Z) :=
  match listhead with
  | None => Ok (0, 0)
  | Some node => count_pair_from key value node ∅ 0 0
  end.

(** ** The consolidation helpers *)

(** The nodes of a chain from its head down to its base node. *)
Fixpoint chain_to_base (n : Node) : list Node :=
  n :: match n with
       | LeafNode _ _ _ | InnerNode _ _ _ => []
       | RecordDelta _ _ _ _ nx | SplitDelta _ _ _ nx
       | IndexEntryDelta _ _ _ _ _ nx | RemoveDelta _ nx
       | MergeDelta _ _ _ nx => chain_to_base nx
       end.

(** The stack [delta_chain] after the pushing loop, top first: the base
    node, then the deltas from the oldest to the head. *)
Definition delta_chain (new_delta : Node) : list Node :=
  reverse (chain_to_base new_delta).

(** Copying slots [i .. i + cnt - 1] of the base leaf. *)
Fixpoint copy_leaf_base (slotkey : list KeyType)
    (slotdata : list (option (list ValueType))) (i cnt : nat)
    (tmpkeys : list KeyType) (tmpvals : list (list ValueType))
  : result (list KeyType * list (list ValueType)) :=
  match cnt with
  | O => Ok (tmpkeys, tmpvals)
  | S cnt' =>
      k ← at_index slotkey i;
      p ← at_index slotdata i;
      vals ← deref p;
      copy_leaf_base slotkey slotdata (S i) cnt'
                     (tmpkeys ++ [k]) (tmpvals ++ [vals])
  end.

(** The downward scan that finds where a new key goes: one past the last
    key that is not greater than [key], or 0. *)
Definition target_pos (key : KeyType) (tmpkeys : list KeyType) : nat :=
  match find_first (fun k => key_greaterequal key k false) (reverse tmpkeys) with
  | Some j => (length tmpkeys - j)%nat
  | None => O
  end.

(** The erasing loop of a DELETE record: every copy of the value goes. *)
Definition erase_value (value : ValueType) (vals : list ValueType)
  : list ValueType :=
  List.filter (fun w => negb (ItemPointerEqualityChecker w value)) vals.

Definition leaf_apply_insert (rh : NodeHdr) (key : KeyType) (value : ValueType)
    (tmpkeys : list KeyType) (tmpvals : list (list ValueType))
  : result (list KeyType * list (list ValueType)) :=
  match find_first (fun k => key_equal k key) tmpkeys with
  | Some x =>
      vals ← at_index tmpvals x;
      Ok (tmpkeys, <[x := vals ++ [value]]> tmpvals)
  | None =>
      '(ks, vs) ←
        (if slotuse rh =? 0
         then Ok (tmpkeys ++ [key], tmpvals ++ [[value]])
         else
           let pos := target_pos key tmpkeys in
           ks ← vec_insert pos key tmpkeys;
           vs ← vec_insert pos [value] tmpvals;
           Ok (ks, vs));
      if Z.of_nat (length vs) =? slotuse rh then Ok (ks, vs)
      else Err AssertFail
  end.

Definition leaf_apply_delete (rh : NodeHdr) (key : KeyType) (value : ValueType)
    (tmpkeys : list KeyType) (tmpvals : list (list ValueType))
  : result (list KeyType * list (list ValueType)) :=
  '(ks, vs) ←
    match find_first (fun k => key_equal k key) tmpkeys with
    | Some x =>
        vals ← at_index tmpvals x;
        let vals' := erase_value value vals in
        let tmpvals' := <[x := vals']> tmpvals in
        if bool_decide (length vals' = O)
        then
          ks ← vec_erase x tmpkeys;
          vs ← vec_erase x tmpvals';
          Ok (ks, vs)
        else Ok (tmpkeys, tmpvals')
    | None => Ok (tmpkeys, tmpvals)
    end;
  if Z.of_nat (length vs) =? slotuse rh then Ok (ks, vs)
  else Err AssertFail.

(** One delta of a leaf chain folded into the working vectors. *)
Definition leaf_apply_delta (cur_delta : Node)
    (acc : list KeyType * list (list ValueType))
  : result (list KeyType * list (list ValueType)) :=
  let '(tmpkeys, tmpvals) := acc in
  match cur_delta with
  | RecordDelta rh INSERT k v _ => leaf_apply_insert rh k v tmpkeys tmpvals
  | RecordDelta rh DELETE k v _ => leaf_apply_delete rh k v tmpkeys tmpvals
  | SplitDelta _ Kp _ _ =>
      match find_first (fun k => key_greaterequal k Kp false) tmpkeys with
      | Some i => Ok (vec_resize waste i tmpkeys, vec_resize [] i tmpvals)
      | None => Ok acc
      end
  | _ => Ok acc
  end.

Fixpoint fold_deltas {A} (step : Node -> A -> result A) (deltas : list Node)
    (acc : A) : result A :=
  match deltas with
  | [] => Ok acc
  | d :: deltas' => acc' ← step d acc; fold_deltas step deltas' acc'
  end.

(** [leaf_fake_consolidate(new_delta)]: the keys and values of the chain,
    without installing anything. *)
Definition leaf_fake_consolidate (new_delta : Node)
  : result (list KeyType * list (list ValueType)) :=
  match delta_chain new_delta with
  | LeafNode h slotkey slotdata :: deltas =>
      base ← copy_leaf_base slotkey slotdata 0 (Z.to_nat (slotuse h)) [] [];
      fold_deltas leaf_apply_delta deltas base
  | _ => Err AssertFail
  end.

Fixpoint copy_inner_base (slotkey : list KeyType)
    (childid : list (option PidType)) (i cnt : nat)
    (tmpkeys : list KeyType) (tmpchilds : list PidType)
  : result (list KeyType * list PidType) :=
  match cnt with
  | O => Ok (tmpkeys, tmpchilds)
  | S cnt' =>
      k ← at_index slotkey i;
      p ← at_index childid i;
      c ← deref p;
      copy_inner_base slotkey childid (S i) cnt'
                      (tmpkeys ++ [k]) (tmpchilds ++ [c])
  end.

Definition inner_apply_delta (cur_delta : Node)
    (acc : list KeyType * list PidType) : result (list KeyType * list PidType) :=
  let '(tmpkeys, tmpchilds) := acc in
  match cur_delta with
  | IndexEntryDelta _ Kp _ _ pQ _ =>
      let pos :=
        match find_first (fun k => key_less Kp k false) tmpkeys with
        | Some pos => pos
        | None => length tmpkeys
        end in
      ks ← vec_insert pos Kp tmpkeys;
      cs ← vec_insert (pos + 1) pQ tmpchilds;
      Ok (ks, cs)
  | SplitDelta _ Kp _ _ =>
      match find_first (fun k => key_greaterequal k Kp false) tmpkeys with
      | Some i => Ok (vec_resize waste i tmpkeys, vec_resize 0 (i + 1) tmpchilds)
      | None => Ok acc
      end
  | _ => Ok acc
  end.

(** [inner_fake_consolidate(new_delta)] *)
Definition inner_fake_consolidate (new_delta : Node)
  : result (list KeyType * list PidType) :=
  match delta_chain new_delta with
  | InnerNode h slotkey childid :: deltas =>
      '(ks, cs) ← copy_inner_base slotkey childid 0 (Z.to_nat (slotuse h)) [] [];
      p ← at_index childid (Z.to_nat (slotuse h));
      c ← deref p;
      fold_deltas inner_apply_delta deltas (ks, cs ++ [c])
  | _ => Err AssertFail
  end.

(** ** The mapping table *)

(** [unsigned long] arithmetic ([nextPid]). *)
Definition ulong (z : Z) : Z := z mod 18446744073709551616.

Record MappingTable : Type := mkMappingTable {
  mappingtable_1 : list (option (list (option Node)));
  nextPid : Z;
}.

Definition MappingTable_ctor : MappingTable :=
  mkMappingTable (replicate (Z.to_nat MAPPING_TABLE_SIZE) None) 0.

(** Array subscript with a signed index. *)
Definition at_idx {A} (l : list A) (i : Z) : result A :=
  if i <? 0 then Err Undefined else at_index l (Z.to_nat i).

(** Two [Node*] compare equal when both are null or both hold the same
    address. *)
Definition ptr_eq (p q : option Node) : bool :=
  match p, q with
  | None, None => true
  | Some a, Some b => addr (hdr_of a) =? addr (hdr_of b)
  | _, _ => false
  end.

(** [MappingTable::get] *)
Definition mt_get (mt : MappingTable) (pid : PidType) : result (option Node) :=
  if pid =? NULL_PID then Ok None
  else
    blk ← at_idx (mappingtable_1 mt) (GET_TIER1_INDEX pid);
    match blk with
    | None => Ok None
    | Some b => at_idx b (GET_TIER2_INDEX pid)
    end.

(** What [set] and [add] do to the node they are given before touching
    the table: [addr->pid = pid]. *)
Definition assign_pid (pid : PidType) (node : Node) : Node :=
  with_hdr (set_pid pid) node.

(** [MappingTable::set]: compare-and-swap of one slot. *)
Definition mt_set (mt : MappingTable) (pid : PidType)
    (expected addr_ : option Node) : result (bool * MappingTable) :=
  let addr_ := assign_pid pid <$> addr_ in
  blk ← at_idx (mappingtable_1 mt) (GET_TIER1_INDEX pid);
  match blk with
  | None => Ok (false, mt)
  | Some b =>
      cur ← at_idx b (GET_TIER2_INDEX pid);
      if ptr_eq cur expected
      then Ok (true,
               mkMappingTable
                 (<[Z.to_nat (GET_TIER1_INDEX pid) :=
                      Some (<[Z.to_nat (GET_TIER2_INDEX pid) := addr_]> b)]>
                    (mappingtable_1 mt))
                 (nextPid mt))
      else Ok (false, mt)
  end.

(** [MappingTable::add]: both compare-and-swaps re-read the word they
    swap, so in one thread they succeed. *)
Definition mt_add (mt : MappingTable) (addr_ : option Node)
  : result (PidType * MappingTable) :=
  let new_pid := nextPid mt in
  let addr_ := assign_pid new_pid <$> addr_ in
  blk ← at_idx (mappingtable_1 mt) (GET_TIER1_INDEX new_pid);
  let b := match blk with
           | None => replicate (Z.to_nat MAPPING_TABLE_SIZE) None
           | Some b => b
           end in
  _ ← at_idx b (GET_TIER2_INDEX new_pid);
  Ok (new_pid,
      mkMappingTable
        (<[Z.to_nat (GET_TIER1_INDEX new_pid) :=
             Some (<[Z.to_nat (GET_TIER2_INDEX new_pid) := addr_]> b)]>
           (mappingtable_1 mt))
        (ulong (new_pid + 1))).

(** [MappingTable::remove] *)
Definition mt_remove (mt : MappingTable) (pid : PidType) : result MappingTable :=
  blk ← at_idx (mappingtable_1 mt) (GET_TIER1_INDEX pid);
  b ← deref blk;
  _ ← at_idx b (GET_TIER2_INDEX pid);
  Ok (mkMappingTable
        (<[Z.to_nat (GET_TIER1_INDEX pid) :=
             Some (<[Z.to_nat (GET_TIER2_INDEX pid) := None]> b)]>
           (mappingtable_1 mt))
        (nextPid mt)).

(** ** The tree *)

(** The data members of [BWTree] that change, and [brk], the next
    address [new] hands out. *)
Record BWTreeState : Type := mkBWTree {
  root : PidType;
  mapping_table : MappingTable;
  garbage_table : MappingTable;
  headleaf : PidType;
  brk : Z;
}.

(** ** Traversal *)

(** [std::stack<PidType>]: the head of the list is the top. *)
Definition stack_top {A} (s : list A) : result A :=
  match s with
  | x :: _ => Ok x
  | [] => Err Undefined
  end.

Definition stack_pop {A} (s : list A) : result (list A) :=
  match s with
  | _ :: s' => Ok s'
  | [] => Err Undefined
  end.

(** The [for] loop of the [INNER] case of [search]: the first slot
    [i < slotuse] whose separator is greater than the key, or [slotuse]. *)
Fixpoint inner_child_index (key : KeyType) (slotkey : list KeyType)
    (i cnt : nat) : result nat :=
  match cnt with
  | O => Ok i
  | S cnt' =>
      k ← at_index slotkey i;
      if key_less key k false then Ok i
      else inner_child_index key slotkey (S i) cnt'
  end.

(** [search(Node*, key, path)]: the result is the returned PID ([-1] on
    failure) and the path, which the source updates in place. *)
Fixpoint search_node (fuel : nat) (t : BWTreeState) (node : Node)
    (key : KeyType) (path : list PidType) : result (PidType * list PidType) :=
  match fuel with
  | O => Err OutOfFuel
  | S fuel =>
      match node with
      | LeafNode h _ _ | RecordDelta h _ _ _ _ =>
          p ← deref (pid h); Ok (p, path)
      | IndexEntryDelta _ Kp Kq inf_Kq pQ next =>
          if key_greaterequal key Kp false && key_less key Kq inf_Kq then
            n ← mt_get (mapping_table t) pQ;
            match n with
            | None => Ok (-1, path)
            | Some n => search_node fuel t n key (pQ :: path)
            end
          else search_node fuel t next key path
      | RemoveDelta _ _ =>
          path ← stack_pop path;
          match path with
          | [] => Ok (-1, path)
          | p :: _ =>
              n ← mt_get (mapping_table t) p;
              match n with
              | None => Ok (-1, path)
              | Some n => search_node fuel t n key path
              end
          end
      | MergeDelta _ Kp orignal_node next =>
          if key_greaterequal key Kp false
          then search_node fuel t orignal_node key path
          else search_node fuel t next key path
      | SplitDelta _ Kp pQ next =>
          if key_greaterequal key Kp false then
            n ← mt_get (mapping_table t) pQ;
            match n with
            | None => Ok (-1, path)
            | Some n =>
                path ← stack_pop path;
                search_node fuel t n key (pQ :: path)
            end
          else search_node fuel t next key path
      | InnerNode h slotkey childid =>
          if slotuse h =? 0 then
            c ← at_index childid 0;
            p ← deref c;
            if p =? NULL_PID then Ok (-1, path)
            else
              n ← mt_get (mapping_table t) p;
              match n with
              | None => Ok (-1, p :: path)
              | Some n => search_node fuel t n key (p :: path)
              end
          else
            i ← inner_child_index key slotkey 0 (Z.to_nat (slotuse h));
            c ← at_index childid i;
            p ← deref c;
            n ← mt_get (mapping_table t) p;
            match n with
            | None => Ok (-1, path)
            | Some n => search_node fuel t n key (p :: path)
            end
      end
  end.

(** [search(pid, key)]: the path of PIDs from [pid] down to the leaf of
    the key, top of the stack first; empty on failure. *)
Definition search (fuel : nat) (t : BWTreeState) (pid_ : PidType)
    (key : KeyType) : result (list PidType) :=
  n ← mt_get (mapping_table t) pid_;
  match n with
  | None => Ok []
  | Some node =>
      '(res, path) ← search_node fuel t node key [pid_];
      if res =? -1 then Ok [] else Ok path
  end.

(** ** Point read *)

(** The [LEAF] case of [get_value]: every slot with an equal key
    contributes (the loop does not stop at the first one). *)
Fixpoint get_value_vals (vals : list ValueType) (delset : DelSet)
    (result_ : list ValueType) : list ValueType :=
  match vals with
  | [] => result_
  | v :: vals' =>
      get_value_vals vals' delset
        (if delset_count delset v then result_ else result_ ++ [v])
  end.

Fixpoint get_value_leaf (key : KeyType) (slotkey : list KeyType)
    (slotdata : list (option (list ValueType))) (delset : DelSet)
    (i cnt : nat) (result_ : list ValueType) : result (list ValueType) :=
  match cnt with
  | O => Ok result_
  | S cnt' =>
      k ← at_index slotkey i;
      if key_equal k key then
        p ← at_index slotdata i;
        vals ← deref p;
        get_value_leaf key slotkey slotdata delset (S i) cnt'
                       (get_value_vals vals delset result_)
      else get_value_leaf key slotkey slotdata delset (S i) cnt' result_
  end.

(** The [while (next)] loop of [get_value].  [restart] is the recursive
    call [get_value(key, result)] made on a remove delta; after it the
    loop meets the same node again, as it does in the [default] case. *)
Fixpoint get_value_loop (restart : list ValueType -> result (list ValueType))
    (fuel : nat) (t : BWTreeState) (key : KeyType) (next : option Node)
    (delset : DelSet) (result_ : list ValueType) : result (list ValueType) :=
  match fuel with
  | O => Err OutOfFuel
  | S fuel =>
      match next with
      | None => Ok result_
      | Some (RecordDelta _ op k v nx) =>
          if key_equal k key then
            match op with
            | INSERT =>
                get_value_loop restart fuel t key (Some nx) delset
                  (if delset_count delset v then result_ else result_ ++ [v])
            | DELETE =>
                get_value_loop restart fuel t key (Some nx)
                  ({[v]} ∪ delset) result_
            | UPDATE => get_value_loop restart fuel t key (Some nx) delset result_
            end
          else get_value_loop restart fuel t key (Some nx) delset result_
      | Some (LeafNode h slotkey slotdata) =>
          r ← get_value_leaf key slotkey slotdata delset 0
                (Z.to_nat (slotuse h)) result_;
          get_value_loop restart fuel t key None delset r
      | Some (SplitDelta _ Kp pQ nx) =>
          if key_greaterequal key Kp false then
            n ← mt_get (mapping_table t) pQ;
            get_value_loop restart fuel t key n delset result_
          else get_value_loop restart fuel t key (Some nx) delset result_
      | Some (MergeDelta _ Kp orignal_node nx) =>
          if key_greaterequal key Kp false
          then get_value_loop restart fuel t key (Some orignal_node) delset result_
          else get_value_loop restart fuel t key (Some nx) delset result_
      | Some (RemoveDelta _ _) =>
          _ ← restart [];
          Err Diverges
      | Some (InnerNode _ _ _) | Some (IndexEntryDelta _ _ _ _ _ _) =>
          Err Diverges
      end
  end.

(** [get_value(key, result)]: appends to [result] the values of [key]. *)
Fixpoint get_value (fuel : nat) (t : BWTreeState) (key : KeyType)
    (result_ : list ValueType) : result (list ValueType) :=
  match fuel with
  | O => Err OutOfFuel
  | S fuel =>
      path ← search fuel t (root t) key;
      target_node ← stack_top path;
      next ← mt_get (mapping_table t) target_node;
      node ← deref next;
      if negb (is_leaf (hdr_of node)) then Ok result_
      else get_value_loop (get_value fuel t key) fuel t key next ∅ result_
  end.

(** ** Writers: a state and error monad over the tree *)

Definition M (A : Type) : Type := BWTreeState -> result (A * BWTreeState).

Definition ret {A} (a : A) : M A := fun t => Ok (a, t).

Definition bind {A B} (m : M A) (k : A -> M B) : M B := fun t =>
  match m t with
  | Ok (a, t') => k a t'
  | Err e => Err e
  end.

Definition fail {A} (e : error) : M A := fun _ => Err e.

Definition lift {A} (r : result A) : M A := fun t =>
  match r with
  | Ok a => Ok (a, t)
  | Err e => Err e
  end.

Definition read {A} (f : BWTreeState -> result A) : M A := fun t => lift (f t) t.

Notation "'do' x <- m ; k" := (bind m (fun x => k))
  (at level 10, x name, m at level 100, k at level 200,
   format "'[v' 'do'  x  <-  m ; '/' k ']'").
Notation "'do' ' p <- m ; k" := (bind m (fun x => let 'p := x in k))
  (at level 10, p pattern, m at level 100, k at level 200,
   format "'[v' 'do'  ' p  <-  m ; '/' k ']'").

(** [new]: a fresh address. *)
Definition alloc : M Z := fun t =>
  Ok (brk t, mkBWTree (root t) (mapping_table t) (garbage_table t)
                      (headleaf t) (brk t + 1)).

Definition table_get (pid_ : PidType) : M (option Node) :=
  read (fun t => mt_get (mapping_table t) pid_).

Definition table_set (pid_ : PidType) (expected addr_ : option Node) : M bool :=
  fun t =>
    '(ok, mt) ← mt_set (mapping_table t) pid_ expected addr_;
    Ok (ok, mkBWTree (root t) mt (garbage_table t) (headleaf t)
                     (brk t)).

Definition table_add (addr_ : option Node) : M PidType := fun t =>
  '(p, mt) ← mt_add (mapping_table t) addr_;
  Ok (p, mkBWTree (root t) mt (garbage_table t) (headleaf t)
                  (brk t)).

Definition garbage_add (addr_ : option Node) : M PidType := fun t =>
  '(p, gt) ← mt_add (garbage_table t) addr_;
  Ok (p, mkBWTree (root t) (mapping_table t) gt (headleaf t)
                  (brk t)).

Definition set_root (r : PidType) : M unit := fun t =>
  Ok (tt, mkBWTree r (mapping_table t) (garbage_table t) (headleaf t)
                   (brk t)).

(** The constructor of [BWTree]: one empty leaf covering all keys, which
    is both the root and the head of the leaf list. *)
Definition BWTree_ctor : result BWTreeState :=
  let leaf := LeafNode_ctor 1 NULL_PID waste waste true true in
  '(newpid, mt) ← mt_add MappingTable_ctor (Some leaf);
  if 0 <=? newpid
  then Ok (mkBWTree newpid mt MappingTable_ctor newpid 2)
  else Err AssertFail.

(** ** Consolidation *)

(** [dst[j] = src[i]] for [cnt] consecutive slots, keys and data side by
    side; each data slot gets a fresh copy of the value vector. *)
Fixpoint fill_leaf (keys : list KeyType) (vals : list (list ValueType))
    (i j cnt : nat) (slotkey : list KeyType)
    (slotdata : list (option (list ValueType)))
  : result (list KeyType * list (option (list ValueType))) :=
  match cnt with
  | O => Ok (slotkey, slotdata)
  | S cnt' =>
      k ← at_index keys i;
      slotkey ← store_index slotkey j k;
      v ← at_index vals i;
      slotdata ← store_index slotdata j (Some v);
      fill_leaf keys vals (S i) (S j) cnt' slotkey slotdata
  end.

(** [slotkey[j] = keys[i]; childid[j + dj] = childs[i + di]] for [cnt]
    consecutive slots. *)
Fixpoint fill_inner (keys : list KeyType) (childs : list PidType)
    (di dj : nat) (i j cnt : nat) (slotkey : list KeyType)
    (childid : list (option PidType))
  : result (list KeyType * list (option PidType)) :=
  match cnt with
  | O => Ok (slotkey, childid)
  | S cnt' =>
      k ← at_index keys i;
      slotkey ← store_index slotkey j k;
      c ← at_index childs (i + di);
      childid ← store_index childid (j + dj) (Some c);
      fill_inner keys childs di dj (S i) (S j) cnt' slotkey childid
  end.

(** The body of one round of the [while] loop of [consolidate] up to the
    compare-and-swap: [Some node] when the new base node was installed. *)
Definition consolidate_leaf (pid_ : PidType) (orinode : Node)
  : M (option Node) :=
  let oh := hdr_of orinode in
  do a <- alloc;
  do '(keys, vals) <- lift (leaf_fake_consolidate orinode);
  if negb (length keys =? length vals)%nat
     || (leafslotmax <? Z.of_nat (length keys))
  then fail AssertFail
  else
    let h := LeafNode_hdr a (next_leafnode oh) (low_key oh) (high_key oh)
                          (inf_lowkey oh) (inf_highkey oh) in
    do '(slotkey, slotdata) <-
       lift (fill_leaf keys vals 0 0 (length keys)
                       LeafNode_slotkey LeafNode_slotdata);
    let new_leaf :=
      LeafNode (set_slotuse (ushort (Z.of_nat (length keys))) h)
               slotkey slotdata in
    do ok <- table_set pid_ (Some orinode) (Some new_leaf);
    if ok then
      do _ <- garbage_add (Some orinode);
      ret (Some (assign_pid pid_ new_leaf))
    else ret None.

Definition consolidate_inner (pid_ : PidType) (orinode : Node)
  : M (option Node) :=
  let oh := hdr_of orinode in
  do a <- alloc;
  do '(keys, childs) <- lift (inner_fake_consolidate orinode);
  if negb (Z.of_nat (length keys) =? ulong (Z.of_nat (length childs) - 1))
     || (innerslotmax <? Z.of_nat (length keys))
  then fail AssertFail
  else
    let h := InnerNode_hdr a (low_key oh) (high_key oh)
                           (inf_lowkey oh) (inf_highkey oh) in
    do '(slotkey, childid) <-
       lift (fill_inner keys childs 0 0 0 0 (length keys)
                        InnerNode_slotkey InnerNode_childid);
    do c <- lift (at_index childs (length keys));
    do childid <- lift (store_index childid (length keys) (Some c));
    let new_inner :=
      InnerNode (set_slotuse (ushort (Z.of_nat (length keys))) h)
                slotkey childid in
    do ok <- table_set pid_ (Some orinode) (Some new_inner);
    if ok then
      do _ <- garbage_add (Some orinode);
      ret (Some (assign_pid pid_ new_inner))
    else ret None.

Fixpoint consolidate_loop (fuel : nat) (pid_ : PidType) (orinode : Node)
  : M (option Node) :=
  match fuel with
  | O => fail OutOfFuel
  | S fuel =>
      if MAX_DELTA_CHAIN_LEN <? delta_list_len (hdr_of orinode) then
        do installed <-
           (if is_leaf (hdr_of orinode) then consolidate_leaf pid_ orinode
            else consolidate_inner pid_ orinode);
        match installed with
        | Some node => ret (Some node)
        | None =>
            do p <- table_get pid_;
            do orinode <- lift (deref p);
            if need_split (hdr_of orinode) then ret None
            else consolidate_loop fuel pid_ orinode
        end
      else ret (Some orinode)
  end.

(** [consolidate(pid)]: the head of the page afterwards, or null. *)
Definition consolidate (fuel : nat) (pid_ : PidType) : M (option Node) :=
  do p <- table_get pid_;
  do orinode <- lift (deref p);
  if need_split (hdr_of orinode) then fail AssertFail
  else consolidate_loop fuel pid_ orinode.

(** ** Split *)

(** [create_leaf(check_split_node, &pivotal)]: the new right sibling of a
    leaf; the result is its PID and the pivot. *)
Definition create_leaf (check_split_node : Node) : M (PidType * KeyType) :=
  let ch := hdr_of check_split_node in
  do a <- alloc;
  let h := LeafNode_hdr a (next_leafnode ch) waste (high_key ch) false
                        (inf_highkey ch) in
  do '(keys, vals) <- lift (leaf_fake_consolidate check_split_node);
  let orisize := slotuse ch in
  do '(slotkey, slotdata) <-
     lift (fill_leaf keys vals (Z.to_nat (orisize / 2)) 0
                     (Z.to_nat (orisize - orisize / 2))
                     LeafNode_slotkey LeafNode_slotdata);
  do k0 <- lift (at_index slotkey 0);
  let h := set_slotuse (ushort ((orisize + 1) / 2)) (set_low_key k0 h) in
  do new_leaf_pid <- table_add (Some (LeafNode h slotkey slotdata));
  if new_leaf_pid =? NULL_PID then fail AssertFail
  else ret (new_leaf_pid, k0).

(** [create_inner(check_split_node, &pivotal)] *)
Definition create_inner (check_split_node : Node) : M (PidType * KeyType) :=
  let ch := hdr_of check_split_node in
  do a <- alloc;
  let h := InnerNode_hdr a waste (high_key ch) false (inf_highkey ch) in
  do '(keys, childs) <- lift (inner_fake_consolidate check_split_node);
  let orisize := slotuse ch in
  do childid <- lift (store_index InnerNode_childid 0 (Some NULL_PID));
  do '(slotkey, childid) <-
     lift (fill_inner keys childs 1 1 (Z.to_nat (orisize / 2)) 0
                      (Z.to_nat (orisize - orisize / 2))
                      InnerNode_slotkey childid);
  do k0 <- lift (at_index slotkey 0);
  let h := set_slotuse (ushort ((orisize + 1) / 2)) (set_low_key k0 h) in
  do new_inner_pid <- table_add (Some (InnerNode h slotkey childid));
  if new_inner_pid =? NULL_PID then fail AssertFail
  else ret (new_inner_pid, k0).

(** The compare-and-swap loop at the end of [create_root]: a failed
    exchange loads the current root into [cur_root]; [assert(i++ < 5)]. *)
Fixpoint create_root_cas (fuel : nat) (i : Z) (cur_root new_root_pid : PidType)
  : M unit :=
  match fuel with
  | O => fail OutOfFuel
  | S fuel =>
      do r <- read (fun t => Ok (root t));
      if r =? cur_root then set_root new_root_pid
      else if i <? 5 then create_root_cas fuel (i + 1) r new_root_pid
      else fail AssertFail
  end.

(** [create_root(cur_root, new_node_pid, pivotal)] *)
Definition create_root (cur_root new_node_pid : PidType) (pivotal : KeyType)
  : M unit :=
  do a <- alloc;
  let h := set_slotuse 1 (InnerNode_hdr a waste waste true true) in
  do slotkey <- lift (store_index InnerNode_slotkey 0 pivotal);
  do childid <- lift (store_index InnerNode_childid 0 (Some cur_root));
  do childid <- lift (store_index childid 1 (Some new_node_pid));
  do new_root_pid <- table_add (Some (InnerNode h slotkey childid));
  if new_root_pid =? NULL_PID then fail AssertFail
  else
    do _ <- set_root new_root_pid;
    create_root_cas 7 0 cur_root new_root_pid.

(** The [for] loop of [find_parent], from the last visited node to the
    first: each must be the top of the fresh path, and is popped. *)
Fixpoint pop_visited (visited_rev : list PidType) (path : list PidType)
  : result (list PidType) :=
  match visited_rev with
  | [] => Ok path
  | v :: rest =>
      top ← stack_top path;
      if v =? top then path ← stack_pop path; pop_visited rest path
      else Err AssertFail
  end.

Fixpoint find_parent_loop (fuel : nat) (key : KeyType) (path : list PidType)
    (visited_nodes : list PidType) (parent_node : Node)
  : M (Node * list PidType) :=
  match fuel with
  | O => fail OutOfFuel
  | S fuel =>
      if negb (key_in_node key (hdr_of parent_node)) then
        do r <- read (fun t => Ok (root t));
        do path <- read (fun t => search fuel t r key);
        do path <- lift (pop_visited (reverse visited_nodes) path);
        do parent_pid <- lift (stack_top path);
        do p <- table_get parent_pid;
        do parent_node <- lift (deref p);
        find_parent_loop fuel key path visited_nodes parent_node
      else ret (parent_node, path)
  end.

(** [find_parent(key, path, visited_nodes)]: the parent found and the
    path, which is updated in place. *)
Definition find_parent (fuel : nat) (key : KeyType) (path : list PidType)
    (visited_nodes : list PidType) : M (Node * list PidType) :=
  do parent_pid <- lift (stack_top path);
  do p <- table_get parent_pid;
  do parent_node <- lift (deref p);
  find_parent_loop fuel key path visited_nodes parent_node.

(** Step 3 of [split]: the [while (redo)] loop that puts the index entry
    delta on the parent.  The result is the parent's PID and the path. *)
Fixpoint split_index_entry (fuel : nat) (key : KeyType) (path : list PidType)
    (visited_nodes : list PidType) (Kp : KeyType) (pQ : PidType)
    (new_node : Node) : M (PidType * list PidType) :=
  match fuel with
  | O => fail OutOfFuel
  | S fuel =>
      do '(check_split_node, path) <- find_parent fuel key path visited_nodes;
      let ch := hdr_of check_split_node in
      do check_split_pid <- lift (deref (pid ch));
      do a <- alloc;
      let new_indexEntryDelta :=
        IndexEntryDelta_ctor a check_split_node Kp
          (high_key (hdr_of new_node)) (inf_highkey (hdr_of new_node)) pQ
          (next_leafnode ch) (low_key ch) (high_key ch)
          (inf_lowkey ch) (inf_highkey ch) in
      do ok <- table_set check_split_pid (Some check_split_node)
                         (Some new_indexEntryDelta);
      if ok then
        do path <- lift (stack_pop path);
        ret (check_split_pid, path)
      else
        do _ <- table_get check_split_pid;
        split_index_entry fuel key path visited_nodes Kp pQ new_node
  end.

(** Step 1 of the body of the loop of [split]: the new right sibling is
    created and the split delta is put on the page by compare-and-swap.
    The result is whether the exchange succeeded, the PID of the sibling,
    the pivot and the sibling node. *)
Definition split_step1 (check_split_pid : PidType) (csn : Node)
  : M (bool * PidType * KeyType * Node) :=
  let ch := hdr_of csn in
  do '(new_node_pid, pivotal) <-
     (if is_leaf ch then create_leaf csn else create_inner csn);
  do p <- table_get new_node_pid;
  do new_node <- lift (deref p);
  do a <- alloc;
  let new_split :=
    SplitDelta_ctor a csn pivotal new_node_pid new_node_pid
      (low_key ch) (low_key (hdr_of new_node)) (inf_lowkey ch) false in
  do ok <- table_set check_split_pid (Some csn) (Some new_split);
  ret (ok, new_node_pid, pivotal, new_node).

(** The [while (check_split_node->need_split())] loop of [split]. *)
Fixpoint split_loop (fuel : nat) (key : KeyType) (path : list PidType)
    (visited_nodes : list PidType) (check_split_pid : PidType)
    (check_split_node : option Node) : M unit :=
  match fuel with
  | O => fail OutOfFuel
  | S fuel =>
      do csn <- lift (deref check_split_node);
      let ch := hdr_of csn in
      if need_split ch then
        do '(ok, new_node_pid, pivotal, new_node) <-
           split_step1 check_split_pid csn;
        if negb ok then
          do old_ptr <- table_get new_node_pid;
          do ok' <- table_set new_node_pid old_ptr None;
          if negb ok' then fail AssertFail
          else
            do p <- table_get check_split_pid;
            split_loop fuel key path visited_nodes check_split_pid p
        else
          let visited_nodes :=
            visited_nodes ++
              [if key_greaterequal key pivotal false then new_node_pid
               else check_split_pid] in
          do _ <- consolidate fuel check_split_pid;
          match path with
          | [] => create_root check_split_pid new_node_pid pivotal
          | _ :: _ =>
              do '(check_split_pid, path) <-
                 split_index_entry fuel key path visited_nodes
                                   pivotal new_node_pid new_node;
              do p <- table_get check_split_pid;
              do csn <- lift (deref p);
              if negb (need_split (hdr_of csn)) then
                do _ <- consolidate fuel check_split_pid;
                ret tt
              else split_loop fuel key path visited_nodes check_split_pid p
          end
      else ret tt
  end.

(** [split(key)] *)
Definition split (fuel : nat) (key : KeyType) : M unit :=
  do r <- read (fun t => Ok (root t));
  do path <- read (fun t => search fuel t r key);
  do check_split_pid <- lift (stack_top path);
  do path <- lift (stack_pop path);
  do p <- table_get check_split_pid;
  split_loop fuel key path [] check_split_pid p.

(** ** Insert and delete *)

(** Steps 1 and 2 of the loop body, the same in [insert_entry] and
    [delete_entry]: split if necessary, search again, and consolidate the
    page found.  The result is the PID of the page and the head
    [consolidate] returned. *)
Definition locate_leaf (fuel : nat) (key : KeyType)
  : M (PidType * option Node) :=
  do _ <- split fuel key;
  do r <- read (fun t => Ok (root t));
  do path <- read (fun t => search fuel t r key);
  do basic_pid <- lift (stack_top path);
  do basic_node <- consolidate fuel basic_pid;
  ret (basic_pid, basic_node).

(** The record delta [insert_entry] builds on [basic_node]. *)
Definition insert_delta (a : Z) (basic_pid : PidType) (bn : Node)
    (key : KeyType) (value : ValueType) (key_dup : bool) : Node :=
  let bh := hdr_of bn in
  let new_delta :=
    RecordDelta_ctor a bn INSERT key value (next_leafnode bh)
      (low_key bh) (high_key bh) (inf_lowkey bh) (inf_highkey bh) in
  let new_delta := assign_pid basic_pid new_delta in
  let new_delta :=
    if negb key_dup
    then with_hdr (set_slotuse (ushort (slotuse bh + 1))) new_delta
    else new_delta in
  with_hdr (set_low_key (low_key bh))
           (with_hdr (set_high_key (high_key bh)) new_delta).

(** [insert_entry(key, value)] *)
Fixpoint insert_entry (fuel : nat) (key : KeyType) (value : ValueType)
  : M bool :=
  match fuel with
  | O => fail OutOfFuel
  | S fuel =>
      do '(basic_pid, basic_node) <- locate_leaf fuel key;
      match basic_node with
      | None => insert_entry fuel key value
      | Some bn =>
          if negb (key_in_node key (hdr_of bn)) then insert_entry fuel key value
          else
            do key_dup <- lift (key_is_in key (Some bn));
            if HasUniqueKeys && key_dup then ret false
            else
              do a <- alloc;
              let new_delta := insert_delta a basic_pid bn key value key_dup in
              do ok <- table_set basic_pid (Some bn) (Some new_delta);
              if ok then ret true
              else insert_entry fuel key value
      end
  end.

(** [append_delete(basic_node, key, value, deletekey)] *)
Definition append_delete (basic_node : Node) (key : KeyType)
    (value : ValueType) (deletekey : bool) : M bool :=
  let bh := hdr_of basic_node in
  do a <- alloc;
  let new_delta :=
    RecordDelta_ctor a basic_node DELETE key value (next_leafnode bh)
      (low_key bh) (high_key bh) (inf_lowkey bh) (inf_highkey bh) in
  let new_delta :=
    if deletekey
    then with_hdr (fun h => set_slotuse (ushort (slotuse h - 1)) h) new_delta
    else new_delta in
  do p <- lift (deref (pid bh));
  table_set p (Some basic_node) (Some new_delta).

(** [delete_entry(key, value)] *)
Fixpoint delete_entry (fuel : nat) (key : KeyType) (value : ValueType)
  : M bool :=
  match fuel with
  | O => fail OutOfFuel
  | S fuel =>
      do '(basic_pid, basic_node) <- locate_leaf fuel key;
      do bn <- lift (deref basic_node);
      if negb (key_in_node key (hdr_of bn)) then delete_entry fuel key value
      else
        do tv_count_pair <- lift (count_pair key value (Some bn));
        if tv_count_pair.2 =? 0 then ret false
        else if tv_count_pair.1 <? tv_count_pair.2 then fail AssertFail
        else
          let deletekey := tv_count_pair.2 =? tv_count_pair.1 in
          do ok <- append_delete bn key value deletekey;
          if ok then ret true
          else delete_entry fuel key value
  end.

(** ** Scans *)

(** The loop of [scan]: one leaf after the other along [next_leafnode]. *)
Fixpoint scan_loop (fuel : nat) (t : BWTreeState) (node : option Node)
    (keys_result : list KeyType) (values_result : list (list ValueType))
  : result (list KeyType * list (list ValueType)) :=
  match fuel with
  | O => Err OutOfFuel
  | S fuel =>
      match node with
      | None => Ok (keys_result, values_result)
      | Some n =>
          '(keys, values) ← leaf_fake_consolidate n;
          nx ← mt_get (mapping_table t) (next_leafnode (hdr_of n));
          scan_loop fuel t nx (keys_result ++ keys) (values_result ++ values)
      end
  end.

(** [scan(keys_result, values_result)] *)
Definition scan (fuel : nat) (t : BWTreeState) (keys_result : list KeyType)
    (values_result : list (list ValueType))
  : result (list KeyType * list (list ValueType)) :=
  node ← mt_get (mapping_table t) (headleaf t);
  scan_loop fuel t node keys_result values_result.

Fixpoint scan_all_loop (fuel : nat) (t : BWTreeState) (node : option Node)
    (v : list ValueType) : result (list ValueType) :=
  match fuel with
  | O => Err OutOfFuel
  | S fuel =>
      match node with
      | None => Ok v
      | Some n =>
          all_key_value_pair ← leaf_fake_consolidate n;
          nx ← mt_get (mapping_table t) (next_leafnode (hdr_of n));
          scan_all_loop fuel t nx (v ++ concat all_key_value_pair.2)
      end
  end.

(** [scan_all(v)] *)
Definition scan_all (fuel : nat) (t : BWTreeState) (v : list ValueType)
  : result (list ValueType) :=
  node ← mt_get (mapping_table t) (headleaf t);
  scan_all_loop fuel t node v.

End BWTree.

Arguments NodeHdr KeyType : clear implicits.
Arguments Node KeyType : clear implicits.
Arguments MappingTable KeyType : clear implicits.
Arguments BWTreeState KeyType : clear implicits.
Arguments M KeyType A : clear implicits.

(** * What the specification says, as definitions of its own *)

Section Specification.

Context {KeyType : Type} `{KeyOps KeyType}.

(** One record delta: operation, key, value. *)
Definition record : Type := RecordType * KeyType * ValueType.

(** The used slots of a base leaf, when the arrays hold them. *)
Definition leaf_entries (h : NodeHdr KeyType) (slotkey : list KeyType)
    (slotdata : list (option (list ValueType)))
  : option (list (KeyType * list ValueType)) :=
  let n := Z.to_nat (slotuse h) in
  if decide (n <= length slotkey)%nat then
    vs ← mapM id (take n slotdata);
    if decide (length vs = n) then Some (zip (take n slotkey) vs) else None
  else None.

(** A leaf delta chain as a reader of [key] sees it: the record deltas
    from the head down, then the slots of the base leaf.  A split delta
    is passed when the key stays on this page. *)
Fixpoint leaf_chain_view (key : KeyType) (n : Node KeyType)
  : option (list record * list (KeyType * list ValueType)) :=
  match n with
  | LeafNode h slotkey slotdata =>
      es ← leaf_entries h slotkey slotdata; Some ([], es)
  | RecordDelta _ op k v nx =>
      '(recs, es) ← leaf_chain_view key nx; Some ((op, k, v) :: recs, es)
  | SplitDelta _ Kp _ nx =>
      if key_greaterequal key Kp false then None else leaf_chain_view key nx
  | _ => None
  end.

Definition deletes_of (key : KeyType) (r : record) : option ValueType :=
  match r with
  | (DELETE, k, v) => if key_equal k key then Some v else None
  | _ => None
  end.

(** The tombstone set: the values of the DELETE records for [key]. *)
Definition tombstones (key : KeyType) (recs : list record) : DelSet :=
  list_to_set (omap (deletes_of key) recs).

(** An INSERT record for [key] is visible when its value is not a
    tombstone of the records nearer the head. *)
Definition visible_records (key : KeyType) (recs : list record)
  : list ValueType :=
  concat (imap (fun i r =>
            match r with
            | (INSERT, k, v) =>
                if key_equal k key
                   && negb (bool_decide (v ∈ tombstones key (take i recs)))
                then [v] else []
            | _ => []
            end) recs).

(** A value stored for [key] in the base leaf is visible when it is not a
    tombstone. *)
Definition visible_base (key : KeyType) (tomb : DelSet)
    (es : list (KeyType * list ValueType)) : list ValueType :=
  concat ((fun e : KeyType * list ValueType =>
             if key_equal e.1 key
             then List.filter (fun v => negb (bool_decide (v ∈ tomb))) e.2
             else []) <$> es).

Definition visible_values (key : KeyType) (recs : list record)
    (es : list (KeyType * list ValueType)) : list ValueType :=
  visible_records key recs ++ visible_base key (tombstones key recs) es.

(** The number of values a chain stores: one per record delta, and those
    of the base leaf. *)
Definition slot_values (p : option (list ValueType)) : nat :=
  match p with Some vs => length vs | None => O end.

Fixpoint chain_values (n : Node KeyType) : nat :=
  match n with
  | LeafNode _ _ slotdata => sum_list (slot_values <$> slotdata)
  | InnerNode _ _ _ => O
  | RecordDelta _ _ _ _ nx => S (chain_values nx)
  | SplitDelta _ _ _ nx | IndexEntryDelta _ _ _ _ _ nx | RemoveDelta _ nx =>
      chain_values nx
  | MergeDelta _ _ o nx => (chain_values o + chain_values nx)%nat
  end.

(** The arrays of a mapping table have [MAPPING_TABLE_SIZE] entries. *)
Definition block_shape (blk : option (list (option (Node KeyType))))
  : bool :=
  match blk with
  | Some b => (length b =? Z.to_nat MAPPING_TABLE_SIZE)%nat
  | None => true
  end.

Definition mt_shape (mt : MappingTable KeyType) : bool :=
  (length (mappingtable_1 mt) =? Z.to_nat MAPPING_TABLE_SIZE)%nat
  && forallb block_shape (mappingtable_1 mt).

(** The table can name one more page. *)
Definition mt_room (mt : MappingTable KeyType) : bool :=
  (0 <=? nextPid mt) && (nextPid mt <? MAPPING_TABLE_SIZE * MAPPING_TABLE_SIZE).

(** Keys in strictly increasing order. *)
Fixpoint sorted_keys (ks : list KeyType) : bool :=
  match ks with
  | [] => true
  | k :: ks' => forallb (m_key_less k) ks' && sorted_keys ks'
  end.

Definition same_range (h h' : NodeHdr KeyType) : Prop :=
  low_key h = low_key h' /\ high_key h = high_key h' /\
  inf_lowkey h = inf_lowkey h' /\ inf_highkey h = inf_highkey h'.

(** A leaf chain as the operations build it (§3 of the specification):
    the base leaf holds its keys in order and within its key range; a
    record delta copies the range of the node below it, and an inserted
    key lies in that range; a split delta lowers the upper bound to its
    pivot. *)
Fixpoint leaf_chain_ok (n : Node KeyType) : Prop :=
  match n with
  | LeafNode h slotkey slotdata =>
      exists es, leaf_entries h slotkey slotdata = Some es /\
                 sorted_keys es.*1 = true /\
                 Forall (fun k => key_in_node k h = true) es.*1
  | RecordDelta h op k _ nx =>
      leaf_chain_ok nx /\ same_range h (hdr_of nx) /\
      (op = INSERT -> key_in_node k h = true)
  | SplitDelta h Kp _ nx =>
      leaf_chain_ok nx /\ low_key h = low_key (hdr_of nx) /\
      inf_lowkey h = inf_lowkey (hdr_of nx) /\
      high_key h = Kp /\ inf_highkey h = false
  | _ => False
  end.

(** The key/value projection of a page (§3, §4.7): keys with their values
    for a leaf, separator keys with child PIDs for an inner node. *)
Inductive projection : Type :=
| LeafProjection (keys : list KeyType) (vals : list (list ValueType))
| InnerProjection (keys : list KeyType) (childs : list PidType).

Definition projection_keys (p : projection) : list KeyType :=
  match p with
  | LeafProjection keys _ | InnerProjection keys _ => keys
  end.

Definition node_projection (n : Node KeyType) : result projection :=
  if is_leaf (hdr_of n)
  then '(ks, vs) ← leaf_fake_consolidate n; Ok (LeafProjection ks vs)
  else '(ks, cs) ← inner_fake_consolidate n; Ok (InnerProjection ks cs).

(** The descent of [search] as a step relation on (current node, path).
    [descent_step] is a move to the next delta of the chain or to the
    non-null head of another page; [null_step] is a configuration in which
    the PID to follow dereferences to null. *)
Inductive descent_step (t : BWTreeState KeyType) (key : KeyType)
  : Node KeyType * list PidType -> Node KeyType * list PidType -> Prop :=
| step_index_entry_in h Kp Kq inf_Kq pQ next path n :
    key_greaterequal key Kp false && key_less key Kq inf_Kq = true ->
    mt_get (mapping_table t) pQ = Ok (Some n) ->
    descent_step t key (IndexEntryDelta h Kp Kq inf_Kq pQ next, path)
                       (n, pQ :: path)
| step_index_entry_out h Kp Kq inf_Kq pQ next path :
    key_greaterequal key Kp false && key_less key Kq inf_Kq = false ->
    descent_step t key (IndexEntryDelta h Kp Kq inf_Kq pQ next, path)
                       (next, path)
| step_remove h next top p rest n :
    mt_get (mapping_table t) p = Ok (Some n) ->
    descent_step t key (RemoveDelta h next, top :: p :: rest) (n, p :: rest)
| step_merge_in h Kp orignal_node next path :
    key_greaterequal key Kp false = true ->
    descent_step t key (MergeDelta h Kp orignal_node next, path)
                       (orignal_node, path)
| step_merge_out h Kp orignal_node next path :
    key_greaterequal key Kp false = false ->
    descent_step t key (MergeDelta h Kp orignal_node next, path) (next, path)
| step_split_in h Kp pQ next top rest n :
    key_greaterequal key Kp false = true ->
    mt_get (mapping_table t) pQ = Ok (Some n) ->
    descent_step t key (SplitDelta h Kp pQ next, top :: rest) (n, pQ :: rest)
| step_split_out h Kp pQ next path :
    key_greaterequal key Kp false = false ->
    descent_step t key (SplitDelta h Kp pQ next, path) (next, path)
| step_inner_empty h slotkey childid path p n :
    slotuse h = 0 ->
    childid !! 0%nat = Some (Some p) ->
    mt_get (mapping_table t) p = Ok (Some n) ->
    descent_step t key (InnerNode h slotkey childid, path) (n, p :: path)
| step_inner h slotkey childid path i p n :
    slotuse h <> 0 ->
    inner_child_index key slotkey 0 (Z.to_nat (slotuse h)) = Ok i ->
    childid !! i = Some (Some p) ->
    mt_get (mapping_table t) p = Ok (Some n) ->
    descent_step t key (InnerNode h slotkey childid, path) (n, p :: path).

Inductive null_step (t : BWTreeState KeyType) (key : KeyType)
  : Node KeyType * list PidType -> Prop :=
| null_index_entry h Kp Kq inf_Kq pQ next path :
    key_greaterequal key Kp false && key_less key Kq inf_Kq = true ->
    mt_get (mapping_table t) pQ = Ok None ->
    null_step t key (IndexEntryDelta h Kp Kq inf_Kq pQ next, path)
| null_remove h next top p rest :
    mt_get (mapping_table t) p = Ok None ->
    null_step t key (RemoveDelta h next, top :: p :: rest)
| null_split h Kp pQ next path :
    key_greaterequal key Kp false = true ->
    mt_get (mapping_table t) pQ = Ok None ->
    null_step t key (SplitDelta h Kp pQ next, path)
| null_inner_empty h slotkey childid path p :
    slotuse h = 0 ->
    childid !! 0%nat = Some (Some p) ->
    mt_get (mapping_table t) p = Ok None ->
    null_step t key (InnerNode h slotkey childid, path)
| null_inner h slotkey childid path i p :
    slotuse h <> 0 ->
    inner_child_index key slotkey 0 (Z.to_nat (slotuse h)) = Ok i ->
    childid !! i = Some (Some p) ->
    mt_get (mapping_table t) p = Ok None ->
    null_step t key (InnerNode h slotkey childid, path).

(** ** The chain-length invariant *)

(** What the invariant asks of one node of a chain: a base node has
    length zero, a record, split or index-entry delta is one longer than
    its successor.  The two merge deltas are never installed. *)
Definition len_step (D : Node KeyType) : Prop :=
  match D with
  | LeafNode h _ _ | InnerNode h _ _ => delta_list_len h = 0
  | RecordDelta h _ _ _ N | SplitDelta h _ _ N
  | IndexEntryDelta h _ _ _ _ N =>
      delta_list_len h = delta_list_len (hdr_of N) + 1
  | RemoveDelta _ _ | MergeDelta _ _ _ _ => False
  end.

Definition chain_len_ok (head : Node KeyType) : Prop :=
  Forall len_step (chain_to_base head).

(** Every slot of the mapping table that holds a node holds such a
    chain. *)
Definition chains_ok (t : BWTreeState KeyType) : Prop :=
  forall i blk j head,
    mappingtable_1 (mapping_table t) !! i = Some (Some blk) ->
    blk !! j = Some (Some head) ->
    chain_len_ok head.

(** The states the public writers produce from the constructor's. *)
Inductive reachable : BWTreeState KeyType -> Prop :=
| reachable_ctor t :
    BWTree_ctor = Ok t -> reachable t
| reachable_insert fuel key value t b t' :
    reachable t ->
    insert_entry fuel key value t = Ok (b, t') ->
    reachable t'
| reachable_delete fuel key value t b t' :
    reachable t ->
    delete_entry fuel key value t = Ok (b, t') ->
    reachable t'.

Definition opt_len_ok (n : option (Node KeyType)) : Prop :=
  from_option chain_len_ok True n.

(** [m] keeps [chains_ok] and its result satisfies [Q]. *)
Definition keeps {A} (m : M KeyType A) (Q : A -> Prop) : Prop :=
  forall t a t', chains_ok t -> m t = Ok (a, t') -> chains_ok t' /\ Q a.

(** ** The leaf list (§3, invariants 1, 5 and 6) *)

(** What never changes about a page once its PID is allocated: whether it
    is a leaf page, and its lower bound. *)
Definition sig : Type := bool * bool * KeyType.

Definition sig_of (h : NodeHdr KeyType) : sig :=
  (is_leaf h, inf_lowkey h, low_key h).

(** The history a state does not record: the signature each allocated PID
    was given, and the number of addresses handed out. *)
Record ghost : Type := mkGhost {
  sigs : PidType -> option sig;
  cap : Z;
}.

Definition ghost_le (g g' : ghost) : Prop :=
  (forall p s, sigs g p = Some s -> sigs g' p = Some s) /\ cap g <= cap g'.

(** The projection of a leaf chain is defined, in strict key order and
    within the bounds of the head, no key is left without a value, and
    [slotuse] counts the keys. *)
Definition leaf_sem (n : Node KeyType) : Prop :=
  exists ks vs,
    leaf_fake_consolidate n = Ok (ks, vs) /\
    sorted_keys ks = true /\
    Forall (fun v => v <> []) vs /\
    Forall (fun k => key_in_node k (hdr_of n) = true) ks /\
    slotuse (hdr_of n) = Z.of_nat (length ks).

(** A leaf chain: record deltas (insert or delete) and split deltas over a
    base leaf, each suffix with a projection as above; a record delta has
    the range of its successor, a split delta cuts it at its pivot. *)
Fixpoint leaf_chain_good (n : Node KeyType) : Prop :=
  is_leaf (hdr_of n) = true /\ leaf_sem n /\
  match n with
  | LeafNode _ _ _ => True
  | RecordDelta h op _ _ nx =>
      leaf_chain_good nx /\ same_range h (hdr_of nx) /\ op <> UPDATE
  | SplitDelta h Kp _ nx =>
      leaf_chain_good nx /\ low_key h = low_key (hdr_of nx) /\
      inf_lowkey h = inf_lowkey (hdr_of nx) /\
      high_key h = Kp /\ inf_highkey h = false /\
      key_in_node Kp (hdr_of nx) = true
  | _ => False
  end.

(** An inner chain: index-entry and split deltas over a base inner
    node. *)
Fixpoint inner_shape (n : Node KeyType) : Prop :=
  is_leaf (hdr_of n) = false /\
  match n with
  | InnerNode _ _ _ => True
  | IndexEntryDelta _ _ _ _ _ nx | SplitDelta _ _ _ nx => inner_shape nx
  | _ => False
  end.

(** The range of a page is not empty. *)
Definition range_ok (h : NodeHdr KeyType) : Prop :=
  inf_lowkey h = false -> inf_highkey h = false ->
  m_key_less (low_key h) (high_key h) = true.

(** The right sibling of a leaf page starts where the page ends. *)
Definition link_ok (g : ghost) (h : NodeHdr KeyType) : Prop :=
  next_leafnode h = NULL_PID \/
  (inf_highkey h = false /\
   sigs g (next_leafnode h) = Some (true, false, high_key h)).

(** The keys of a page fit its slots, and under an index with unique
    keys no key has a second value. *)
Definition leaf_fit (n : Node KeyType) : Prop :=
  slotuse (hdr_of n) <= leafslotmax /\
  (HasUniqueKeys = true ->
   forall ks vs, leaf_fake_consolidate n = Ok (ks, vs) ->
                 Forall (fun v => length v = 1%nat) vs).

Definition leaf_good (g : ghost) (n : Node KeyType) : Prop :=
  leaf_chain_good n /\ range_ok (hdr_of n) /\ link_ok g (hdr_of n) /\
  Z.of_nat (chain_values n) <= cap g /\ leaf_fit n.

(** The head [n] of page [p]. *)
Definition good (g : ghost) (p : PidType) (n : Node KeyType) : Prop :=
  pid (hdr_of n) = Some p /\
  sigs g p = Some (sig_of (hdr_of n)) /\
  if is_leaf (hdr_of n) then leaf_good g n else inner_shape n.

Definition Inv (g : ghost) (t : BWTreeState KeyType) : Prop :=
  mt_shape (mapping_table t) = true /\
  (forall p n, mt_get (mapping_table t) p = Ok (Some n) -> good g p n) /\
  (forall p s, sigs g p = Some s -> 0 <= p < nextPid (mapping_table t)) /\
  0 <= nextPid (mapping_table t) <= MAPPING_TABLE_SIZE * MAPPING_TABLE_SIZE /\
  cap g = brk t /\
  (exists il lk, sigs g (headleaf t) = Some (true, il, lk)).

(** The states reached from the constructor's while fewer than [B]
    addresses have been handed out. *)
Inductive reachable_within (B : Z) : BWTreeState KeyType -> Prop :=
| within_ctor t :
    BWTree_ctor = Ok t -> reachable_within B t
| within_insert fuel key value t b t' :
    reachable_within B t ->
    insert_entry fuel key value t = Ok (b, t') ->
    brk t' <= B ->
    reachable_within B t'
| within_delete fuel key value t b t' :
    reachable_within B t ->
    delete_entry fuel key value t = Ok (b, t') ->
    brk t' <= B ->
    reachable_within B t'.

(** [m] keeps the invariant, for a history that extends the given one,
    and its result satisfies [Q] there. *)
Definition kp {A} (g : ghost) (m : M KeyType A) (Q : ghost -> A -> Prop)
  : Prop :=
  forall t a t',
    Inv g t -> m t = Ok (a, t') ->
    exists g', ghost_le g g' /\ Inv g' t' /\ Q g' a.

(** The values the projection [(ks, vs)] holds for [key]. *)
Fixpoint vals_of (key : KeyType) (ks : list KeyType)
    (vs : list (list ValueType)) : list ValueType :=
  match ks, vs with
  | k :: ks', v :: vs' => if key_equal k key then v else vals_of key ks' vs'
  | _, _ => []
  end.

(** The pages whose lower bound lies above that of [h], and how many of
    the first [N] PIDs name one. *)
Definition above (g : ghost) (h : NodeHdr KeyType) (p : PidType) : bool :=
  match sigs g p with
  | Some (true, false, k) => inf_lowkey h || m_key_less (low_key h) k
  | _ => false
  end.

Definition rank (g : ghost) (h : NodeHdr KeyType) (N : Z) : nat :=
  length (filter (fun p => above g h p = true) (seqZ 0 N)).

(** Of the values [vals], those not in the deleted set, and those among
    them equal to [value]. *)
Definition visible_count (D : DelSet) (vals : list ValueType) : Z :=
  Z.of_nat (length (List.filter (fun v => negb (delset_count D v)) vals)).

Definition visible_pairs (D : DelSet) (value : ValueType)
    (vals : list ValueType) : Z :=
  Z.of_nat (length (List.filter
                      (fun v => negb (delset_count D v) && value_equal v value)
                      vals)).

(** The number of values a projection holds. *)
Definition total_values (vs : list (list ValueType)) : nat :=
  sum_list (length <$> vs).

(** The history after one more address, and after one more page. *)
Definition ghost_alloc (g : ghost) : ghost := mkGhost (sigs g) (cap g + 1).

Definition ghost_page (g : ghost) (p : PidType) (s : sig) : ghost :=
  mkGhost (fun q => if decide (q = p) then Some s else sigs g q) (cap g).

Definition leaf_page (g : ghost) (p : PidType) : Prop :=
  exists il lk, sigs g p = Some (true, il, lk).

Definition inner_page (g : ghost) (p : PidType) : Prop :=
  exists il lk, sigs g p = Some (false, il, lk).

(** A chain of the kind [b] (leaf or inner). *)
Definition shape_ok (b : bool) (n : Node KeyType) : Prop :=
  if b then leaf_chain_good n else inner_shape n.

(** A node that may become the head of page [p]; [set] and [add] give it
    its [pid]. *)
Definition good_new (g : ghost) (p : PidType) (n : Node KeyType) : Prop :=
  sigs g p = Some (sig_of (hdr_of n)) /\
  if is_leaf (hdr_of n) then leaf_good g n else inner_shape n.

Definition opt_good (g : ghost) (p : PidType) (n : option (Node KeyType))
  : Prop :=
  from_option (good g p) True n.

(** As [kp], for a computation that allocates nothing: the history
    stays. *)
Definition kps {A} (g : ghost) (m : M KeyType A) (Q : A -> Prop) : Prop :=
  forall t a t', Inv g t -> m t = Ok (a, t') -> Inv g t' /\ Q a.

(** What [consolidate] returns: the head of the page, which needs no
    split when the page is a leaf page. *)
Definition settled (g : ghost) (p : PidType) (r : option (Node KeyType))
  : Prop :=
  from_option
    (fun n => good g p n /\
              (is_leaf (hdr_of n) = true -> need_split (hdr_of n) = false))
    True r.

(** The parent of a split page: an inner page, found on the rest of the
    path. *)
Definition parent_ok (g : ghost) (r : Node KeyType * list PidType)
  : Prop :=
  (exists p, good g p r.1) /\ is_leaf (hdr_of r.1) = false /\
  Forall (inner_page g) r.2.

End Specification.

Arguments projection KeyType : clear implicits.
Arguments ghost KeyType : clear implicits.
Arguments sig KeyType : clear implicits.

(** * A concrete instance: integer keys *)

(** Keys are integers of 64 bytes (as a generic key would be) and values
    take 8, so that a node has the minimum of 8 slots. *)
#[export] Instance ZKey : KeyOps Z := {|
  m_key_less := Z.ltb;
  m_key_equal := Z.eqb;
  HasUniqueKeys := false;
  waste := 0;
  sizeof_KeyType := 64;
  sizeof_ValueType := 8;
|}.

Definition item (n : Z) : ItemPointer := mkItemPointer n 0.

(** A sequence of operations run on a fresh tree. *)
Inductive op : Type :=
| Ins (k : Z) (v : ItemPointer)
| Del (k : Z) (v : ItemPointer).

Fixpoint run_ops (fuel : nat) (ops : list op) (t : BWTreeState Z)
  : result (BWTreeState Z) :=
  match ops with
  | [] => Ok t
  | o :: ops' =>
      '(_, t') ← match o with
                 | Ins k v => insert_entry fuel k v t
                 | Del k v => delete_entry fuel k v t
                 end;
      run_ops fuel ops' t'
  end.

Definition tree_of (ops : list op) : result (BWTreeState Z) :=
  t ← BWTree_ctor; run_ops 64 ops t.

Definition empty_tree : BWTreeState Z :=
  mkBWTree 0 MappingTable_ctor MappingTable_ctor 0 1.

Definition tree_or_empty (r : result (BWTreeState Z)) : BWTreeState Z :=
  match r with Ok t => t | Err _ => empty_tree end.

(** Key 1 gets two values, loses one, gets it back; key 2 gets one. *)
Definition small_tree : BWTreeState Z :=
  Eval vm_compute in
    tree_or_empty
      (tree_of [Ins 1 (item 10); Ins 1 (item 11); Ins 2 (item 20);
                      Del 1 (item 10); Ins 1 (item 12); Ins 1 (item 10);
                      Del 1 (item 11)]).

(** The chain of the only page of [small_tree]. *)
Definition small_chain : Node Z :=
  Eval vm_compute in
    match mt_get (mapping_table small_tree) 0 with
    | Ok (Some n) => n
    | _ => LeafNode_ctor 0 NULL_PID 0 0 true true
    end.

(** Eight keys in one leaf: the page is full and the next write splits
    it. *)
Definition full_tree : BWTreeState Z :=
  Eval vm_compute in
    tree_or_empty
      (tree_of [Ins 1 (item 1); Ins 2 (item 2); Ins 3 (item 3);
                      Ins 4 (item 4); Ins 5 (item 5); Ins 6 (item 6);
                      Ins 7 (item 7); Ins 8 (item 8)]).

Definition full_chain : Node Z :=
  Eval vm_compute in
    match mt_get (mapping_table full_tree) 0 with
    | Ok (Some n) => n
    | _ => LeafNode_ctor 0 NULL_PID 0 0 true true
    end.

(** An inner node with eight separators and nine children. *)
Definition wide_inner : Node Z :=
  InnerNode (set_slotuse 8 (InnerNode_hdr 100 0 0 true true))
            [10; 20; 30; 40; 50; 60; 70; 80; 0]
            [Some 1; Some 2; Some 3; Some 4; Some 5; Some 6; Some 7; Some 8;
             Some 9; None].

(** Nine values under one key: nine record deltas on the base leaf, one
    more than [MAX_DELTA_CHAIN_LEN]. *)
Definition long_tree : BWTreeState Z :=
  Eval vm_compute in
    tree_or_empty
      (tree_of [Ins 1 (item 1); Ins 1 (item 2); Ins 1 (item 3);
                      Ins 1 (item 4); Ins 1 (item 5); Ins 1 (item 6);
                      Ins 1 (item 7); Ins 1 (item 8); Ins 1 (item 9)]).

Definition long_chain : Node Z :=
  Eval vm_compute in
    match mt_get (mapping_table long_tree) 0 with
    | Ok (Some n) => n
    | _ => LeafNode_ctor 0 NULL_PID 0 0 true true
    end.

(** Nine keys: the leaf has split, the root is an inner node over the
    pages 0 and 1.  In [holed_tree] the slot of page 1 has been set to
    null with [MappingTable::remove]. *)
Definition two_leaf_tree : BWTreeState Z :=
  Eval vm_compute in
    tree_or_empty
      (tree_of [Ins 1 (item 1); Ins 2 (item 2); Ins 3 (item 3);
                      Ins 4 (item 4); Ins 5 (item 5); Ins 6 (item 6);
                      Ins 7 (item 7); Ins 8 (item 8); Ins 9 (item 9)]).

Definition holed_tree : BWTreeState Z :=
  Eval vm_compute in
    match mt_remove (mapping_table two_leaf_tree) 1 with
    | Ok mt => mkBWTree (root two_leaf_tree) mt (garbage_table two_leaf_tree)
                        (headleaf two_leaf_tree) (brk two_leaf_tree)
    | Err _ => empty_tree
    end.

Definition holed_root : Node Z :=
  Eval vm_compute in
    match mt_get (mapping_table holed_tree) (root holed_tree) with
    | Ok (Some n) => n
    | _ => LeafNode_ctor 0 NULL_PID 0 0 true true
    end.

(** The same keys under an index that was built with unique keys. *)
Definition ZKeyUnique : KeyOps Z := {|
  m_key_less := Z.ltb;
  m_key_equal := Z.eqb;
  HasUniqueKeys := true;
  waste := 0;
  sizeof_KeyType := 64;
  sizeof_ValueType := 8;
|}.

(** * The index on top of the tree ([src/backend/index/bwtree_index.cpp]) *)

Section BWTreeIndex.

Context {KeyType : Type} `{KeyOps KeyType}.

(** The key tuples of the executor.  [SetFromKey] is [KeyType::SetFromKey],
    which the index does not define itself. *)
Context {Tuple : Type} (SetFromKey : Tuple -> KeyType).

Inductive ScanDirectionType : Type :=
| SCAN_DIRECTION_TYPE_INVALID
| SCAN_DIRECTION_TYPE_FORWARD
| SCAN_DIRECTION_TYPE_BACKWARD.

(** [throw Exception("Invalid scan direction")] *)
Inductive thrown : Type := Invalid_scan_direction.

(** [BWTreeIndex::InsertEntry] *)
Definition InsertEntry (fuel : nat) (key : Tuple) (location : ItemPointer)
  : M KeyType bool :=
  insert_entry fuel (SetFromKey key) location.

(** [BWTreeIndex::DeleteEntry] *)
Definition DeleteEntry (fuel : nat) (key : Tuple) (location : ItemPointer)
  : M KeyType bool :=
  delete_entry fuel (SetFromKey key) location.

(** The [for] loop of [BWTreeIndex::Scan]: [i] is an [int] that is
    incremented after each of the [values_result.size()] rounds.
    [Compare] stands for [Index::Compare] applied to the tuple of the key
    with the columns, expression types and values of the scan. *)
Fixpoint Scan_loop (Compare : KeyType -> bool) (keys_result : list KeyType)
    (values_result : list (list ItemPointer)) (i : Z) (rounds : nat)
    (result_ : list ItemPointer) : result (list ItemPointer) :=
  match rounds with
  | O => Ok result_
  | S rounds' =>
      k ← at_idx keys_result i;
      v ← at_idx values_result i;
      let result_ := if Compare k then result_ ++ v else result_ in
      if INT_MAX <? i + 1 then Err Undefined
      else Scan_loop Compare keys_result values_result (i + 1) rounds' result_
  end.

(** [BWTreeIndex::Scan] *)
Definition Scan (fuel : nat) (t : BWTreeState KeyType)
    (Compare : KeyType -> bool) (scan_direction : ScanDirectionType)
  : result (thrown + list ItemPointer) :=
  match scan_direction with
  | SCAN_DIRECTION_TYPE_FORWARD | SCAN_DIRECTION_TYPE_BACKWARD =>
      '(keys_result, values_result) ← scan fuel t [] [];
      result_ ← Scan_loop Compare keys_result values_result 0
                          (length values_result) [];
      Ok (inr result_)
  | SCAN_DIRECTION_TYPE_INVALID => Ok (inl Invalid_scan_direction)
  end.

(** [BWTreeIndex::ScanAllKeys] *)
Definition ScanAllKeys (fuel : nat) (t : BWTreeState KeyType)
  : result (list ItemPointer) :=
  scan_all fuel t [].

(** [BWTreeIndex::ScanKey] *)
Definition ScanKey (fuel : nat) (t : BWTreeState KeyType) (key : Tuple)
  : result (list ItemPointer) :=
  get_value fuel t (SetFromKey key) [].

End BWTreeIndex.

(** The chain of [small_tree] as a reader of key 1 sees it. *)
Definition small_view : list (record (KeyType:=Z)) * list (Z * list ValueType) :=
  Eval vm_compute in
    match leaf_chain_view 1 small_chain with
    | Some v => v
    | None => ([], [])
    end.

(** Whether [run_ops] stays within [B] addresses: each state it passes
    through has handed out at most [B]. *)
Fixpoint ops_within (B : Z) (fuel : nat) (ops : list op) (t : BWTreeState Z)
  : bool :=
  match ops with
  | [] => true
  | o :: ops' =>
      match (match o with
             | Ins k v => insert_entry fuel k v t
             | Del k v => delete_entry fuel k v t
             end) with
      | Ok (_, t') => (brk t' <=? B) && ops_within B fuel ops' t'
      | Err _ => false
      end
  end.

(** The heads of the two leaf pages of [two_leaf_tree]. *)
Definition two_leaf_left : Node Z :=
  Eval vm_compute in
    match mt_get (mapping_table two_leaf_tree) 0 with
    | Ok (Some n) => n
    | _ => LeafNode_ctor 0 NULL_PID 0 0 true true
    end.

Definition two_leaf_right : Node Z :=
  Eval vm_compute in
    match mt_get (mapping_table two_leaf_tree) 1 with
    | Ok (Some n) => n
    | _ => LeafNode_ctor 0 NULL_PID 0 0 true true
    end.

(** [small_tree] after one more insert, and after one more delete. *)
Definition small_tree_ins : BWTreeState Z :=
  Eval vm_compute in
    match insert_entry 64 3 (item 30) small_tree with
    | Ok (_, t) => t
    | Err _ => empty_tree
    end.

Definition small_tree_del : BWTreeState Z :=
  Eval vm_compute in
    match delete_entry 64 1 (item 12) small_tree with
    | Ok (_, t) => t
    | Err _ => empty_tree
    end.

(** A fresh index with unique keys, and the same after key 1 got a
    value. *)
Definition unique_fresh : BWTreeState Z :=
  Eval vm_compute in
    match @BWTree_ctor Z ZKeyUnique with
    | Ok t => t
    | Err _ => empty_tree
    end.

Definition unique_tree : BWTreeState Z :=
  Eval vm_compute in
    match @insert_entry Z ZKeyUnique 64 1 (item 10) unique_fresh with
    | Ok (_, t) => t
    | Err _ => empty_tree
    end.

(** The state the constructor builds. *)
Definition fresh_tree : BWTreeState Z :=
  Eval vm_compute in
    match BWTree_ctor with
    | Ok t => t
    | Err _ => empty_tree
    end.

(** The chain of the only page of [unique_tree]. *)
Definition unique_chain : Node Z :=
  Eval vm_compute in
    match mt_get (mapping_table unique_tree) 0 with
    | Ok (Some n) => n
    | _ => LeafNode_ctor 0 NULL_PID 0 0 true true
    end.

(** * Properties of the embedding *)

(** ** Reasoning about results *)

Lemma bind_Ok {A B} (m : result A) (f : A -> result B) b :
  m ≫= f = Ok b -> exists a, m = Ok a /\ f a = Ok b.
Proof. destruct m; simpl; [eauto | discriminate]. Qed.

Lemma at_index_Ok {A} (l : list A) i x : at_index l i = Ok x <-> l !! i = Some x.
Proof. unfold at_index. destruct (l !! i); split; congruence. Qed.

Lemma deref_Ok {A} (p : option A) x : deref p = Ok x <-> p = Some x.
Proof. destruct p; simpl; split; congruence. Qed.

Ltac inv_bind :=
  repeat match goal with
  | Hb : _ ≫= _ = Ok _ |- _ =>
      apply bind_Ok in Hb; destruct Hb as (? & ? & Hb)
  | Hb : Ok _ = Ok _ |- _ => injection Hb as Hb; try subst
  | Hb : Err _ = Ok _ |- _ => discriminate Hb
  end.

Ltac destr_if Hc :=
  match type of Hc with
  | context [if ?c then _ else _] => destruct c eqn:?
  end.

Ltac ilia := unfold INT_MAX in *; lia.

Section Properties.

Context {KeyType : Type} `{KeyOps KeyType}.

(** ** The counters of [count_pair] *)

Lemma wrap_int_id z : -2147483648 <= z <= INT_MAX -> wrap_int z = z.
Proof.
  unfold wrap_int, INT_MAX. intros Hz.
  rewrite Z.mod_small; lia.
Qed.

Lemma count_pair_vals_bounds value vals deleted t p t' p' :
  0 <= p <= t -> t + Z.of_nat (length vals) <= INT_MAX ->
  count_pair_vals value vals deleted t p = (t', p') ->
  0 <= p' <= t' /\ t' <= t + Z.of_nat (length vals).
Proof.
  revert t p. induction vals as [|v vals IH]; intros t p Hp Ht Hc; simpl in Hc.
  - injection Hc as <- <-. ilia.
  - change (length (v :: vals)) with (S (length vals)) in *.
    rewrite Nat2Z.inj_succ in *.
    destruct (delset_count deleted v).
    + apply IH in Hc. all: ilia.
    + rewrite (wrap_int_id (t + 1)) in Hc by ilia.
      destruct (value_equal v value).
      * rewrite (wrap_int_id (p + 1)) in Hc by ilia.
        apply IH in Hc ; ilia.
      * apply IH in Hc ; ilia.
Qed.

Lemma slot_values_le (slotdata : list (option (list ValueType))) i vals :
  slotdata !! i = Some (Some vals) ->
  (length vals <= sum_list (slot_values <$> slotdata))%nat.
Proof.
  revert i. induction slotdata as [|p l IH]; intros [|i] Hi;
    try discriminate;
    change (sum_list (slot_values <$> p :: l))
      with (slot_values p + sum_list (slot_values <$> l))%nat.
  - injection Hi as ->. simpl. lia.
  - apply IH in Hi. lia.
Qed.

Lemma count_pair_leaf_bounds key value slotkey slotdata deleted t p i cnt t' p' :
  0 <= p <= t ->
  t + Z.of_nat (sum_list (slot_values <$> slotdata)) <= INT_MAX ->
  count_pair_leaf key value slotkey slotdata deleted t p i cnt = Ok (t', p') ->
  0 <= p' <= t' /\ t' <= t + Z.of_nat (sum_list (slot_values <$> slotdata)).
Proof.
  revert i. induction cnt as [|cnt IH]; intros i Hp Ht Hc; simpl in Hc.
  - inv_bind. ilia.
  - inv_bind. destruct (key_equal _ key).
    + inv_bind.
      match goal with Hd : deref _ = _ |- _ => apply deref_Ok in Hd; subst end.
      match goal with Ha : at_index slotdata _ = _ |- _ =>
        apply at_index_Ok, slot_values_le in Ha end.
      apply count_pair_vals_bounds in Hc ; ilia.
    + eauto.
Qed.

Lemma count_pair_from_bounds key value node : forall deleted t p t' p',
  0 <= p <= t ->
  t + Z.of_nat (chain_values node) <= INT_MAX ->
  count_pair_from key value node deleted t p = Ok (t', p') ->
  0 <= p' <= t' /\ t' <= t + Z.of_nat (chain_values node).
Proof.
  induction node; intros deleted t p t' p' Hp Ht Hc; simpl in Hc;
    try discriminate; cbn [chain_values] in *;
    rewrite ?Nat2Z.inj_succ, ?Nat2Z.inj_add in *.
  - eapply count_pair_leaf_bounds; eauto.
  - destruct op_type.
    + destr_if Hc.
      * rewrite (wrap_int_id (t + 1)) in Hc by ilia.
        destr_if Hc.
        -- rewrite (wrap_int_id (p + 1)) in Hc by ilia.
           apply IHnode in Hc; ilia.
        -- apply IHnode in Hc; ilia.
      * apply IHnode in Hc; ilia.
    + destr_if Hc; apply IHnode in Hc; ilia.
    + apply IHnode in Hc; ilia.
  - destr_if Hc; [discriminate|].
    apply IHnode in Hc; ilia.
  - destr_if Hc.
    + apply IHnode1 in Hc; ilia.
    + apply IHnode2 in Hc; ilia.
Qed.

(** C10: the pair [count_pair] returns has
    [0 <= pair_count <= total_count], on every chain whose values the two
    [int] counters can count, so the assertion of [delete_entry] on the
    pair ([second > first]) does not fire. *)
Theorem count_pair_bounds key value (listhead : option (Node KeyType))
    total_count pair_count :
  Z.of_nat (from_option chain_values O listhead) <= INT_MAX ->
  count_pair key value listhead = Ok (total_count, pair_count) ->
  0 <= pair_count <= total_count /\ (total_count <? pair_count) = false.
Proof.
  intros Hsz Hc. destruct listhead as [node|]; simpl in *.
  - apply count_pair_from_bounds in Hc; [|lia|ilia].
    split; [lia|]. apply Z.ltb_ge. lia.
  - injection Hc as <- <-. split; [lia|reflexivity].
Qed.

(** ** [get_value] on a leaf chain *)

Definition vis_from (key : KeyType) (D : DelSet) (recs : list record) :=
  concat (imap (fun i r =>
            match r with
            | (INSERT, k, v) =>
                if key_equal k key
                   && negb (bool_decide (v ∈ D ∪ tombstones key (take i recs)))
                then [v] else []
            | _ => []
            end) recs).

Lemma get_value_vals_spec vals D r :
  get_value_vals vals D r
  = r ++ List.filter (fun v => negb (bool_decide (v ∈ D))) vals.
Proof.
  revert r. induction vals as [|v vals IH]; intros r; simpl.
  - by rewrite app_nil_r.
  - rewrite IH. unfold delset_count. destruct (bool_decide (v ∈ D)); simpl.
    + done.
    + by rewrite <- app_assoc.
Qed.

Lemma get_value_leaf_spec key slotkey slotdata D :
  forall cnt i r vs,
    (i + cnt <= length slotkey)%nat ->
    mapM id (take cnt (drop i slotdata)) = Some vs ->
    length vs = cnt ->
    get_value_leaf key slotkey slotdata D i cnt r
    = Ok (r ++ visible_base key D (zip (take cnt (drop i slotkey)) vs)).
Proof.
  induction cnt as [|cnt IH]; intros i r vs Hlen Hvs Hl.
  - destruct vs; [|done]. unfold visible_base. simpl. by rewrite app_nil_r.
  - destruct (lookup_lt_is_Some_2 slotkey i) as [k Hk]; [lia|].
    rewrite (drop_S _ _ _ Hk).
    destruct (drop i slotdata) as [|p ps] eqn:Hd.
    { rewrite take_nil in Hvs. cbv in Hvs. injection Hvs as <-. done. }
    assert (slotdata !! i = Some p) as Hp.
    { rewrite <- (Nat.add_0_r i), <- lookup_drop, Hd. done. }
    assert (drop (S i) slotdata = ps) as Hps.
    { replace (S i) with (i + 1)%nat by lia. rewrite <- drop_drop, Hd. done. }
    simpl in Hvs. apply bind_Some in Hvs as (v0 & Hv0 & Hvs).
    apply bind_Some in Hvs as (vs' & Hvs' & Hvs).
    injection Hvs as <-. cbv in Hv0. subst p. simpl in Hl.
    cbn [get_value_leaf].
    rewrite (proj2 (at_index_Ok _ _ _) Hk), (proj2 (at_index_Ok _ _ _) Hp).
    cbn [mbind result_bind deref take zip zip_with].
    unfold visible_base. rewrite fmap_cons. cbn [concat fst snd].
    fold (visible_base key D).
    destruct (key_equal k key) eqn:Hke.
    + rewrite (IH (S i) _ vs'); [|lia|by rewrite Hps|lia].
      rewrite get_value_vals_spec. by rewrite <- app_assoc.
    + rewrite (IH (S i) _ vs'); [|lia|by rewrite Hps|lia]. done.
Qed.

Lemma tombstones_cons key r recs :
  tombstones key (r :: recs)
  = match deletes_of key r with
    | Some v => {[v]} ∪ tombstones key recs
    | None => tombstones key recs
    end.
Proof. unfold tombstones. simpl. by destruct (deletes_of key r). Qed.

Lemma vis_from_ext key D D' recs :
  D = D' -> vis_from key D recs = vis_from key D' recs.
Proof. by intros ->. Qed.

Lemma vis_from_cons key D r recs :
  vis_from key D (r :: recs)
  = match r with
    | (INSERT, k, v) =>
        if key_equal k key && negb (bool_decide (v ∈ D)) then [v] else []
    | _ => []
    end
    ++ vis_from key (match deletes_of key r with
                     | Some v => {[v]} ∪ D
                     | None => D
                     end) recs.
Proof.
  unfold vis_from. rewrite imap_cons. cbn [concat]. f_equal.
  - destruct r as [[[] k] v]; try done.
    cbn [take]. unfold tombstones. simpl.
    by rewrite (right_id_L ∅ (∪)).
  - f_equal. apply imap_ext. intros i [[op k] v] _. simpl.
    destruct op; try done.
    rewrite tombstones_cons.
    destruct (deletes_of key r) as [w|]; [|done].
    by rewrite (assoc_L (∪)), (comm_L (∪) D).
Qed.

Lemma get_value_loop_spec restart (t : BWTreeState KeyType) key node :
  forall recs es D r fuel,
    leaf_chain_view key node = Some (recs, es) ->
    (length (chain_to_base node) + 1 <= fuel)%nat ->
    get_value_loop restart fuel t key (Some node) D r
    = Ok (r ++ vis_from key D recs
            ++ visible_base key (D ∪ tombstones key recs) es).
Proof.
  induction node; intros recs es D r fuel Hv Hf;
    cbn [leaf_chain_view] in Hv; try done.
  - apply bind_Some in Hv as (es0 & Hes & Hv). injection Hv as <- <-.
    unfold leaf_entries in Hes. case_decide; [|done].
    apply bind_Some in Hes as (vs & Hvs & Hes). case_decide; [|done].
    injection Hes as <-.
    destruct fuel as [|[|fuel]]; simpl in Hf; try lia.
    cbn [get_value_loop].
    rewrite (get_value_leaf_spec _ _ _ _ _ 0%nat _ vs); [|lia|done|done].
    cbn [mbind result_bind]. unfold vis_from, tombstones. simpl.
    rewrite union_empty_r_L. reflexivity.
  - apply bind_Some in Hv as ([recs0 es0] & Hv0 & Hv). injection Hv as <- <-.
    destruct fuel as [|fuel]; simpl in Hf; [lia|].
    cbn [get_value_loop]. rewrite vis_from_cons, tombstones_cons.
    destruct op_type; cbn [deletes_of]; unfold delset_count.
    + destruct (key_equal key0 key) eqn:Hk; cbn [andb].
      * rewrite (IHnode recs0 es0); [|done|lia].
        destruct (bool_decide (value ∈ D)); cbn [negb];
          by rewrite <- ?app_assoc.
      * rewrite (IHnode recs0 es0); [|done|lia]. done.
    + destruct (key_equal key0 key) eqn:Hk.
      * rewrite (IHnode recs0 es0); [|done|lia]. simpl.
        by rewrite (assoc_L (∪)), (comm_L (∪) D).
      * rewrite (IHnode recs0 es0); [|done|lia]. done.
    + destruct (key_equal key0 key) eqn:Hk;
        rewrite (IHnode recs0 es0); [done|done|lia|done|done|lia].
  - destruct (key_greaterequal key Kp false) eqn:Hk; [done|].
    destruct fuel as [|fuel]; simpl in Hf; [lia|].
    cbn [get_value_loop]. rewrite Hk.
    apply IHnode; [done|lia].
Qed.

Lemma vis_from_empty key recs : vis_from key ∅ recs = visible_records key recs.
Proof.
  unfold vis_from, visible_records. f_equal. apply imap_ext.
  intros i [[op k] v] _. simpl. by rewrite union_empty_l_L.
Qed.

(** C1: on the leaf chain that [search] finds for the key, [get_value]
    appends exactly the visible values: the value of every INSERT record
    for the key that no DELETE record for the key nearer the head has
    made a tombstone, then the values the base leaf stores for the key
    that are not tombstones. *)
Theorem get_value_visible (t : BWTreeState KeyType) key result_ fuel
    target rest head recs es :
  search fuel t (root t) key = Ok (target :: rest) ->
  mt_get (mapping_table t) target = Ok (Some head) ->
  is_leaf (hdr_of head) = true ->
  leaf_chain_view key head = Some (recs, es) ->
  (length (chain_to_base head) + 1 <= fuel)%nat ->
  get_value (S fuel) t key result_
  = Ok (result_ ++ visible_values key recs es).
Proof.
  intros Hs Hg Hl Hv Hf. cbn [get_value]. rewrite Hs.
  cbn [mbind result_bind stack_top]. rewrite Hg.
  cbn [mbind result_bind deref]. rewrite Hl. cbn [negb].
  rewrite (get_value_loop_spec _ _ _ _ recs es); [|done|done].
  by rewrite vis_from_empty, union_empty_l_L.
Qed.

(** ** The mapping table *)

Lemma tier_index_bounds p :
  0 <= p ->
  0 <= GET_TIER1_INDEX p /\ 0 <= GET_TIER2_INDEX p < 1024 /\
  p = 1024 * GET_TIER1_INDEX p + GET_TIER2_INDEX p.
Proof.
  intros Hp. unfold GET_TIER1_INDEX, GET_TIER2_INDEX.
  rewrite Z.shiftr_div_pow2 by lia.
  change 1023 with (Z.ones 10). rewrite Z.land_ones by lia.
  change (2 ^ 10) with 1024.
  pose proof (Z.div_mod p 1024). pose proof (Z.mod_pos_bound p 1024).
  pose proof (Z.div_pos p 1024). lia.
Qed.

Lemma tier1_index_neg p : p < 0 -> GET_TIER1_INDEX p < 0.
Proof.
  intros Hp. unfold GET_TIER1_INDEX. rewrite Z.shiftr_div_pow2 by lia.
  apply Z.div_lt_upper_bound; lia.
Qed.

Lemma tier1_index_room p :
  0 <= p < MAPPING_TABLE_SIZE * MAPPING_TABLE_SIZE ->
  0 <= GET_TIER1_INDEX p < 1024.
Proof.
  intros Hp. unfold GET_TIER1_INDEX. rewrite Z.shiftr_div_pow2 by lia.
  change (MAPPING_TABLE_SIZE * MAPPING_TABLE_SIZE) with (1024 * 1024) in Hp.
  change (2 ^ 10) with 1024. split.
  - apply Z.div_pos; lia.
  - apply Z.div_lt_upper_bound; lia.
Qed.

Lemma at_idx_Ok {A} (l : list A) i x :
  at_idx l i = Ok x <-> 0 <= i /\ l !! Z.to_nat i = Some x.
Proof.
  unfold at_idx. destruct (Z.ltb_spec i 0).
  - split; [discriminate|lia].
  - rewrite at_index_Ok. intuition.
Qed.

Lemma at_idx_nonneg {A} (l : list A) i :
  0 <= i -> at_idx l i = at_index l (Z.to_nat i).
Proof. unfold at_idx. intros Hi. by destruct (Z.ltb_spec i 0); [lia|]. Qed.

Lemma at_idx_neg {A} (l : list A) i : i < 0 -> at_idx l i = Err Undefined.
Proof. unfold at_idx. intros Hi. by destruct (Z.ltb_spec i 0); [|lia]. Qed.

Lemma mt_shape_inv (mt : MappingTable KeyType) :
  mt_shape mt = true ->
  length (mappingtable_1 mt) = 1024%nat /\
  forall i b, mappingtable_1 mt !! i = Some (Some b) -> length b = 1024%nat.
Proof.
  unfold mt_shape. intros [Hl Hb]%andb_true_iff.
  apply Nat.eqb_eq in Hl. split; [exact Hl|].
  intros i b Hi. rewrite forallb_forall in Hb.
  specialize (Hb (Some b)). simpl in Hb. apply Nat.eqb_eq, Hb.
  apply list_elem_of_In. eapply list_elem_of_lookup_2; eauto.
Qed.

Lemma mt_shape_intro (mt : MappingTable KeyType) :
  length (mappingtable_1 mt) = 1024%nat ->
  (forall i b, mappingtable_1 mt !! i = Some (Some b) -> length b = 1024%nat) ->
  mt_shape mt = true.
Proof.
  intros Hl Hb. unfold mt_shape. apply andb_true_iff. split.
  - by apply Nat.eqb_eq.
  - apply forallb_forall. intros [b|] Hin; [|done].
    apply list_elem_of_In, list_elem_of_lookup_1 in Hin as [i Hi].
    simpl. apply Nat.eqb_eq. eauto.
Qed.

(** [mt_get] in terms of the two arrays. *)
Lemma mt_get_Some (mt : MappingTable KeyType) p n :
  mt_get mt p = Ok (Some n) <->
  0 <= p /\ exists b,
    mappingtable_1 mt !! Z.to_nat (GET_TIER1_INDEX p) = Some (Some b) /\
    b !! Z.to_nat (GET_TIER2_INDEX p) = Some (Some n).
Proof.
  unfold mt_get. destruct (Z.eqb_spec p NULL_PID) as [->|Hp].
  - split; [discriminate|]. intros [Hp _]. unfold NULL_PID in Hp. lia.
  - split.
    + intros Hg. apply bind_Ok in Hg as (blk & Hblk & Hg).
      apply at_idx_Ok in Hblk as [H1 Hblk].
      assert (0 <= p) as Hp0.
      { destruct (Z.le_gt_cases 0 p); [done|].
        pose proof (tier1_index_neg p). lia. }
      split; [done|]. destruct blk as [b|]; [|discriminate].
      apply at_idx_Ok in Hg as [_ Hg]. eauto.
    + intros (Hp0 & b & Hb & Hn).
      destruct (tier_index_bounds p Hp0) as (? & ? & _).
      rewrite (proj2 (at_idx_Ok _ _ (Some b))); [|eauto]. simpl.
      apply at_idx_Ok. split; [lia|done].
Qed.

Lemma tier_index_inj p q :
  0 <= p -> 0 <= q ->
  GET_TIER1_INDEX p = GET_TIER1_INDEX q ->
  GET_TIER2_INDEX p = GET_TIER2_INDEX q -> p = q.
Proof.
  intros Hp Hq H1 H2.
  destruct (tier_index_bounds p Hp) as (_ & _ & ->).
  destruct (tier_index_bounds q Hq) as (_ & _ & ->). lia.
Qed.

(** The table after one slot was overwritten. *)
Definition mt_store (mt : MappingTable KeyType) (p : PidType)
    (b : list (option (Node KeyType))) (x : option (Node KeyType)) (np : Z)
  : MappingTable KeyType :=
  mkMappingTable
    (<[Z.to_nat (GET_TIER1_INDEX p) :=
         Some (<[Z.to_nat (GET_TIER2_INDEX p) := x]> b)]> (mappingtable_1 mt))
    np.

Lemma mt_store_shape (mt : MappingTable KeyType) p b x np :
  mt_shape mt = true -> length b = 1024%nat ->
  mt_shape (mt_store mt p b x np) = true.
Proof.
  intros [Hl Hb]%mt_shape_inv Hlb. apply mt_shape_intro; simpl.
  - by rewrite length_insert.
  - intros i b' Hi.
    destruct (decide (i = Z.to_nat (GET_TIER1_INDEX p))) as [->|Hne].
    + apply list_lookup_insert_Some in Hi as [(_ & Hi & _)|(? & _)]; [|done].
      injection Hi as <-. by rewrite length_insert.
    + rewrite list_lookup_insert_ne in Hi by done. eauto.
Qed.

Lemma mt_store_get_eq (mt : MappingTable KeyType) p b x np :
  mt_shape mt = true -> length b = 1024%nat ->
  0 <= p < MAPPING_TABLE_SIZE * MAPPING_TABLE_SIZE ->
  mt_get (mt_store mt p b x np) p = Ok x.
Proof.
  intros [Hl Hb]%mt_shape_inv Hlb Hp.
  destruct (tier_index_bounds p) as (? & ? & _); [lia|].
  pose proof (tier1_index_room p Hp).
  unfold mt_get. destruct (Z.eqb_spec p NULL_PID) as [->|_].
  { unfold NULL_PID in Hp. lia. }
  simpl.
  rewrite (proj2 (at_idx_Ok _ _
             (Some (<[Z.to_nat (GET_TIER2_INDEX p) := x]> b)))).
  2:{ split; [lia|]. apply list_lookup_insert_eq. lia. }
  simpl. apply at_idx_Ok. split; [lia|].
  apply list_lookup_insert_eq. lia.
Qed.

Lemma mt_store_get_ne (mt : MappingTable KeyType) p b x np q :
  mt_shape mt = true -> 0 <= p ->
  (mappingtable_1 mt !! Z.to_nat (GET_TIER1_INDEX p) = Some (Some b)
   \/ (mappingtable_1 mt !! Z.to_nat (GET_TIER1_INDEX p) = Some None
       /\ b = replicate (Z.to_nat MAPPING_TABLE_SIZE) None)) ->
  q <> p ->
  mt_get (mt_store mt p b x np) q = mt_get mt q.
Proof.
  intros [Hl Hb]%mt_shape_inv Hp Hblk Hq.
  unfold mt_get. destruct (Z.eqb_spec q NULL_PID) as [->|Hq1]; [done|].
  destruct (Z.le_gt_cases 0 q) as [Hq0|Hq0].
  2:{ pose proof (tier1_index_neg q Hq0). by rewrite !at_idx_neg by lia. }
  destruct (tier_index_bounds p Hp) as (Hp1 & Hp2 & _).
  destruct (tier_index_bounds q Hq0) as (Hq2 & Hq3 & _).
  simpl. rewrite !(at_idx_nonneg _ (GET_TIER1_INDEX q)) by lia.
  unfold at_index.
  destruct (decide (Z.to_nat (GET_TIER1_INDEX q) = Z.to_nat (GET_TIER1_INDEX p)))
    as [He|Hne].
  - rewrite He.
    assert (Z.to_nat (GET_TIER2_INDEX q) <> Z.to_nat (GET_TIER2_INDEX p)) as Hne2.
    { intros He2. apply Hq, tier_index_inj; lia. }
    assert (Z.to_nat (GET_TIER1_INDEX p) < length (mappingtable_1 mt))%nat.
    { destruct Hblk as [Hblk|[Hblk _]]; eapply lookup_lt_Some; eauto. }
    rewrite list_lookup_insert_eq by done. simpl.
    rewrite at_idx_nonneg by lia.
    unfold at_index. rewrite list_lookup_insert_ne by done.
    destruct Hblk as [->|[-> ->]]; cbn [mbind result_bind].
    + rewrite at_idx_nonneg by lia. done.
    + rewrite lookup_replicate_2; [done|].
      change (Z.to_nat MAPPING_TABLE_SIZE) with 1024%nat. lia.
  - rewrite list_lookup_insert_ne by done. done.
Qed.

(** [mt_set] *)
Lemma mt_set_true (mt : MappingTable KeyType) p expected new mt' :
  mt_shape mt = true ->
  mt_set mt p expected new = Ok (true, mt') ->
  0 <= p /\ mt_shape mt' = true /\ nextPid mt' = nextPid mt /\
  (exists cur, mt_get mt p = Ok cur /\ ptr_eq cur expected = true) /\
  (p < MAPPING_TABLE_SIZE * MAPPING_TABLE_SIZE ->
   mt_get mt' p = Ok (assign_pid p <$> new)) /\
  (forall q, q <> p -> mt_get mt' q = mt_get mt q).
Proof.
  intros Hsh Hs. unfold mt_set in Hs.
  apply bind_Ok in Hs as (blk & Hblk & Hs).
  apply at_idx_Ok in Hblk as [Ht1 Hblk].
  assert (0 <= p) as Hp.
  { destruct (Z.le_gt_cases 0 p); [done|].
    pose proof (tier1_index_neg p). lia. }
  destruct blk as [b|]; [|discriminate].
  apply bind_Ok in Hs as (cur & Hcur & Hs).
  destruct (ptr_eq cur expected) eqn:Hpe; [|discriminate].
  injection Hs as <-.
  destruct (mt_shape_inv _ Hsh) as [Hl Hb].
  fold (mt_store mt p b (assign_pid p <$> new) (nextPid mt)).
  split; [done|]. split; [eapply mt_store_shape; eauto|].
  split; [done|]. split.
  - exists cur. split; [|done]. unfold mt_get.
    destruct (Z.eqb_spec p NULL_PID) as [->|_];
      [unfold NULL_PID in Hp; lia|].
    rewrite (proj2 (at_idx_Ok _ _ (Some b))) by done. done.
  - split.
    + intros Hp2. apply mt_store_get_eq; eauto.
    + intros q Hq. apply mt_store_get_ne; auto.
Qed.

Lemma mt_set_false (mt : MappingTable KeyType) p expected new mt' :
  mt_set mt p expected new = Ok (false, mt') -> mt' = mt.
Proof.
  unfold mt_set. intros Hs.
  apply bind_Ok in Hs as (blk & Hblk & Hs).
  destruct blk as [b|]; [|by injection Hs].
  apply bind_Ok in Hs as (cur & Hcur & Hs).
  destruct (ptr_eq cur expected); [discriminate|by injection Hs].
Qed.

Lemma ptr_eq_refl (n : option (Node KeyType)) : ptr_eq n n = true.
Proof. destruct n; simpl; [apply Z.eqb_refl|done]. Qed.

(** In one thread the exchange succeeds when [expected] is what [get]
    has just returned. *)
Lemma mt_set_succeeds (mt : MappingTable KeyType) p cur expected new :
  mt_get mt p = Ok (Some cur) ->
  ptr_eq (Some cur) expected = true ->
  exists mt', mt_set mt p expected new = Ok (true, mt').
Proof.
  intros (Hp & b & Hb & Hn)%mt_get_Some Hpe.
  destruct (tier_index_bounds p Hp) as (Hp1 & Hp2 & _).
  unfold mt_set.
  rewrite (proj2 (at_idx_Ok _ _ (Some b))) by done.
  cbn [mbind result_bind].
  rewrite (proj2 (at_idx_Ok _ _ (Some cur))) by (split; [lia|done]).
  cbn [mbind result_bind]. rewrite Hpe. eauto.
Qed.

(** [mt_add] *)
Lemma mt_add_spec (mt : MappingTable KeyType) new :
  mt_shape mt = true -> mt_room mt = true ->
  exists mt',
    mt_add mt new = Ok (nextPid mt, mt') /\
    mt_shape mt' = true /\
    nextPid mt' = nextPid mt + 1 /\
    mt_get mt' (nextPid mt) = Ok (assign_pid (nextPid mt) <$> new) /\
    (forall q, q <> nextPid mt -> mt_get mt' q = mt_get mt q).
Proof.
  intros Hsh [Hp0 Hp1]%andb_true_iff.
  apply Z.leb_le in Hp0. apply Z.ltb_lt in Hp1.
  destruct (mt_shape_inv _ Hsh) as [Hl Hb].
  destruct (tier_index_bounds _ Hp0) as (Ht1 & Ht2 & _).
  pose proof (tier1_index_room (nextPid mt) (conj Hp0 Hp1)) as Ht1'.
  destruct (lookup_lt_is_Some_2 (mappingtable_1 mt)
              (Z.to_nat (GET_TIER1_INDEX (nextPid mt)))) as [blk Hblk]; [lia|].
  set (b := match blk with
            | Some b => b
            | None => replicate (Z.to_nat MAPPING_TABLE_SIZE) None
            end).
  assert (length b = 1024%nat) as Hlb.
  { subst b. destruct blk as [b|]; [eauto|]. by rewrite length_replicate. }
  destruct (lookup_lt_is_Some_2 b (Z.to_nat (GET_TIER2_INDEX (nextPid mt))))
    as [old Hold]; [lia|].
  exists (mt_store mt (nextPid mt) b (assign_pid (nextPid mt) <$> new)
                   (ulong (nextPid mt + 1))).
  split.
  { unfold mt_add. rewrite (proj2 (at_idx_Ok _ _ blk)) by done.
    cbn [mbind result_bind].
    fold b. rewrite (proj2 (at_idx_Ok _ _ old)) by (split; [lia|done]).
    done. }
  split; [by apply mt_store_shape|].
  split.
  { simpl. unfold ulong. rewrite Z.mod_small; [done|].
    change (MAPPING_TABLE_SIZE * MAPPING_TABLE_SIZE) with 1048576 in Hp1. lia. }
  split; [by apply mt_store_get_eq|].
  intros q Hq. apply mt_store_get_ne; auto.
  subst b. destruct blk; auto.
Qed.

(** ** Slot counts and the filling loops *)

Lemma BWTREE_MAX_bounds x : x <= 256 -> 8 <= BWTREE_MAX 8 x <= 256.
Proof. unfold BWTREE_MAX. destruct (Z.ltb_spec 8 x); lia. Qed.

Lemma node_size_div d : BWTREE_NODE_SIZE / d <= 256.
Proof.
  unfold BWTREE_NODE_SIZE. destruct (Z.lt_trichotomy d 0) as [Hd|[->|Hd]].
  - pose proof (Z.div_mod 256 d). pose proof (Z.mod_neg_bound 256 d). nia.
  - by rewrite Z.div_0_r.
  - apply Z.div_le_upper_bound; lia.
Qed.

Lemma leafslotmax_bounds : 8 <= leafslotmax <= 256.
Proof.
  unfold leafslotmax, ushort.
  pose proof (BWTREE_MAX_bounds _ (node_size_div (sizeof_KeyType + sizeof_ValueType))).
  rewrite Z.mod_small; lia.
Qed.

Lemma innerslotmax_bounds : 8 <= innerslotmax <= 256.
Proof.
  unfold innerslotmax, ushort.
  pose proof (BWTREE_MAX_bounds _ (node_size_div (sizeof_KeyType + sizeof_PidType))).
  rewrite Z.mod_small; lia.
Qed.

Lemma store_index_Ok {A} (l : list A) i x :
  (i < length l)%nat -> store_index l i x = Ok (<[i := x]> l).
Proof. unfold store_index. intros Hi. by rewrite decide_True. Qed.

(** The filling loop writes a block of consecutive slots. *)
Lemma fill_leaf_spec (keys : list KeyType) (vals : list (list ValueType)) :
  forall cnt i j slotkey slotdata,
    (i + cnt <= length keys)%nat -> (i + cnt <= length vals)%nat ->
    (j + cnt <= length slotkey)%nat -> (j + cnt <= length slotdata)%nat ->
    fill_leaf keys vals i j cnt slotkey slotdata
    = Ok (take j slotkey ++ take cnt (drop i keys) ++ drop (j + cnt) slotkey,
          take j slotdata ++ (Some <$> take cnt (drop i vals))
            ++ drop (j + cnt) slotdata).
Proof.
  induction cnt as [|cnt IH]; intros i j slotkey slotdata Hk Hv Hsk Hsd.
  - cbn [fill_leaf]. rewrite Nat.add_0_r, !take_0. cbn [fmap list_fmap app].
    by rewrite !take_drop.
  - cbn [fill_leaf].
    destruct (lookup_lt_is_Some_2 keys i) as [k Hki]; [lia|].
    destruct (lookup_lt_is_Some_2 vals i) as [v Hvi]; [lia|].
    rewrite (proj2 (at_index_Ok _ _ _) Hki), (proj2 (at_index_Ok _ _ _) Hvi).
    cbn [mbind result_bind].
    rewrite !store_index_Ok by lia. cbn [mbind result_bind].
    rewrite IH by (rewrite ?length_insert; lia).
    rewrite (drop_S _ _ _ Hki), (drop_S _ _ _ Hvi).
    cbn [take fmap list_fmap].
    rewrite !(take_S_r (<[j:=_]> _) j _)
      by (apply list_lookup_insert_eq; lia).
    rewrite !take_insert_ge by lia.
    rewrite !drop_insert_lt by lia.
    rewrite <- !app_assoc. cbn [app].
    by replace (S j + cnt)%nat with (j + S cnt)%nat by lia.
Qed.

Lemma mapM_id_Some {A} (l : list A) : mapM id (Some <$> l) = Some l.
Proof.
  induction l as [|x l IH]; [done|].
  cbn [fmap list_fmap mapM]. fold (Some <$> l). rewrite IH. done.
Qed.

Lemma leaf_entries_fill (h : NodeHdr KeyType) ks vs rk rd :
  length ks = length vs ->
  slotuse h = Z.of_nat (length ks) ->
  leaf_entries h (ks ++ rk) ((Some <$> vs) ++ rd) = Some (zip ks vs).
Proof.
  intros Hl Hs. unfold leaf_entries. rewrite Hs, Nat2Z.id.
  rewrite decide_True by (rewrite length_app; lia).
  rewrite !take_app_length' by (rewrite ?length_fmap; done).
  rewrite mapM_id_Some. cbn [mbind option_bind].
  by rewrite decide_True by done.
Qed.

(** ** The fold of a chain, delta by delta *)

Lemma delta_chain_next (d nx : Node KeyType) :
  next_of d = Some nx -> delta_chain d = delta_chain nx ++ [d].
Proof.
  unfold delta_chain. intros Hn.
  destruct d; simpl in Hn; try discriminate; injection Hn as ->;
    cbn [chain_to_base]; by rewrite reverse_cons.
Qed.

Lemma delta_chain_nonempty (n : Node KeyType) : delta_chain n <> [].
Proof.
  unfold delta_chain. intros Hr. apply (f_equal length) in Hr.
  rewrite length_reverse in Hr. by destruct n.
Qed.

Lemma fold_deltas_app {A} (step : Node KeyType -> A -> result A) l1 l2 acc :
  fold_deltas step (l1 ++ l2) acc
  = fold_deltas step l1 acc ≫= fold_deltas step l2.
Proof.
  revert acc. induction l1 as [|d l1 IH]; intros acc; [done|].
  cbn [app fold_deltas]. destruct (step d acc); [|done].
  cbn [mbind result_bind]. apply IH.
Qed.

(** Folding a chain is folding the chain below its head, then the head. *)
Lemma leaf_fake_consolidate_step (d nx : Node KeyType) :
  next_of d = Some nx ->
  leaf_fake_consolidate d
  = leaf_fake_consolidate nx ≫= leaf_apply_delta d.
Proof.
  intros Hn. unfold leaf_fake_consolidate.
  rewrite (delta_chain_next _ _ Hn).
  pose proof (delta_chain_nonempty nx) as Hne.
  destruct (delta_chain nx) as [|b deltas]; [done|].
  cbn [app]. destruct b; try done.
  destruct (copy_leaf_base _ _ _ _ _ _) as [base|]; [|done].
  cbn [mbind result_bind]. rewrite fold_deltas_app.
  destruct (fold_deltas leaf_apply_delta deltas base) as [acc|]; [|done].
  cbn [mbind result_bind fold_deltas].
  by destruct (leaf_apply_delta d acc).
Qed.

Lemma inner_fake_consolidate_step (d nx : Node KeyType) :
  next_of d = Some nx ->
  inner_fake_consolidate d
  = inner_fake_consolidate nx ≫= inner_apply_delta d.
Proof.
  intros Hn. unfold inner_fake_consolidate.
  rewrite (delta_chain_next _ _ Hn).
  pose proof (delta_chain_nonempty nx) as Hne.
  destruct (delta_chain nx) as [|b deltas]; [done|].
  cbn [app]. destruct b; try done.
  destruct (copy_inner_base _ _ _ _ _ _) as [[ks cs]|]; [|done].
  cbn [mbind result_bind].
  destruct (at_index _ _) as [p|]; [|done]. cbn [mbind result_bind].
  destruct (deref p) as [c|]; [|done]. cbn [mbind result_bind].
  rewrite fold_deltas_app.
  destruct (fold_deltas inner_apply_delta deltas _) as [acc|]; [|done].
  cbn [mbind result_bind fold_deltas].
  by destruct (inner_apply_delta d acc).
Qed.

(** Copying the base leaf reads its used slots. *)
Lemma copy_leaf_base_spec (slotkey : list KeyType) slotdata :
  forall cnt i tmpkeys tmpvals vs,
    (i + cnt <= length slotkey)%nat ->
    mapM id (take cnt (drop i slotdata)) = Some vs ->
    length vs = cnt ->
    copy_leaf_base slotkey slotdata i cnt tmpkeys tmpvals
    = Ok (tmpkeys ++ take cnt (drop i slotkey), tmpvals ++ vs).
Proof.
  induction cnt as [|cnt IH]; intros i tmpkeys tmpvals vs Hlen Hvs Hl.
  - destruct vs; [|done]. cbn [copy_leaf_base take]. by rewrite !app_nil_r.
  - destruct (lookup_lt_is_Some_2 slotkey i) as [k Hk]; [lia|].
    rewrite (drop_S _ _ _ Hk).
    destruct (drop i slotdata) as [|p ps] eqn:Hd.
    { rewrite take_nil in Hvs. cbv in Hvs. injection Hvs as <-. done. }
    assert (slotdata !! i = Some p) as Hp.
    { rewrite <- (Nat.add_0_r i), <- lookup_drop, Hd. done. }
    assert (drop (S i) slotdata = ps) as Hps.
    { replace (S i) with (i + 1)%nat by lia. rewrite <- drop_drop, Hd. done. }
    simpl in Hvs. apply bind_Some in Hvs as (v0 & Hv0 & Hvs).
    apply bind_Some in Hvs as (vs' & Hvs' & Hvs).
    injection Hvs as <-. cbv in Hv0. subst p. simpl in Hl.
    cbn [copy_leaf_base].
    rewrite (proj2 (at_index_Ok _ _ _) Hk), (proj2 (at_index_Ok _ _ _) Hp).
    cbn [mbind result_bind deref take].
    rewrite (IH (S i) _ _ vs'); [|lia|by rewrite Hps|lia].
    by rewrite <- !app_assoc.
Qed.

(** The projection of a base leaf is its used slots. *)
Lemma leaf_fake_consolidate_base (h : NodeHdr KeyType) slotkey slotdata es :
  leaf_entries h slotkey slotdata = Some es ->
  leaf_fake_consolidate (LeafNode h slotkey slotdata) = Ok (es.*1, es.*2).
Proof.
  unfold leaf_entries. intros He. case_decide; [|done].
  apply bind_Some in He as (vs & Hvs & He). case_decide; [|done].
  injection He as <-.
  unfold leaf_fake_consolidate, delta_chain. cbn [chain_to_base reverse].
  rewrite reverse_singleton.
  rewrite (copy_leaf_base_spec _ _ _ 0%nat [] [] vs); [|lia|done|done].
  cbn [mbind result_bind fold_deltas app drop].
  rewrite fst_zip, snd_zip; [done| |];
    rewrite length_take; lia.
Qed.

(** ** The two working vectors stay in step *)

Lemma find_first_Some {A} (p : A -> bool) l i :
  find_first p l = Some i ->
  (i < length l)%nat /\ (exists x, l !! i = Some x /\ p x = true) /\
  Forall (fun x => p x = false) (take i l).
Proof.
  revert i. induction l as [|x l IH]; intros i Hf; [done|].
  cbn [find_first] in Hf. destruct (p x) eqn:Hp.
  - injection Hf as <-. simpl. split; [lia|]. split; [eauto|constructor].
  - apply fmap_Some in Hf as (j & Hj & ->).
    destruct (IH j Hj) as (? & ? & ?). simpl. split; [lia|].
    split; [done|]. by constructor.
Qed.

Lemma find_first_None {A} (p : A -> bool) l :
  find_first p l = None -> Forall (fun x => p x = false) l.
Proof.
  induction l as [|x l IH]; intros Hf; [constructor|].
  cbn [find_first] in Hf. destruct (p x) eqn:Hp; [done|].
  apply fmap_None in Hf. constructor; auto.
Qed.

Lemma vec_insert_Ok {A} pos (x : A) v v' :
  vec_insert pos x v = Ok v' ->
  (pos <= length v)%nat /\ v' = take pos v ++ x :: drop pos v.
Proof. unfold vec_insert. case_decide; intros Hv; by simplify_eq. Qed.

Lemma vec_erase_Ok {A} pos (v v' : list A) :
  vec_erase pos v = Ok v' -> (pos < length v)%nat /\ v' = delete pos v.
Proof. unfold vec_erase. case_decide; intros Hv; by simplify_eq. Qed.

Lemma length_vec_resize {A} (d : A) n v : length (vec_resize d n v) = n.
Proof.
  unfold vec_resize. rewrite length_app, length_take, length_replicate. lia.
Qed.

Lemma target_pos_le (key : KeyType) ks : (target_pos key ks <= length ks)%nat.
Proof. unfold target_pos. destruct (find_first _ _); lia. Qed.

(** Every step of the fold keeps the two working vectors in step. *)
Lemma leaf_apply_delta_lengths (d : Node KeyType) ks vs ks' vs' :
  length ks = length vs ->
  leaf_apply_delta d (ks, vs) = Ok (ks', vs') ->
  length ks' = length vs'.
Proof.
  intros Hl Ha. unfold leaf_apply_delta in Ha.
  destruct d; try (by simplify_eq).
  - destruct op_type; [| |by simplify_eq].
    + unfold leaf_apply_insert in Ha.
      destruct (find_first _ ks) as [x|].
      * inv_bind. by rewrite length_insert.
      * inv_bind. destruct x as [ks1 vs1].
        destr_if Ha; [|done]. injection Ha as <- <-.
        match goal with Hx : (if _ then _ else _) = Ok _ |- _ =>
          destr_if Hx end.
        -- simplify_eq. rewrite !length_app. simpl. lia.
        -- inv_bind.
           repeat match goal with Hx : vec_insert _ _ _ = Ok _ |- _ =>
             apply vec_insert_Ok in Hx as [? ->] end.
           rewrite !length_app. simpl.
           rewrite !length_take, !length_drop. lia.
    + unfold leaf_apply_delete in Ha. inv_bind. destruct x as [ks1 vs1].
      destr_if Ha; [|done]. injection Ha as <- <-.
      match goal with Hx : match find_first ?p ?l with _ => _ end = _ |- _ =>
        destruct (find_first p l) as [i|] eqn:Hff end; [|by simplify_eq].
      inv_bind.
      match goal with Hx : (if _ then _ else _) = Ok _ |- _ =>
          destr_if Hx end.
      * inv_bind.
        repeat match goal with Hx : vec_erase _ _ = Ok _ |- _ =>
             apply vec_erase_Ok in Hx as [? ->] end.
        rewrite !length_delete, !length_insert; [lia| |].
        -- apply lookup_lt_is_Some. rewrite length_insert in *. lia.
        -- apply lookup_lt_is_Some. lia.
      * simplify_eq. by rewrite length_insert.
  - destruct (find_first _ ks) as [i|]; simplify_eq; [|done].
    by rewrite !length_vec_resize.
Qed.

Lemma copy_leaf_base_lengths (slotkey : list KeyType) slotdata :
  forall cnt i ks vs ks' vs',
    length ks = length vs ->
    copy_leaf_base slotkey slotdata i cnt ks vs = Ok (ks', vs') ->
    length ks' = length vs'.
Proof.
  induction cnt as [|cnt IH]; intros i ks vs ks' vs' Hl Hc;
    cbn [copy_leaf_base] in Hc.
  - by simplify_eq.
  - inv_bind. eapply IH; [|done]. rewrite !length_app. simpl. lia.
Qed.

Lemma leaf_fake_consolidate_lengths (n : Node KeyType) ks vs :
  leaf_fake_consolidate n = Ok (ks, vs) -> length ks = length vs.
Proof.
  revert ks vs. induction n; intros ks vs Hf;
    try (erewrite leaf_fake_consolidate_step in Hf by reflexivity;
         apply bind_Ok in Hf as ([ks0 vs0] & Hf0 & Hf);
         eapply leaf_apply_delta_lengths; [|exact Hf]; eauto).
  - unfold leaf_fake_consolidate, delta_chain in Hf.
    cbn [chain_to_base] in Hf. rewrite reverse_singleton in Hf.
    inv_bind. destruct x as [ks0 vs0]. cbn [fold_deltas] in Hf.
    simplify_eq. eapply copy_leaf_base_lengths; [|done]. done.
  - unfold leaf_fake_consolidate, delta_chain in Hf.
    cbn [chain_to_base] in Hf. by rewrite reverse_singleton in Hf.
Qed.

(** ** The keys of the projection *)

(** What one delta does to the keys of the working set. *)
Lemma leaf_apply_delta_keys (d : Node KeyType) ks vs ks' vs' :
  leaf_apply_delta d (ks, vs) = Ok (ks', vs') ->
  match d with
  | RecordDelta _ INSERT k _ _ =>
      ks' = ks \/
      (Forall (fun x => key_equal x k = false) ks /\
       ks' = take (target_pos k ks) ks ++ k :: drop (target_pos k ks) ks)
  | RecordDelta _ DELETE _ _ _ => ks' = ks \/ exists x, ks' = delete x ks
  | SplitDelta _ Kp _ _ =>
      (exists i, ks' = take i ks) /\
      Forall (fun x => m_key_less x Kp = true) ks'
  | _ => ks' = ks
  end.
Proof.
  intros Ha. unfold leaf_apply_delta in Ha.
  destruct d; try (by simplify_eq).
  - destruct op_type; [| |by simplify_eq].
    + unfold leaf_apply_insert in Ha.
      destruct (find_first _ ks) as [x|] eqn:Hff.
      * inv_bind. by left.
      * apply find_first_None in Hff.
        inv_bind. destruct x as [ks1 vs1].
        destr_if Ha; [|done]. injection Ha as <- <-.
        match goal with Hx : (if _ then _ else _) = Ok _ |- _ =>
          destr_if Hx end.
        -- simplify_eq.
           repeat match goal with Hx : (_ =? _) = true |- _ =>
             apply Z.eqb_eq in Hx end.
           rewrite length_app in *. simpl in *. lia.
        -- inv_bind.
           repeat match goal with Hx : vec_insert _ _ _ = Ok _ |- _ =>
             apply vec_insert_Ok in Hx as [? ->] end.
           by right.
    + unfold leaf_apply_delete in Ha. inv_bind. destruct x as [ks1 vs1].
      destr_if Ha; [|done]. injection Ha as <- <-.
      match goal with Hx : match find_first ?p ?l with _ => _ end = _ |- _ =>
        destruct (find_first p l) as [i|] eqn:Hff end;
        [|simplify_eq; by left].
      inv_bind.
      match goal with Hx : (if _ then _ else _) = Ok _ |- _ =>
          destr_if Hx end.
      * inv_bind.
        repeat match goal with Hx : vec_erase _ _ = Ok _ |- _ =>
             apply vec_erase_Ok in Hx as [? ->] end.
        right. eauto.
      * simplify_eq. by left.
  - destruct (find_first _ ks) as [i|] eqn:Hff.
    + apply find_first_Some in Hff as (Hi & _ & Hall). simplify_eq.
      assert (vec_resize waste i ks = take i ks) as ->.
      { unfold vec_resize. replace (i - length ks)%nat with O by lia.
        apply app_nil_r. }
      split; [eauto|]. eapply Forall_impl; [exact Hall|].
      intros x Hx. unfold key_greaterequal in Hx.
      by apply negb_false_iff in Hx.
    + apply find_first_None in Hff. simplify_eq. split.
      * exists (length ks'). by rewrite take_ge.
      * eapply Forall_impl; [exact Hff|].
        intros x Hx. unfold key_greaterequal in Hx.
        by apply negb_false_iff in Hx.
Qed.

Lemma key_in_node_same_range (k : KeyType) (h h' : NodeHdr KeyType) :
  same_range h h' -> key_in_node k h = key_in_node k h'.
Proof. unfold key_in_node. by intros (-> & -> & -> & ->). Qed.

(** ** The new sibling of a leaf *)

Lemma half_nat (n : nat) : Z.to_nat (Z.of_nat n / 2) = (n / 2)%nat.
Proof.
  change 2 with (Z.of_nat 2). rewrite <- (Nat2Z.inj_div n 2). apply Nat2Z.id.
Qed.

Lemma upper_nat (n : nat) :
  Z.to_nat (Z.of_nat n - Z.of_nat n / 2) = (n - n / 2)%nat.
Proof.
  change 2 with (Z.of_nat 2).
  rewrite <- (Nat2Z.inj_div n 2), <- Nat2Z.inj_sub, Nat2Z.id; [done|].
  apply Nat.Div0.div_le_upper_bound. lia.
Qed.

Lemma ceil_half (n : nat) : (Z.of_nat n + 1) / 2 = Z.of_nat (n - n / 2).
Proof.
  pose proof (Nat.div_mod_eq n 2).
  pose proof (Nat.mod_upper_bound n 2 ltac:(lia)).
  assert (n - n / 2 = n / 2 + n mod 2)%nat as -> by lia.
  symmetry. apply Z.div_unique with (r := Z.of_nat (1 - n mod 2)); lia.
Qed.

Lemma create_leaf_spec (t : BWTreeState KeyType)
    (check_split_node : Node KeyType) keys vals :
  let ch := hdr_of check_split_node in
  let n := length keys in
  leaf_fake_consolidate check_split_node = Ok (keys, vals) ->
  slotuse ch = Z.of_nat n ->
  need_split ch = true -> is_leaf ch = true ->
  Z.of_nat n <= leafslotmax + 1 ->
  mt_shape (mapping_table t) = true -> mt_room (mapping_table t) = true ->
  exists new_leaf_pid pivotal t' h slotkey slotdata,
    create_leaf check_split_node t = Ok ((new_leaf_pid, pivotal), t') /\
    mt_get (mapping_table t') new_leaf_pid
      = Ok (Some (LeafNode h slotkey slotdata)) /\
    leaf_entries h slotkey slotdata
      = Some (zip (drop (n / 2) keys) (drop (n / 2) vals)) /\
    slotuse h = Z.of_nat (n - n / 2) /\
    length (drop (n / 2) keys) = ((n + 1) / 2)%nat /\
    keys !! (n / 2)%nat = Some pivotal /\
    low_key h = pivotal /\ inf_lowkey h = false /\
    high_key h = high_key ch /\ inf_highkey h = inf_highkey ch /\
    next_leafnode h = next_leafnode ch /\
    delta_list_len h = 0 /\
    new_leaf_pid = nextPid (mapping_table t) /\
    mt_shape (mapping_table t') = true /\
    (forall q, q <> new_leaf_pid ->
               mt_get (mapping_table t') q = mt_get (mapping_table t) q).
Proof.
  intros ch n Hfc Hsu Hns Hlf Hcap Hsh Hroom.
  assert (length vals = n) as Hlv
    by (symmetry; by eapply leaf_fake_consolidate_lengths).
  pose proof leafslotmax_bounds as Hmax.
  assert (8 <= n)%nat as Hn8.
  { unfold need_split in Hns. fold ch in Hns. rewrite Hlf in Hns.
    apply bool_decide_eq_true in Hns. lia. }
  assert (n / 2 < n)%nat as Hhalf by (apply Nat.div_lt; lia).
  assert (n - n / 2 <= Z.to_nat (leafslotmax + 1))%nat as Hfit by lia.
  destruct (lookup_lt_is_Some_2 keys (n / 2)) as [k0 Hk0]; [done|].
  set (h0 := LeafNode_hdr (brk t) (next_leafnode ch) waste (high_key ch) false
                          (inf_highkey ch)).
  set (h1 := set_slotuse (ushort ((Z.of_nat n + 1) / 2)) (set_low_key k0 h0)).
  set (ks := drop (n / 2) keys). set (vs := drop (n / 2) vals).
  set (slotkey := ks ++ drop (n - n / 2) (LeafNode_slotkey (KeyType:=KeyType))).
  set (slotdata := (Some <$> vs) ++ drop (n - n / 2) LeafNode_slotdata).
  set (t1 := mkBWTree (root t) (mapping_table t) (garbage_table t)
                      (headleaf t) (brk t + 1)).
  destruct (mt_add_spec (mapping_table t)
              (Some (LeafNode h1 slotkey slotdata)) Hsh Hroom)
    as (mt' & Hadd & Hsh' & Hnp & Hget & Hother).
  assert (fill_leaf keys vals (n / 2) 0 (n - n / 2)
            LeafNode_slotkey LeafNode_slotdata = Ok (slotkey, slotdata)) as Hfill.
  { rewrite fill_leaf_spec;
      [|lia|lia|unfold LeafNode_slotkey; rewrite length_replicate; lia
       |unfold LeafNode_slotdata; rewrite length_replicate; lia].
    rewrite !take_0. cbn [app].
    rewrite !take_ge by (rewrite length_drop; lia). done. }
  assert (at_index slotkey 0 = Ok k0) as Hat0.
  { apply at_index_Ok. subst slotkey ks.
    rewrite lookup_app_l by (rewrite length_drop; lia).
    by rewrite lookup_drop, Nat.add_0_r. }
  exists (nextPid (mapping_table t)), k0,
    (mkBWTree (root t) mt' (garbage_table t) (headleaf t) (brk t + 1)),
    (set_pid (nextPid (mapping_table t)) h1), slotkey, slotdata.
  split.
  { unfold create_leaf, bind, alloc, lift, table_add, ret. fold ch.
    rewrite Hfc. rewrite Hsu, half_nat, upper_nat. fold n. rewrite Hfill.
    rewrite Hat0. cbn [mapping_table]. fold h0 h1. rewrite Hadd.
    cbn [mbind result_bind].
    destruct (Z.eqb_spec (nextPid (mapping_table t)) NULL_PID) as [He|_]; [|done].
    apply andb_true_iff in Hroom as [Hr _]. apply Z.leb_le in Hr.
    unfold NULL_PID in He. lia. }
  split; [exact Hget|].
  assert (ushort ((Z.of_nat n + 1) / 2) = Z.of_nat (n - n / 2)) as Hus.
  { rewrite ceil_half. unfold ushort. apply Z.mod_small. lia. }
  split.
  { subst slotkey slotdata. apply leaf_entries_fill.
    - subst ks vs. rewrite !length_drop. lia.
    - cbn [slotuse set_pid h1 set_slotuse]. rewrite Hus. subst ks.
      rewrite length_drop. done. }
  split; [exact Hus|].
  split.
  { subst ks. rewrite length_drop. fold n.
    pose proof (Nat.div_mod_eq n 2).
    pose proof (Nat.mod_upper_bound n 2 ltac:(lia)).
    pose proof (Nat.div_mod_eq (n + 1) 2).
    pose proof (Nat.mod_upper_bound (n + 1) 2 ltac:(lia)). lia. }
  repeat split; done.
Qed.

(** ** The new sibling of an inner node *)

Lemma fill_inner_spec (keys : list KeyType) (childs : list PidType) di dj :
  forall cnt i j slotkey childid,
    (i + cnt <= length keys)%nat -> (i + di + cnt <= length childs)%nat ->
    (j + cnt <= length slotkey)%nat -> (j + dj + cnt <= length childid)%nat ->
    fill_inner keys childs di dj i j cnt slotkey childid
    = Ok (take j slotkey ++ take cnt (drop i keys) ++ drop (j + cnt) slotkey,
          take (j + dj) childid ++ (Some <$> take cnt (drop (i + di) childs))
            ++ drop (j + dj + cnt) childid).
Proof.
  induction cnt as [|cnt IH]; intros i j slotkey childid Hk Hc Hsk Hsc.
  - cbn [fill_inner]. rewrite !Nat.add_0_r, !take_0. cbn [fmap list_fmap app].
    by rewrite !take_drop.
  - cbn [fill_inner].
    destruct (lookup_lt_is_Some_2 keys i) as [k Hki]; [lia|].
    destruct (lookup_lt_is_Some_2 childs (i + di)) as [c Hci]; [lia|].
    rewrite (proj2 (at_index_Ok _ _ _) Hki), (proj2 (at_index_Ok _ _ _) Hci).
    cbn [mbind result_bind].
    rewrite !store_index_Ok by lia. cbn [mbind result_bind].
    rewrite IH by (rewrite ?length_insert; lia).
    rewrite (drop_S _ _ _ Hki), (drop_S _ _ _ Hci).
    cbn [take fmap list_fmap].
    replace (S j + dj)%nat with (S (j + dj)) by lia.
    rewrite (take_S_r (<[j:=_]> _) j _)
      by (apply list_lookup_insert_eq; lia).
    rewrite (take_S_r (<[(j + dj)%nat:=_]> _) (j + dj) _)
      by (apply list_lookup_insert_eq; lia).
    rewrite !take_insert_ge by lia.
    rewrite !drop_insert_lt by lia.
    rewrite <- !app_assoc. cbn [app].
    replace (S j + cnt)%nat with (j + S cnt)%nat by lia.
    replace (S (j + dj) + cnt)%nat with (j + dj + S cnt)%nat by lia.
    replace (S i + di)%nat with (S (i + di)) by lia.
    done.
Qed.

Lemma inner_apply_delta_lengths (d : Node KeyType) ks cs ks' cs' :
  length cs = S (length ks) ->
  inner_apply_delta d (ks, cs) = Ok (ks', cs') ->
  length cs' = S (length ks').
Proof.
  intros Hl Ha. unfold inner_apply_delta in Ha.
  destruct d; try (by simplify_eq).
  - destruct (find_first _ ks) as [i|]; simplify_eq; [|done].
    by rewrite !length_vec_resize, Nat.add_1_r.
  - inv_bind.
    repeat match goal with Hx : vec_insert _ _ _ = Ok _ |- _ =>
      apply vec_insert_Ok in Hx as [? ->] end.
    rewrite !length_app. simpl. rewrite !length_take, !length_drop. lia.
Qed.

Lemma copy_inner_base_lengths (slotkey : list KeyType) childid :
  forall cnt i ks cs ks' cs',
    length ks = length cs ->
    copy_inner_base slotkey childid i cnt ks cs = Ok (ks', cs') ->
    length ks' = length cs'.
Proof.
  induction cnt as [|cnt IH]; intros i ks cs ks' cs' Hl Hc;
    cbn [copy_inner_base] in Hc.
  - by simplify_eq.
  - inv_bind. eapply IH; [|done]. rewrite !length_app. simpl. lia.
Qed.

(** An inner projection has one child more than it has keys. *)
Lemma inner_fake_consolidate_lengths (n : Node KeyType) ks cs :
  inner_fake_consolidate n = Ok (ks, cs) -> length cs = S (length ks).
Proof.
  revert ks cs. induction n; intros ks cs Hf;
    try (erewrite inner_fake_consolidate_step in Hf by reflexivity;
         apply bind_Ok in Hf as ([ks0 cs0] & Hf0 & Hf);
         eapply inner_apply_delta_lengths; [|exact Hf]; eauto).
  - unfold inner_fake_consolidate, delta_chain in Hf.
    cbn [chain_to_base] in Hf. by rewrite reverse_singleton in Hf.
  - unfold inner_fake_consolidate, delta_chain in Hf.
    cbn [chain_to_base] in Hf. rewrite reverse_singleton in Hf.
    inv_bind. destruct x as [ks0 cs0]. inv_bind. cbn [fold_deltas] in Hf.
    simplify_eq. rewrite length_app. simpl.
    match goal with Hc : copy_inner_base _ _ _ _ _ _ = Ok _ |- _ =>
      apply copy_inner_base_lengths in Hc; [|done] end.
    lia.
Qed.

(** C9: the sibling that [create_inner] builds for an inner node whose
    projection has [n] keys has the null PID as its first child; its next
    [n - n/2] child slots hold the children to the right of the keys of
    the upper half, and its keys are that upper half. *)
Theorem create_inner_first_child_null (t : BWTreeState KeyType)
    (check_split_node : Node KeyType) keys childs :
  let ch := hdr_of check_split_node in
  let n := length keys in
  inner_fake_consolidate check_split_node = Ok (keys, childs) ->
  slotuse ch = Z.of_nat n ->
  need_split ch = true -> is_leaf ch = false ->
  Z.of_nat n <= innerslotmax + 1 ->
  mt_shape (mapping_table t) = true -> mt_room (mapping_table t) = true ->
  exists new_inner_pid pivotal t' h slotkey childid,
    create_inner check_split_node t = Ok ((new_inner_pid, pivotal), t') /\
    mt_get (mapping_table t') new_inner_pid
      = Ok (Some (InnerNode h slotkey childid)) /\
    childid !! 0%nat = Some (Some NULL_PID) /\
    take (n - n / 2) (drop 1 childid) = Some <$> drop (n / 2 + 1) childs /\
    take (n - n / 2) slotkey = drop (n / 2) keys /\
    slotuse h = Z.of_nat (n - n / 2) /\
    keys !! (n / 2)%nat = Some pivotal /\
    low_key h = pivotal /\ inf_lowkey h = false /\
    high_key h = high_key ch /\ inf_highkey h = inf_highkey ch.
Proof.
  intros ch n Hfc Hsu Hns Hlf Hcap Hsh Hroom.
  pose proof innerslotmax_bounds as Hmax.
  assert (length childs = S n) as Hlc
    by (by eapply inner_fake_consolidate_lengths).
  assert (8 <= n)%nat as Hn8.
  { unfold need_split in Hns. fold ch in Hns. rewrite Hlf in Hns.
    apply bool_decide_eq_true in Hns. lia. }
  assert (n / 2 < n)%nat as Hhalf by (apply Nat.div_lt; lia).
  destruct (lookup_lt_is_Some_2 keys (n / 2)) as [k0 Hk0]; [done|].
  set (h0 := InnerNode_hdr (brk t) waste (high_key ch) false (inf_highkey ch)).
  set (h1 := set_slotuse (ushort ((Z.of_nat n + 1) / 2)) (set_low_key k0 h0)).
  set (ks := drop (n / 2) keys). set (cs := drop (n / 2 + 1) childs).
  set (childid0 := <[0%nat := Some NULL_PID]>
                     (InnerNode_childid (KeyType:=KeyType))).
  set (slotkey := ks ++ drop (n - n / 2) (InnerNode_slotkey (KeyType:=KeyType))).
  set (childid := take 1 childid0 ++ (Some <$> cs)
                    ++ drop (1 + (n - n / 2)) childid0).
  assert (length (InnerNode_childid (KeyType:=KeyType))
          = Z.to_nat (innerslotmax + 1 + 1)) as Hlci
    by (unfold InnerNode_childid; apply length_replicate).
  assert (length (InnerNode_slotkey (KeyType:=KeyType))
          = Z.to_nat (innerslotmax + 1)) as Hlsk
    by (unfold InnerNode_slotkey; apply length_replicate).
  destruct (mt_add_spec (mapping_table t)
              (Some (InnerNode h1 slotkey childid)) Hsh Hroom)
    as (mt' & Hadd & Hsh' & Hnp & Hget & Hother).
  assert (fill_inner keys childs 1 1 (n / 2) 0 (n - n / 2)
            InnerNode_slotkey childid0 = Ok (slotkey, childid)) as Hfill.
  { rewrite fill_inner_spec;
      [|lia|lia|lia|subst childid0; rewrite length_insert; lia].
    rewrite !take_0. cbn [app Nat.add].
    rewrite (take_ge (drop (n / 2) keys)) by (rewrite length_drop; lia).
    rewrite (take_ge (drop (n / 2 + 1) childs)) by (rewrite length_drop; lia).
    done. }
  assert (at_index slotkey 0 = Ok k0) as Hat0.
  { apply at_index_Ok. subst slotkey ks.
    rewrite lookup_app_l by (rewrite length_drop; lia).
    by rewrite lookup_drop, Nat.add_0_r. }
  assert (childid0 !! 0%nat = Some (Some NULL_PID)) as Hc0.
  { subst childid0. apply list_lookup_insert_eq.
    unfold InnerNode_childid. rewrite length_replicate. lia. }
  exists (nextPid (mapping_table t)), k0,
    (mkBWTree (root t) mt' (garbage_table t) (headleaf t) (brk t + 1)),
    (set_pid (nextPid (mapping_table t)) h1), slotkey, childid.
  split.
  { unfold create_inner, bind, alloc, lift, table_add, ret. fold ch.
    rewrite Hfc. rewrite store_index_Ok by lia.
    fold childid0.
    rewrite Hsu, half_nat, upper_nat. fold n. rewrite Hfill.
    rewrite Hat0. cbn [mapping_table]. fold h0 h1. rewrite Hadd.
    cbn [mbind result_bind].
    destruct (Z.eqb_spec (nextPid (mapping_table t)) NULL_PID) as [He|_]; [|done].
    apply andb_true_iff in Hroom as [Hr _]. apply Z.leb_le in Hr.
    unfold NULL_PID in He. lia. }
  split; [exact Hget|].
  assert (ushort ((Z.of_nat n + 1) / 2) = Z.of_nat (n - n / 2)) as Hus.
  { rewrite ceil_half. unfold ushort. apply Z.mod_small. lia. }
  assert (take 1 childid0 = [Some NULL_PID]) as Ht1
    by (by rewrite (take_S_r _ 0 _ Hc0), take_0).
  split; [by subst childid; rewrite Ht1|].
  split.
  { subst childid. rewrite Ht1. cbn [app drop].
    apply take_app_length'. subst cs. rewrite length_fmap, length_drop. lia. }
  split.
  { subst slotkey. apply take_app_length'. subst ks. rewrite length_drop. lia. }
  repeat split; done.
Qed.

(** ** One round of consolidation: a leaf *)

Lemma mt_get_Some_room (mt : MappingTable KeyType) p n :
  mt_shape mt = true -> mt_get mt p = Ok (Some n) ->
  0 <= p < MAPPING_TABLE_SIZE * MAPPING_TABLE_SIZE.
Proof.
  intros Hsh Hg. destruct (mt_shape_inv _ Hsh) as [Hl _].
  apply mt_get_Some in Hg as (Hp & b & Hb & _).
  apply lookup_lt_Some in Hb. rewrite Hl in Hb.
  destruct (tier_index_bounds p Hp) as (H1 & H2 & H3).
  change (MAPPING_TABLE_SIZE * MAPPING_TABLE_SIZE) with (1024 * 1024). lia.
Qed.

Lemma leaf_fake_consolidate_assign_pid p (n : Node KeyType) :
  leaf_fake_consolidate (assign_pid p n) = leaf_fake_consolidate n.
Proof.
  destruct n; try reflexivity; cbn [assign_pid with_hdr];
    match goal with
    | |- leaf_fake_consolidate ?a = leaf_fake_consolidate ?b =>
        rewrite (leaf_fake_consolidate_step a _ eq_refl),
                (leaf_fake_consolidate_step b _ eq_refl)
    end; f_equal; reflexivity.
Qed.

Lemma inner_fake_consolidate_assign_pid p (n : Node KeyType) :
  inner_fake_consolidate (assign_pid p n) = inner_fake_consolidate n.
Proof.
  destruct n; try reflexivity; cbn [assign_pid with_hdr];
    match goal with
    | |- inner_fake_consolidate ?a = inner_fake_consolidate ?b =>
        rewrite (inner_fake_consolidate_step a _ eq_refl),
                (inner_fake_consolidate_step b _ eq_refl)
    end; f_equal; reflexivity.
Qed.

(** The leaf branch of one round of [consolidate], when the exchange
    meets the node it expects. *)
Lemma consolidate_leaf_spec (t : BWTreeState KeyType) pid_ orinode keys vals :
  let oh := hdr_of orinode in
  mt_get (mapping_table t) pid_ = Ok (Some orinode) ->
  leaf_fake_consolidate orinode = Ok (keys, vals) ->
  Z.of_nat (length keys) <= leafslotmax ->
  mt_shape (mapping_table t) = true ->
  mt_shape (garbage_table t) = true -> mt_room (garbage_table t) = true ->
  exists h slotkey slotdata t',
    let new_leaf := LeafNode h slotkey slotdata in
    consolidate_leaf pid_ orinode t = Ok (Some new_leaf, t') /\
    mt_get (mapping_table t') pid_ = Ok (Some new_leaf) /\
    (forall q, q <> pid_ ->
               mt_get (mapping_table t') q = mt_get (mapping_table t) q) /\
    mt_shape (mapping_table t') = true /\
    nextPid (mapping_table t') = nextPid (mapping_table t) /\
    leaf_entries h slotkey slotdata = Some (zip keys vals) /\
    delta_list_len h = 0 /\ slotuse h = Z.of_nat (length keys) /\
    is_leaf h = true /\ pid h = Some pid_ /\
    next_leafnode h = next_leafnode oh /\
    low_key h = low_key oh /\ high_key h = high_key oh /\
    inf_lowkey h = inf_lowkey oh /\ inf_highkey h = inf_highkey oh.
Proof.
  intros oh Hget Hfc Hcap Hsh Hgsh Hgroom.
  pose proof leafslotmax_bounds as Hmax.
  pose proof (leaf_fake_consolidate_lengths _ _ _ Hfc) as Hlen.
  pose proof (mt_get_Some_room _ _ _ Hsh Hget) as Hproom.
  set (h0 := LeafNode_hdr (brk t) (next_leafnode oh) (low_key oh) (high_key oh)
                          (inf_lowkey oh) (inf_highkey oh)).
  set (h1 := set_slotuse (ushort (Z.of_nat (length keys))) h0).
  set (slotkey := keys ++ drop (length keys) (LeafNode_slotkey (KeyType:=KeyType))).
  set (slotdata := (Some <$> vals) ++ drop (length keys) LeafNode_slotdata).
  assert (fill_leaf keys vals 0 0 (length keys)
            LeafNode_slotkey LeafNode_slotdata = Ok (slotkey, slotdata)) as Hfill.
  { rewrite fill_leaf_spec;
      [|lia|lia|unfold LeafNode_slotkey; rewrite length_replicate; lia
       |unfold LeafNode_slotdata; rewrite length_replicate; lia].
    rewrite !take_0. cbn [app drop Nat.add].
    rewrite (take_ge keys) by lia. rewrite (take_ge vals) by lia. done. }
  destruct (mt_set_succeeds (mapping_table t) pid_ orinode (Some orinode)
              (Some (LeafNode h1 slotkey slotdata)) Hget (ptr_eq_refl _))
    as [mt' Hset].
  destruct (mt_set_true _ _ _ _ _ Hsh Hset)
    as (Hp0 & Hsh2 & Hnp & _ & Hgs & Hos).
  destruct (mt_add_spec (garbage_table t) (Some orinode) Hgsh Hgroom)
    as (gt' & Hadd & _).
  assert (ushort (Z.of_nat (length keys)) = Z.of_nat (length keys)) as Hus.
  { unfold ushort. apply Z.mod_small. lia. }
  exists (set_pid pid_ h1), slotkey, slotdata,
    (mkBWTree (root t) mt' gt' (headleaf t) (brk t + 1)).
  cbn zeta. split.
  { unfold consolidate_leaf, bind, alloc, lift. rewrite Hfc.
    rewrite (proj2 (Nat.eqb_eq _ _) Hlen). cbn [negb orb].
    destruct (Z.ltb_spec leafslotmax (Z.of_nat (length keys))); [lia|].
    rewrite Hfill. fold oh h0 h1.
    unfold table_set, garbage_add, ret. cbn [mapping_table garbage_table].
    rewrite Hset. cbn [mbind result_bind garbage_table]. rewrite Hadd.
    cbn [mbind result_bind]. reflexivity. }
  cbn [mapping_table].
  split; [rewrite Hgs by lia; reflexivity|].
  split; [exact Hos|]. split; [exact Hsh2|]. split; [exact Hnp|].
  split.
  { subst slotkey slotdata. apply leaf_entries_fill; [done|].
    cbn [slotuse set_pid h1 set_slotuse]. exact Hus. }
  repeat split; done.
Qed.

(** ** One round of consolidation: an inner node *)

Lemma copy_inner_base_spec (slotkey : list KeyType) childid :
  forall cnt i tmpkeys tmpchilds cs,
    (i + cnt <= length slotkey)%nat ->
    mapM id (take cnt (drop i childid)) = Some cs ->
    length cs = cnt ->
    copy_inner_base slotkey childid i cnt tmpkeys tmpchilds
    = Ok (tmpkeys ++ take cnt (drop i slotkey), tmpchilds ++ cs).
Proof.
  induction cnt as [|cnt IH]; intros i tmpkeys tmpchilds cs Hlen Hcs Hl.
  - destruct cs; [|done]. cbn [copy_inner_base take]. by rewrite !app_nil_r.
  - destruct (lookup_lt_is_Some_2 slotkey i) as [k Hk]; [lia|].
    rewrite (drop_S _ _ _ Hk).
    destruct (drop i childid) as [|p ps] eqn:Hd.
    { rewrite take_nil in Hcs. cbv in Hcs. injection Hcs as <-. done. }
    assert (childid !! i = Some p) as Hp.
    { rewrite <- (Nat.add_0_r i), <- lookup_drop, Hd. done. }
    assert (drop (S i) childid = ps) as Hps.
    { replace (S i) with (i + 1)%nat by lia. rewrite <- drop_drop, Hd. done. }
    simpl in Hcs. apply bind_Some in Hcs as (c0 & Hc0 & Hcs).
    apply bind_Some in Hcs as (cs' & Hcs' & Hcs).
    injection Hcs as <-. cbv in Hc0. subst p. simpl in Hl.
    cbn [copy_inner_base].
    rewrite (proj2 (at_index_Ok _ _ _) Hk), (proj2 (at_index_Ok _ _ _) Hp).
    cbn [mbind result_bind deref take].
    rewrite (IH (S i) _ _ cs'); [|lia|by rewrite Hps|lia].
    by rewrite <- !app_assoc.
Qed.

(** The projection of a base inner node is its used slots. *)
Lemma inner_fake_consolidate_base (h : NodeHdr KeyType) keys childs rk rc :
  slotuse h = Z.of_nat (length keys) ->
  length childs = S (length keys) ->
  inner_fake_consolidate (InnerNode h (keys ++ rk) ((Some <$> childs) ++ rc))
  = Ok (keys, childs).
Proof.
  intros Hs Hl.
  destruct (lookup_lt_is_Some_2 childs (length keys)) as [c Hc]; [lia|].
  assert (childs = take (length keys) childs ++ [c]) as Hsplit.
  { rewrite <- (take_drop (length keys) childs) at 1. f_equal.
    rewrite (drop_S _ _ _ Hc). rewrite drop_ge by lia. done. }
  unfold inner_fake_consolidate, delta_chain. cbn [chain_to_base].
  rewrite reverse_singleton, Hs, Nat2Z.id.
  rewrite (copy_inner_base_spec _ _ _ 0%nat [] [] (take (length keys) childs)).
  - cbn [mbind result_bind app drop].
    unfold at_index. rewrite lookup_app_l by (rewrite length_fmap; lia).
    rewrite list_lookup_fmap, Hc. cbn [fmap option_fmap option_map mbind result_bind deref fold_deltas].
    rewrite drop_0, take_app_length. by rewrite <- Hsplit.
  - rewrite length_app. lia.
  - rewrite drop_0, take_app_le by (rewrite length_fmap; lia).
    rewrite <- fmap_take. apply mapM_id_Some.
  - rewrite length_take. lia.
Qed.

Lemma consolidate_inner_spec (t : BWTreeState KeyType) pid_ orinode keys childs :
  let oh := hdr_of orinode in
  mt_get (mapping_table t) pid_ = Ok (Some orinode) ->
  inner_fake_consolidate orinode = Ok (keys, childs) ->
  Z.of_nat (length keys) <= innerslotmax ->
  mt_shape (mapping_table t) = true ->
  mt_shape (garbage_table t) = true -> mt_room (garbage_table t) = true ->
  exists h slotkey childid t',
    let new_inner := InnerNode h slotkey childid in
    consolidate_inner pid_ orinode t = Ok (Some new_inner, t') /\
    mt_get (mapping_table t') pid_ = Ok (Some new_inner) /\
    (forall q, q <> pid_ ->
               mt_get (mapping_table t') q = mt_get (mapping_table t) q) /\
    mt_shape (mapping_table t') = true /\
    nextPid (mapping_table t') = nextPid (mapping_table t) /\
    inner_fake_consolidate new_inner = Ok (keys, childs) /\
    take (length keys) slotkey = keys /\
    take (S (length keys)) childid = Some <$> childs /\
    delta_list_len h = 0 /\ slotuse h = Z.of_nat (length keys) /\
    is_leaf h = false /\ pid h = Some pid_ /\
    low_key h = low_key oh /\ high_key h = high_key oh /\
    inf_lowkey h = inf_lowkey oh /\ inf_highkey h = inf_highkey oh.
Proof.
  intros oh Hget Hfc Hcap Hsh Hgsh Hgroom.
  pose proof innerslotmax_bounds as Hmax.
  pose proof (inner_fake_consolidate_lengths _ _ _ Hfc) as Hlen.
  pose proof (mt_get_Some_room _ _ _ Hsh Hget) as Hproom.
  set (n := length keys) in *.
  destruct (lookup_lt_is_Some_2 childs n) as [c Hc]; [lia|].
  assert (childs = take n childs ++ [c]) as Hsplit.
  { rewrite <- (take_drop n childs) at 1. f_equal.
    rewrite (drop_S _ _ _ Hc). rewrite drop_ge by lia. done. }
  set (h0 := InnerNode_hdr (brk t) (low_key oh) (high_key oh)
                           (inf_lowkey oh) (inf_highkey oh)).
  set (h1 := set_slotuse (ushort (Z.of_nat n)) h0).
  set (slotkey := keys ++ drop n (InnerNode_slotkey (KeyType:=KeyType))).
  set (childid := (Some <$> childs)
                    ++ drop (S n) (InnerNode_childid (KeyType:=KeyType))).
  assert (length (InnerNode_childid (KeyType:=KeyType))
          = Z.to_nat (innerslotmax + 1 + 1)) as Hlci
    by (unfold InnerNode_childid; apply length_replicate).
  assert (length (InnerNode_slotkey (KeyType:=KeyType))
          = Z.to_nat (innerslotmax + 1)) as Hlsk
    by (unfold InnerNode_slotkey; apply length_replicate).
  set (childid1 := (Some <$> take n childs) ++ drop n InnerNode_childid).
  assert (fill_inner keys childs 0 0 0 0 n InnerNode_slotkey InnerNode_childid
          = Ok (slotkey, childid1)) as Hfill.
  { rewrite fill_inner_spec; [|lia..].
    rewrite !take_0. cbn [app drop Nat.add].
    rewrite (take_ge keys) by lia. done. }
  assert (store_index childid1 n (Some c) = Ok childid) as Hstore.
  { rewrite store_index_Ok.
    2:{ subst childid1. rewrite length_app, length_fmap, length_take,
          length_drop. lia. }
    f_equal. subst childid1 childid.
    rewrite insert_app_r_alt by (rewrite length_fmap, length_take; lia).
    rewrite length_fmap, length_take.
    replace (n - n `min` length childs)%nat with O by lia.
    destruct (drop n InnerNode_childid) as [|x rest] eqn:Hd.
    { apply (f_equal length) in Hd. rewrite length_drop in Hd.
      simpl in Hd. lia. }
    assert (drop (S n) InnerNode_childid = rest) as ->.
    { replace (S n) with (n + 1)%nat by lia.
      rewrite <- drop_drop, Hd. done. }
    cbn [insert list_insert]. rewrite Hsplit at 2.
    rewrite fmap_app, <- app_assoc. done. }
  destruct (mt_set_succeeds (mapping_table t) pid_ orinode (Some orinode)
              (Some (InnerNode h1 slotkey childid)) Hget (ptr_eq_refl _))
    as [mt' Hset].
  destruct (mt_set_true _ _ _ _ _ Hsh Hset)
    as (Hp0 & Hsh2 & Hnp & _ & Hgs & Hos).
  destruct (mt_add_spec (garbage_table t) (Some orinode) Hgsh Hgroom)
    as (gt' & Hadd & _).
  assert (ushort (Z.of_nat n) = Z.of_nat n) as Hus.
  { unfold ushort. apply Z.mod_small. lia. }
  exists (set_pid pid_ h1), slotkey, childid,
    (mkBWTree (root t) mt' gt' (headleaf t) (brk t + 1)).
  cbn zeta. split.
  { unfold consolidate_inner, bind, alloc, lift. rewrite Hfc. fold n.
    rewrite Hlen. unfold ulong. rewrite Z.mod_small by lia.
    replace (Z.of_nat n =? Z.of_nat (S n) - 1) with true
      by (symmetry; apply Z.eqb_eq; lia).
    cbn [negb orb].
    destruct (Z.ltb_spec innerslotmax (Z.of_nat n)); [lia|].
    rewrite Hfill. rewrite (proj2 (at_index_Ok _ _ _) Hc).
    rewrite Hstore. fold oh h0 h1.
    unfold table_set, garbage_add, ret. cbn [mapping_table garbage_table].
    rewrite Hset. cbn [mbind result_bind garbage_table]. rewrite Hadd.
    cbn [mbind result_bind]. reflexivity. }
  cbn [mapping_table].
  split; [rewrite Hgs by lia; reflexivity|].
  split; [exact Hos|]. split; [exact Hsh2|]. split; [exact Hnp|].
  split.
  { subst slotkey childid. apply inner_fake_consolidate_base; [|done].
    cbn [slotuse set_pid h1 set_slotuse]. exact Hus. }
  split; [by subst slotkey; apply take_app_length'|].
  split.
  { subst childid. apply take_app_length'. rewrite length_fmap. lia. }
  repeat split; done.
Qed.

(** ** Consolidation keeps the projection *)

(** C5: a consolidation that goes through ([delta_list_len] above the
    threshold, the exchange meeting the head it read) puts in the slot a
    base node with chain length zero whose projection is the fold of the
    old chain; consolidating the page again changes nothing: the same base
    node, chain length zero, the same projection. *)
Theorem consolidate_projection (t : BWTreeState KeyType) pid_ orinode proj fuel :
  mt_get (mapping_table t) pid_ = Ok (Some orinode) ->
  need_split (hdr_of orinode) = false ->
  MAX_DELTA_CHAIN_LEN < delta_list_len (hdr_of orinode) ->
  node_projection orinode = Ok proj ->
  slotuse (hdr_of orinode) = Z.of_nat (length (projection_keys proj)) ->
  mt_shape (mapping_table t) = true ->
  mt_shape (garbage_table t) = true -> mt_room (garbage_table t) = true ->
  exists new t1,
    consolidate (S fuel) pid_ t = Ok (Some new, t1) /\
    mt_get (mapping_table t1) pid_ = Ok (Some new) /\
    next_of new = None /\
    delta_list_len (hdr_of new) = 0 /\
    node_projection new = Ok proj /\
    (forall q, q <> pid_ ->
               mt_get (mapping_table t1) q = mt_get (mapping_table t) q) /\
    consolidate (S fuel) pid_ t1 = Ok (Some new, t1).
Proof.
  intros Hget Hns Hlen Hproj Hsu Hsh Hgsh Hgroom.
  unfold node_projection in Hproj.
  assert (forall new t1,
    (if is_leaf (hdr_of orinode) then consolidate_leaf pid_ orinode
     else consolidate_inner pid_ orinode) t = Ok (Some new, t1) ->
    consolidate (S fuel) pid_ t = Ok (Some new, t1)) as Hfirst.
  { intros new t1 Hc. unfold consolidate, bind, table_get, read, lift.
    rewrite Hget. cbn [deref]. rewrite Hns. cbn [consolidate_loop].
    destruct (Z.ltb_spec MAX_DELTA_CHAIN_LEN (delta_list_len (hdr_of orinode)));
      [|lia].
    unfold bind. rewrite Hc. reflexivity. }
  assert (forall new t1,
    mt_get (mapping_table t1) pid_ = Ok (Some new) ->
    need_split (hdr_of new) = false -> delta_list_len (hdr_of new) = 0 ->
    consolidate (S fuel) pid_ t1 = Ok (Some new, t1)) as Hsecond.
  { intros new t1 Hg Hn Hl. unfold consolidate, bind, table_get, read, lift.
    rewrite Hg. cbn [deref]. rewrite Hn. cbn [consolidate_loop]. rewrite Hl.
    reflexivity. }
  unfold need_split in Hns.
  destruct (is_leaf (hdr_of orinode)) eqn:Hlf.
  - apply bind_Ok in Hproj as ([keys vals] & Hfc & Hp). injection Hp as <-.
    cbn [projection_keys] in Hsu. apply bool_decide_eq_false in Hns.
    destruct (consolidate_leaf_spec t pid_ orinode keys vals Hget Hfc
                ltac:(lia) Hsh Hgsh Hgroom)
      as (h & sk & sd & t1 & Hc & Hg1 & Hoth & _ & _ & Hes & Hdl & Hsl
          & Hil & _).
    exists (LeafNode h sk sd), t1.
    split; [by apply Hfirst|]. split; [done|]. split; [done|].
    split; [done|]. split.
    { unfold node_projection. cbn [hdr_of]. rewrite Hil.
      rewrite (leaf_fake_consolidate_base _ _ _ _ Hes).
      pose proof (leaf_fake_consolidate_lengths _ _ _ Hfc).
      cbn [mbind result_bind]. rewrite fst_zip, snd_zip by lia. done. }
    split; [done|].
    apply Hsecond; [done| |done].
    unfold need_split. cbn [hdr_of]. rewrite Hil.
    apply bool_decide_eq_false. lia.
  - apply bind_Ok in Hproj as ([keys childs] & Hfc & Hp). injection Hp as <-.
    cbn [projection_keys] in Hsu. apply bool_decide_eq_false in Hns.
    destruct (consolidate_inner_spec t pid_ orinode keys childs Hget Hfc
                ltac:(lia) Hsh Hgsh Hgroom)
      as (h & sk & cid & t1 & Hc & Hg1 & Hoth & _ & _ & Hfc1 & _ & _ & Hdl
          & Hsl & Hil & _).
    exists (InnerNode h sk cid), t1.
    split; [by apply Hfirst|]. split; [done|]. split; [done|].
    split; [done|]. split.
    { unfold node_projection. cbn [hdr_of]. rewrite Hil, Hfc1. done. }
    split; [done|].
    apply Hsecond; [done| |done].
    unfold need_split. cbn [hdr_of]. rewrite Hil.
    apply bool_decide_eq_false. lia.
Qed.

(** ** [search] and null mapping-table entries *)

Lemma mt_get_NULL_PID (mt : MappingTable KeyType) : mt_get mt NULL_PID = Ok None.
Proof. reflexivity. Qed.

Lemma mt_get_Some_not_null (mt : MappingTable KeyType) p n :
  mt_get mt p = Ok (Some n) -> (p =? NULL_PID) = false.
Proof.
  intros Hg. apply Z.eqb_neq. intros ->. by rewrite mt_get_NULL_PID in Hg.
Qed.

Ltac use_eqs :=
  repeat first
    [ match goal with
      | Hx : ?l = _ |- context [?l] => rewrite Hx
      | Hx : _ <> 0 |- context [?a =? 0] =>
          destruct (Z.eqb_spec a 0) as [|_]; [done|]
      end
    | progress cbn [mbind result_bind stack_pop deref Z.eqb] ].

Lemma null_step_search (t : BWTreeState KeyType) key node path fuel :
  null_step t key (node, path) ->
  exists path', search_node (S fuel) t node key path = Ok (-1, path').
Proof.
  inversion 1; subst; cbn [search_node]; unfold at_index; use_eqs; eauto.
  destruct (p =? NULL_PID); eauto.
Qed.

Lemma descent_step_search (t : BWTreeState KeyType) key node path node' path' fuel :
  descent_step t key (node, path) (node', path') ->
  search_node (S fuel) t node key path = search_node fuel t node' key path'.
Proof.
  inversion 1; subst; cbn [search_node]; unfold at_index; use_eqs;
    try match goal with
    | Hx : mt_get _ ?p = Ok (Some _) |- context [?p =? NULL_PID] =>
        rewrite (mt_get_Some_not_null _ _ _ Hx)
    end; use_eqs; reflexivity.
Qed.

Lemma descent_null_search (t : BWTreeState KeyType) key c c' :
  rtc (descent_step t key) c c' -> null_step t key c' ->
  exists fuel0, forall fuel, (fuel0 <= fuel)%nat ->
    exists path', search_node fuel t c.1 key c.2 = Ok (-1, path').
Proof.
  induction 1 as [[node path]|[node path] [node1 path1] c' Hstep Hrtc IH];
    intros Hnull.
  - exists 1%nat. intros [|fuel] Hf; [lia|]. by apply null_step_search.
  - destruct (IH Hnull) as [fuel0 Hfuel0]. exists (S fuel0).
    intros [|fuel] Hf; [lia|]. cbn [fst snd] in *.
    rewrite (descent_step_search _ _ _ _ _ _ _ Hstep). apply Hfuel0. lia.
Qed.

(** [search] hands back the empty path when the start PID, or a PID met
    on the way down, dereferences to null. *)
Lemma search_null_empty (t : BWTreeState KeyType) pid_ key :
  (mt_get (mapping_table t) pid_ = Ok None ->
   forall fuel, search fuel t pid_ key = Ok []) /\
  (forall node c,
     mt_get (mapping_table t) pid_ = Ok (Some node) ->
     rtc (descent_step t key) (node, [pid_]) c -> null_step t key c ->
     exists fuel0, forall fuel, (fuel0 <= fuel)%nat ->
       search fuel t pid_ key = Ok []).
Proof.
  split.
  - intros Hg fuel. unfold search. by rewrite Hg.
  - intros node c Hg Hrtc Hnull.
    destruct (descent_null_search _ _ _ _ Hrtc Hnull) as [fuel0 Hf0].
    exists fuel0. intros fuel Hf. destruct (Hf0 fuel Hf) as [path' Hs].
    unfold search. rewrite Hg. cbn [mbind result_bind fst snd] in *.
    rewrite Hs. reflexivity.
Qed.

(** No caller looks whether the path is empty: each reads [path.top()]
    right after the search. *)
Lemma get_value_empty_path (t : BWTreeState KeyType) key result_ fuel :
  search fuel t (root t) key = Ok [] ->
  get_value (S fuel) t key result_ = Err Undefined.
Proof. intros Hs. cbn [get_value]. by rewrite Hs. Qed.

Lemma split_empty_path (t : BWTreeState KeyType) key fuel :
  search fuel t (root t) key = Ok [] -> split fuel key t = Err Undefined.
Proof.
  intros Hs. unfold split, bind, read, lift. cbn. by rewrite Hs.
Qed.

Lemma locate_leaf_empty_path (t : BWTreeState KeyType) key fuel :
  search fuel t (root t) key = Ok [] -> locate_leaf fuel key t = Err Undefined.
Proof.
  intros Hs. unfold locate_leaf. unfold bind at 1.
  by rewrite split_empty_path.
Qed.

Lemma insert_entry_empty_path (t : BWTreeState KeyType) key value fuel :
  search fuel t (root t) key = Ok [] ->
  insert_entry (S fuel) key value t = Err Undefined.
Proof.
  intros Hs. cbn [insert_entry]. unfold bind at 1.
  by rewrite locate_leaf_empty_path.
Qed.

Lemma delete_entry_empty_path (t : BWTreeState KeyType) key value fuel :
  search fuel t (root t) key = Ok [] ->
  delete_entry (S fuel) key value t = Err Undefined.
Proof.
  intros Hs. cbn [delete_entry]. unfold bind at 1.
  by rewrite locate_leaf_empty_path.
Qed.

(** C8, as the code has it: [search] returns the empty path whenever the
    start PID or a PID met during the descent dereferences to null, and
    the callers ([get_value], [split], [insert_entry], [delete_entry]) do
    not test for it: on the empty path they go on to [path.top()], whose
    behaviour is undefined, instead of retrying. *)
Theorem search_null_callers_proceed (t : BWTreeState KeyType) key :
  ((mt_get (mapping_table t) (root t) = Ok None ->
    forall fuel, search fuel t (root t) key = Ok []) /\
   (forall node c,
      mt_get (mapping_table t) (root t) = Ok (Some node) ->
      rtc (descent_step t key) (node, [root t]) c -> null_step t key c ->
      exists fuel0, forall fuel, (fuel0 <= fuel)%nat ->
        search fuel t (root t) key = Ok [])) /\
  (forall fuel value result_,
     search fuel t (root t) key = Ok [] ->
     get_value (S fuel) t key result_ = Err Undefined /\
     split fuel key t = Err Undefined /\
     insert_entry (S fuel) key value t = Err Undefined /\
     delete_entry (S fuel) key value t = Err Undefined).
Proof.
  split; [apply search_null_empty|].
  intros fuel value result_ Hs.
  split; [by apply get_value_empty_path|].
  split; [by apply split_empty_path|].
  split; [by apply insert_entry_empty_path|by apply delete_entry_empty_path].
Qed.

(** ** [insert_entry] and [delete_entry] *)

Lemma bindM_Ok {A B} (m : M KeyType A) (k : A -> M KeyType B) t b t' :
  bind m k t = Ok (b, t') ->
  exists a t1, m t = Ok (a, t1) /\ k a t1 = Ok (b, t').
Proof.
  unfold bind. destruct (m t) as [[a t1]|]; [eauto|discriminate].
Qed.

Lemma lift_Ok {A} (r : result A) (t : BWTreeState KeyType) a t' :
  lift r t = Ok (a, t') -> r = Ok a /\ t' = t.
Proof. unfold lift. destruct r; intros Hl; by simplify_eq. Qed.

Lemma ret_Ok {A} (x : A) (t : BWTreeState KeyType) a t' :
  ret x t = Ok (a, t') -> a = x /\ t' = t.
Proof. unfold ret. intros Hr. by simplify_eq. Qed.

(** After a successful exchange the slot holds the new node. *)
Lemma mt_set_get (mt : MappingTable KeyType) p expected new mt' :
  mt_set mt p expected new = Ok (true, mt') ->
  mt_get mt' p = Ok (assign_pid p <$> new) /\
  exists cur, mt_get mt p = Ok cur /\ ptr_eq cur expected = true.
Proof.
  intros Hs. unfold mt_set in Hs.
  apply bind_Ok in Hs as (blk & Hblk & Hs).
  apply at_idx_Ok in Hblk as [Ht1 Hblk].
  assert (0 <= p) as Hp.
  { destruct (Z.le_gt_cases 0 p); [done|].
    pose proof (tier1_index_neg p). lia. }
  destruct (tier_index_bounds p Hp) as (_ & Ht2 & _).
  assert (p <> NULL_PID) as Hnn by (unfold NULL_PID; lia).
  destruct blk as [b|]; [|discriminate].
  apply bind_Ok in Hs as (cur & Hcur & Hs).
  apply at_idx_Ok in Hcur as [_ Hcur].
  destruct (ptr_eq cur expected) eqn:Hpe; [|discriminate].
  injection Hs as <-. split.
  - unfold mt_get. destruct (Z.eqb_spec p NULL_PID); [done|].
    cbn [mappingtable_1].
    rewrite (proj2 (at_idx_Ok _ _
               (Some (<[Z.to_nat (GET_TIER2_INDEX p) := assign_pid p <$> new]> b)))).
    2:{ split; [done|]. apply list_lookup_insert_eq.
        by eapply lookup_lt_Some. }
    cbn [mbind result_bind]. apply at_idx_Ok. split; [lia|].
    apply list_lookup_insert_eq. by eapply lookup_lt_Some.
  - exists cur. split; [|done]. unfold mt_get.
    destruct (Z.eqb_spec p NULL_PID); [done|].
    rewrite (proj2 (at_idx_Ok _ _ (Some b))) by done.
    cbn [mbind result_bind]. apply at_idx_Ok. split; [lia|done].
Qed.

Lemma table_set_Ok (t : BWTreeState KeyType) p expected new ok t' :
  table_set p expected new t = Ok (ok, t') ->
  exists mt', mt_set (mapping_table t) p expected new = Ok (ok, mt') /\
    t' = mkBWTree (root t) mt' (garbage_table t) (headleaf t) (brk t).
Proof.
  unfold table_set. intros Hs. apply bind_Ok in Hs as ([ok' mt'] & Hs & He).
  simplify_eq. eauto.
Qed.

Lemma alloc_Ok (t : BWTreeState KeyType) a t' :
  alloc t = Ok (a, t') ->
  a = brk t /\
  t' = mkBWTree (root t) (mapping_table t) (garbage_table t) (headleaf t)
                (brk t + 1).
Proof. unfold alloc. intros Ha. by simplify_eq. Qed.

Lemma hdr_of_insert_delta a pid_ (bn : Node KeyType) key value dup :
  exists h,
    insert_delta a pid_ bn key value dup = RecordDelta h INSERT key value bn /\
    delta_list_len h = delta_list_len (hdr_of bn) + 1 /\
    slotuse h = (if dup then slotuse (hdr_of bn)
                 else ushort (slotuse (hdr_of bn) + 1)) /\
    pid h = Some pid_ /\ same_range h (hdr_of bn) /\
    next_leafnode h = next_leafnode (hdr_of bn) /\
    is_leaf h = is_leaf (hdr_of bn).
Proof.
  unfold insert_delta, RecordDelta_ctor. destruct dup; cbn; eexists;
    (split; [reflexivity|]); repeat split.
Qed.

(** C2: [insert_entry] returns false exactly when the index requires
    unique keys and [key_is_in] finds the key on the head of the target
    page; when it returns true, the record-insert delta sits on that head
    in the mapping table.  On a page that needs neither split nor
    consolidation the call returns within one round. *)
Theorem insert_entry_result key value :
  (forall fuel (t : BWTreeState KeyType) b t',
     insert_entry fuel key value t = Ok (b, t') ->
     exists fuel' t0 t1 basic_pid bn key_dup,
       locate_leaf fuel' key t0 = Ok ((basic_pid, Some bn), t1) /\
       key_in_node key (hdr_of bn) = true /\
       key_is_in key (Some bn) = Ok key_dup /\
       (b = false <-> HasUniqueKeys = true /\ key_dup = true) /\
       (b = false -> t' = t1) /\
       (b = true ->
        exists h,
          mt_get (mapping_table t') basic_pid
          = Ok (Some (RecordDelta h INSERT key value bn)) /\
          delta_list_len h = delta_list_len (hdr_of bn) + 1)) /\
  (forall fuel (t : BWTreeState KeyType) basic_pid rest bn key_dup,
     (1 <= fuel)%nat ->
     search fuel t (root t) key = Ok (basic_pid :: rest) ->
     mt_get (mapping_table t) basic_pid = Ok (Some bn) ->
     need_split (hdr_of bn) = false ->
     delta_list_len (hdr_of bn) <= MAX_DELTA_CHAIN_LEN ->
     key_in_node key (hdr_of bn) = true ->
     key_is_in key (Some bn) = Ok key_dup ->
     exists t',
       insert_entry (S fuel) key value t
       = Ok (negb (HasUniqueKeys && key_dup), t')).
Proof.
  split.
  - induction fuel as [|fuel IH]; intros t b t' Hi; [discriminate|].
    cbn [insert_entry] in Hi.
    apply bindM_Ok in Hi as ([basic_pid basic_node] & t1 & Hloc & Hi).
    destruct basic_node as [bn|]; [|by eapply IH].
    destruct (key_in_node key (hdr_of bn)) eqn:Hin; cbn [negb] in Hi;
      [|by eapply IH].
    apply bindM_Ok in Hi as (dup & t2 & Hdup & Hi).
    apply lift_Ok in Hdup as [Hdup ->].
    destruct (HasUniqueKeys && dup) eqn:Hu.
    + apply ret_Ok in Hi as [-> ->]. exists fuel, t, t1, basic_pid, bn, dup.
      apply andb_true_iff in Hu as [Hu1 Hu2].
      repeat split; try done.
    + apply bindM_Ok in Hi as (a & t3 & Ha & Hi).
      apply alloc_Ok in Ha as [-> ->].
      apply bindM_Ok in Hi as (ok & t4 & Hset & Hi).
      apply table_set_Ok in Hset as (mt' & Hset & ->).
      destruct ok; [|by eapply IH].
      apply ret_Ok in Hi as [-> ->].
      exists fuel, t, t1, basic_pid, bn, dup.
      split; [done|]. split; [done|]. split; [done|]. split.
      { split; [done|]. intros [Hu1 Hu2]. by rewrite Hu1, Hu2 in Hu. }
      split; [done|]. intros _.
      apply mt_set_get in Hset as [Hg _]. cbn [mapping_table] in *.
      destruct (hdr_of_insert_delta (brk t1) basic_pid bn key value dup)
        as (h & Hd & Hl & _).
      rewrite Hd in Hg.
      cbn [fmap option_fmap option_map assign_pid with_hdr] in Hg.
      eexists. split; [exact Hg|]. exact Hl.
  - intros fuel t basic_pid rest bn key_dup Hf Hs Hg Hns Hlen Hin Hdup.
    destruct fuel as [|fuel]; [lia|].
    assert (locate_leaf (S fuel) key t = Ok ((basic_pid, Some bn), t)) as Hloc.
    { unfold locate_leaf, split, bind, read, lift, table_get, read, lift.
      rewrite Hs. cbn [stack_top stack_pop]. rewrite Hg.
      cbn [split_loop deref]. unfold bind, lift. cbn [deref].
      rewrite Hns. unfold ret. rewrite Hs. cbn [stack_top].
      unfold consolidate, bind, table_get, read, lift. rewrite Hg.
      cbn [deref]. rewrite Hns. cbn [consolidate_loop].
      destruct (Z.ltb_spec MAX_DELTA_CHAIN_LEN (delta_list_len (hdr_of bn)));
        [lia|reflexivity]. }
    cbn [insert_entry]. unfold bind at 1. rewrite Hloc. rewrite Hin.
    cbn [negb]. unfold bind at 1, lift at 1. rewrite Hdup.
    destruct (HasUniqueKeys && key_dup); cbn [negb]; [unfold ret; eauto|].
    unfold bind at 1, alloc at 1. unfold bind at 1, table_set at 1.
    cbn [mapping_table].
    destruct (mt_set_succeeds (mapping_table t) basic_pid bn (Some bn)
                (Some (insert_delta (brk t) basic_pid bn key value key_dup))
                Hg (ptr_eq_refl _)) as [mt' Hset].
    rewrite Hset. cbn [mbind result_bind]. unfold ret. eauto.
Qed.

Lemma append_delete_Ok (t : BWTreeState KeyType) bn key value deletekey ok t' :
  append_delete bn key value deletekey t = Ok (ok, t') ->
  exists p h mt',
    pid (hdr_of bn) = Some p /\
    mt_set (mapping_table t) p (Some bn)
           (Some (RecordDelta h DELETE key value bn)) = Ok (ok, mt') /\
    t' = mkBWTree (root t) mt' (garbage_table t) (headleaf t) (brk t + 1) /\
    delta_list_len h = delta_list_len (hdr_of bn) + 1 /\
    slotuse h = (if deletekey then ushort (slotuse (hdr_of bn) - 1)
                 else slotuse (hdr_of bn)).
Proof.
  unfold append_delete. intros Ha.
  apply bindM_Ok in Ha as (a & t1 & Hal & Ha).
  apply alloc_Ok in Hal as [-> ->].
  apply bindM_Ok in Ha as (p & t2 & Hp & Ha).
  apply lift_Ok in Hp as [Hp ->]. apply deref_Ok in Hp.
  apply table_set_Ok in Ha as (mt' & Hs & ->). cbn [mapping_table] in Hs.
  exists p. unfold RecordDelta_ctor in Hs.
  destruct deletekey; cbn [with_hdr] in Hs; eexists; exists mt';
    (split; [done|]); (split; [exact Hs|]); repeat split.
Qed.

(** C3: [delete_entry] returns false exactly when the second component
    of [count_pair] on the head of the target page is zero; when it
    returns true, the record-delete delta sits on that head in the mapping
    table.  On a page that needs neither split nor consolidation the call
    returns within one round. *)
Theorem delete_entry_result key value :
  (forall fuel (t : BWTreeState KeyType) b t',
     delete_entry fuel key value t = Ok (b, t') ->
     exists fuel' t0 t1 basic_pid bn total_count pair_count,
       locate_leaf fuel' key t0 = Ok ((basic_pid, Some bn), t1) /\
       key_in_node key (hdr_of bn) = true /\
       count_pair key value (Some bn) = Ok (total_count, pair_count) /\
       (b = false <-> pair_count = 0) /\
       (b = false -> t' = t1) /\
       (b = true ->
        exists p h,
          pid (hdr_of bn) = Some p /\
          mt_get (mapping_table t') p
          = Ok (Some (RecordDelta h DELETE key value bn)) /\
          delta_list_len h = delta_list_len (hdr_of bn) + 1 /\
          slotuse h = (if pair_count =? total_count
                       then ushort (slotuse (hdr_of bn) - 1)
                       else slotuse (hdr_of bn)))) /\
  (forall fuel (t : BWTreeState KeyType) basic_pid rest bn
          total_count pair_count,
     (1 <= fuel)%nat ->
     search fuel t (root t) key = Ok (basic_pid :: rest) ->
     mt_get (mapping_table t) basic_pid = Ok (Some bn) ->
     pid (hdr_of bn) = Some basic_pid ->
     need_split (hdr_of bn) = false ->
     delta_list_len (hdr_of bn) <= MAX_DELTA_CHAIN_LEN ->
     key_in_node key (hdr_of bn) = true ->
     Z.of_nat (chain_values bn) <= INT_MAX ->
     count_pair key value (Some bn) = Ok (total_count, pair_count) ->
     exists t',
       delete_entry (S fuel) key value t = Ok (negb (pair_count =? 0), t')).
Proof.
  split.
  - induction fuel as [|fuel IH]; intros t b t' Hd; [discriminate|].
    cbn [delete_entry] in Hd.
    apply bindM_Ok in Hd as ([basic_pid basic_node] & t1 & Hloc & Hd).
    apply bindM_Ok in Hd as (bn & t2 & Hbn & Hd).
    apply lift_Ok in Hbn as [Hbn ->]. apply deref_Ok in Hbn. subst.
    destruct (key_in_node key (hdr_of bn)) eqn:Hin; cbn [negb] in Hd;
      [|by eapply IH].
    apply bindM_Ok in Hd as ([total pair] & t2 & Hcp & Hd).
    apply lift_Ok in Hcp as [Hcp ->]. cbn [fst snd] in Hd.
    destruct (Z.eqb_spec pair 0) as [Hz|Hz].
    + apply ret_Ok in Hd as [-> ->].
      exists fuel, t, t1, basic_pid, bn, total, pair.
      repeat split; try done.
    + destruct (total <? pair); [discriminate|].
      apply bindM_Ok in Hd as (ok & t3 & Hap & Hd).
      destruct ok; [|by eapply IH].
      apply ret_Ok in Hd as [-> ->].
      apply append_delete_Ok in Hap as (p & h & mt' & Hp & Hs & -> & Hl & Hsl).
      exists fuel, t, t1, basic_pid, bn, total, pair.
      split; [done|]. split; [done|]. split; [done|].
      split; [split; [done|by intros ?]|].
      split; [done|]. intros _.
      apply mt_set_get in Hs as [Hg _].
      cbn [fmap option_fmap option_map assign_pid with_hdr] in Hg.
      eexists p, _. split; [done|]. split; [exact Hg|]. split; done.
  - intros fuel t basic_pid rest bn total pair Hf Hs Hg Hpid Hns Hlen Hin
           Hsz Hcp.
    destruct fuel as [|fuel]; [lia|].
    assert (locate_leaf (S fuel) key t = Ok ((basic_pid, Some bn), t)) as Hloc.
    { unfold locate_leaf, split, bind, read, lift, table_get, read, lift.
      rewrite Hs. cbn [stack_top stack_pop]. rewrite Hg.
      cbn [split_loop deref]. unfold bind, lift. cbn [deref].
      rewrite Hns. unfold ret. rewrite Hs. cbn [stack_top].
      unfold consolidate, bind, table_get, read, lift. rewrite Hg.
      cbn [deref]. rewrite Hns. cbn [consolidate_loop].
      destruct (Z.ltb_spec MAX_DELTA_CHAIN_LEN (delta_list_len (hdr_of bn)));
        [lia|reflexivity]. }
    assert (0 <= pair <= total) as Hb.
    { cbn [count_pair] in Hcp.
      apply count_pair_from_bounds in Hcp; [lia|lia|ilia]. }
    cbn [delete_entry]. unfold bind at 1. rewrite Hloc.
    unfold bind at 1, lift at 1. cbn [deref]. rewrite Hin. cbn [negb].
    unfold bind at 1, lift at 1. rewrite Hcp. cbn [fst snd].
    destruct (Z.eqb_spec pair 0); cbn [negb]; [unfold ret; eauto|].
    destruct (Z.ltb_spec total pair); [lia|].
    unfold bind at 1, append_delete, bind, alloc, lift. rewrite Hpid.
    cbn [deref]. unfold table_set. cbn [mapping_table].
    match goal with |- context [mt_set _ _ _ (Some ?d)] =>
      destruct (mt_set_succeeds (mapping_table t) basic_pid bn (Some bn)
                  (Some d) Hg (ptr_eq_refl _)) as [mt' Hset]
    end.
    rewrite Hset. cbn [mbind result_bind]. unfold ret. eauto.
Qed.

(** ** The chain-length invariant through the writers *)

Lemma keeps_ret {A} (a : A) (Q : A -> Prop) :
  Q a -> keeps (ret (KeyType:=KeyType) a) Q.
Proof. intros HQ t a' t' Hi Hr. apply ret_Ok in Hr as [-> ->]. done. Qed.

Lemma keeps_fail {A} e (Q : A -> Prop) : keeps (fail (KeyType:=KeyType) e) Q.
Proof. intros t a t' _ Hf. discriminate. Qed.

Lemma keeps_bind {A B} (m : M KeyType A) (k : A -> M KeyType B) P Q :
  keeps m P -> (forall a, P a -> keeps (k a) Q) -> keeps (bind m k) Q.
Proof.
  intros Hm Hk t b t' Hi Hb.
  apply bindM_Ok in Hb as (a & t1 & Ha & Hb).
  destruct (Hm _ _ _ Hi Ha) as [Hi1 HP]. by eapply Hk.
Qed.

Lemma keeps_weaken {A} (m : M KeyType A) (P Q : A -> Prop) :
  keeps m P -> (forall a, P a -> Q a) -> keeps m Q.
Proof. intros Hm HPQ t a t' Hi Ha. destruct (Hm _ _ _ Hi Ha). auto. Qed.

Lemma keeps_lift {A} (r : result A) :
  keeps (lift (KeyType:=KeyType) r) (fun a => r = Ok a).
Proof. intros t a t' Hi Hl. apply lift_Ok in Hl as [-> ->]. done. Qed.

Lemma keeps_read {A} (f : BWTreeState KeyType -> result A) (Q : A -> Prop) :
  (forall t a, chains_ok t -> f t = Ok a -> Q a) -> keeps (read f) Q.
Proof.
  intros Hf t a t' Hi Hr. unfold read in Hr.
  apply lift_Ok in Hr as [Hr ->]. eauto.
Qed.

Lemma keeps_any {A} (f : BWTreeState KeyType -> result A) :
  keeps (read f) (fun _ => True).
Proof. by apply keeps_read. Qed.

Lemma keeps_alloc : keeps (alloc (KeyType:=KeyType)) (fun _ => True).
Proof. intros t a t' Hi Ha. apply alloc_Ok in Ha as [-> ->]. done. Qed.

Lemma chains_ok_get (t : BWTreeState KeyType) p n :
  chains_ok t -> mt_get (mapping_table t) p = Ok n -> opt_len_ok n.
Proof.
  intros Hi Hg. destruct n as [n|]; [|done]. cbn.
  unfold mt_get in Hg. destruct (p =? NULL_PID); [discriminate|].
  apply bind_Ok in Hg as (blk & Hblk & Hg).
  apply at_idx_Ok in Hblk as [_ Hblk].
  destruct blk as [b|]; [|discriminate].
  apply at_idx_Ok in Hg as [_ Hg]. eauto.
Qed.

Lemma keeps_table_get p :
  keeps (table_get (KeyType:=KeyType) p) opt_len_ok.
Proof. apply keeps_read. intros t a. apply chains_ok_get. Qed.

Lemma chain_len_ok_with_hdr f (n : Node KeyType) :
  (forall h, delta_list_len (f h) = delta_list_len h) ->
  chain_len_ok n -> chain_len_ok (with_hdr f n).
Proof.
  intros Hf Hn. unfold chain_len_ok in *.
  destruct n; cbn [with_hdr chain_to_base] in *;
    apply Forall_cons in Hn as [Hn Hr]; apply Forall_cons;
    (split; [cbn [len_step] in *; by rewrite ?Hf|done]).
Qed.

Lemma chain_len_ok_assign_pid p (n : Node KeyType) :
  chain_len_ok n -> chain_len_ok (assign_pid p n).
Proof. apply chain_len_ok_with_hdr. done. Qed.

(** Storing a good chain in a table of good chains. *)
Lemma chains_ok_store (t : BWTreeState KeyType) mt' i j b new :
  chains_ok t ->
  opt_len_ok new ->
  (mappingtable_1 (mapping_table t) !! i = Some (Some b) \/
   b = replicate (Z.to_nat MAPPING_TABLE_SIZE) None) ->
  mappingtable_1 mt' = <[i := Some (<[j := new]> b)]> (mappingtable_1 (mapping_table t)) ->
  forall r g h k,
    chains_ok (mkBWTree r mt' g h k).
Proof.
  intros Hi Hn Hb Hmt r g h k i' blk j' head Hblk Hhead.
  cbn [mapping_table] in Hblk. rewrite Hmt in Hblk.
  apply list_lookup_insert_Some in Hblk as [(-> & Heq & _)|[_ Hblk]];
    [|by eapply Hi].
  injection Heq as <-.
  apply list_lookup_insert_Some in Hhead as [(-> & Heq & _)|[_ Hhead]].
  - by subst new.
  - destruct Hb as [Hb| ->]; [by eapply Hi|].
    apply lookup_replicate in Hhead as [? _]. done.
Qed.

Lemma keeps_table_set p expected (new : option (Node KeyType)) :
  opt_len_ok new -> keeps (table_set p expected new) (fun _ => True).
Proof.
  intros Hn t ok t' Hi Hs. split; [|done].
  apply table_set_Ok in Hs as (mt' & Hs & ->).
  unfold mt_set in Hs.
  apply bind_Ok in Hs as (blk & Hblk & Hs).
  apply at_idx_Ok in Hblk as [_ Hblk].
  destruct blk as [b|].
  2:{ injection Hs as <- <-. by destruct t. }
  apply bind_Ok in Hs as (cur & _ & Hs).
  destruct (ptr_eq cur expected).
  2:{ injection Hs as <- <-. by destruct t. }
  injection Hs as <- <-.
  eapply chains_ok_store; [done| |by left|done].
  destruct new; [|done]. by apply chain_len_ok_assign_pid.
Qed.

Lemma keeps_table_add (new : option (Node KeyType)) :
  opt_len_ok new -> keeps (table_add new) (fun _ => True).
Proof.
  intros Hn t p t' Hi Ha. split; [|done].
  unfold table_add in Ha.
  apply bind_Ok in Ha as ([p' mt'] & Ha & Hr). injection Hr as <- <-.
  unfold mt_add in Ha.
  apply bind_Ok in Ha as (blk & Hblk & Ha).
  apply at_idx_Ok in Hblk as [_ Hblk].
  apply bind_Ok in Ha as (cur & _ & Ha).
  injection Ha as <- <-.
  eapply chains_ok_store; [done| | |done].
  - destruct new; [|done]. by apply chain_len_ok_assign_pid.
  - destruct blk; [by left|by right].
Qed.

Lemma keeps_garbage_add (new : option (Node KeyType)) :
  keeps (garbage_add new) (fun _ => True).
Proof.
  intros t p t' Hi Ha. split; [|done].
  unfold garbage_add in Ha.
  apply bind_Ok in Ha as ([p' gt] & _ & Hr). injection Hr as <- <-.
  done.
Qed.

Lemma keeps_set_root r :
  keeps (set_root (KeyType:=KeyType) r) (fun _ => True).
Proof. intros t a t' Hi Hs. injection Hs as <- <-. done. Qed.

Lemma chain_len_ok_delta (D next : Node KeyType) :
  next_of D = Some next -> len_step D -> chain_len_ok next -> chain_len_ok D.
Proof.
  intros Hn Hs Hnext. unfold chain_len_ok.
  destruct D; cbn [next_of] in Hn; simplify_eq; cbn [chain_to_base];
    by apply Forall_cons.
Qed.

Lemma chain_len_ok_leaf h ks ds :
  delta_list_len h = 0 -> chain_len_ok (LeafNode (KeyType:=KeyType) h ks ds).
Proof. intros Hl. apply Forall_cons. split; [done|apply Forall_nil_2]. Qed.

Lemma chain_len_ok_inner h ks cs :
  delta_list_len h = 0 -> chain_len_ok (InnerNode (KeyType:=KeyType) h ks cs).
Proof. intros Hl. apply Forall_cons. split; [done|apply Forall_nil_2]. Qed.

Lemma chain_len_ok_RecordDelta a (next : Node KeyType) op k v nl lk hk il ih :
  chain_len_ok next ->
  chain_len_ok (RecordDelta_ctor a next op k v nl lk hk il ih).
Proof. intros Hn. by eapply chain_len_ok_delta. Qed.

Lemma chain_len_ok_SplitDelta a (next : Node KeyType) Kp pQ nl lk hk il ih :
  chain_len_ok next ->
  chain_len_ok (SplitDelta_ctor a next Kp pQ nl lk hk il ih).
Proof. intros Hn. by eapply chain_len_ok_delta. Qed.

Lemma chain_len_ok_IndexEntryDelta a (next : Node KeyType) Kp Kq iq pQ nl lk hk
    il ih :
  chain_len_ok next ->
  chain_len_ok (IndexEntryDelta_ctor a next Kp Kq iq pQ nl lk hk il ih).
Proof. intros Hn. by eapply chain_len_ok_delta. Qed.

Ltac kstep :=
  eapply keeps_bind;
  [ first [ apply keeps_alloc | apply keeps_table_get | apply keeps_lift
          | apply keeps_any | apply keeps_garbage_add | apply keeps_set_root ]
  | ].

Lemma keeps_consolidate_leaf p (orinode : Node KeyType) :
  keeps (consolidate_leaf p orinode) opt_len_ok.
Proof.
  unfold consolidate_leaf.
  kstep; intros a _. kstep; intros [keys vals] _.
  destruct (_ || _); [apply keeps_fail|].
  kstep; intros [slotkey slotdata] _.
  eapply keeps_bind; [apply keeps_table_set; by apply chain_len_ok_leaf|].
  intros [] _.
  - kstep; intros _ _. apply keeps_ret.
    apply chain_len_ok_assign_pid. by apply chain_len_ok_leaf.
  - by apply keeps_ret.
Qed.

Lemma keeps_consolidate_inner p (orinode : Node KeyType) :
  keeps (consolidate_inner p orinode) opt_len_ok.
Proof.
  unfold consolidate_inner.
  kstep; intros a _. kstep; intros [keys childs] _.
  destruct (_ || _); [apply keeps_fail|].
  kstep; intros [slotkey childid] _.
  kstep; intros c _. kstep; intros childid' _.
  eapply keeps_bind; [apply keeps_table_set; by apply chain_len_ok_inner|].
  intros [] _.
  - kstep; intros _ _. apply keeps_ret.
    apply chain_len_ok_assign_pid. by apply chain_len_ok_inner.
  - by apply keeps_ret.
Qed.

Lemma keeps_consolidate_loop fuel p (orinode : Node KeyType) :
  chain_len_ok orinode -> keeps (consolidate_loop fuel p orinode) opt_len_ok.
Proof.
  revert orinode. induction fuel as [|fuel IH]; intros orinode Ho;
    cbn [consolidate_loop]; [apply keeps_fail|].
  destruct (_ <? _); [|by apply keeps_ret].
  eapply keeps_bind.
  { destruct (is_leaf _);
      [apply keeps_consolidate_leaf|apply keeps_consolidate_inner]. }
  intros [node|] Hn; [by apply keeps_ret|].
  kstep; intros q Hq. kstep; intros n ->%deref_Ok.
  destruct (need_split _); [by apply keeps_ret|]. by apply IH.
Qed.

Lemma keeps_consolidate fuel p : keeps (consolidate fuel p) opt_len_ok.
Proof.
  unfold consolidate. kstep; intros q Hq. kstep; intros n ->%deref_Ok.
  destruct (need_split _); [apply keeps_fail|].
  by apply keeps_consolidate_loop.
Qed.

Lemma keeps_create_leaf (csn : Node KeyType) :
  keeps (create_leaf csn) (fun _ => True).
Proof.
  unfold create_leaf.
  kstep; intros a _. kstep; intros [keys vals] _.
  kstep; intros [slotkey slotdata] _. kstep; intros k0 _.
  eapply keeps_bind; [apply keeps_table_add; by apply chain_len_ok_leaf|].
  intros q _. destruct (_ =? _); [apply keeps_fail|by apply keeps_ret].
Qed.

Lemma keeps_create_inner (csn : Node KeyType) :
  keeps (create_inner csn) (fun _ => True).
Proof.
  unfold create_inner.
  kstep; intros a _. kstep; intros [keys childs] _.
  kstep; intros childid _.
  kstep; intros [slotkey childid'] _. kstep; intros k0 _.
  eapply keeps_bind; [apply keeps_table_add; by apply chain_len_ok_inner|].
  intros q _. destruct (_ =? _); [apply keeps_fail|by apply keeps_ret].
Qed.

Lemma keeps_create_root_cas fuel i cur_root new_root_pid :
  keeps (create_root_cas (KeyType:=KeyType) fuel i cur_root new_root_pid)
        (fun _ => True).
Proof.
  revert i cur_root. induction fuel as [|fuel IH]; intros i cur_root;
    cbn [create_root_cas]; [apply keeps_fail|].
  kstep; intros r _. destruct (_ =? _); [apply keeps_set_root|].
  destruct (_ <? _); [apply IH|apply keeps_fail].
Qed.

Lemma keeps_create_root cur_root new_node_pid (pivotal : KeyType) :
  keeps (create_root cur_root new_node_pid pivotal) (fun _ => True).
Proof.
  unfold create_root.
  kstep; intros a _. kstep; intros slotkey _. kstep; intros childid _.
  kstep; intros childid' _.
  eapply keeps_bind; [apply keeps_table_add; by apply chain_len_ok_inner|].
  intros q _. destruct (_ =? _); [apply keeps_fail|].
  kstep; intros _ _. apply keeps_create_root_cas.
Qed.

Lemma keeps_find_parent_loop fuel (key : KeyType) path visited_nodes
    parent_node :
  chain_len_ok parent_node ->
  keeps (find_parent_loop fuel key path visited_nodes parent_node)
        (fun r => chain_len_ok r.1).
Proof.
  revert path parent_node.
  induction fuel as [|fuel IH]; intros path parent_node Hp;
    cbn [find_parent_loop]; [apply keeps_fail|].
  destruct (negb _); [|by apply keeps_ret].
  kstep; intros r _. kstep; intros path1 _. kstep; intros path2 _.
  kstep; intros parent_pid _. kstep; intros q Hq.
  kstep; intros n ->%deref_Ok. by apply IH.
Qed.

Lemma keeps_find_parent fuel (key : KeyType) path visited_nodes :
  keeps (find_parent fuel key path visited_nodes)
        (fun r => chain_len_ok r.1).
Proof.
  unfold find_parent. kstep; intros parent_pid _. kstep; intros q Hq.
  kstep; intros n ->%deref_Ok. by apply keeps_find_parent_loop.
Qed.

Lemma keeps_split_index_entry fuel (key : KeyType) path visited_nodes Kp pQ
    new_node :
  keeps (split_index_entry fuel key path visited_nodes Kp pQ new_node)
        (fun _ => True).
Proof.
  revert path. induction fuel as [|fuel IH]; intros path;
    cbn [split_index_entry]; [apply keeps_fail|].
  eapply keeps_bind; [apply keeps_find_parent|].
  intros [csn path1] Hc. cbn [fst] in Hc.
  kstep; intros check_split_pid _. kstep; intros a _.
  eapply keeps_bind;
    [apply keeps_table_set; by apply chain_len_ok_IndexEntryDelta|].
  intros [] _.
  - kstep; intros path2 _. by apply keeps_ret.
  - kstep; intros _ _. apply IH.
Qed.

Lemma keeps_split_step1 check_split_pid (csn : Node KeyType) :
  chain_len_ok csn -> keeps (split_step1 check_split_pid csn) (fun _ => True).
Proof.
  intros Hc. unfold split_step1.
  eapply keeps_bind.
  { destruct (is_leaf _); [apply keeps_create_leaf|apply keeps_create_inner]. }
  intros [new_node_pid pivotal] _.
  kstep; intros q _. kstep; intros new_node _. kstep; intros a _.
  eapply keeps_bind;
    [apply keeps_table_set; by apply chain_len_ok_SplitDelta|].
  intros ok _. by apply keeps_ret.
Qed.

Lemma keeps_split_loop fuel (key : KeyType) path visited_nodes check_split_pid
    check_split_node :
  opt_len_ok check_split_node ->
  keeps (split_loop fuel key path visited_nodes check_split_pid
                    check_split_node) (fun _ => True).
Proof.
  revert path visited_nodes check_split_pid check_split_node.
  induction fuel as [|fuel IH];
    intros path visited_nodes check_split_pid check_split_node Hc;
    cbn [split_loop]; [apply keeps_fail|].
  kstep; intros csn ->%deref_Ok. cbn in Hc.
  destruct (need_split _); [|by apply keeps_ret].
  eapply keeps_bind; [by apply keeps_split_step1|].
  intros [[[ok new_node_pid] pivotal] new_node] _.
  destruct ok; cbn [negb].
  - eapply keeps_bind; [apply keeps_consolidate|]. intros _ _.
    destruct path as [|p0 path]; [apply keeps_create_root|].
    eapply keeps_bind; [apply keeps_split_index_entry|].
    intros [check_split_pid' path'] _.
    kstep; intros q Hq. kstep; intros csn' Hcsn.
    destruct (negb _).
    + eapply keeps_bind; [apply keeps_consolidate|]. intros _ _.
      by apply keeps_ret.
    + by apply IH.
  - kstep; intros old_ptr _.
    eapply keeps_bind; [by apply keeps_table_set|]. intros ok' _.
    destruct (negb ok'); [apply keeps_fail|].
    kstep; intros q Hq. by apply IH.
Qed.

Lemma keeps_split fuel (key : KeyType) :
  keeps (split fuel key) (fun _ => True).
Proof.
  unfold split. kstep; intros r _. kstep; intros path _.
  kstep; intros check_split_pid _. kstep; intros path' _.
  kstep; intros q Hq. by apply keeps_split_loop.
Qed.

Lemma keeps_locate_leaf fuel (key : KeyType) :
  keeps (locate_leaf fuel key) (fun r => opt_len_ok r.2).
Proof.
  unfold locate_leaf.
  eapply keeps_bind; [apply keeps_split|]. intros _ _.
  kstep; intros r _. kstep; intros path _. kstep; intros basic_pid _.
  eapply keeps_bind; [apply keeps_consolidate|]. intros basic_node Hb.
  by apply keeps_ret.
Qed.

Lemma chain_len_ok_insert_delta a basic_pid (bn : Node KeyType) key value
    key_dup :
  chain_len_ok bn ->
  chain_len_ok (insert_delta a basic_pid bn key value key_dup).
Proof.
  intros Hb. unfold insert_delta.
  do 2 (apply chain_len_ok_with_hdr; [done|]).
  destruct (negb key_dup);
    [apply chain_len_ok_with_hdr; [done|]|];
    by apply chain_len_ok_assign_pid, chain_len_ok_RecordDelta.
Qed.

Lemma keeps_insert_entry fuel (key : KeyType) value :
  keeps (insert_entry fuel key value) (fun _ => True).
Proof.
  induction fuel as [|fuel IH]; cbn [insert_entry]; [apply keeps_fail|].
  eapply keeps_bind; [apply keeps_locate_leaf|].
  intros [basic_pid [bn|]] Hb; [|done]. cbn in Hb.
  destruct (negb _); [done|].
  kstep; intros key_dup _.
  destruct (_ && _); [by apply keeps_ret|].
  kstep; intros a _.
  eapply keeps_bind;
    [apply keeps_table_set; by apply chain_len_ok_insert_delta|].
  intros [] _; [by apply keeps_ret|done].
Qed.

Lemma keeps_append_delete (bn : Node KeyType) key value deletekey :
  chain_len_ok bn ->
  keeps (append_delete bn key value deletekey) (fun _ => True).
Proof.
  intros Hb. unfold append_delete.
  kstep; intros a _. kstep; intros p _.
  apply keeps_table_set.
  destruct deletekey;
    [apply chain_len_ok_with_hdr; [done|]|];
    by apply chain_len_ok_RecordDelta.
Qed.

Lemma keeps_delete_entry fuel (key : KeyType) value :
  keeps (delete_entry fuel key value) (fun _ => True).
Proof.
  induction fuel as [|fuel IH]; cbn [delete_entry]; [apply keeps_fail|].
  eapply keeps_bind; [apply keeps_locate_leaf|].
  intros [basic_pid basic_node] Hb. cbn in Hb.
  kstep; intros bn ->%deref_Ok. cbn in Hb.
  destruct (negb _); [done|].
  kstep; intros tv _.
  destruct (_ =? 0); [by apply keeps_ret|].
  destruct (_ <? _); [apply keeps_fail|].
  eapply keeps_bind; [by apply keeps_append_delete|].
  intros [] _; [by apply keeps_ret|done].
Qed.

Lemma chains_ok_ctor (t : BWTreeState KeyType) :
  BWTree_ctor = Ok t -> chains_ok t.
Proof.
  unfold BWTree_ctor. intros Hc.
  apply bind_Ok in Hc as ([newpid mt] & Ha & Hc).
  destruct (0 <=? newpid); [|discriminate]. injection Hc as <-.
  pose (t0 := mkBWTree (KeyType:=KeyType) 0 MappingTable_ctor
                MappingTable_ctor 0 0).
  assert (chains_ok t0) as H0.
  { intros i blk j head Hblk _. cbn in Hblk.
    apply lookup_replicate in Hblk as [? _]. done. }
  assert (table_add (Some (LeafNode_ctor 1 NULL_PID waste waste true true)) t0
          = Ok (newpid, mkBWTree 0 mt MappingTable_ctor 0 0)) as Hadd.
  { unfold table_add. cbn [mapping_table t0]. by rewrite Ha. }
  eapply keeps_table_add in Hadd as [Hk _]; [|by apply chain_len_ok_leaf|done].
  intros i blk j head. apply Hk.
Qed.

(** C6: in every state the writers reach from the constructor's, each
    node [D] of each chain held by the mapping table obeys the chain-length
    rule: a leaf or inner base node has [delta_list_len] zero, and a
    record, split or index-entry delta with successor [N] has
    [delta_list_len] equal to that of [N] plus one.  No other delta variant
    occurs in such a chain. *)
Theorem delta_list_len_invariant (t : BWTreeState KeyType) p head D :
  reachable t ->
  mt_get (mapping_table t) p = Ok (Some head) ->
  D ∈ chain_to_base head ->
  match D with
  | LeafNode h _ _ | InnerNode h _ _ => delta_list_len h = 0
  | RecordDelta h _ _ _ N | SplitDelta h _ _ N
  | IndexEntryDelta h _ _ _ _ N =>
      delta_list_len h = delta_list_len (hdr_of N) + 1
  | RemoveDelta _ _ | MergeDelta _ _ _ _ => False
  end.
Proof.
  intros Hr Hg HD.
  assert (chains_ok t) as Hi.
  { clear Hg. induction Hr as [t Hc|fuel key value t b t' _ IH Hi
                              |fuel key value t b t' _ IH Hd].
    - by apply chains_ok_ctor.
    - by destruct (keeps_insert_entry _ _ _ _ _ _ IH Hi).
    - by destruct (keeps_delete_entry _ _ _ _ _ _ IH Hd). }
  pose proof (chains_ok_get _ _ _ Hi Hg) as Hh. cbn in Hh.
  unfold chain_len_ok in Hh. rewrite Forall_forall in Hh.
  exact (Hh D HD).
Qed.

(** ** The mapping table, as its users see it *)

(** X4: in a table with room, [add] returns the next PID, after which
    [get] of that PID gives the node with its [pid] field set, every
    other PID reads as before, and the next [add] gets the following
    PID. *)
Theorem mapping_table_add_get (mt : MappingTable KeyType) (n : Node KeyType) :
  mt_shape mt = true -> mt_room mt = true ->
  exists mt',
    mt_add mt (Some n) = Ok (nextPid mt, mt') /\
    mt_get mt' (nextPid mt) = Ok (Some (assign_pid (nextPid mt) n)) /\
    pid (hdr_of (assign_pid (nextPid mt) n)) = Some (nextPid mt) /\
    (forall q, q <> nextPid mt -> mt_get mt' q = mt_get mt q) /\
    nextPid mt' = nextPid mt + 1 /\
    mt_shape mt' = true.
Proof.
  intros Hsh Hroom.
  destruct (mt_add_spec mt (Some n) Hsh Hroom)
    as (mt' & Ha & Hsh' & Hnp & Hg & Hother).
  exists mt'. repeat split; try done. by destruct n.
Qed.

(** X5: [set] is a compare-and-swap of one slot: when it returns true the
    slot held a pointer equal to [expected] and now holds the new node
    (with its [pid] field set) while every other PID reads as before;
    when it returns false the table is unchanged. *)
Theorem mapping_table_set_cas (mt : MappingTable KeyType) p expected new ok mt' :
  mt_shape mt = true ->
  mt_set mt p expected new = Ok (ok, mt') ->
  (ok = true ->
   (exists cur, mt_get mt p = Ok cur /\ ptr_eq cur expected = true) /\
   mt_get mt' p = Ok (assign_pid p <$> new) /\
   (forall q, q <> p -> mt_get mt' q = mt_get mt q)) /\
  (ok = false -> mt' = mt).
Proof.
  intros Hsh Hs. split; intros ->.
  - destruct (mt_set_true _ _ _ _ _ Hsh Hs) as (_ & _ & _ & Hcur & _ & Hother).
    destruct (mt_set_get _ _ _ _ _ Hs) as [Hg _]. done.
  - by eapply mt_set_false.
Qed.

(** X6: [set] on a PID whose second-tier block was never allocated
    returns false and changes nothing, and a slot that holds a pointer
    different from [expected] is not overwritten. *)
Theorem mapping_table_set_refuses (mt : MappingTable KeyType) p expected new :
  0 <= GET_TIER1_INDEX p ->
  (mappingtable_1 mt !! Z.to_nat (GET_TIER1_INDEX p) = Some None ->
   mt_set mt p expected new = Ok (false, mt)) /\
  (forall cur, mt_get mt p = Ok cur -> p <> NULL_PID ->
               ptr_eq cur expected = false ->
               mt_set mt p expected new = Ok (false, mt)).
Proof.
  intros H1. split.
  - intros Hblk. unfold mt_set.
    rewrite (proj2 (at_idx_Ok _ _ None)) by done. done.
  - intros cur Hg Hp Hne. unfold mt_get in Hg. unfold mt_set.
    destruct (Z.eqb_spec p NULL_PID) as [|_]; [done|].
    apply bind_Ok in Hg as (blk & Hblk & Hg). rewrite Hblk.
    cbn [mbind result_bind]. destruct blk as [b|]; [|done].
    rewrite Hg. cbn [mbind result_bind]. by rewrite Hne.
Qed.

(** X7: [remove] of a PID that names a node sets its slot to null and
    leaves every other PID as it was; [remove] of a PID whose second-tier
    block was never allocated writes through a null pointer. *)
Theorem mapping_table_remove (mt : MappingTable KeyType) p :
  mt_shape mt = true ->
  (forall n, mt_get mt p = Ok (Some n) ->
     exists mt',
       mt_remove mt p = Ok mt' /\
       mt_get mt' p = Ok None /\
       (forall q, q <> p -> mt_get mt' q = mt_get mt q) /\
       nextPid mt' = nextPid mt) /\
  (0 <= GET_TIER1_INDEX p ->
   mappingtable_1 mt !! Z.to_nat (GET_TIER1_INDEX p) = Some None ->
   mt_remove mt p = Err Undefined).
Proof.
  intros Hsh. split.
  - intros n Hg.
    pose proof (mt_get_Some_room _ _ _ Hsh Hg) as Hp.
    pose proof Hg as Hg'. apply mt_get_Some in Hg' as (Hp0 & b & Hb & Hn).
    destruct (mt_shape_inv mt Hsh) as [Hl Hbl]. specialize (Hbl _ _ Hb).
    destruct (tier_index_bounds p Hp0) as (H1 & H2 & _).
    exists (mt_store mt p b None (nextPid mt)). split.
    { unfold mt_remove.
      rewrite (proj2 (at_idx_Ok _ _ (Some b))) by done.
      cbn [mbind result_bind deref].
      rewrite (proj2 (at_idx_Ok _ _ (Some n))) by (split; [lia|done]).
      done. }
    split; [by apply mt_store_get_eq|]. split; [|done].
    intros q Hq. apply mt_store_get_ne; [done|done|by left|done].
  - intros H1 Hblk. unfold mt_remove.
    rewrite (proj2 (at_idx_Ok _ _ None)) by done. done.
Qed.

(** X8: in a table whose arrays are allocated as the constructor and [add]
    leave them, [get] of any PID in [0, MAPPING_TABLE_SIZE^2) returns
    (a node or null), [get] of [NULL_PID] returns null, and [get] of a PID
    beyond the table indexes out of bounds. *)
Theorem mapping_table_get_bounds (mt : MappingTable KeyType) :
  mt_shape mt = true ->
  (forall p, 0 <= p < MAPPING_TABLE_SIZE * MAPPING_TABLE_SIZE ->
             exists r, mt_get mt p = Ok r) /\
  mt_get mt NULL_PID = Ok None /\
  (forall p, MAPPING_TABLE_SIZE * MAPPING_TABLE_SIZE <= p ->
             mt_get mt p = Err Undefined).
Proof.
  intros Hsh. split; [|split; [done|]].
  - intros p Hp. destruct (mt_shape_inv mt Hsh) as [Hl Hb].
    unfold mt_get. destruct (p =? NULL_PID); [eauto|].
    destruct (tier1_index_room p Hp) as [H1 H1'].
    destruct (tier_index_bounds p ltac:(lia)) as (_ & H2 & _).
    destruct (lookup_lt_is_Some_2 (mappingtable_1 mt)
                (Z.to_nat (GET_TIER1_INDEX p)) ltac:(lia)) as [blk Hblk].
    rewrite (proj2 (at_idx_Ok _ _ blk)) by (split; [lia|done]).
    cbn [mbind result_bind]. destruct blk as [b|]; [|eauto].
    specialize (Hb _ _ Hblk).
    destruct (lookup_lt_is_Some_2 b (Z.to_nat (GET_TIER2_INDEX p))
                ltac:(lia)) as [x Hx].
    exists x. apply at_idx_Ok. split; [lia|done].
  - intros p Hp. destruct (mt_shape_inv mt Hsh) as [Hl _].
    change (MAPPING_TABLE_SIZE * MAPPING_TABLE_SIZE) with 1048576 in Hp.
    unfold mt_get. destruct (Z.eqb_spec p NULL_PID) as [->|_];
      [unfold NULL_PID in Hp; lia|].
    assert (1024 <= GET_TIER1_INDEX p) as H1.
    { unfold GET_TIER1_INDEX. rewrite Z.shiftr_div_pow2 by lia.
      apply Z.div_le_lower_bound; lia. }
    unfold at_idx. destruct (Z.ltb_spec (GET_TIER1_INDEX p) 0); [lia|].
    unfold at_index. rewrite lookup_ge_None_2 by lia. done.
Qed.

(** ** Descending through an inner node, and a new root *)

(** X13: in an inner node with [cnt] separators, the slot the search
    follows is the first whose separator is greater than the key: no
    separator before it is greater than the key, and it is [cnt] exactly
    when none is. *)
Theorem inner_child_index_first (key : KeyType) slotkey cnt :
  (cnt <= length slotkey)%nat ->
  exists i,
    inner_child_index key slotkey 0 cnt = Ok i /\
    (i <= cnt)%nat /\
    (forall j k, (j < i)%nat -> slotkey !! j = Some k ->
                 m_key_less key k = false) /\
    (forall k, (i < cnt)%nat -> slotkey !! i = Some k ->
               m_key_less key k = true).
Proof.
  intros Hcnt.
  assert (forall cnt i0,
            (i0 + cnt <= length slotkey)%nat ->
            exists i,
              inner_child_index key slotkey i0 cnt = Ok i /\
              (i0 <= i <= i0 + cnt)%nat /\
              (forall j k, (i0 <= j < i)%nat -> slotkey !! j = Some k ->
                           m_key_less key k = false) /\
              (forall k, (i < i0 + cnt)%nat -> slotkey !! i = Some k ->
                         m_key_less key k = true)) as Hgen.
  { clear. induction cnt as [|cnt IH]; intros i0 Hl.
    { exists i0. cbn. repeat split; intros; lia. }
    destruct (lookup_lt_is_Some_2 slotkey i0 ltac:(lia)) as [k0 Hk0].
    cbn [inner_child_index]. rewrite (proj2 (at_index_Ok _ _ _) Hk0).
    cbn [mbind result_bind]. unfold key_less.
    destruct (m_key_less key k0) eqn:Hlt.
    - exists i0. split; [done|]. split; [lia|]. split; [intros; lia|].
      intros k _ Hk. congruence.
    - destruct (IH (S i0) ltac:(lia)) as (i & Hi & Hr & Hbefore & Hat).
      exists i. split; [done|]. split; [lia|]. split.
      + intros j k Hj Hk. destruct (decide (j = i0)) as [->|Hne];
          [congruence|]. apply (Hbefore j); [lia|done].
      + intros k Hlt' Hk. apply Hat; [lia|done]. }
  destruct (Hgen cnt O ltac:(lia)) as (i & Hi & Hr & Hbefore & Hat).
  exists i. split; [done|]. split; [lia|]. split.
  - intros j k Hj. apply Hbefore. lia.
  - intros k Hlt. apply Hat. lia.
Qed.

Lemma length_InnerNode_slotkey :
  length (InnerNode_slotkey (KeyType:=KeyType)) = Z.to_nat (innerslotmax + 1).
Proof. apply length_replicate. Qed.

Lemma length_InnerNode_childid :
  length (InnerNode_childid (KeyType:=KeyType))
  = Z.to_nat (innerslotmax + 1 + 1).
Proof. apply length_replicate. Qed.

(** X14: in a table with room, [create_root] adds an inner node with one
    separator, the pivot, whose two children are the old root and the new
    sibling and whose range is unbounded, makes it the root after one
    failed and one successful exchange, and leaves all other pages as they
    are; a search in the new root follows the old root for keys below
    the pivot and the sibling for all others. *)
Theorem create_root_two_children (t : BWTreeState KeyType) cur_root
    new_node_pid pivotal :
  mt_shape (mapping_table t) = true -> mt_room (mapping_table t) = true ->
  cur_root <> nextPid (mapping_table t) ->
  exists t' h slotkey childid,
    create_root cur_root new_node_pid pivotal t = Ok (tt, t') /\
    root t' = nextPid (mapping_table t) /\
    mt_get (mapping_table t') (root t') = Ok (Some (InnerNode h slotkey childid)) /\
    (forall q, q <> root t' ->
               mt_get (mapping_table t') q = mt_get (mapping_table t) q) /\
    slotuse h = 1 /\ is_leaf h = false /\
    inf_lowkey h = true /\ inf_highkey h = true /\
    slotkey !! 0%nat = Some pivotal /\
    childid !! 0%nat = Some (Some cur_root) /\
    childid !! 1%nat = Some (Some new_node_pid) /\
    (forall key,
       inner_child_index key slotkey 0 (Z.to_nat (slotuse h))
       = Ok (if m_key_less key pivotal then 0%nat else 1%nat)).
Proof.
  intros Hsh Hroom Hcur.
  pose proof innerslotmax_bounds as Hmax.
  set (h := set_slotuse 1 (InnerNode_hdr (brk t) waste waste true true)).
  set (slotkey := <[0%nat := pivotal]> (InnerNode_slotkey (KeyType:=KeyType))).
  set (childid := <[1%nat := Some new_node_pid]>
                    (<[0%nat := Some cur_root]>
                       (InnerNode_childid (KeyType:=KeyType)))).
  destruct (mt_add_spec (mapping_table t) (Some (InnerNode h slotkey childid))
              Hsh Hroom) as (mt' & Ha & Hsh' & Hnp & Hg & Hother).
  set (np := nextPid (mapping_table t)) in *.
  assert (np <> NULL_PID) as Hnn.
  { unfold mt_room in Hroom. apply andb_prop in Hroom as [H0%Z.leb_le _].
    unfold NULL_PID. subst np. lia. }
  exists (mkBWTree np mt' (garbage_table t) (headleaf t) (brk t + 1)),
    (set_pid np h), slotkey, childid.
  split.
  { unfold create_root, bind at 1, alloc at 1.
    unfold bind at 1, lift at 1.
    rewrite store_index_Ok by (rewrite length_InnerNode_slotkey; lia).
    unfold bind at 1, lift at 1.
    rewrite store_index_Ok by (rewrite length_InnerNode_childid; lia).
    unfold bind at 1, lift at 1.
    rewrite store_index_Ok
      by (rewrite length_insert, length_InnerNode_childid; lia).
    unfold bind at 1, table_add at 1. cbn [mapping_table].
    fold h slotkey childid. rewrite Ha. cbn [mbind result_bind].
    destruct (Z.eqb_spec np NULL_PID); [done|].
    unfold bind at 1, set_root at 1.
    cbn [create_root_cas root mapping_table garbage_table headleaf brk].
    unfold bind at 1, read at 1, lift at 1. cbn [root].
    destruct (Z.eqb_spec np cur_root); [congruence|].
    cbn [Z.ltb Z.compare]. unfold bind at 1, read at 1, lift at 1. cbn [root].
    rewrite Z.eqb_refl. done. }
  cbn [root mapping_table]. split; [done|]. split; [exact Hg|].
  split; [exact Hother|]. repeat split.
  - unfold slotkey. apply list_lookup_insert_eq.
    rewrite length_InnerNode_slotkey. lia.
  - unfold childid. rewrite list_lookup_insert_ne by done.
    apply list_lookup_insert_eq. rewrite length_InnerNode_childid. lia.
  - unfold childid. apply list_lookup_insert_eq.
    rewrite length_insert, length_InnerNode_childid. lia.
  - intros key. cbn [set_pid slotuse h set_slotuse].
    change (Z.to_nat 1) with 1%nat. cbn [inner_child_index].
    assert (slotkey !! 0%nat = Some pivotal) as Hk.
    { unfold slotkey. apply list_lookup_insert_eq.
      rewrite length_InnerNode_slotkey. lia. }
    rewrite (proj2 (at_index_Ok _ _ _) Hk). cbn [mbind result_bind].
    unfold key_less. by destruct (m_key_less key pivotal).
Qed.

(** ** A fresh tree *)

Lemma BWTree_ctor_Ok (t : BWTreeState KeyType) :
  BWTree_ctor = Ok t ->
  root t = 0 /\ headleaf t = 0 /\
  mt_get (mapping_table t) 0
  = Ok (Some (assign_pid 0 (LeafNode_ctor 1 NULL_PID waste waste true true))).
Proof.
  unfold BWTree_ctor. intros Hc.
  apply bind_Ok in Hc as ([newpid mt] & Ha & Hc).
  destruct (0 <=? newpid); [|discriminate]. injection Hc as <-.
  destruct (mt_add_spec MappingTable_ctor
              (Some (LeafNode_ctor 1 NULL_PID waste waste true true)))
    as (mt' & Ha' & _ & _ & Hget & _); [done|done|].
  rewrite Ha in Ha'. injection Ha' as -> <-. done.
Qed.

Lemma get_value_loop_empty_leaf restart f (t : BWTreeState KeyType) key h sk sd
    D r :
  slotuse h = 0 ->
  get_value_loop restart (S (S f)) t key (Some (LeafNode h sk sd)) D r = Ok r.
Proof. intros Hs. cbn [get_value_loop]. rewrite Hs. reflexivity. Qed.

(** X26: a fresh tree is empty.  On the state the constructor builds,
    [get_value] adds nothing to the result for any key, [scan] and
    [scan_all] return nothing, and [delete_entry] returns false for any
    pair and leaves the state as it is. *)
Theorem fresh_tree_empty (t : BWTreeState KeyType) key value fuel result_ :
  BWTree_ctor = Ok t -> (3 <= fuel)%nat ->
  get_value fuel t key result_ = Ok result_ /\
  scan fuel t [] [] = Ok ([], []) /\
  scan_all fuel t [] = Ok [] /\
  delete_entry fuel key value t = Ok (false, t).
Proof.
  intros Hc Hfuel. destruct (BWTree_ctor_Ok t Hc) as (Hroot & Hhead & Hget).
  set (leaf := assign_pid 0 (LeafNode_ctor 1 NULL_PID waste waste true true))
    in *.
  pose proof leafslotmax_bounds as Hmax.
  assert (need_split (hdr_of leaf) = false) as Hns.
  { unfold need_split. cbn. apply bool_decide_eq_false. lia. }
  assert (forall f, search (S f) t 0 key = Ok [0]) as Hsearch.
  { intros f. unfold search. rewrite Hget. reflexivity. }
  destruct fuel as [|[|[|fuel]]]; try lia.
  split; [|split; [|split]].
  - assert (forall f r,
              get_value (S f) t key r
              = path ← search f t (root t) key;
                target_node ← stack_top path;
                next ← mt_get (mapping_table t) target_node;
                node ← deref next;
                if negb (is_leaf (hdr_of node)) then Ok r
                else get_value_loop (get_value f t key) f t key next ∅ r)
      as Hgv by reflexivity.
    rewrite Hgv, Hroot, Hsearch. cbn [mbind result_bind stack_top].
    rewrite Hget. cbn [mbind result_bind deref].
    change (is_leaf (hdr_of leaf)) with true. cbn [negb].
    by apply get_value_loop_empty_leaf.
  - unfold scan. rewrite Hhead, Hget. cbn [mbind result_bind scan_loop].
    change (leaf_fake_consolidate leaf) with (Ok (@nil KeyType, @nil (list ValueType))).
    cbn [mbind result_bind]. change (next_leafnode (hdr_of leaf)) with NULL_PID.
    rewrite mt_get_NULL_PID. reflexivity.
  - unfold scan_all. rewrite Hhead, Hget. cbn [mbind result_bind scan_all_loop].
    change (leaf_fake_consolidate leaf) with (Ok (@nil KeyType, @nil (list ValueType))).
    cbn [mbind result_bind]. change (next_leafnode (hdr_of leaf)) with NULL_PID.
    rewrite mt_get_NULL_PID. reflexivity.
  - assert (locate_leaf (S (S fuel)) key t = Ok ((0, Some leaf), t)) as Hloc.
    { unfold locate_leaf, split, bind, read, lift, table_get, read, lift.
      rewrite Hroot, Hsearch. cbn [stack_top stack_pop]. rewrite Hget.
      cbn [split_loop deref]. unfold bind, lift. cbn [deref].
      rewrite Hns. unfold ret. rewrite Hroot, Hsearch. cbn [stack_top].
      unfold consolidate, bind, table_get, read, lift. rewrite Hget.
      cbn [deref]. rewrite Hns. reflexivity. }
    cbn [delete_entry]. unfold bind at 1. rewrite Hloc.
    unfold bind at 1, lift at 1. cbn [deref]. reflexivity.
Qed.

Section Ordered.

Context `{!KeyLaws KeyType}.

(** ** Sorted keys *)

Lemma key_less_asym a b : m_key_less a b = true -> m_key_less b a = false.
Proof.
  intros Hab. destruct (m_key_less b a) eqn:Hba; [|done].
  pose proof (key_less_trans _ _ _ Hab Hba) as Haa.
  by rewrite key_less_irrefl in Haa.
Qed.

Lemma key_less_connected a b :
  m_key_less a b = false -> a <> b -> m_key_less b a = true.
Proof.
  intros Hab Hne. destruct (m_key_less b a) eqn:Hba; [done|].
  by destruct Hne; apply key_less_total.
Qed.

Lemma key_equal_false a b : key_equal a b = false <-> a <> b.
Proof.
  unfold key_equal. pose proof (key_equal_spec a b) as Hs.
  destruct (m_key_less a b), (m_key_equal a b); split; intros; try done;
    try (exfalso; intuition congruence); intuition congruence.
Qed.

Lemma sorted_keys_cons k ks :
  sorted_keys (k :: ks) = true <->
  Forall (fun x => m_key_less k x = true) ks /\ sorted_keys ks = true.
Proof.
  cbn [sorted_keys]. rewrite andb_true_iff, forallb_forall, Forall_forall.
  split; intros [Hf Hs]; (split; [|done]); intros x Hx; apply Hf;
    by apply list_elem_of_In.
Qed.

Lemma sorted_keys_app ks1 ks2 :
  sorted_keys (ks1 ++ ks2) = true <->
  sorted_keys ks1 = true /\ sorted_keys ks2 = true /\
  Forall (fun a => Forall (fun b => m_key_less a b = true) ks2) ks1.
Proof.
  induction ks1 as [|k ks1 IH].
  - simpl. intuition.
  - cbn [app]. rewrite !sorted_keys_cons, Forall_app, IH, Forall_cons.
    intuition.
Qed.

Lemma sorted_keys_take n ks : sorted_keys ks = true -> sorted_keys (take n ks) = true.
Proof.
  intros Hs. rewrite <- (take_drop n ks) in Hs.
  by apply sorted_keys_app in Hs as (? & _).
Qed.

Lemma sorted_keys_drop n ks : sorted_keys ks = true -> sorted_keys (drop n ks) = true.
Proof.
  intros Hs. rewrite <- (take_drop n ks) in Hs.
  by apply sorted_keys_app in Hs as (_ & ? & _).
Qed.

Lemma sorted_keys_delete i ks :
  sorted_keys ks = true -> sorted_keys (delete i ks) = true.
Proof.
  intros Hs. rewrite delete_take_drop.
  rewrite <- (take_drop i ks) in Hs.
  apply sorted_keys_app in Hs as (H1 & H2 & H3).
  replace (S i) with (i + 1)%nat by lia. rewrite <- drop_drop.
  apply sorted_keys_app. split; [done|].
  split; [by apply sorted_keys_drop|].
  eapply Forall_impl; [exact H3|]. intros a Ha.
  by apply Forall_drop.
Qed.

(** In a sorted list an earlier key is less than a later one. *)
Lemma sorted_keys_lookup ks i j a b :
  sorted_keys ks = true -> (i < j)%nat ->
  ks !! i = Some a -> ks !! j = Some b -> m_key_less a b = true.
Proof.
  revert i j. induction ks as [|k ks IH]; intros i j Hs Hij Ha Hb; [done|].
  apply sorted_keys_cons in Hs as [Hf Hs].
  destruct i as [|i], j as [|j]; try lia; simpl in *.
  - injection Ha as ->. rewrite Forall_lookup in Hf. eauto.
  - apply (IH i j); [done|lia|done|done].
Qed.

Lemma target_pos_spec (key : KeyType) ks :
  let pos := target_pos key ks in
  Forall (fun x => m_key_less key x = true) (drop pos ks) /\
  (pos = O \/ exists y, ks !! (pos - 1)%nat = Some y /\ m_key_less key y = false).
Proof.
  unfold target_pos.
  destruct (find_first _ (reverse ks)) as [j|] eqn:Hff.
  - apply find_first_Some in Hff as (Hj & (y & Hy & Hp) & Hall).
    rewrite length_reverse in Hj. split.
    + rewrite take_reverse in Hall.
      apply Forall_forall. intros x Hx.
      rewrite Forall_forall in Hall.
      specialize (Hall x ltac:(by apply elem_of_reverse)).
      unfold key_greaterequal in Hall. by apply negb_false_iff in Hall.
    + right. exists y. split.
      * rewrite reverse_lookup in Hy by done.
        replace (length ks - j - 1)%nat with (length ks - S j)%nat by lia.
        done.
      * unfold key_greaterequal in Hp. by apply negb_true_iff in Hp.
  - apply find_first_None in Hff. split; [|by left].
    cbn [drop]. apply Forall_forall. intros x Hx.
    rewrite Forall_forall in Hff.
    specialize (Hff x ltac:(by apply elem_of_reverse)).
    unfold key_greaterequal in Hff. by apply negb_false_iff in Hff.
Qed.

(** Putting a new key at [target_pos] keeps the keys sorted. *)
Lemma sorted_keys_insert key ks :
  sorted_keys ks = true ->
  Forall (fun x => key_equal x key = false) ks ->
  sorted_keys (take (target_pos key ks) ks ++ key :: drop (target_pos key ks) ks)
  = true.
Proof.
  intros Hs Hne.
  destruct (target_pos_spec key ks) as [Hgt Hle].
  set (pos := target_pos key ks) in *.
  assert (Forall (fun x => m_key_less x key = true) (take pos ks)) as Hlt.
  { destruct Hle as [->|(y & Hy & Hky)]; [by rewrite take_0|].
    apply Forall_forall. intros x Hx.
    apply elem_of_take in Hx as (i & Hi & Hip).
    assert (m_key_less y key = true) as Hyk.
    { apply key_less_connected; [done|].
      rewrite Forall_lookup in Hne. apply Hne in Hy.
      apply key_equal_false in Hy. congruence. }
    destruct (decide (i = pos - 1)%nat) as [->|Hi1].
    - by simplify_eq.
    - eapply key_less_trans; [|exact Hyk].
      eapply (sorted_keys_lookup ks i (pos - 1)); eauto. lia. }
  apply sorted_keys_app. split; [by apply sorted_keys_take|].
  split.
  - apply sorted_keys_cons. split; [done|by apply sorted_keys_drop].
  - apply Forall_forall. intros a Ha. constructor.
    + rewrite Forall_forall in Hlt. auto.
    + apply Forall_forall. intros b Hb.
      rewrite Forall_forall in Hlt, Hgt.
      eapply key_less_trans; eauto.
Qed.


Lemma leaf_apply_delta_sorted (d : Node KeyType) ks vs ks' vs' :
  sorted_keys ks = true ->
  leaf_apply_delta d (ks, vs) = Ok (ks', vs') ->
  sorted_keys ks' = true.
Proof.
  intros Hs Ha. apply leaf_apply_delta_keys in Ha.
  destruct d; try (by subst).
  - destruct op_type; [| |by subst].
    + destruct Ha as [->|[Hne ->]]; [done|]. by apply sorted_keys_insert.
    + destruct Ha as [->|[x ->]]; [done|]. by apply sorted_keys_delete.
  - destruct Ha as [[i ->] _]. by apply sorted_keys_take.
Qed.

(** The projection of a well-formed leaf chain is sorted and lies in the
    key range of the head of the chain. *)
Lemma leaf_projection_ok (n : Node KeyType) ks vs :
  leaf_chain_ok n ->
  leaf_fake_consolidate n = Ok (ks, vs) ->
  sorted_keys ks = true /\
  Forall (fun k => key_in_node k (hdr_of n) = true) ks.
Proof.
  revert ks vs. induction n; intros ks vs Hok Hf; cbn [leaf_chain_ok] in Hok;
    try done.
  - destruct Hok as (es & Hes & Hs & Hr).
    rewrite (leaf_fake_consolidate_base _ _ _ _ Hes) in Hf. by simplify_eq.
  - destruct Hok as (Hok & Hsr & Hin).
    erewrite leaf_fake_consolidate_step in Hf by reflexivity.
    apply bind_Ok in Hf as ([ks0 vs0] & Hf0 & Hf).
    destruct (IHn _ _ Hok Hf0) as [Hs0 Hr0].
    split; [by eapply leaf_apply_delta_sorted|].
    cbn [hdr_of].
    assert (Forall (fun k => key_in_node k hdr = true) ks0) as Hr0'.
    { eapply Forall_impl; [exact Hr0|]. intros k Hk.
      by rewrite (key_in_node_same_range _ _ _ Hsr). }
    apply leaf_apply_delta_keys in Hf.
    destruct op_type; [| |by subst].
    + destruct Hf as [->|[_ ->]]; [done|].
      apply Forall_app. split; [by apply Forall_take|].
      constructor; [by apply Hin|by apply Forall_drop].
    + destruct Hf as [->|[x ->]]; [done|]. by apply Forall_delete.
  - destruct Hok as (Hok & Hlow & Hinf & Hhigh & Hih).
    erewrite leaf_fake_consolidate_step in Hf by reflexivity.
    apply bind_Ok in Hf as ([ks0 vs0] & Hf0 & Hf).
    destruct (IHn _ _ Hok Hf0) as [Hs0 Hr0].
    split; [by eapply leaf_apply_delta_sorted|].
    apply leaf_apply_delta_keys in Hf as [[i ->] Hlt].
    cbn [hdr_of]. apply Forall_forall. intros k Hk.
    rewrite Forall_forall in Hr0, Hlt.
    specialize (Hlt k Hk).
    assert (k ∈ ks0) as Hk0.
    { apply elem_of_take in Hk as (j & Hj & _).
      by eapply list_elem_of_lookup_2. }
    specialize (Hr0 k Hk0). unfold key_in_node in *.
    apply andb_true_iff in Hr0 as [Hlo _].
    rewrite Hlow, Hinf, Hlo, Hhigh, Hih. done.
Qed.

(** ** Splitting a leaf *)

(** In a sorted list no key from position [i] on is less than the key at
    position [i]. *)
Lemma sorted_keys_first_least ks i (p : KeyType) :
  sorted_keys ks = true -> ks !! i = Some p ->
  Forall (fun k => m_key_less k p = false) (drop i ks).
Proof.
  intros Hs Hp. apply Forall_lookup. intros j k Hk.
  rewrite lookup_drop in Hk. destruct j as [|j].
  - rewrite Nat.add_0_r in Hk. simplify_eq. apply key_less_irrefl.
  - apply key_less_asym.
    eapply (sorted_keys_lookup ks i (i + S j)); eauto. lia.
Qed.

(** C4: splitting a leaf whose projection has [n] keys creates a sibling
    that holds the keys at positions [n/2 .. n-1] of the projection
    ([(n+1)/2] keys) with their values; the low key of the sibling and the
    pivot of the split delta are the key at position [n/2], which no key
    of the upper half is less than; the sibling takes over the high key
    and the next-leaf pointer of the page. *)
Theorem split_leaf_upper_half (t : BWTreeState KeyType)
    (check_split_pid : PidType) (check_split_node : Node KeyType) keys vals :
  let ch := hdr_of check_split_node in
  let n := length keys in
  mt_get (mapping_table t) check_split_pid = Ok (Some check_split_node) ->
  check_split_pid < nextPid (mapping_table t) ->
  leaf_fake_consolidate check_split_node = Ok (keys, vals) ->
  sorted_keys keys = true ->
  slotuse ch = Z.of_nat n ->
  need_split ch = true -> is_leaf ch = true ->
  Z.of_nat n <= leafslotmax + 1 ->
  mt_shape (mapping_table t) = true -> mt_room (mapping_table t) = true ->
  exists new_node_pid pivotal t' h slotkey slotdata hs,
    split_step1 check_split_pid check_split_node t
      = Ok ((true, new_node_pid, pivotal, LeafNode h slotkey slotdata), t') /\
    mt_get (mapping_table t') new_node_pid
      = Ok (Some (LeafNode h slotkey slotdata)) /\
    mt_get (mapping_table t') check_split_pid
      = Ok (Some (SplitDelta hs pivotal new_node_pid check_split_node)) /\
    leaf_entries h slotkey slotdata
      = Some (zip (drop (n / 2) keys) (drop (n / 2) vals)) /\
    slotuse h = Z.of_nat (n - n / 2) /\
    length (drop (n / 2) keys) = ((n + 1) / 2)%nat /\
    keys !! (n / 2)%nat = Some pivotal /\
    Forall (fun k => m_key_less k pivotal = false) (drop (n / 2) keys) /\
    low_key h = pivotal /\ inf_lowkey h = false /\
    high_key h = high_key ch /\ inf_highkey h = inf_highkey ch /\
    next_leafnode h = next_leafnode ch /\
    high_key hs = pivotal /\ inf_highkey hs = false /\
    next_leafnode hs = new_node_pid.
Proof.
  intros ch n Hget Hlt Hfc Hsorted Hsu Hns Hlf Hcap Hsh Hroom.
  destruct (create_leaf_spec t check_split_node keys vals
              Hfc Hsu Hns Hlf Hcap Hsh Hroom)
    as (q & pivotal & t1 & h & slotkey & slotdata & Hcl & Hq & Hes & Hsuh
        & Hlen & Hpiv & Hlow & Hil & Hhigh & Hih & Hnl & _ & Hqe & Hsh1 & Hoth).
  fold ch n in Hes, Hsuh, Hlen, Hpiv, Hhigh, Hih, Hnl.
  assert (check_split_pid <> q) as Hne by lia.
  assert (mt_get (mapping_table t1) check_split_pid
          = Ok (Some check_split_node)) as Hget1 by (by rewrite Hoth).
  set (new_split :=
         SplitDelta_ctor (brk t1) check_split_node pivotal q q (low_key ch)
           (low_key h) (inf_lowkey ch) false).
  set (t2 := mkBWTree (root t1) (mapping_table t1) (garbage_table t1)
                      (headleaf t1) (brk t1 + 1)).
  destruct (mt_set_succeeds (mapping_table t1) check_split_pid
              check_split_node (Some check_split_node) (Some new_split)
              Hget1 (ptr_eq_refl _)) as [mt' Hset].
  destruct (mt_set_true _ _ _ _ _ Hsh1 Hset)
    as (Hp0 & Hsh2 & _ & _ & Hgs & Hos).
  apply andb_true_iff in Hroom as [_ Hr]. apply Z.ltb_lt in Hr.
  exists q, pivotal,
    (mkBWTree (root t1) mt' (garbage_table t1) (headleaf t1) (brk t1 + 1)),
    h, slotkey, slotdata.
  eexists. split.
  { unfold split_step1, bind. fold ch. rewrite Hlf, Hcl.
    unfold table_get, read, lift. rewrite Hq. cbn [deref].
    unfold alloc, table_set. cbn [mapping_table hdr_of]. fold new_split.
    rewrite Hset. cbn [mbind result_bind]. unfold ret. reflexivity. }
  cbn [mapping_table].
  split; [by rewrite Hos|].
  split; [rewrite Hgs by lia; reflexivity|].
  split; [done|]. split; [done|]. split; [done|]. split; [done|].
  split; [by apply sorted_keys_first_least|].
  repeat split; done.
Qed.

(** ** The scans *)

(** [scan_all] returns the values [scan] returns, concatenated. *)
Lemma scan_all_loop_scan (t : BWTreeState KeyType) :
  forall fuel node ks0 vs0 ks vs,
    scan_loop fuel t node ks0 vs0 = Ok (ks, vs) ->
    exists vs1, vs = vs0 ++ vs1 /\
      forall v, scan_all_loop fuel t node v = Ok (v ++ concat vs1).
Proof.
  induction fuel as [|fuel IH]; intros node ks0 vs0 ks vs Hs; [discriminate|].
  cbn [scan_loop] in Hs. destruct node as [n|].
  - apply bind_Ok in Hs as ([keys values] & Hf & Hs).
    apply bind_Ok in Hs as (nx & Hnx & Hs).
    apply IH in Hs as (vs1 & -> & Hall).
    exists (values ++ vs1). split; [by rewrite app_assoc|].
    intros v. cbn [scan_all_loop]. rewrite Hf. cbn [mbind result_bind snd].
    rewrite Hnx. cbn [mbind result_bind]. rewrite Hall.
    by rewrite concat_app, app_assoc.
  - injection Hs as <- <-. exists []. split; [by rewrite app_nil_r|].
    intros v. cbn [scan_all_loop concat]. by rewrite app_nil_r.
Qed.

Lemma mt_get_total (mt : MappingTable KeyType) p :
  mt_shape mt = true ->
  0 <= p < MAPPING_TABLE_SIZE * MAPPING_TABLE_SIZE ->
  exists r, mt_get mt p = Ok r.
Proof.
  intros Hsh Hp. apply mt_shape_inv in Hsh as [Hl Hb].
  unfold mt_get. destruct (p =? NULL_PID); [eauto|].
  destruct (tier1_index_room p Hp) as [H1 H1'].
  destruct (tier_index_bounds p ltac:(lia)) as (_ & H2 & _).
  destruct (lookup_lt_is_Some_2 (mappingtable_1 mt)
              (Z.to_nat (GET_TIER1_INDEX p)) ltac:(lia)) as [blk Hblk].
  rewrite (proj2 (at_idx_Ok _ _ blk)) by (split; [lia|done]).
  cbn [mbind result_bind].
  destruct blk as [b|]; [|eauto].
  specialize (Hb _ _ Hblk).
  destruct (lookup_lt_is_Some_2 b (Z.to_nat (GET_TIER2_INDEX p))
              ltac:(lia)) as [x Hx].
  exists x. apply at_idx_Ok. split; [lia|done].
Qed.

Lemma filter_length_lt {A} (P Q : A -> Prop) `{!forall x, Decision (P x)}
    `{!forall x, Decision (Q x)} (l : list A) x :
  (forall y, P y -> Q y) -> x ∈ l -> Q x -> ~ P x ->
  (length (filter P l) < length (filter Q l))%nat.
Proof.
  intros HPQ Hx HQ HP. induction l as [|y l IH]; [by apply elem_of_nil in Hx|].
  assert (length (filter P l) <= length (filter Q l))%nat as Hle.
  { clear -HPQ. induction l as [|z l IH]; [done|].
    rewrite !filter_cons. destruct (decide (P z)) as [Hz|Hz].
    - rewrite decide_True by auto. cbn. lia.
    - destruct (decide (Q z)); cbn; lia. }
  rewrite !filter_cons. apply elem_of_cons in Hx as [<-|Hx].
  - rewrite decide_False, decide_True by done. cbn. lia.
  - specialize (IH Hx). destruct (decide (P y)) as [Hy|Hy].
    + rewrite decide_True by auto. cbn. lia.
    + destruct (decide (Q y)); cbn; lia.
Qed.

Lemma key_less_le_trans a b c :
  m_key_less a b = true -> m_key_less c b = false -> m_key_less a c = true.
Proof.
  intros Hab Hcb. destruct (m_key_less b c) eqn:Hbc.
  - by eapply key_less_trans.
  - by rewrite <-(key_less_total b c Hbc Hcb).
Qed.

Lemma good_leaf_inv (g : ghost KeyType) p (n : Node KeyType) :
  good g p n -> is_leaf (hdr_of n) = true ->
  sigs g p = Some (true, inf_lowkey (hdr_of n), low_key (hdr_of n)) /\
  leaf_sem n /\ range_ok (hdr_of n) /\ link_ok g (hdr_of n).
Proof.
  intros (_ & Hs & Hg) Hl. rewrite Hl in Hg. unfold sig_of in Hs.
  rewrite Hl in Hs. destruct Hg as (Hc & Hr & Hk & _).
  split; [done|]. split; [|done]. destruct n; cbn in Hc; tauto.
Qed.

Lemma scan_loop_sorted (g : ghost KeyType) (t : BWTreeState KeyType) :
  Inv g t ->
  forall m fuel p n ks0 vs0,
    mt_get (mapping_table t) p = Ok (Some n) ->
    is_leaf (hdr_of n) = true ->
    (rank g (hdr_of n) (nextPid (mapping_table t)) < m)%nat ->
    (m + 1 <= fuel)%nat ->
    sorted_keys ks0 = true ->
    Forall (fun a => inf_lowkey (hdr_of n) = false /\
                     m_key_less a (low_key (hdr_of n)) = true) ks0 ->
    exists ks vs,
      scan_loop fuel t (Some n) ks0 vs0 = Ok (ks, vs) /\
      sorted_keys ks = true.
Proof.
  intros (Hsh & Hlive & Hsig & Hnp & _ & _).
  induction m as [|m IH]; intros fuel p n ks0 vs0 Hg Hl Hrk Hfuel Hs0 Hb0;
    [lia|].
  destruct fuel as [|fuel]; [lia|].
  destruct (good_leaf_inv _ _ _ (Hlive _ _ Hg) Hl)
    as (Hsp & (ks1 & vs1 & Hf & Hs1 & _ & Hin & _) & Hr & Hk).
  cbn [scan_loop]. rewrite Hf. cbn [mbind result_bind].
  assert (sorted_keys (ks0 ++ ks1) = true) as Hs01.
  { apply sorted_keys_app. split; [done|]. split; [done|].
    eapply Forall_impl; [exact Hb0|]. intros a [Hil Ha]. cbn in Ha.
    eapply Forall_impl; [exact Hin|]. intros b Hb. cbn in Hb.
    unfold key_in_node, key_greaterequal in Hb. rewrite Hil in Hb.
    apply andb_prop in Hb as [Hb%negb_true_iff _].
    by eapply key_less_le_trans. }
  assert (exists fuel', fuel = S fuel') as [fuel' ->]
    by (destruct fuel; [lia|eauto]).
  destruct Hk as [Hnull|[Hih Hnx]].
  { rewrite Hnull, mt_get_NULL_PID. cbn [mbind result_bind scan_loop]. eauto. }
  destruct (Hsig _ _ Hnx) as [Hq0 Hq1].
  destruct (mt_get_total (mapping_table t) (next_leafnode (hdr_of n)) Hsh
              ltac:(lia)) as [r Hr'].
  rewrite Hr'. cbn [mbind result_bind].
  destruct r as [n'|]; [|cbn [scan_loop]; eauto].
  pose proof (Hlive _ _ Hr') as Hg'.
  assert (sig_of (hdr_of n') = (true, false, high_key (hdr_of n))) as Hsg.
  { destruct Hg' as (_ & Hs' & _). congruence. }
  unfold sig_of in Hsg. injection Hsg as Hl' Hil' Hlk'.
  assert (inf_lowkey (hdr_of n) = false ->
          m_key_less (low_key (hdr_of n)) (high_key (hdr_of n)) = true)
    as Hlt by (intros ?; by apply Hr).
  apply (IH (S fuel') (next_leafnode (hdr_of n))); [done|done| |lia|done|].
  - eapply Nat.lt_le_trans; [|apply Nat.lt_succ_r, Hrk]. unfold rank.
    apply (filter_length_lt _ _ _ (next_leafnode (hdr_of n))).
    + intros q. unfold above.
      destruct (sigs g q) as [[[[] []] k]|]; try done.
      rewrite Hil', Hlk'. cbn [orb]. intros Hk.
      destruct (inf_lowkey (hdr_of n)); [done|]. cbn [orb].
      eapply key_less_trans; [|exact Hk]. by apply Hlt.
    + apply elem_of_seqZ. lia.
    + unfold above. rewrite Hnx.
      destruct (inf_lowkey (hdr_of n)); [done|]. cbn [orb]. by apply Hlt.
    + unfold above. rewrite Hnx, Hil', Hlk'. cbn [orb].
      rewrite key_less_irrefl. done.
  - rewrite Hil', Hlk'. apply Forall_app. split.
    + eapply Forall_impl; [exact Hb0|]. intros a [Hil Ha]. cbn in Ha.
      split; [done|]. eapply key_less_trans; [exact Ha|]. by apply Hlt.
    + eapply Forall_impl; [exact Hin|]. intros b Hb. cbn in Hb.
      split; [done|]. unfold key_in_node, key_less in Hb. rewrite Hih in Hb.
      by apply andb_prop in Hb as [_ Hb].
Qed.

(** In a state with the invariant, [scan] with a budget of one step per
    allocated PID and two more returns keys in strictly increasing order,
    and [scan_all] returns the values of these keys in the same order. *)
Lemma scan_sorted_inv (g : ghost KeyType) (t : BWTreeState KeyType) fuel :
  Inv g t ->
  (Z.to_nat (nextPid (mapping_table t)) + 2 <= fuel)%nat ->
  exists ks vs,
    scan fuel t [] [] = Ok (ks, vs) /\
    sorted_keys ks = true /\
    length ks = length vs /\
    scan_all fuel t [] = Ok (concat vs).
Proof.
  intros HI Hfuel.
  assert (forall ks vs, scan fuel t [] [] = Ok (ks, vs) ->
            length ks = length vs /\ scan_all fuel t [] = Ok (concat vs))
    as Hall.
  { intros ks vs Hs. unfold scan in Hs. apply bind_Ok in Hs as (node & Hn & Hs).
    split.
    - clear -Hs. 
      assert (length (@nil KeyType) = length (@nil (list ValueType))) as Hl
        by done.
      revert Hs Hl. generalize (@nil KeyType), (@nil (list ValueType)).
      revert node. induction fuel as [|fuel IH]; intros node ks0 vs0 Hs Hl;
        [discriminate|].
      cbn [scan_loop] in Hs. destruct node as [n|]; [|by simplify_eq].
      apply bind_Ok in Hs as ([keys values] & Hf & Hs).
      apply bind_Ok in Hs as (nx & Hnx & Hs).
      apply leaf_fake_consolidate_lengths in Hf.
      apply IH in Hs; [done|]. rewrite !length_app. lia.
    - apply scan_all_loop_scan in Hs as (vs1 & -> & Hv).
      unfold scan_all. rewrite Hn. cbn [mbind result_bind]. apply Hv. }
  pose proof HI as (Hsh & Hlive & Hsig & Hnp & Hcap & il & lk & Hhead).
  destruct (Hsig _ _ Hhead) as [Hh0 Hh1].
  destruct (mt_get_total (mapping_table t) (headleaf t) Hsh ltac:(lia))
    as [r Hr].
  assert (exists ks vs, scan fuel t [] [] = Ok (ks, vs) /\
                        sorted_keys ks = true) as (ks & vs & Hs & Hso).
  { unfold scan. rewrite Hr. cbn [mbind result_bind].
    destruct r as [n|].
    2:{ destruct fuel; [lia|]. cbn [scan_loop]. eauto. }
    assert (is_leaf (hdr_of n) = true) as Hl.
    { destruct (Hlive _ _ Hr) as (_ & Hs' & _). unfold sig_of in Hs'.
      congruence. }
    apply (scan_loop_sorted g t HI
             (S (Z.to_nat (nextPid (mapping_table t)))) fuel (headleaf t));
      [done|done| |lia|done|done].
    unfold rank. apply Nat.lt_succ_r.
    etrans; [apply length_filter|]. rewrite length_seqZ. lia. }
  exists ks, vs. destruct (Hall _ _ Hs). done.
Qed.

(** ** The values of a key in a projection *)

Lemma key_equal_true (a b : KeyType) : key_equal a b = true <-> a = b.
Proof. apply key_equal_spec. Qed.

Lemma key_equal_via (a b c : KeyType) :
  key_equal a c = true -> key_equal a b = false -> key_equal b c = false.
Proof.
  intros ->%key_equal_true Hab. destruct (key_equal b c) eqn:Hbc; [|done].
  apply key_equal_true in Hbc as ->.
  assert (key_equal c c = true) by by apply key_equal_true. congruence.
Qed.

Lemma vals_of_not_found (key : KeyType) ks vs :
  Forall (fun k => key_equal k key = false) ks -> vals_of key ks vs = [].
Proof.
  intros Hks. revert vs. induction Hks as [|k ks Hk _ IH]; intros vs; [done|].
  destruct vs as [|v vs]; [done|]. cbn [vals_of]. by rewrite Hk.
Qed.

Lemma vals_of_found (key : KeyType) ks vs x vals :
  find_first (fun k => key_equal k key) ks = Some x ->
  vs !! x = Some vals -> vals_of key ks vs = vals.
Proof.
  revert vs x. induction ks as [|k ks IH]; intros vs x Hf Hx; [done|].
  cbn [find_first] in Hf.
  destruct vs as [|v vs]; [by rewrite lookup_nil in Hx|]. cbn [vals_of].
  destruct (key_equal k key);
    [injection Hf as <-; cbn in Hx; congruence|].
  destruct (find_first _ ks) as [x'|] eqn:Hx'; [|done].
  injection Hf as <-. by eapply IH.
Qed.

Lemma vals_of_update (key k : KeyType) ks vs x new :
  find_first (fun y => key_equal y k) ks = Some x ->
  (x < length vs)%nat ->
  vals_of key ks (<[x := new]> vs)
  = if key_equal k key then new else vals_of key ks vs.
Proof.
  revert vs x. induction ks as [|kh ks IH]; intros vs x Hf Hx; [done|].
  cbn [find_first] in Hf. destruct vs as [|v vs]; [cbn in Hx; lia|].
  destruct (key_equal kh k) eqn:Hk.
  - injection Hf as <-. apply key_equal_true in Hk as ->.
    cbn [vals_of]. change (<[0%nat:=new]> (v :: vs)) with (new :: vs).
    cbn [vals_of]. by destruct (key_equal k key).
  - destruct (find_first _ ks) as [x'|] eqn:Hx'; [|done].
    injection Hf as <-. change (<[S x':=new]> (v :: vs)) with (v :: <[x':=new]> vs).
    cbn [vals_of]. destruct (key_equal kh key) eqn:Hkk.
    + by rewrite (key_equal_via kh k key).
    + apply IH; [done|]. cbn in Hx. lia.
Qed.

Lemma vals_of_insert (key k : KeyType) ks vs pos new :
  Forall (fun y => key_equal y k = false) ks ->
  length ks = length vs ->
  vals_of key (take pos ks ++ k :: drop pos ks)
          (take pos vs ++ new :: drop pos vs)
  = if key_equal k key then new else vals_of key ks vs.
Proof.
  intros Hks. revert vs pos.
  induction Hks as [|kh ks Hk _ IH]; intros vs pos Hl.
  - destruct vs; [|done]. rewrite !take_nil, !drop_nil. cbn.
    by destruct (key_equal k key).
  - destruct vs as [|v vs]; [done|]. destruct pos as [|pos].
    + cbn [take drop app vals_of]. done.
    + cbn [take drop app vals_of]. destruct (key_equal kh key) eqn:Hkk.
      * by rewrite (key_equal_via kh k key).
      * apply IH. cbn in Hl. lia.
Qed.

Lemma sorted_keys_distinct (k : KeyType) ks :
  Forall (fun x => m_key_less k x = true) ks ->
  Forall (fun x => key_equal x k = false) ks.
Proof.
  intros Hk. eapply Forall_impl; [exact Hk|].
  intros x Hx. cbn in Hx. destruct (key_equal x k) eqn:He; [|done].
  apply key_equal_true in He as ->. by rewrite key_less_irrefl in Hx.
Qed.

Lemma vals_of_erase (key k : KeyType) ks vs x :
  sorted_keys ks = true ->
  find_first (fun y => key_equal y k) ks = Some x ->
  length ks = length vs ->
  vals_of key (delete x ks) (delete x vs)
  = if key_equal k key then [] else vals_of key ks vs.
Proof.
  revert vs x. induction ks as [|kh ks IH]; intros vs x Hs Hf Hl; [done|].
  apply sorted_keys_cons in Hs as [Hlt Hs].
  cbn [find_first] in Hf. destruct vs as [|v vs]; [done|].
  destruct (key_equal kh k) eqn:Hk.
  - injection Hf as <-. apply key_equal_true in Hk as ->.
    cbn [delete list_delete vals_of]. destruct (key_equal k key) eqn:Hkk; [|done].
    apply key_equal_true in Hkk as <-.
    apply vals_of_not_found. by apply sorted_keys_distinct.
  - destruct (find_first _ ks) as [x'|] eqn:Hx'; [|done].
    injection Hf as <-. cbn [delete list_delete vals_of].
    destruct (key_equal kh key) eqn:Hkk.
    + by rewrite (key_equal_via kh k key).
    + apply IH; [done|done|]. cbn in Hl. lia.
Qed.

Lemma vals_of_take (key Kp : KeyType) ks vs i :
  sorted_keys ks = true ->
  find_first (fun k => key_greaterequal k Kp false) ks = Some i ->
  m_key_less key Kp = true ->
  vals_of key (take i ks) (take i vs) = vals_of key ks vs.
Proof.
  revert vs i. induction ks as [|kh ks IH]; intros vs i Hs Hf Hk; [done|].
  apply sorted_keys_cons in Hs as [Hlt Hs].
  cbn [find_first] in Hf. destruct (key_greaterequal kh Kp false) eqn:Hge.
  - injection Hf as <-. rewrite (vals_of_not_found key (kh :: ks)); [done|].
    unfold key_greaterequal in Hge.
    apply negb_true_iff in Hge.
    assert (m_key_less key kh = true) as Hkh by by eapply key_less_le_trans.
    apply Forall_cons. split.
    + destruct (key_equal kh key) eqn:He; [|done].
      apply key_equal_true in He as ->. by rewrite key_less_irrefl in Hkh.
    + eapply Forall_impl; [exact Hlt|]. intros y Hy. cbn in Hy.
      destruct (key_equal y key) eqn:He; [|done].
      apply key_equal_true in He as ->.
      by rewrite (key_less_asym _ _ Hkh) in Hy.
  - destruct (find_first _ ks) as [i'|] eqn:Hi'; [|done].
    injection Hf as <-. destruct vs as [|v vs]; [done|].
    cbn [take vals_of]. destruct (key_equal kh key); [done|]. by apply IH.
Qed.

(** ** One delta, seen from one key *)

Lemma value_equal_true (a b : ValueType) : value_equal a b = true <-> a = b.
Proof.
  unfold value_equal, ItemPointerEqualityChecker. destruct a, b. cbn.
  rewrite andb_true_iff, !Z.eqb_eq. split; [intros [-> ->]|intros [= -> ->]];
    done.
Qed.

Lemma append_as_insert {A} (l : list A) x :
  l ++ [x] = take (length l) l ++ x :: drop (length l) l.
Proof. by rewrite take_ge, drop_ge by lia. Qed.

Lemma leaf_apply_insert_vals rh (k : KeyType) v ks vs ks' vs' key :
  length ks = length vs ->
  leaf_apply_insert rh k v ks vs = Ok (ks', vs') ->
  vals_of key ks' vs'
  = vals_of key ks vs ++ (if key_equal k key then [v] else []).
Proof.
  intros Hl Ha. unfold leaf_apply_insert in Ha.
  destruct (find_first _ ks) as [x|] eqn:Hx.
  - apply bind_Ok in Ha as (vals & Hv%at_index_Ok & Ha). injection Ha as <- <-.
    rewrite (vals_of_update key k) by (done || by eapply lookup_lt_Some).
    destruct (key_equal k key) eqn:Hk; [|by rewrite app_nil_r].
    apply key_equal_true in Hk as <-. by rewrite (vals_of_found k ks vs x vals).
  - apply find_first_None in Hx.
    apply bind_Ok in Ha as ([ks1 vs1] & Hi & Ha).
    destruct (_ =? slotuse rh); [|discriminate]. injection Ha as <- <-.
    assert (vals_of key ks1 vs1
            = if key_equal k key then [v] else vals_of key ks vs) as ->.
    { destruct (slotuse rh =? 0).
      - injection Hi as <- <-. rewrite (append_as_insert ks), Hl.
        rewrite (append_as_insert vs), <-Hl. by apply vals_of_insert.
      - apply bind_Ok in Hi as (ks2 & [_ ->]%vec_insert_Ok & Hi).
        apply bind_Ok in Hi as (vs2 & [_ ->]%vec_insert_Ok & Hi).
        injection Hi as <- <-. by apply vals_of_insert. }
    destruct (key_equal k key) eqn:Hk; [|by rewrite app_nil_r].
    apply key_equal_true in Hk as <-. by rewrite (vals_of_not_found k ks vs).
Qed.

Lemma delete_insert_same {A} (l : list A) i x :
  delete i (<[i := x]> l) = delete i l.
Proof.
  revert i. induction l as [|y l IH]; intros [|i]; cbn; [done..|].
  by rewrite IH.
Qed.

Lemma leaf_apply_delete_vals rh (k : KeyType) v ks vs ks' vs' key :
  sorted_keys ks = true -> length ks = length vs ->
  leaf_apply_delete rh k v ks vs = Ok (ks', vs') ->
  vals_of key ks' vs'
  = if key_equal k key then erase_value v (vals_of key ks vs)
    else vals_of key ks vs.
Proof.
  intros Hs Hl Ha. unfold leaf_apply_delete in Ha.
  apply bind_Ok in Ha as ([ks1 vs1] & Hd & Ha).
  destruct (_ =? slotuse rh); [|discriminate]. injection Ha as <- <-.
  destruct (find_first _ ks) as [x|] eqn:Hx.
  - apply bind_Ok in Hd as (vals & Hv%at_index_Ok & Hd).
    pose proof (vals_of_found k ks vs x vals Hx Hv) as Hkv.
    destruct (bool_decide _) eqn:He.
    + apply bool_decide_eq_true, nil_length_inv in He.
      apply bind_Ok in Hd as (ks2 & [_ ->]%vec_erase_Ok & Hd).
      apply bind_Ok in Hd as (vs2 & [_ ->]%vec_erase_Ok & Hd).
      injection Hd as <- <-. rewrite delete_insert_same.
      rewrite (vals_of_erase key k) by done.
      destruct (key_equal k key) eqn:Hk; [|done].
      apply key_equal_true in Hk as <-. by rewrite Hkv, He.
    + injection Hd as <- <-.
      rewrite (vals_of_update key k) by (done || by eapply lookup_lt_Some).
      destruct (key_equal k key) eqn:Hk; [|done].
      apply key_equal_true in Hk as <-. by rewrite Hkv.
  - injection Hd as <- <-. apply find_first_None in Hx.
    destruct (key_equal k key) eqn:Hk; [|done].
    apply key_equal_true in Hk as <-. by rewrite (vals_of_not_found k ks vs).
Qed.

Lemma vec_resize_take {A} (d : A) n v :
  (n <= length v)%nat -> vec_resize d n v = take n v.
Proof.
  intros Hn. unfold vec_resize. replace (n - length v)%nat with O by lia.
  apply app_nil_r.
Qed.

Lemma leaf_apply_split_vals h (Kp : KeyType) pQ nx ks vs ks' vs' key :
  sorted_keys ks = true -> length ks = length vs ->
  leaf_apply_delta (SplitDelta h Kp pQ nx) (ks, vs) = Ok (ks', vs') ->
  m_key_less key Kp = true ->
  vals_of key ks' vs' = vals_of key ks vs.
Proof.
  intros Hs Hl Ha Hk. cbn [leaf_apply_delta] in Ha.
  destruct (find_first _ ks) as [i|] eqn:Hi; [|by simplify_eq].
  injection Ha as <- <-. pose proof (find_first_Some _ _ _ Hi) as [Hlt _].
  rewrite !vec_resize_take by lia. by eapply vals_of_take.
Qed.

(** ** Counting without overflow *)

Lemma count_pair_vals_spec value vals D t p :
  0 <= p <= t -> t + Z.of_nat (length vals) <= INT_MAX ->
  count_pair_vals value vals D t p
  = (t + visible_count D vals, p + visible_pairs D value vals).
Proof.
  unfold visible_count, visible_pairs. revert t p.
  induction vals as [|v vals IH]; intros t p Hp Ht.
  { cbn. f_equal; lia. }
  change (length (v :: vals)) with (S (length vals)) in Ht.
  rewrite Nat2Z.inj_succ in Ht.
  cbn [count_pair_vals List.filter]. destruct (delset_count D v); cbn [negb andb].
  - apply IH; lia.
  - rewrite (wrap_int_id (t + 1)) by ilia.
    destruct (value_equal v value).
    + rewrite (wrap_int_id (p + 1)) by ilia.
      rewrite IH by lia. cbn [length]. f_equal; lia.
    + rewrite IH by lia. cbn [length]. f_equal; lia.
Qed.

Lemma visible_count_app D l1 l2 :
  visible_count D (l1 ++ l2) = visible_count D l1 + visible_count D l2.
Proof.
  unfold visible_count. rewrite List.filter_app, length_app. lia.
Qed.

Lemma visible_pairs_app D value l1 l2 :
  visible_pairs D value (l1 ++ l2)
  = visible_pairs D value l1 + visible_pairs D value l2.
Proof.
  unfold visible_pairs. rewrite List.filter_app, length_app. lia.
Qed.

Lemma delset_count_union D (v w : ValueType) :
  negb (delset_count ({[v]} ∪ D) w)
  = negb (ItemPointerEqualityChecker w v) && negb (delset_count D w).
Proof.
  unfold delset_count. destruct (ItemPointerEqualityChecker w v) eqn:He.
  - apply (value_equal_true w v) in He as ->. cbn.
    rewrite bool_decide_eq_true_2; [done|].
    by apply elem_of_union_l, elem_of_singleton.
  - cbn. apply eq_true_iff_eq. rewrite !negb_true_iff, !bool_decide_eq_false.
    assert (w <> v) as Hne.
    { intros ->. assert (ItemPointerEqualityChecker v v = true)
        by by apply (value_equal_true v v). congruence. }
    rewrite elem_of_union, elem_of_singleton. tauto.
Qed.

Lemma filter_erase_value (f : ValueType -> bool) v vals :
  List.filter f (erase_value v vals)
  = List.filter (fun w => negb (ItemPointerEqualityChecker w v) && f w) vals.
Proof.
  unfold erase_value. induction vals as [|w vals IH]; [done|].
  cbn [List.filter]. destruct (negb _); cbn [List.filter andb]; [|done].
  destruct (f w); by rewrite IH.
Qed.

Lemma filter_ext_bool {A} (f g : A -> bool) l :
  (forall x, f x = g x) -> List.filter f l = List.filter g l.
Proof.
  intros Hfg. induction l as [|x l IH]; [done|]. cbn. by rewrite Hfg, IH.
Qed.

Lemma visible_count_erase D v vals :
  visible_count D (erase_value v vals) = visible_count ({[v]} ∪ D) vals.
Proof.
  unfold visible_count. rewrite filter_erase_value. do 2 f_equal.
  apply filter_ext_bool. intros w. by rewrite delset_count_union.
Qed.

Lemma visible_pairs_erase D value v vals :
  visible_pairs D value (erase_value v vals)
  = visible_pairs ({[v]} ∪ D) value vals.
Proof.
  unfold visible_pairs. rewrite filter_erase_value. do 2 f_equal.
  apply filter_ext_bool. intros w.
  by rewrite delset_count_union, andb_assoc.
Qed.

Lemma existsb_erase D v vals :
  existsb (fun w => negb (delset_count D w)) (erase_value v vals)
  = existsb (fun w => negb (delset_count ({[v]} ∪ D) w)) vals.
Proof.
  unfold erase_value. induction vals as [|w vals IH]; [done|].
  cbn [List.filter existsb]. rewrite delset_count_union.
  destruct (negb (ItemPointerEqualityChecker w v)); cbn [existsb andb orb];
    by rewrite IH.
Qed.

(** ** The readers of a chain and its projection *)

(** On a base leaf the readers look at the slot of the key, which is where
    the projection has its values. *)
Lemma leaf_base_readers (key : KeyType) slotkey slotdata D :
  forall cnt i ks0 vs0 ks vs,
    copy_leaf_base slotkey slotdata i cnt ks0 vs0 = Ok (ks, vs) ->
    exists ks1 vs1,
      ks = ks0 ++ ks1 /\ vs = vs0 ++ vs1 /\ length ks1 = length vs1 /\
      Forall (fun v => exists j, slotdata !! j = Some (Some v)) vs1 /\
      key_is_in_leaf key slotkey slotdata D i cnt
      = Ok (existsb (fun v => negb (delset_count D v)) (vals_of key ks1 vs1)) /\
      forall value t p,
        count_pair_leaf key value slotkey slotdata D t p i cnt
        = Ok (count_pair_vals value (vals_of key ks1 vs1) D t p).
Proof.
  induction cnt as [|cnt IH]; intros i ks0 vs0 ks vs Hc; cbn in Hc.
  { injection Hc as <- <-. exists [], []. rewrite !app_nil_r.
    repeat split; done. }
  apply bind_Ok in Hc as (k & Hk & Hc).
  apply bind_Ok in Hc as (p & Hp & Hc).
  apply bind_Ok in Hc as (vals & Hv%deref_Ok & Hc). subst p.
  apply IH in Hc as (ks1 & vs1 & -> & -> & Hl & Hall & Hin & Hcp).
  exists (k :: ks1), (vals :: vs1). rewrite <-!app_assoc.
  split; [done|]. split; [done|]. split; [cbn; lia|]. split.
  { apply Forall_cons. split; [|done]. exists i. by apply at_index_Ok. }
  cbn [key_is_in_leaf count_pair_leaf vals_of]. rewrite Hk, Hp.
  cbn [mbind result_bind deref]. destruct (key_equal k key); [done|].
  split; [done|]. intros value t p. apply Hcp.
Qed.

Lemma vals_of_elem (key : KeyType) ks vs :
  vals_of key ks vs = [] \/ vals_of key ks vs ∈ vs.
Proof.
  revert vs. induction ks as [|k ks IH]; intros vs; [by left|].
  destruct vs as [|v vs]; [by left|]. cbn [vals_of].
  destruct (key_equal k key); [right; apply list_elem_of_here|].
  destruct (IH vs) as [->|Hin]; [by left|right; by apply list_elem_of_further].
Qed.

Lemma vals_of_nonempty (key : KeyType) ks vs :
  length ks = length vs ->
  Forall (fun v => v <> []) vs ->
  vals_of key ks vs = [] <->
  find_first (fun k => key_equal k key) ks = None.
Proof.
  revert vs. induction ks as [|k ks IH]; intros vs Hl Hne; [done|].
  destruct vs as [|v vs]; [done|]. apply Forall_cons in Hne as [Hv Hne].
  cbn [vals_of find_first]. destruct (key_equal k key); [done|].
  rewrite IH by (done || cbn in Hl; lia).
  destruct (find_first _ ks); cbn; split; done.
Qed.

Lemma key_in_node_split (key Kp : KeyType) (h hx : NodeHdr KeyType) :
  low_key h = low_key hx -> inf_lowkey h = inf_lowkey hx ->
  high_key h = Kp -> inf_highkey h = false ->
  key_in_node Kp hx = true ->
  key_in_node key h = true ->
  m_key_less key Kp = true /\ key_in_node key hx = true.
Proof.
  unfold key_in_node, key_less, key_greaterequal.
  intros -> -> -> -> [_ Hp]%andb_prop [Hlo Hk]%andb_prop.
  split; [done|]. rewrite Hlo. cbn [andb].
  destruct (inf_highkey hx); [done|]. by eapply key_less_trans.
Qed.

(** [key_is_in] and [count_pair], which read a chain from the head with
    a set of deleted values, see the values the projection has for the
    key. *)
Lemma readers_agree (n : Node KeyType) :
  leaf_chain_good n ->
  forall key ks vs,
    leaf_fake_consolidate n = Ok (ks, vs) ->
    key_in_node key (hdr_of n) = true ->
    forall D,
      key_is_in_from key n D
      = Ok (existsb (fun v => negb (delset_count D v)) (vals_of key ks vs)) /\
      forall value t p,
        0 <= p <= t -> t + Z.of_nat (chain_values n) <= INT_MAX ->
        count_pair_from key value n D t p
        = Ok (t + visible_count D (vals_of key ks vs),
              p + visible_pairs D value (vals_of key ks vs)).
Proof.
  induction n as [h slotkey slotdata| | h op k v nx IH | h Kp pQ nx IH | | | ];
    intros Hg key ks vs Hf Hin D; cbn [leaf_chain_good] in Hg;
    try (exfalso; tauto).
  - (* the base leaf *)
    unfold leaf_fake_consolidate in Hf. cbn in Hf.
    apply bind_Ok in Hf as (base & Hf & Hb). injection Hb as ->.
    apply (leaf_base_readers key _ _ D) in Hf
      as (ks1 & vs1 & -> & -> & Hl & Hall & Hki & Hcp).
    cbn [app]. cbn [key_is_in_from count_pair_from]. split; [done|].
    intros value t p Hp Ht. rewrite Hcp. f_equal.
    apply count_pair_vals_spec; [done|]. cbn [chain_values] in Ht.
    destruct (vals_of_elem key ks1 vs1) as [->|Hel]; [cbn; lia|].
    rewrite Forall_forall in Hall. destruct (Hall _ Hel) as [j Hj].
    pose proof (slot_values_le _ _ _ Hj). lia.
  - (* a record delta *)
    destruct Hg as (_ & (ks' & vs' & Hf' & Hs' & _) & Hgx & Hr & Hop).
    rewrite (leaf_fake_consolidate_step _ nx) in Hf by done.
    apply bind_Ok in Hf as ([ks0 vs0] & Hf0 & Ha).
    pose proof (leaf_fake_consolidate_lengths _ _ _ Hf0) as Hl0.
    assert (sorted_keys ks0 = true) as Hs0.
    { destruct nx; cbn in Hgx; try tauto;
        destruct Hgx as (_ & (? & ? & ? & ? & _) & _); congruence. }
    cbn [hdr_of] in Hin. rewrite (key_in_node_same_range _ _ _ Hr) in Hin.
    specialize (IH Hgx key ks0 vs0 Hf0 Hin).
    cbn [leaf_apply_delta] in Ha. destruct op; [| |done].
    + (* INSERT *)
      rewrite (leaf_apply_insert_vals _ _ _ _ _ _ _ key Hl0 Ha).
      cbn [key_is_in_from count_pair_from chain_values].
      destruct (key_equal k key); cbn [andb].
      2:{ rewrite app_nil_r. destruct (IH D) as [IH1 IH2]. split; [done|].
          intros value t p Hp Ht. apply IH2; lia. }
      destruct (IH D) as [IH1 IH2].
      destruct (negb (delset_count D v)) eqn:Hd; cbn [andb].
      * split.
        { rewrite existsb_app. cbn [existsb]. rewrite Hd. cbn [orb].
          by rewrite orb_true_r. }
        intros value t p Hp Ht.
        rewrite visible_count_app, visible_pairs_app.
        unfold visible_count at 2, visible_pairs at 2.
        cbn [List.filter]. rewrite Hd. cbn [andb].
        rewrite (wrap_int_id (t + 1)) by ilia.
        destruct (value_equal v value).
        -- rewrite (wrap_int_id (p + 1)) by ilia.
           rewrite IH2 by lia. cbn [length]. f_equal. f_equal; lia.
        -- rewrite IH2 by lia. cbn [length]. f_equal. f_equal; lia.
      * split.
        { rewrite existsb_app. cbn [existsb]. rewrite Hd. cbn [orb].
          by rewrite orb_false_r. }
        intros value t p Hp Ht.
        rewrite visible_count_app, visible_pairs_app.
        unfold visible_count at 2, visible_pairs at 2.
        cbn [List.filter]. rewrite Hd. cbn [andb].
        rewrite IH2 by lia. cbn [length]. f_equal. f_equal; lia.
    + (* DELETE *)
      rewrite (leaf_apply_delete_vals _ _ _ _ _ _ _ key Hs0 Hl0 Ha).
      cbn [key_is_in_from count_pair_from chain_values].
      destruct (key_equal k key).
      * destruct (IH ({[v]} ∪ D)) as [IH1 IH2].
        rewrite existsb_erase. split; [done|].
        intros value t p Hp Ht.
        rewrite visible_count_erase, visible_pairs_erase.
        apply IH2; lia.
      * destruct (IH D) as [IH1 IH2]. split; [done|].
        intros value t p Hp Ht. apply IH2; lia.
  - (* a split delta *)
    destruct Hg as (_ & _ & Hgx & Hlo & Hil & Hhi & Hih & HKp).
    rewrite (leaf_fake_consolidate_step _ nx) in Hf by done.
    apply bind_Ok in Hf as ([ks0 vs0] & Hf0 & Ha).
    pose proof (leaf_fake_consolidate_lengths _ _ _ Hf0) as Hl0.
    assert (sorted_keys ks0 = true) as Hs0.
    { destruct nx; cbn in Hgx; try tauto;
        destruct Hgx as (_ & (? & ? & ? & ? & _) & _); congruence. }
    cbn [hdr_of] in Hin.
    destruct (key_in_node_split key Kp h (hdr_of nx) Hlo Hil Hhi Hih HKp Hin)
      as [Hlt Hinx].
    rewrite (leaf_apply_split_vals _ _ _ _ _ _ _ _ key Hs0 Hl0 Ha Hlt).
    cbn [key_is_in_from count_pair_from chain_values].
    unfold key_greaterequal. rewrite Hlt. cbn [negb].
    destruct (IH Hgx key ks0 vs0 Hf0 Hinx D) as [IH1 IH2]. done.
Qed.

(** ** What the readers and the scans return *)

Lemma existsb_true_nonempty {A} (l : list A) :
  existsb (fun _ => true) l = negb (bool_decide (l = [])).
Proof. by destruct l. Qed.

Lemma vals_of_key_present (key : KeyType) ks vs :
  length ks = length vs ->
  Forall (fun v => v <> []) vs ->
  negb (bool_decide (vals_of key ks vs = []))
  = existsb (fun k => key_equal k key) ks.
Proof.
  revert vs. induction ks as [|k ks IH]; intros vs Hl Hne; [done|].
  destruct vs as [|v vs]; [done|]. apply Forall_cons in Hne as [Hv Hne].
  cbn [vals_of existsb]. destruct (key_equal k key); cbn [orb].
  - by rewrite bool_decide_eq_false_2.
  - apply IH; [cbn in Hl; lia|done].
Qed.

(** X1: [scan_all] returns the value vectors [scan] returns, one after the
    other; [scan] returns as many value vectors as keys. *)
Theorem scan_all_concat (t : BWTreeState KeyType) fuel ks vs :
  scan fuel t [] [] = Ok (ks, vs) ->
  scan_all fuel t [] = Ok (concat vs) /\ length ks = length vs.
Proof.
  intros Hs. unfold scan in Hs. apply bind_Ok in Hs as (node & Hn & Hs).
  split.
  - apply scan_all_loop_scan in Hs as (vs1 & -> & Hv).
    unfold scan_all. rewrite Hn. cbn [mbind result_bind]. apply Hv.
  - assert (length (@nil KeyType) = length (@nil (list ValueType))) as Hl
      by done.
    clear Hn. revert Hs Hl.
    generalize (@nil KeyType), (@nil (list ValueType)). revert node.
    induction fuel as [|fuel IH]; intros node ks0 vs0 Hs Hl; [discriminate|].
    cbn [scan_loop] in Hs. destruct node as [n|]; [|by simplify_eq].
    apply bind_Ok in Hs as ([keys values] & Hf & Hs).
    apply bind_Ok in Hs as (nx & Hnx & Hs).
    apply leaf_fake_consolidate_lengths in Hf.
    apply IH in Hs; [done|]. rewrite !length_app. lia.
Qed.

(** X2: on a leaf chain as the operations build it, [key_is_in] tells
    whether the key is among the keys of the consolidated projection of
    the chain. *)
Theorem key_is_in_projection (n : Node KeyType) key ks vs :
  leaf_chain_good n ->
  leaf_fake_consolidate n = Ok (ks, vs) ->
  key_in_node key (hdr_of n) = true ->
  key_is_in key (Some n) = Ok (existsb (fun k => key_equal k key) ks).
Proof.
  intros Hg Hf Hin. cbn [key_is_in].
  destruct (readers_agree n Hg key ks vs Hf Hin ∅) as [-> _]. f_equal.
  assert (Forall (fun v : list ValueType => v <> []) vs) as Hne.
  { destruct n; cbn in Hg; try tauto;
      destruct Hg as (_ & (? & ? & ? & ? & ? & _) & _); congruence. }
  rewrite <-(vals_of_key_present key ks vs)
    by (done || by eapply leaf_fake_consolidate_lengths).
  apply existsb_true_nonempty.
Qed.

(** X3: on such a chain holding at most [INT_MAX] values, [count_pair]
    returns the number of values the consolidated projection has for the
    key, and the number of those equal to the given value. *)
Theorem count_pair_projection (n : Node KeyType) key value ks vs :
  leaf_chain_good n ->
  leaf_fake_consolidate n = Ok (ks, vs) ->
  key_in_node key (hdr_of n) = true ->
  Z.of_nat (chain_values n) <= INT_MAX ->
  count_pair key value (Some n)
  = Ok (Z.of_nat (length (vals_of key ks vs)),
        Z.of_nat (length (List.filter (fun v => value_equal v value)
                                      (vals_of key ks vs)))).
Proof.
  intros Hg Hf Hin Hsz. cbn [count_pair].
  destruct (readers_agree n Hg key ks vs Hf Hin ∅) as [_ ->]; [|lia|lia].
  unfold visible_count, visible_pairs. rewrite !Z.add_0_l.
  assert (forall l : list ValueType,
            List.filter (fun v => negb (delset_count ∅ v)) l = l) as ->.
  { induction l as [|v l IH]; [done|]. cbn. by rewrite IH. }
  by rewrite (filter_ext_bool
                (fun v => negb (delset_count ∅ v) && value_equal v value)
                (fun v => value_equal v value)).
Qed.

(** ** The index on top of the tree *)

Lemma Scan_loop_spec (Compare : KeyType -> bool) ks vs :
  forall rounds i result_,
    Z.of_nat (i + rounds) <= INT_MAX ->
    (i + rounds <= length ks)%nat -> (i + rounds <= length vs)%nat ->
    Scan_loop Compare ks vs (Z.of_nat i) rounds result_
    = Ok (result_ ++
          concat (snd <$> List.filter (fun kv => Compare kv.1)
                            (zip (take rounds (drop i ks))
                                 (take rounds (drop i vs))))).
Proof.
  induction rounds as [|rounds IH]; intros i result_ Hmax Hks Hvs.
  { cbn. by rewrite app_nil_r. }
  destruct (lookup_lt_is_Some_2 ks i ltac:(lia)) as [k Hk].
  destruct (lookup_lt_is_Some_2 vs i ltac:(lia)) as [v Hv].
  cbn [Scan_loop].
  rewrite (proj2 (at_idx_Ok ks _ k)) by (rewrite Nat2Z.id; split; [lia|done]).
  rewrite (proj2 (at_idx_Ok vs _ v)) by (rewrite Nat2Z.id; split; [lia|done]).
  cbn [mbind result_bind].
  destruct (Z.ltb_spec INT_MAX (Z.of_nat i + 1)); [lia|].
  replace (Z.of_nat i + 1) with (Z.of_nat (S i)) by lia.
  rewrite IH by lia.
  rewrite (drop_S ks k i Hk), (drop_S vs v i Hv).
  cbn [take zip zip_with List.filter fst]. destruct (Compare k).
  - cbn [fmap list_fmap concat snd]. by rewrite app_assoc.
  - done.
Qed.

(** X9: for either scan direction, [Scan] returns the values of exactly
    those keys of the tree's [scan] that [Compare] accepts, in the order of
    [scan] (a backward scan is not reversed); an invalid direction throws
    without reading the tree. *)
Theorem Scan_filters_scan (t : BWTreeState KeyType) fuel Compare ks vs :
  scan fuel t [] [] = Ok (ks, vs) ->
  Z.of_nat (length vs) <= INT_MAX ->
  let expected :=
    concat (snd <$> List.filter (fun kv => Compare kv.1) (zip ks vs)) in
  Scan fuel t Compare SCAN_DIRECTION_TYPE_FORWARD = Ok (inr expected) /\
  Scan fuel t Compare SCAN_DIRECTION_TYPE_BACKWARD = Ok (inr expected) /\
  Scan fuel t Compare SCAN_DIRECTION_TYPE_INVALID
  = Ok (inl Invalid_scan_direction).
Proof.
  intros Hs Hmax expected.
  assert (length ks = length vs) as Hl.
  { unfold scan in Hs. apply bind_Ok in Hs as (node & _ & Hs).
    assert (length (@nil KeyType) = length (@nil (list ValueType))) as Hl
      by done.
    revert Hs Hl. generalize (@nil KeyType), (@nil (list ValueType)).
    revert node.
    induction fuel as [|fuel IH]; intros node ks0 vs0 Hs Hl; [discriminate|].
    cbn [scan_loop] in Hs. destruct node as [n|]; [|by simplify_eq].
    apply bind_Ok in Hs as ([keys values] & Hf & Hs).
    apply bind_Ok in Hs as (nx & Hnx & Hs).
    apply leaf_fake_consolidate_lengths in Hf.
    apply IH in Hs; [done|]. rewrite !length_app. lia. }
  assert (Scan_loop Compare ks vs 0 (length vs) [] = Ok expected) as Hloop.
  { rewrite (Scan_loop_spec Compare ks vs (length vs) 0) by (cbn; lia).
    rewrite !drop_0, take_ge, take_ge by lia. done. }
  unfold Scan. rewrite Hs. cbn [mbind result_bind]. rewrite Hloop. done.
Qed.

(** X10: a [Scan] whose condition accepts every key returns what
    [ScanAllKeys] returns. *)
Theorem Scan_all_keys (t : BWTreeState KeyType) fuel result_ :
  Scan fuel t (fun _ => true) SCAN_DIRECTION_TYPE_FORWARD = Ok (inr result_) ->
  ScanAllKeys fuel t = Ok result_.
Proof.
  intros HS. unfold Scan in HS.
  apply bind_Ok in HS as ([ks vs] & Hs & HS).
  apply bind_Ok in HS as (r & Hloop & HS). injection HS as <-.
  unfold ScanAllKeys.
  assert (scan_all fuel t [] = Ok (concat vs) /\ length ks = length vs)
    as [-> Hl].
  { unfold scan in Hs. apply bind_Ok in Hs as (node & Hn & Hs). split.
    - apply scan_all_loop_scan in Hs as (vs1 & -> & Hv).
      unfold scan_all. rewrite Hn. cbn [mbind result_bind]. apply Hv.
    - assert (length (@nil KeyType) = length (@nil (list ValueType))) as Hl
        by done.
      clear Hn. revert Hs Hl.
      generalize (@nil KeyType), (@nil (list ValueType)). revert node.
      induction fuel as [|fuel IH]; intros node ks0 vs0 Hs Hl; [discriminate|].
      cbn [scan_loop] in Hs. destruct node as [n|]; [|by simplify_eq].
      apply bind_Ok in Hs as ([keys values] & Hf & Hs).
      apply bind_Ok in Hs as (nx & Hnx & Hs).
      apply leaf_fake_consolidate_lengths in Hf.
      apply IH in Hs; [done|]. rewrite !length_app. lia. }
  f_equal. clear Hs.
  assert (forall rounds i r0 r1,
            (i + rounds <= length vs)%nat -> length ks = length vs ->
            Scan_loop (fun _ => true) ks vs (Z.of_nat i) rounds r0 = Ok r1 ->
            r1 = r0 ++ concat (take rounds (drop i vs))) as Hgen.
  { clear. induction rounds as [|rounds IH]; intros i r0 r1 Hi Hl Hloop.
    { cbn in Hloop. injection Hloop as <-. by rewrite app_nil_r. }
    cbn [Scan_loop] in Hloop.
    apply bind_Ok in Hloop as (k & Hk & Hloop).
    apply bind_Ok in Hloop as (v & Hv & Hloop).
    apply at_idx_Ok in Hv as [_ Hv]. rewrite Nat2Z.id in Hv.
    destruct (_ <? _); [discriminate|].
    replace (Z.of_nat i + 1) with (Z.of_nat (S i)) in Hloop by lia.
    apply IH in Hloop; [|lia|done]. subst r1.
    rewrite (drop_S vs v i Hv). cbn [take concat]. by rewrite app_assoc. }
  specialize (Hgen (length vs) O [] r ltac:(lia) Hl Hloop).
  rewrite drop_0, take_ge in Hgen by lia. by rewrite Hgen.
Qed.

(** ** A write, then a read *)

(** On a page that needs neither split nor consolidation, the first two
    steps of a write find the page and its head and change nothing. *)
Lemma locate_leaf_settled (t : BWTreeState KeyType) key fuel basic_pid rest bn :
  search (S fuel) t (root t) key = Ok (basic_pid :: rest) ->
  mt_get (mapping_table t) basic_pid = Ok (Some bn) ->
  need_split (hdr_of bn) = false ->
  delta_list_len (hdr_of bn) <= MAX_DELTA_CHAIN_LEN ->
  locate_leaf (S fuel) key t = Ok ((basic_pid, Some bn), t).
Proof.
  intros Hs Hg Hns Hlen.
  unfold locate_leaf, split, bind, read, lift, table_get, read, lift.
  rewrite Hs. cbn [stack_top stack_pop]. rewrite Hg.
  cbn [split_loop deref]. unfold bind, lift. cbn [deref].
  rewrite Hns. unfold ret. rewrite Hs. cbn [stack_top].
  unfold consolidate, bind, table_get, read, lift. rewrite Hg.
  cbn [deref]. rewrite Hns. cbn [consolidate_loop].
  destruct (Z.ltb_spec MAX_DELTA_CHAIN_LEN (delta_list_len (hdr_of bn)));
    [lia|reflexivity].
Qed.

(** A record delta put on page [p] does not move the page: a search that
    ended on [p] still ends there. *)
Lemma search_node_record_head (t t' : BWTreeState KeyType) key p h op k v nx :
  mt_get (mapping_table t') p = Ok (Some (RecordDelta h op k v nx)) ->
  pid h = Some p -> p <> -1 ->
  (forall q, q <> p -> mt_get (mapping_table t') q = mt_get (mapping_table t) q) ->
  forall fuel node path res rest,
    search_node fuel t node key path = Ok (res, p :: rest) ->
    res <> -1 ->
    exists res' rest',
      search_node fuel t' node key path = Ok (res', p :: rest') /\ res' <> -1.
Proof.
  intros Hd Hpid Hp Hother.
  assert (forall fuel path0,
            search_node (S fuel) t' (RecordDelta h op k v nx) key (p :: path0)
            = Ok (p, p :: path0)) as Hstop.
  { intros fuel path0. cbn [search_node]. rewrite Hpid. done. }
  assert (forall q fuel path0 n res rest,
            mt_get (mapping_table t) q = Ok (Some n) ->
            (forall fuel', (fuel' < S fuel)%nat -> forall node path res rest,
               search_node fuel' t node key path = Ok (res, p :: rest) ->
               res <> -1 ->
               exists res' rest',
                 search_node fuel' t' node key path = Ok (res', p :: rest') /\
                 res' <> -1) ->
            search_node fuel t n key (q :: path0) = Ok (res, p :: rest) ->
            res <> -1 ->
            exists n', mt_get (mapping_table t') q = Ok (Some n') /\
              exists res' rest',
                search_node fuel t' n' key (q :: path0) = Ok (res', p :: rest') /\
                res' <> -1) as Hload.
  { intros q fuel path0 n res rest Hg IH Hs Hres.
    destruct (decide (q = p)) as [->|Hq].
    - eexists. split; [exact Hd|]. destruct fuel as [|fuel]; [discriminate|].
      rewrite Hstop. eauto.
    - exists n. rewrite (Hother q Hq). split; [done|]. eapply (IH fuel); [lia|done..]. }
  induction fuel as [fuel IH] using lt_wf_ind.
  intros node path res rest Hs Hres.
  destruct fuel as [|fuel]; [discriminate|].
  cbn [search_node] in Hs |- *.
  destruct node as [hn sk sd|hn sk cs|hn o kk vv nn|hn Kp pQ nn
                   |hn Kp Kq iq pQ nn|hn nn|hn Kp on nn].
  - eauto.
  - (* InnerNode *)
    destruct (slotuse hn =? 0).
    + apply bind_Ok in Hs as (c & Hc & Hs). rewrite Hc. cbn [mbind result_bind].
      apply bind_Ok in Hs as (q & Hq & Hs). rewrite Hq. cbn [mbind result_bind].
      destruct (q =? NULL_PID); [by simplify_eq|].
      apply bind_Ok in Hs as (n & Hn & Hs).
      destruct n as [n|]; [|by simplify_eq].
      destruct (Hload q fuel path n res rest Hn
                  ltac:(intros; eapply IH; eauto; lia) Hs Hres)
        as (n' & -> & Hr). exact Hr.
    + apply bind_Ok in Hs as (i & Hi & Hs). rewrite Hi. cbn [mbind result_bind].
      apply bind_Ok in Hs as (c & Hc & Hs). rewrite Hc. cbn [mbind result_bind].
      apply bind_Ok in Hs as (q & Hq & Hs). rewrite Hq. cbn [mbind result_bind].
      apply bind_Ok in Hs as (n & Hn & Hs).
      destruct n as [n|]; [|by simplify_eq].
      destruct (Hload q fuel path n res rest Hn
                  ltac:(intros; eapply IH; eauto; lia) Hs Hres)
        as (n' & -> & Hr). exact Hr.
  - eauto.
  - (* SplitDelta *)
    destruct (key_greaterequal key Kp false).
    + apply bind_Ok in Hs as (n & Hn & Hs).
      destruct n as [n|]; [|by simplify_eq].
      apply bind_Ok in Hs as (path1 & Hp1 & Hs).
      destruct (Hload pQ fuel path1 n res rest Hn
                  ltac:(intros; eapply IH; eauto; lia) Hs Hres)
        as (n' & -> & Hr). cbn [mbind result_bind]. rewrite Hp1. exact Hr.
    + eapply IH; eauto.
  - (* IndexEntryDelta *)
    destruct (_ && _).
    + apply bind_Ok in Hs as (n & Hn & Hs).
      destruct n as [n|]; [|by simplify_eq].
      destruct (Hload pQ fuel path n res rest Hn
                  ltac:(intros; eapply IH; eauto; lia) Hs Hres)
        as (n' & -> & Hr). exact Hr.
    + eapply IH; eauto.
  - (* RemoveDelta *)
    apply bind_Ok in Hs as (path1 & Hp1 & Hs). rewrite Hp1.
    cbn [mbind result_bind]. destruct path1 as [|q path1]; [by simplify_eq|].
    apply bind_Ok in Hs as (n & Hn & Hs).
    destruct n as [n|]; [|by simplify_eq].
    destruct (Hload q fuel path1 n res rest Hn
                ltac:(intros; eapply IH; eauto; lia) Hs Hres)
      as (n' & -> & Hr). exact Hr.
  - (* MergeDelta *)
    destruct (key_greaterequal key Kp false); eapply IH; eauto.
Qed.

Lemma search_record_head (t t' : BWTreeState KeyType) key p h op k v nx fuel rest :
  mt_get (mapping_table t') p = Ok (Some (RecordDelta h op k v nx)) ->
  pid h = Some p -> p <> -1 ->
  (forall q, q <> p -> mt_get (mapping_table t') q = mt_get (mapping_table t) q) ->
  root t' = root t ->
  search fuel t (root t) key = Ok (p :: rest) ->
  exists rest', search fuel t' (root t') key = Ok (p :: rest').
Proof.
  intros Hd Hpid Hp Hother Hroot Hs. unfold search in *. rewrite Hroot.
  apply bind_Ok in Hs as (n & Hn & Hs). destruct n as [n|]; [|discriminate].
  apply bind_Ok in Hs as ([res path] & Hsn & Hs).
  destruct (Z.eqb_spec res (-1)) as [|Hres]; [discriminate|].
  injection Hs as ->.
  destruct (decide (root t = p)) as [Hr|Hr].
  - rewrite Hr, Hd. cbn [mbind result_bind].
    destruct fuel as [|fuel]; [discriminate|]. cbn [search_node]. rewrite Hpid.
    cbn [mbind result_bind deref]. destruct (Z.eqb_spec p (-1)); [done|eauto].
  - rewrite (Hother _ Hr), Hn. cbn [mbind result_bind].
    destruct (search_node_record_head t t' key p h op k v nx Hd Hpid Hp Hother
                fuel n [root t] res rest Hsn Hres) as (res' & rest' & -> & Hr').
    cbn [mbind result_bind]. destruct (Z.eqb_spec res' (-1)); [done|eauto].
Qed.

Lemma key_equal_refl (k : KeyType) : key_equal k k = true.
Proof. by apply key_equal_true. Qed.

Lemma get_value_on_page (t : BWTreeState KeyType) key fuel p rest head recs es :
  search fuel t (root t) key = Ok (p :: rest) ->
  mt_get (mapping_table t) p = Ok (Some head) ->
  is_leaf (hdr_of head) = true ->
  leaf_chain_view key head = Some (recs, es) ->
  (length (chain_to_base head) + 1 <= fuel)%nat ->
  get_value (S fuel) t key [] = Ok (visible_values key recs es).
Proof.
  intros Hs Hg Hl Hv Hf. cbn [get_value]. rewrite Hs.
  cbn [mbind result_bind stack_top]. rewrite Hg.
  cbn [mbind result_bind deref]. rewrite Hl. cbn [negb].
  rewrite (get_value_loop_spec _ t key head recs es ∅ [] fuel Hv Hf).
  cbn [app]. rewrite vis_from_empty. unfold visible_values.
  by rewrite (left_id_L ∅ (∪)).
Qed.

Lemma erase_value_app v l1 l2 :
  erase_value v (l1 ++ l2) = erase_value v l1 ++ erase_value v l2.
Proof. unfold erase_value. apply List.filter_app. Qed.

Lemma erase_value_concat v (ls : list (list ValueType)) :
  erase_value v (concat ls) = concat (erase_value v <$> ls).
Proof.
  induction ls as [|l ls IH]; [done|].
  cbn [concat fmap list_fmap]. by rewrite erase_value_app, IH.
Qed.

Lemma vis_from_erase (key : KeyType) v recs : forall D,
  vis_from key ({[v]} ∪ D) recs = erase_value v (vis_from key D recs).
Proof.
  induction recs as [|r recs IH]; intros D; [done|].
  rewrite !vis_from_cons, erase_value_app.
  assert (forall w, {[w]} ∪ ({[v]} ∪ D) = {[v]} ∪ ({[w]} ∪ D)) as Hcomm.
  { intros w. apply set_eq. intros x.
    rewrite !elem_of_union, !elem_of_singleton. tauto. }
  f_equal.
  - destruct r as [[[] k] w]; try done.
    destruct (key_equal k key); cbn [andb]; [|done].
    pose proof (delset_count_union D v w) as Hu. unfold delset_count in Hu.
    rewrite Hu. unfold erase_value.
    destruct (negb (bool_decide (w ∈ D))); cbn [List.filter andb];
      [|by rewrite andb_false_r].
    rewrite andb_true_r. by destruct (negb (ItemPointerEqualityChecker w v)).
  - destruct (deletes_of key r) as [w|]; [|apply IH].
    rewrite Hcomm. apply IH.
Qed.

Lemma visible_base_erase (key : KeyType) v D es :
  visible_base key ({[v]} ∪ D) es = erase_value v (visible_base key D es).
Proof.
  unfold visible_base. rewrite erase_value_concat, <-list_fmap_compose.
  f_equal. apply list_fmap_ext. intros _ e _. cbn.
  destruct (key_equal e.1 key); [|done].
  unfold erase_value. induction e.2 as [|w l IH]; [done|].
  cbn [List.filter].
  pose proof (delset_count_union D v w) as Hu. unfold delset_count in Hu.
  rewrite Hu.
  destruct (negb (bool_decide (w ∈ D))); cbn [List.filter andb].
  - rewrite andb_true_r.
    destruct (negb (ItemPointerEqualityChecker w v)); by rewrite IH.
  - by rewrite andb_false_r.
Qed.

Lemma append_delete_settled (t : BWTreeState KeyType) bn key value deletekey p :
  pid (hdr_of bn) = Some p ->
  mt_get (mapping_table t) p = Ok (Some bn) ->
  exists h mt',
    append_delete bn key value deletekey t
    = Ok (true, mkBWTree (root t) mt' (garbage_table t) (headleaf t)
                         (brk t + 1)) /\
    mt_set (mapping_table t) p (Some bn)
           (Some (RecordDelta h DELETE key value bn)) = Ok (true, mt') /\
    is_leaf h = is_leaf (hdr_of bn).
Proof.
  intros Hp Hg. unfold append_delete, bind, alloc, lift. rewrite Hp.
  cbn [deref]. unfold table_set. cbn [mapping_table].
  unfold RecordDelta_ctor.
  destruct deletekey; cbn [with_hdr];
    match goal with |- context [mt_set _ _ _ (Some (RecordDelta ?h _ _ _ _))] =>
      destruct (mt_set_succeeds (mapping_table t) p bn (Some bn)
                  (Some (RecordDelta h DELETE key value bn)) Hg (ptr_eq_refl _))
        as [mt' Hset];
      exists h, mt'; rewrite Hset; done
    end.
Qed.

(** X11: on a leaf page that needs neither split nor consolidation and
    accepts the key (no unique-key conflict), [insert_entry] returns true
    and a following [get_value] of the key returns the new value followed
    by the values it returned before. *)
Theorem insert_then_get_value (t : BWTreeState KeyType) key value fuel
    basic_pid rest bn key_dup recs es :
  search (S fuel) t (root t) key = Ok (basic_pid :: rest) ->
  mt_get (mapping_table t) basic_pid = Ok (Some bn) ->
  mt_shape (mapping_table t) = true ->
  need_split (hdr_of bn) = false ->
  delta_list_len (hdr_of bn) <= MAX_DELTA_CHAIN_LEN ->
  key_in_node key (hdr_of bn) = true ->
  is_leaf (hdr_of bn) = true ->
  leaf_chain_view key bn = Some (recs, es) ->
  (length (chain_to_base bn) + 2 <= S fuel)%nat ->
  key_is_in key (Some bn) = Ok key_dup ->
  HasUniqueKeys && key_dup = false ->
  get_value (S (S fuel)) t key [] = Ok (visible_values key recs es) /\
  exists t',
    insert_entry (S (S fuel)) key value t = Ok (true, t') /\
    get_value (S (S fuel)) t' key [] = Ok (value :: visible_values key recs es).
Proof.
  intros Hs Hg Hsh Hns Hlen Hin Hl Hv Hf Hdup Hu.
  split; [eapply get_value_on_page; eauto; lia|].
  pose proof (locate_leaf_settled t key fuel basic_pid rest bn Hs Hg Hns Hlen)
    as Hloc.
  destruct (mt_set_succeeds (mapping_table t) basic_pid bn (Some bn)
              (Some (insert_delta (brk t) basic_pid bn key value key_dup))
              Hg (ptr_eq_refl _)) as [mt' Hset].
  exists (mkBWTree (root t) mt' (garbage_table t) (headleaf t) (brk t + 1)).
  split.
  { cbn [insert_entry]. unfold bind at 1. rewrite Hloc. rewrite Hin.
    cbn [negb]. unfold bind at 1, lift at 1. rewrite Hdup, Hu.
    unfold bind at 1, alloc at 1. unfold bind at 1, table_set at 1.
    cbn [mapping_table]. rewrite Hset. done. }
  destruct (hdr_of_insert_delta (brk t) basic_pid bn key value key_dup)
    as (h & Hd & _ & _ & Hpid & _ & _ & Hleaf).
  pose proof (mt_get_Some_room _ _ _ Hsh Hg) as Hroom.
  destruct (mt_set_true _ _ _ _ _ Hsh Hset) as (_ & _ & _ & _ & Hnew & Hother).
  specialize (Hnew ltac:(lia)). rewrite Hd in Hnew.
  cbn [fmap option_fmap option_map assign_pid with_hdr] in Hnew.
  set (t' := mkBWTree _ _ _ _ _).
  destruct (search_record_head t t' key basic_pid _ _ _ _ _ (S fuel) rest
              Hnew eq_refl ltac:(lia) Hother eq_refl Hs) as [rest' Hs'].
  rewrite (get_value_on_page t' key (S fuel) basic_pid rest' _
             (@cons record (INSERT, key, value) recs) es Hs' Hnew).
  - unfold visible_values. rewrite <-!vis_from_empty, vis_from_cons.
    rewrite key_equal_refl. cbn [andb deletes_of].
    rewrite bool_decide_eq_false_2 by set_solver. cbn [negb app].
    by rewrite tombstones_cons.
  - cbn [hdr_of set_pid is_leaf]. by rewrite Hleaf.
  - cbn [leaf_chain_view]. by rewrite Hv.
  - cbn [chain_to_base length]. lia.
Qed.

(** X12: on such a page, when [count_pair] finds the pair, [delete_entry]
    returns true and a following [get_value] of the key returns the values
    it returned before without any copy of the deleted value. *)
Theorem delete_then_get_value (t : BWTreeState KeyType) key value fuel
    basic_pid rest bn total_count pair_count recs es :
  search (S fuel) t (root t) key = Ok (basic_pid :: rest) ->
  mt_get (mapping_table t) basic_pid = Ok (Some bn) ->
  pid (hdr_of bn) = Some basic_pid ->
  mt_shape (mapping_table t) = true ->
  need_split (hdr_of bn) = false ->
  delta_list_len (hdr_of bn) <= MAX_DELTA_CHAIN_LEN ->
  key_in_node key (hdr_of bn) = true ->
  is_leaf (hdr_of bn) = true ->
  leaf_chain_view key bn = Some (recs, es) ->
  (length (chain_to_base bn) + 2 <= S fuel)%nat ->
  count_pair key value (Some bn) = Ok (total_count, pair_count) ->
  0 < pair_count <= total_count ->
  get_value (S (S fuel)) t key [] = Ok (visible_values key recs es) /\
  exists t',
    delete_entry (S (S fuel)) key value t = Ok (true, t') /\
    get_value (S (S fuel)) t' key []
    = Ok (erase_value value (visible_values key recs es)).
Proof.
  intros Hs Hg Hpid Hsh Hns Hlen Hin Hl Hv Hf Hcp Hpair.
  split; [eapply get_value_on_page; eauto; lia|].
  pose proof (locate_leaf_settled t key fuel basic_pid rest bn Hs Hg Hns Hlen)
    as Hloc.
  destruct (append_delete_settled t bn key value (pair_count =? total_count)
              basic_pid Hpid Hg) as (h & mt' & Hap & Hset & Hleaf).
  eexists. split.
  { cbn [delete_entry]. unfold bind at 1. rewrite Hloc.
    unfold bind at 1, lift at 1. cbn [deref]. rewrite Hin. cbn [negb].
    unfold bind at 1, lift at 1. rewrite Hcp. cbn [fst snd].
    destruct (Z.eqb_spec pair_count 0); [lia|].
    destruct (Z.ltb_spec total_count pair_count); [lia|].
    unfold bind at 1. rewrite Hap. done. }
  pose proof (mt_get_Some_room _ _ _ Hsh Hg) as Hroom.
  destruct (mt_set_true _ _ _ _ _ Hsh Hset) as (_ & _ & _ & _ & Hnew & Hother).
  specialize (Hnew ltac:(lia)).
  cbn [fmap option_fmap option_map assign_pid with_hdr] in Hnew.
  set (t' := mkBWTree _ _ _ _ _).
  destruct (search_record_head t t' key basic_pid _ _ _ _ _ (S fuel) rest
              Hnew eq_refl ltac:(lia) Hother eq_refl Hs) as [rest' Hs'].
  rewrite (get_value_on_page t' key (S fuel) basic_pid rest' _
             (@cons record (DELETE, key, value) recs) es Hs' Hnew).
  - unfold visible_values. rewrite <-!vis_from_empty, vis_from_cons.
    rewrite tombstones_cons. cbn [deletes_of]. rewrite key_equal_refl.
    cbn [app]. by rewrite vis_from_erase, visible_base_erase, erase_value_app.
  - cbn [hdr_of set_pid is_leaf]. by rewrite Hleaf.
  - cbn [leaf_chain_view]. by rewrite Hv.
  - cbn [chain_to_base length]. lia.
Qed.

(** ** The leaf-list invariant through the writers *)

Lemma ghost_le_refl (g : ghost KeyType) : ghost_le g g.
Proof. split; [done|lia]. Qed.

Lemma ghost_le_trans (g1 g2 g3 : ghost KeyType) :
  ghost_le g1 g2 -> ghost_le g2 g3 -> ghost_le g1 g3.
Proof. intros [H1 C1] [H2 C2]. split; [eauto|lia]. Qed.

Lemma ghost_le_alloc (g : ghost KeyType) : ghost_le g (ghost_alloc g).
Proof. split; [done|cbn; lia]. Qed.

Lemma ghost_le_page (g : ghost KeyType) p s :
  sigs g p = None -> ghost_le g (ghost_page g p s).
Proof.
  intros Hp. split; [|cbn; lia]. intros q s' Hq. cbn.
  destruct (decide (q = p)) as [->|]; [congruence|done].
Qed.

Lemma link_ok_mono (g g' : ghost KeyType) (h : NodeHdr KeyType) :
  ghost_le g g' -> link_ok g h -> link_ok g' h.
Proof. intros [Hs _] [Hn|[Hi Hl]]; [by left|right; eauto]. Qed.

Lemma leaf_good_mono (g g' : ghost KeyType) (n : Node KeyType) :
  ghost_le g g' -> leaf_good g n -> leaf_good g' n.
Proof.
  intros Hle (Hc & Hr & Hl & Hv & Hfit). pose proof Hle as [_ Hcap].
  split; [done|]. split; [done|]. split; [by eapply link_ok_mono|].
  split; [lia|done].
Qed.

Lemma good_mono (g g' : ghost KeyType) p (n : Node KeyType) :
  ghost_le g g' -> good g p n -> good g' p n.
Proof.
  intros Hle (Hp & Hs & Hk). pose proof Hle as [Hsig _].
  split; [done|]. split; [eauto|].
  destruct (is_leaf (hdr_of n)); [by eapply leaf_good_mono|done].
Qed.

Lemma opt_good_mono (g g' : ghost KeyType) p (n : option (Node KeyType)) :
  ghost_le g g' -> opt_good g p n -> opt_good g' p n.
Proof. destruct n; [apply good_mono|done]. Qed.

Lemma leaf_page_mono (g g' : ghost KeyType) p :
  ghost_le g g' -> leaf_page g p -> leaf_page g' p.
Proof. intros [Hs _] (il & lk & Hp). exists il, lk. eauto. Qed.

Lemma inner_page_mono (g g' : ghost KeyType) p :
  ghost_le g g' -> inner_page g p -> inner_page g' p.
Proof. intros [Hs _] (il & lk & Hp). exists il, lk. eauto. Qed.

(** The header fields the chain predicates read are not touched by
    [assign_pid]. *)
Lemma leaf_chain_good_assign_pid p (n : Node KeyType) :
  leaf_chain_good n -> leaf_chain_good (assign_pid p n).
Proof.
  intros Hg.
  assert (leaf_sem (assign_pid p n)) as Hsem.
  { assert (leaf_sem n) as (ks & vs & Hf & Hrest)
      by (destruct n; cbn in Hg; tauto).
    exists ks, vs. rewrite leaf_fake_consolidate_assign_pid.
    by destruct n. }
  destruct n; cbn [leaf_chain_good assign_pid with_hdr hdr_of] in *;
    try tauto.
Qed.

Lemma inner_shape_assign_pid p (n : Node KeyType) :
  inner_shape n -> inner_shape (assign_pid p n).
Proof. destruct n; cbn; tauto. Qed.

Lemma chain_values_assign_pid p (n : Node KeyType) :
  chain_values (assign_pid p n) = chain_values n.
Proof. by destruct n. Qed.

Lemma good_assign (g : ghost KeyType) p (n : Node KeyType) :
  good_new g p n -> good g p (assign_pid p n).
Proof.
  intros [Hs Hk].
  assert (hdr_of (assign_pid p n) = set_pid p (hdr_of n)) as Hh
    by by destruct n.
  unfold good. rewrite Hh. cbn [set_pid pid is_leaf].
  split; [done|]. split; [done|].
  destruct (is_leaf (hdr_of n)); [|by apply inner_shape_assign_pid].
  destruct Hk as (Hc & Hr & Hl & Hv & Hsl & Hun).
  split; [by apply leaf_chain_good_assign_pid|]. unfold leaf_fit. rewrite Hh.
  split; [done|]. split; [done|].
  split; [by rewrite chain_values_assign_pid|]. split; [done|].
  intros Hu ks vs Hf. rewrite leaf_fake_consolidate_assign_pid in Hf.
  by eapply Hun.
Qed.

(** *** The rules *)

Lemma kp_ret {A} (g : ghost KeyType) (a : A) (Q : ghost KeyType -> A -> Prop) :
  Q g a -> kp g (ret (KeyType:=KeyType) a) Q.
Proof.
  intros HQ t a' t' HI Hr. apply ret_Ok in Hr as [-> ->].
  exists g. split; [apply ghost_le_refl|done].
Qed.

Lemma kp_fail {A} (g : ghost KeyType) e (Q : ghost KeyType -> A -> Prop) :
  kp g (fail (KeyType:=KeyType) e) Q.
Proof. intros t a t' _ Hf. discriminate. Qed.

Lemma kp_bind {A B} (g : ghost KeyType) (m : M KeyType A) (k : A -> M KeyType B)
    (P : ghost KeyType -> A -> Prop) (Q : ghost KeyType -> B -> Prop) :
  kp g m P ->
  (forall g1 a, ghost_le g g1 -> P g1 a -> kp g1 (k a) Q) ->
  kp g (bind m k) Q.
Proof.
  intros Hm Hk t b t' HI Hb.
  apply bindM_Ok in Hb as (a & t1 & Ha & Hb).
  destruct (Hm _ _ _ HI Ha) as (g1 & Hle1 & HI1 & HP).
  destruct (Hk g1 a Hle1 HP _ _ _ HI1 Hb) as (g2 & Hle2 & HI2 & HQ).
  exists g2. split; [by eapply ghost_le_trans|done].
Qed.

Lemma kp_weaken {A} (g : ghost KeyType) (m : M KeyType A) (P Q : ghost KeyType -> A -> Prop) :
  kp g m P -> (forall g' a, ghost_le g g' -> P g' a -> Q g' a) -> kp g m Q.
Proof.
  intros Hm HPQ t a t' HI Ha.
  destruct (Hm _ _ _ HI Ha) as (g' & Hle & HI' & HP). eauto 6.
Qed.

Lemma kp_table_add (g : ghost KeyType) (n : Node KeyType) :
  (if is_leaf (hdr_of n) then leaf_good g n else inner_shape n) ->
  kp g (table_add (Some n))
     (fun g' p => sigs g' p = Some (sig_of (hdr_of n)) /\ p <> NULL_PID).
Proof.
  intros Hn t p t' HI Ha. unfold table_add in Ha.
  apply bind_Ok in Ha as ([p' mt'] & Ha & Hr). injection Hr as <- <-.
  destruct HI as (Hsh & Hlive & Hsig & Hnp & Hcap & Hhead).
  assert (mt_room (mapping_table t) = true) as Hroom.
  { unfold mt_room. apply andb_true_intro. split; [apply Z.leb_le; lia|].
    apply Z.ltb_lt. unfold mt_add in Ha.
    apply bind_Ok in Ha as (blk & Hblk & _).
    apply at_idx_Ok in Hblk as [H1 Hblk]. apply lookup_lt_Some in Hblk.
    destruct (mt_shape_inv _ Hsh) as [Hl _]. rewrite Hl in Hblk.
    destruct (Z.lt_ge_cases (nextPid (mapping_table t))
                (MAPPING_TABLE_SIZE * MAPPING_TABLE_SIZE)) as [|Hge]; [done|].
    exfalso.
    assert (1024 <= GET_TIER1_INDEX (nextPid (mapping_table t))).
    { unfold GET_TIER1_INDEX. rewrite Z.shiftr_div_pow2 by lia.
      apply Z.div_le_lower_bound; [lia|].
      change (MAPPING_TABLE_SIZE * MAPPING_TABLE_SIZE) with 1048576 in Hge.
      lia. }
    lia. }
  destruct (mt_add_spec _ (Some n) Hsh Hroom)
    as (mt2 & Ha2 & Hsh' & Hnp' & Hg & Hother).
  rewrite Ha in Ha2. injection Ha2 as -> <-.
  set (np := nextPid (mapping_table t)) in *.
  assert (sigs g np = None) as Hfresh.
  { destruct (sigs g np) as [s|] eqn:Hs; [|done].
    destruct (Hsig _ _ Hs). lia. }
  set (g' := ghost_page g np (sig_of (hdr_of n))).
  assert (ghost_le g g') as Hle by by apply ghost_le_page.
  assert (sigs g' np = Some (sig_of (hdr_of n))) as Hsnp.
  { cbn. by rewrite decide_True. }
  exists g'. split; [done|]. split.
  2:{ split; [done|]. unfold NULL_PID. lia. }
  split; [done|]. split.
  { intros q n' Hq. cbn [mapping_table] in Hq.
    destruct (decide (q = np)) as [->|Hne].
    - rewrite Hg in Hq. injection Hq as <-. apply good_assign.
      split; [done|]. destruct (is_leaf (hdr_of n)); [|done].
      by eapply leaf_good_mono.
    - rewrite (Hother q Hne) in Hq. eapply good_mono; [done|]. by apply Hlive. }
  cbn [mapping_table brk headleaf]. rewrite Hnp'. split.
  { intros q s Hq. cbn in Hq. destruct (decide (q = np)) as [->|]; [lia|].
    destruct (Hsig _ _ Hq). lia. }
  split.
  { unfold mt_room in Hroom. apply andb_prop in Hroom as [_ Hlt%Z.ltb_lt].
    fold np in Hlt. lia. }
  split; [done|]. destruct Hhead as (il & lk & Hh). exists il, lk.
  by apply Hle.
Qed.

(** *** Steps that allocate nothing *)

Lemma kps_ret {A} (g : ghost KeyType) (a : A) (Q : A -> Prop) :
  Q a -> kps g (ret (KeyType:=KeyType) a) Q.
Proof. intros HQ t a' t' HI Hr. by apply ret_Ok in Hr as [-> ->]. Qed.

Lemma kps_fail {A} (g : ghost KeyType) e (Q : A -> Prop) :
  kps g (fail (KeyType:=KeyType) e) Q.
Proof. intros t a t' _ Hf. discriminate. Qed.

Lemma kps_bind {A B} (g : ghost KeyType) (m : M KeyType A)
    (k : A -> M KeyType B) (P : A -> Prop) (Q : B -> Prop) :
  kps g m P -> (forall a, P a -> kps g (k a) Q) -> kps g (bind m k) Q.
Proof.
  intros Hm Hk t b t' HI Hb.
  apply bindM_Ok in Hb as (a & t1 & Ha & Hb).
  destruct (Hm _ _ _ HI Ha) as (HI1 & HP). by eapply Hk.
Qed.

Lemma kp_of_kps {A} (g : ghost KeyType) (m : M KeyType A) (Q : A -> Prop) :
  kps g m Q -> kp g m (fun g' a => g' = g /\ Q a).
Proof.
  intros Hm t a t' HI Ha. destruct (Hm _ _ _ HI Ha) as [HI' HQ].
  exists g. split; [apply ghost_le_refl|done].
Qed.

Lemma kp_bind_s {A B} (g : ghost KeyType) (m : M KeyType A)
    (k : A -> M KeyType B) (P : A -> Prop) (Q : ghost KeyType -> B -> Prop) :
  kps g m P -> (forall a, P a -> kp g (k a) Q) -> kp g (bind m k) Q.
Proof.
  intros Hm Hk t b t' HI Hb.
  apply bindM_Ok in Hb as (a & t1 & Ha & Hb).
  destruct (Hm _ _ _ HI Ha) as (HI1 & HP). by eapply Hk.
Qed.

Lemma kps_lift {A} (g : ghost KeyType) (r : result A) :
  kps g (lift (KeyType:=KeyType) r) (fun a => r = Ok a).
Proof. intros t a t' HI Hl. by apply lift_Ok in Hl as [-> ->]. Qed.

Lemma kps_read {A} (g : ghost KeyType) (f : BWTreeState KeyType -> result A)
    (Q : A -> Prop) :
  (forall t a, Inv g t -> f t = Ok a -> Q a) -> kps g (read f) Q.
Proof.
  intros Hf t a t' HI Hr. unfold read in Hr.
  apply lift_Ok in Hr as [Hr ->]. eauto.
Qed.

Lemma kps_table_get (g : ghost KeyType) p :
  kps g (table_get (KeyType:=KeyType) p) (opt_good g p).
Proof.
  apply kps_read. intros t [n|] HI Hg; [|done].
  destruct HI as (_ & Hlive & _). by apply Hlive.
Qed.

Lemma kps_garbage_add (g : ghost KeyType) (n : option (Node KeyType)) :
  kps g (garbage_add n) (fun _ => True).
Proof.
  intros t p t' HI Ha. unfold garbage_add in Ha.
  apply bind_Ok in Ha as ([p' gt] & _ & Hr). injection Hr as <- <-.
  split; [exact HI|done].
Qed.

Lemma kps_set_root (g : ghost KeyType) r :
  kps g (set_root (KeyType:=KeyType) r) (fun _ => True).
Proof. intros t a t' HI Hs. injection Hs as <- <-. split; [exact HI|done]. Qed.

Lemma kps_table_set (g : ghost KeyType) p expected (new : option (Node KeyType)) :
  from_option (good_new g p) True new ->
  kps g (table_set p expected new) (fun _ => True).
Proof.
  intros Hnew t ok t' HI Hs.
  apply table_set_Ok in Hs as (mt' & Hs & ->). split; [|done].
  destruct ok; [|by apply mt_set_false in Hs as ->; destruct t].
  destruct HI as (Hsh & Hlive & Hsig & Hnp & Hcap & Hhead).
  destruct (mt_set_true _ _ _ _ _ Hsh Hs) as (_ & Hsh' & Hnp' & _ & _ & Hother).
  destruct (mt_set_get _ _ _ _ _ Hs) as [Hg _].
  split; [done|]. split.
  { intros q n Hq. cbn [mapping_table] in Hq.
    destruct (decide (q = p)) as [->|Hne].
    - rewrite Hg in Hq. destruct new as [n0|]; [|done].
      injection Hq as <-. by apply good_assign.
    - rewrite (Hother q Hne) in Hq. by apply Hlive. }
  cbn [mapping_table brk headleaf]. rewrite Hnp'. done.
Qed.

(** *** Allocation *)

Lemma Inv_alloc (g : ghost KeyType) (t : BWTreeState KeyType) :
  Inv g t ->
  Inv (ghost_alloc g)
      (mkBWTree (root t) (mapping_table t) (garbage_table t) (headleaf t)
                (brk t + 1)).
Proof.
  intros (Hsh & Hlive & Hsig & Hnp & Hcap & Hhead).
  split; [done|]. split.
  { intros p n Hg. eapply good_mono; [apply ghost_le_alloc|]. by apply Hlive. }
  split; [done|]. split; [done|]. split; [cbn; lia|done].
Qed.

Lemma kp_bind_alloc {B} (g : ghost KeyType) (k : Z -> M KeyType B)
    (Q : ghost KeyType -> B -> Prop) :
  (forall a, kp (ghost_alloc g) (k a) Q) -> kp g (bind alloc k) Q.
Proof.
  intros Hk t b t' HI Hb.
  apply bindM_Ok in Hb as (a & t1 & Ha & Hb).
  apply alloc_Ok in Ha as [-> ->].
  destruct (Hk _ _ _ _ (Inv_alloc _ _ HI) Hb) as (g2 & Hle & HI2 & HQ).
  exists g2. split; [|done].
  eapply ghost_le_trans; [apply ghost_le_alloc|done].
Qed.

Ltac sstep :=
  eapply kp_bind_s;
  [ first [ apply kps_lift | apply kps_table_get | apply kps_garbage_add
          | apply kps_set_root ]
  | ].

Ltac pstep :=
  eapply kps_bind;
  [ first [ apply kps_lift | apply kps_table_get | apply kps_garbage_add
          | apply kps_set_root ]
  | ].

(** ** The nodes the writers build *)

Lemma total_values_app (l1 l2 : list (list ValueType)) :
  total_values (l1 ++ l2) = (total_values l1 + total_values l2)%nat.
Proof.
  unfold total_values. induction l1 as [|x l1 IH]; [done|].
  csimpl. rewrite IH. lia.
Qed.

Lemma total_values_take_drop i (vs : list (list ValueType)) :
  (total_values (take i vs) + total_values (drop i vs))%nat = total_values vs.
Proof. by rewrite <-total_values_app, take_drop. Qed.

Lemma total_values_insert x new (vs : list (list ValueType)) old :
  vs !! x = Some old ->
  (total_values (<[x := new]> vs) + length old)%nat
  = (total_values vs + length new)%nat.
Proof.
  revert x. induction vs as [|v vs IH]; intros [|x] Hx; try done.
  - cbn in Hx. injection Hx as ->. unfold total_values. csimpl. lia.
  - cbn in Hx. specialize (IH x Hx). unfold total_values in *. csimpl. lia.
Qed.

Lemma total_values_delete x (vs : list (list ValueType)) old :
  vs !! x = Some old ->
  (total_values (delete x vs) + length old)%nat = total_values vs.
Proof.
  revert x. induction vs as [|v vs IH]; intros [|x] Hx; try done.
  - cbn in Hx. injection Hx as ->. unfold total_values. csimpl. lia.
  - cbn in Hx. specialize (IH x Hx). unfold total_values in *. csimpl. lia.
Qed.

Lemma length_erase_value v vals : (length (erase_value v vals) <= length vals)%nat.
Proof. unfold erase_value. apply List.filter_length_le. Qed.

(** One delta adds at most one value to the projection. *)
Lemma leaf_apply_delta_values (d : Node KeyType) ks vs ks' vs' :
  length ks = length vs ->
  leaf_apply_delta d (ks, vs) = Ok (ks', vs') ->
  (total_values vs' <= total_values vs
                       + match d with RecordDelta _ _ _ _ _ => 1 | _ => 0 end)%nat.
Proof.
  intros Hl Ha. destruct d as [| |rh op k v nx|h Kp pQ nx| | |];
    cbn [leaf_apply_delta] in Ha; try (injection Ha as <- <-; lia).
  - destruct op; [| |injection Ha as <- <-; lia].
    + unfold leaf_apply_insert in Ha.
      destruct (find_first _ ks) as [x|] eqn:Hx.
      * apply bind_Ok in Ha as (vals & Hv%at_index_Ok & Ha).
        injection Ha as <- <-.
        pose proof (total_values_insert x (vals ++ [v]) vs vals Hv) as Ht.
        rewrite length_app in Ht. cbn in Ht. lia.
      * apply bind_Ok in Ha as ([ks1 vs1] & Hi & Ha).
        destruct (_ =? slotuse rh); [|discriminate]. injection Ha as <- <-.
        destruct (slotuse rh =? 0).
        -- injection Hi as <- <-. rewrite total_values_app.
           unfold total_values at 2. cbn. lia.
        -- apply bind_Ok in Hi as (ks2 & _ & Hi).
           apply bind_Ok in Hi as (vs2 & [_ ->]%vec_insert_Ok & Hi).
           injection Hi as <- <-.
           rewrite total_values_app.
           change ([v] :: ?l) with ([[v]] ++ l). rewrite total_values_app.
           pose proof (total_values_take_drop (target_pos k ks) vs).
           unfold total_values at 2. cbn. lia.
    + unfold leaf_apply_delete in Ha.
      apply bind_Ok in Ha as ([ks1 vs1] & Hd & Ha).
      destruct (_ =? slotuse rh); [|discriminate]. injection Ha as <- <-.
      destruct (find_first _ ks) as [x|] eqn:Hx; [|injection Hd as <- <-; lia].
      apply bind_Ok in Hd as (vals & Hv%at_index_Ok & Hd).
      pose proof (total_values_insert x (erase_value v vals) vs vals Hv) as Ht.
      pose proof (length_erase_value v vals).
      destruct (bool_decide _).
      * apply bind_Ok in Hd as (ks2 & _ & Hd).
        apply bind_Ok in Hd as (vs2 & [Hlt ->]%vec_erase_Ok & Hd).
        injection Hd as <- <-. rewrite delete_insert_same.
        pose proof (total_values_delete x vs vals Hv). lia.
      * injection Hd as <- <-. lia.
  - destruct (find_first _ ks) as [i|] eqn:Hi; [|injection Ha as <- <-; lia].
    injection Ha as <- <-. pose proof (find_first_Some _ _ _ Hi) as [Hlt _].
    rewrite vec_resize_take by lia.
    pose proof (total_values_take_drop i vs). lia.
Qed.

Lemma copy_leaf_base_values (slotkey : list KeyType) slotdata :
  forall cnt i ks0 vs0 ks vs,
    copy_leaf_base slotkey slotdata i cnt ks0 vs0 = Ok (ks, vs) ->
    (total_values vs
     <= total_values vs0 + sum_list (slot_values <$> drop i slotdata))%nat.
Proof.
  induction cnt as [|cnt IH]; intros i ks0 vs0 ks vs Hc; cbn in Hc.
  { injection Hc as <- <-. lia. }
  apply bind_Ok in Hc as (k & Hk & Hc).
  apply bind_Ok in Hc as (p & Hp%at_index_Ok & Hc).
  apply bind_Ok in Hc as (vals & Hv%deref_Ok & Hc). subst p.
  apply IH in Hc. rewrite total_values_app in Hc.
  rewrite (drop_S _ _ _ Hp). unfold total_values in Hc at 3. cbn in Hc |- *.
  lia.
Qed.

(** The projection holds no more values than the chain. *)
Lemma fold_values (n : Node KeyType) : forall ks vs,
  leaf_fake_consolidate n = Ok (ks, vs) ->
  (total_values vs <= chain_values n)%nat.
Proof.
  assert (forall d nx : Node KeyType,
            next_of d = Some nx ->
            (forall ks vs, leaf_fake_consolidate nx = Ok (ks, vs) ->
                           (total_values vs <= chain_values nx)%nat) ->
            (chain_values nx
             + match d with RecordDelta _ _ _ _ _ => 1 | _ => 0 end
             <= chain_values d)%nat ->
            forall ks vs, leaf_fake_consolidate d = Ok (ks, vs) ->
                          (total_values vs <= chain_values d)%nat) as Hstep.
  { intros d nx Hnx IH Hcv ks vs Hf.
    rewrite (leaf_fake_consolidate_step d nx Hnx) in Hf.
    apply bind_Ok in Hf as ([ks0 vs0] & Hf0 & Ha).
    pose proof (leaf_fake_consolidate_lengths _ _ _ Hf0) as Hl0.
    pose proof (leaf_apply_delta_values d _ _ _ _ Hl0 Ha).
    specialize (IH _ _ Hf0). lia. }
  induction n as [h slotkey slotdata| | h op k v nx IH | h Kp pQ nx IH
                 | h Kp Kq iq pQ nx IH | h nx IH | h Kp o IHo nx IH ];
    intros ks vs Hf.
  - unfold leaf_fake_consolidate in Hf. cbn in Hf.
    apply bind_Ok in Hf as (base & Hf & Hb). injection Hb as ->.
    apply copy_leaf_base_values in Hf. rewrite drop_0 in Hf.
    cbn [chain_values]. unfold total_values in Hf at 2. cbn in Hf. lia.
  - unfold leaf_fake_consolidate in Hf. cbn in Hf. discriminate.
  - eapply (Hstep _ nx); eauto. cbn. lia.
  - eapply (Hstep _ nx); eauto. cbn. lia.
  - eapply (Hstep _ nx); eauto. cbn. lia.
  - eapply (Hstep _ nx); eauto. cbn. lia.
  - eapply (Hstep _ nx); eauto. cbn. lia.
Qed.

(** One delta leaves no key without a value. *)
Lemma leaf_apply_delta_nonempty (d : Node KeyType) ks vs ks' vs' :
  length ks = length vs ->
  Forall (fun v => v <> []) vs ->
  leaf_apply_delta d (ks, vs) = Ok (ks', vs') ->
  Forall (fun v => v <> []) vs'.
Proof.
  intros Hl Hne Ha. destruct d as [| |rh op k v nx|h Kp pQ nx| | |];
    cbn [leaf_apply_delta] in Ha; try (by injection Ha as <- <-).
  - destruct op; [| |by injection Ha as <- <-].
    + unfold leaf_apply_insert in Ha.
      destruct (find_first _ ks) as [x|] eqn:Hx.
      * apply bind_Ok in Ha as (vals & Hv%at_index_Ok & Ha).
        injection Ha as <- <-. apply Forall_insert; [done|].
        by destruct vals.
      * apply bind_Ok in Ha as ([ks1 vs1] & Hi & Ha).
        destruct (_ =? slotuse rh); [|discriminate]. injection Ha as <- <-.
        destruct (slotuse rh =? 0).
        -- injection Hi as <- <-. apply Forall_app. split; [done|].
           by repeat constructor.
        -- apply bind_Ok in Hi as (ks2 & _ & Hi).
           apply bind_Ok in Hi as (vs2 & [_ ->]%vec_insert_Ok & Hi).
           injection Hi as <- <-. apply Forall_app. split.
           ++ by apply Forall_take.
           ++ apply Forall_cons. split; [done|]. by apply Forall_drop.
    + unfold leaf_apply_delete in Ha.
      apply bind_Ok in Ha as ([ks1 vs1] & Hd & Ha).
      destruct (_ =? slotuse rh); [|discriminate]. injection Ha as <- <-.
      destruct (find_first _ ks) as [x|] eqn:Hx; [|by injection Hd as <- <-].
      apply bind_Ok in Hd as (vals & Hv%at_index_Ok & Hd).
      destruct (bool_decide _) eqn:He.
      * apply bind_Ok in Hd as (ks2 & _ & Hd).
        apply bind_Ok in Hd as (vs2 & [Hlt ->]%vec_erase_Ok & Hd).
        injection Hd as <- <-. rewrite delete_insert_same.
        by apply Forall_delete.
      * injection Hd as <- <-. apply Forall_insert; [done|].
        apply bool_decide_eq_false in He. intros Hnil. apply He.
        by rewrite Hnil.
  - destruct (find_first _ ks) as [i|] eqn:Hi; [|by injection Ha as <- <-].
    injection Ha as <- <-. pose proof (find_first_Some _ _ _ Hi) as [Hlt _].
    rewrite vec_resize_take by lia. by apply Forall_take.
Qed.

Lemma leaf_chain_good_sem (n : Node KeyType) : leaf_chain_good n -> leaf_sem n.
Proof. destruct n; cbn; tauto. Qed.

Lemma leaf_chain_good_leaf (n : Node KeyType) :
  leaf_chain_good n -> is_leaf (hdr_of n) = true.
Proof. destruct n; cbn; tauto. Qed.

Lemma key_is_in_fold (n : Node KeyType) key ks vs :
  leaf_chain_good n ->
  leaf_fake_consolidate n = Ok (ks, vs) ->
  key_in_node key (hdr_of n) = true ->
  key_is_in key (Some n) = Ok (negb (bool_decide (vals_of key ks vs = []))).
Proof.
  intros Hg Hf Hin. cbn [key_is_in].
  destruct (readers_agree n Hg key ks vs Hf Hin ∅) as [-> _]. f_equal.
  apply existsb_true_nonempty.
Qed.

Lemma visible_count_empty (vals : list ValueType) :
  visible_count ∅ vals = Z.of_nat (length vals).
Proof.
  unfold visible_count. f_equal. f_equal.
  induction vals as [|v l IH]; [done|]. cbn. by rewrite IH.
Qed.

Lemma visible_pairs_empty value (vals : list ValueType) :
  visible_pairs ∅ value vals
  = Z.of_nat (length (List.filter (fun v => value_equal v value) vals)).
Proof.
  unfold visible_pairs.
  by rewrite (filter_ext_bool
                (fun v => negb (delset_count ∅ v) && value_equal v value)
                (fun v => value_equal v value)).
Qed.

Lemma erase_value_count v (vals : list ValueType) :
  (length (erase_value v vals)
   + length (List.filter (fun w => value_equal w v) vals))%nat = length vals.
Proof.
  unfold erase_value, value_equal.
  induction vals as [|w l IH]; [done|]. cbn.
  destruct (ItemPointerEqualityChecker w v); cbn; lia.
Qed.

Lemma find_first_intro {A} (p : A -> bool) l i x :
  l !! i = Some x -> p x = true -> Forall (fun y => p y = false) (take i l) ->
  find_first p l = Some i.
Proof.
  revert i. induction l as [|y l IH]; intros [|i] Hx Hp Hall; try done.
  - cbn in Hx. injection Hx as ->. cbn. by rewrite Hp.
  - cbn in Hx, Hall. apply Forall_cons in Hall as [Hy Hall].
    cbn. rewrite Hy. by rewrite (IH i Hx Hp Hall).
Qed.

(** A record delta over a chain with a projection, when applying it
    succeeds and its [slotuse] counts the keys left. *)
Lemma leaf_sem_record h op k v (nx : Node KeyType) ks vs ks' vs' :
  leaf_fake_consolidate nx = Ok (ks, vs) ->
  sorted_keys ks = true -> Forall (fun v => v <> []) vs ->
  Forall (fun x => key_in_node x (hdr_of nx) = true) ks ->
  leaf_apply_delta (RecordDelta h op k v nx) (ks, vs) = Ok (ks', vs') ->
  same_range h (hdr_of nx) ->
  key_in_node k h = true ->
  slotuse h = Z.of_nat (length ks') ->
  leaf_sem (RecordDelta h op k v nx).
Proof.
  intros Hf Hs Hne Hrg Ha Hsr Hin Hsu.
  pose proof (leaf_fake_consolidate_lengths _ _ _ Hf) as Hl.
  exists ks', vs'. split.
  { rewrite (leaf_fake_consolidate_step _ nx) by done. rewrite Hf. exact Ha. }
  split; [by eapply leaf_apply_delta_sorted|].
  split; [by eapply leaf_apply_delta_nonempty|].
  split; [|done]. cbn [hdr_of].
  assert (Forall (fun x => key_in_node x h = true) ks) as Hrg'.
  { eapply Forall_impl; [exact Hrg|]. intros x Hx.
    by rewrite (key_in_node_same_range _ _ _ Hsr). }
  apply leaf_apply_delta_keys in Ha.
  destruct op; [| |by subst].
  - destruct Ha as [->|[_ ->]]; [done|].
    apply Forall_app. split; [by apply Forall_take|].
    constructor; [done|by apply Forall_drop].
  - destruct Ha as [->|[x ->]]; [done|]. by apply Forall_delete.
Qed.

Lemma not_need_split_leaf (h : NodeHdr KeyType) :
  is_leaf h = true -> need_split h = false -> slotuse h < leafslotmax.
Proof.
  unfold need_split. intros -> Hn. apply bool_decide_eq_false in Hn. lia.
Qed.

(** The record delta of [insert_entry] on a good head that needs no
    split. *)
Lemma leaf_good_insert (g g' : ghost KeyType) a p (bn : Node KeyType) key value dup :
  ghost_le g g' -> cap g + 1 <= cap g' ->
  leaf_good g bn ->
  need_split (hdr_of bn) = false ->
  key_in_node key (hdr_of bn) = true ->
  key_is_in key (Some bn) = Ok dup ->
  HasUniqueKeys && dup = false ->
  leaf_good g' (insert_delta a p bn key value dup) /\
  sig_of (hdr_of (insert_delta a p bn key value dup)) = sig_of (hdr_of bn) /\
  is_leaf (hdr_of (insert_delta a p bn key value dup)) = true.
Proof.
  intros Hle Hcap (Hc & Hr & Hk & Hv & Hsl & Hun) Hns Hin Hdup Hud.
  pose proof (leaf_chain_good_sem _ Hc) as (ks & vs & Hf & Hs & Hne & Hrg & Hsu).
  pose proof (leaf_chain_good_leaf _ Hc) as Hil.
  pose proof (leaf_fake_consolidate_lengths _ _ _ Hf) as Hl.
  rewrite (key_is_in_fold _ _ _ _ Hc Hf Hin) in Hdup. injection Hdup as Hdup.
  destruct (hdr_of_insert_delta a p bn key value dup)
    as (h & -> & _ & Hslot & _ & Hsr & Hnl & Hil').
  cbn [hdr_of].
  pose proof (not_need_split_leaf _ Hil Hns) as Hlt.
  pose proof leafslotmax_bounds as Hmax.
  assert (exists ks' vs',
            leaf_apply_insert h key value ks vs = Ok (ks', vs') /\
            slotuse h = Z.of_nat (length ks') /\
            slotuse h <= leafslotmax /\
            (HasUniqueKeys = true ->
             Forall (fun v => length v = 1%nat) vs ->
             Forall (fun v => length v = 1%nat) vs'))
    as (ks' & vs' & Ha & Hsu' & Hsl' & Hun').
  { unfold leaf_apply_insert.
    destruct (find_first (fun k => key_equal k key) ks) as [x|] eqn:Hx.
    - pose proof (find_first_Some _ _ _ Hx) as (Hxl & _).
      destruct (lookup_lt_is_Some_2 vs x) as [vals Hvals]; [lia|].
      rewrite (proj2 (at_index_Ok _ _ _) Hvals). cbn [mbind result_bind].
      eexists _, _. split; [reflexivity|].
      assert (dup = true) as ->.
      { subst dup. rewrite bool_decide_eq_false_2; [done|].
        rewrite vals_of_nonempty by done. congruence. }
      rewrite andb_true_r in Hud. rewrite Hslot.
      split; [done|]. split; [lia|]. intros Hu. congruence.
    - assert (dup = false) as ->.
      { subst dup. rewrite bool_decide_eq_true_2; [done|].
        by apply vals_of_nonempty. }
      rewrite Hslot. unfold ushort. rewrite Z.mod_small by lia.
      destruct (slotuse (hdr_of bn) + 1 =? 0) eqn:H0; [lia|].
      unfold vec_insert. pose proof (target_pos_le key ks).
      rewrite !decide_True by lia. cbn [mbind result_bind].
      assert (Z.of_nat (length (take (target_pos key ks) vs
                                ++ [value] :: drop (target_pos key ks) vs))
              = slotuse (hdr_of bn) + 1) as Hlen.
      { rewrite length_app, length_cons, length_take, length_drop. lia. }
      rewrite Hlen, Z.eqb_refl.
      eexists _, _. split; [reflexivity|]. split.
      { rewrite length_app, length_cons, length_take, length_drop. lia. }
      split; [lia|]. intros _ Hone. apply Forall_app. split.
      + by apply Forall_take.
      + apply Forall_cons. split; [done|]. by apply Forall_drop. }
  assert (key_in_node key h = true) as Hin'.
  { by rewrite (key_in_node_same_range _ _ _ Hsr). }
  split; [|split].
  - split; [|split; [|split; [|split]]].
    + cbn [leaf_chain_good hdr_of]. split; [congruence|]. split.
      * by eapply (leaf_sem_record h INSERT key value bn ks vs ks' vs').
      * done.
    + unfold range_ok in *. cbn [hdr_of].
      destruct Hsr as (-> & -> & -> & ->). done.
    + eapply link_ok_mono; [done|]. unfold link_ok in *. cbn [hdr_of].
      destruct Hsr as (_ & -> & _ & ->). by rewrite Hnl.
    + destruct Hle as [_ Hle]. cbn [chain_values]. lia.
    + split; [done|]. intros Hu ks2 vs2 Hf2.
      rewrite (leaf_fake_consolidate_step _ bn) in Hf2 by done.
      rewrite Hf in Hf2. cbn [mbind result_bind leaf_apply_delta] in Hf2.
      rewrite Ha in Hf2. injection Hf2 as <- <-. apply Hun'; [done|].
      by eapply Hun.
  - unfold sig_of. cbn [hdr_of]. destruct Hsr as (-> & _ & -> & _).
    by rewrite Hil'.
  - cbn [hdr_of]. congruence.
Qed.

(** The record delta [append_delete] builds. *)
Lemma hdr_of_delete_delta a (bn : Node KeyType) key value (deletekey : bool) :
  let bh := hdr_of bn in
  let new_delta :=
    RecordDelta_ctor a bn DELETE key value (next_leafnode bh)
      (low_key bh) (high_key bh) (inf_lowkey bh) (inf_highkey bh) in
  exists h,
    (if deletekey
     then with_hdr (fun h => set_slotuse (ushort (slotuse h - 1)) h) new_delta
     else new_delta) = RecordDelta h DELETE key value bn /\
    slotuse h = (if deletekey then ushort (slotuse (hdr_of bn) - 1)
                 else slotuse (hdr_of bn)) /\
    same_range h (hdr_of bn) /\
    next_leafnode h = next_leafnode (hdr_of bn) /\
    is_leaf h = is_leaf (hdr_of bn).
Proof.
  unfold RecordDelta_ctor. destruct deletekey; cbn; eexists;
    (split; [reflexivity|]); repeat split.
Qed.

(** The record delta of [delete_entry] on a good head that needs no split
    and holds at most [INT_MAX] values. *)
Lemma leaf_good_delete (g g' : ghost KeyType) (bn : Node KeyType) key value tv h
    (deletekey : bool) :
  ghost_le g g' -> cap g + 1 <= cap g' ->
  leaf_good g bn ->
  need_split (hdr_of bn) = false ->
  key_in_node key (hdr_of bn) = true ->
  Z.of_nat (chain_values bn) <= INT_MAX ->
  count_pair key value (Some bn) = Ok tv ->
  tv.2 <> 0 ->
  deletekey = (tv.2 =? tv.1) ->
  slotuse h = (if deletekey then ushort (slotuse (hdr_of bn) - 1)
               else slotuse (hdr_of bn)) ->
  same_range h (hdr_of bn) ->
  next_leafnode h = next_leafnode (hdr_of bn) ->
  is_leaf h = is_leaf (hdr_of bn) ->
  leaf_good g' (RecordDelta h DELETE key value bn) /\
  sig_of h = sig_of (hdr_of bn).
Proof.
  intros Hle Hcap (Hc & Hr & Hk & Hv & Hsl0 & Hun) Hns Hin Hsz Hcp Hnz Hdk
    Hslot Hsr Hnl Hil'.
  pose proof (leaf_chain_good_sem _ Hc) as (ks & vs & Hf & Hs & Hne & Hrg & Hsu).
  pose proof (leaf_chain_good_leaf _ Hc) as Hil.
  pose proof (leaf_fake_consolidate_lengths _ _ _ Hf) as Hl.
  pose proof (not_need_split_leaf _ Hil Hns) as Hlt.
  pose proof leafslotmax_bounds as Hmax.
  cbn [count_pair] in Hcp.
  destruct (readers_agree bn Hc key ks vs Hf Hin ∅) as [_ Hcp'].
  rewrite Hcp' in Hcp by lia. clear Hcp'.
  rewrite visible_count_empty, visible_pairs_empty, !Z.add_0_l in Hcp.
  injection Hcp as <-. cbn [fst snd] in Hnz, Hdk.
  set (vals := vals_of key ks vs) in *.
  pose proof (erase_value_count value vals) as Hec.
  destruct (find_first (fun k => key_equal k key) ks) as [x|] eqn:Hx.
  2:{ exfalso. apply Hnz.
      assert (vals = []) as -> by by apply vals_of_nonempty. done. }
  pose proof (find_first_Some _ _ _ Hx) as (Hxl & _).
  destruct (lookup_lt_is_Some_2 vs x) as [vals0 Hvals]; [lia|].
  assert (vals0 = vals) as -> by (symmetry; by eapply vals_of_found).
  assert (exists ks' vs',
            leaf_apply_delete h key value ks vs = Ok (ks', vs') /\
            slotuse h = Z.of_nat (length ks') /\
            slotuse h <= leafslotmax /\
            (Forall (fun v => length v = 1%nat) vs ->
             Forall (fun v => length v = 1%nat) vs'))
    as (ks' & vs' & Ha & Hsu' & Hsl' & Hun').
  { unfold leaf_apply_delete. rewrite Hx.
    rewrite (proj2 (at_index_Ok _ _ _) Hvals). cbn [mbind result_bind].
    destruct (bool_decide (length (erase_value value vals) = O)) eqn:He.
    - apply bool_decide_eq_true in He.
      assert (deletekey = true) as ->.
      { rewrite Hdk. apply Z.eqb_eq. lia. }
      unfold vec_erase. rewrite !decide_True
        by (rewrite ?length_insert; lia).
      cbn [mbind result_bind]. rewrite delete_insert_same.
      assert (slotuse h = Z.of_nat (length (delete x vs))) as Hsl.
      { rewrite Hslot. unfold ushort. rewrite Z.mod_small by lia.
        rewrite length_delete by eauto. lia. }
      rewrite <-Hsl, Z.eqb_refl. eexists _, _. split; [reflexivity|].
      assert (is_Some (ks !! x)) as Hkx by (apply lookup_lt_is_Some_2; lia).
      split; [|split].
      + rewrite Hsl, (length_delete ks x Hkx), (length_delete vs x) by eauto.
        lia.
      + rewrite Hsl, (length_delete vs x) by eauto. lia.
      + intros Hone. by apply Forall_delete.
    - apply bool_decide_eq_false in He.
      assert (deletekey = false) as ->.
      { rewrite Hdk. apply Z.eqb_neq. lia. }
      cbn [mbind result_bind]. rewrite length_insert.
      assert (Z.of_nat (length vs) = slotuse h) as -> by (rewrite Hslot; lia).
      rewrite Z.eqb_refl. eexists _, _. split; [reflexivity|].
      split; [rewrite Hslot; lia|]. split; [rewrite Hslot; lia|].
      intros Hone. apply Forall_insert; [done|].
      pose proof (Forall_lookup_1 _ _ _ _ Hone Hvals) as Hv1. cbn in Hv1.
      pose proof (length_erase_value value vals). lia. }
  assert (key_in_node key h = true) as Hin'.
  { by rewrite (key_in_node_same_range _ _ _ Hsr). }
  split.
  - split; [|split; [|split; [|split]]].
    + cbn [leaf_chain_good hdr_of]. split; [congruence|]. split.
      * by eapply (leaf_sem_record h DELETE key value bn ks vs ks' vs').
      * done.
    + unfold range_ok in *. cbn [hdr_of].
      destruct Hsr as (-> & -> & -> & ->). done.
    + eapply link_ok_mono; [done|]. unfold link_ok in *. cbn [hdr_of].
      destruct Hsr as (_ & -> & _ & ->). by rewrite Hnl.
    + destruct Hle as [_ Hle]. cbn [chain_values]. lia.
    + split; [done|]. intros Hu ks2 vs2 Hf2.
      rewrite (leaf_fake_consolidate_step _ bn) in Hf2 by done.
      rewrite Hf in Hf2. cbn [mbind result_bind leaf_apply_delta] in Hf2.
      rewrite Ha in Hf2. injection Hf2 as <- <-. apply Hun'.
      by eapply Hun.
  - unfold sig_of. destruct Hsr as (-> & _ & -> & _). by rewrite Hil'.
Qed.

(** *** Base leaves *)

Lemma fill_leaf_inv (keys : list KeyType) (vals : list (list ValueType)) :
  forall cnt i j sk sd r,
    fill_leaf keys vals i j cnt sk sd = Ok r -> (0 < cnt)%nat ->
    (i + cnt <= length keys)%nat /\ (j + cnt <= length sk)%nat.
Proof.
  induction cnt as [|cnt IH]; intros i j sk sd r Hf Hc; [lia|].
  cbn [fill_leaf] in Hf.
  apply bind_Ok in Hf as (k & Hk%at_index_Ok & Hf).
  apply bind_Ok in Hf as (sk' & Hsk & Hf).
  apply bind_Ok in Hf as (v & Hv & Hf).
  apply bind_Ok in Hf as (sd' & Hsd & Hf).
  unfold store_index in Hsk. case_decide as Hj; [|done]. injection Hsk as <-.
  apply lookup_lt_Some in Hk.
  destruct cnt as [|cnt]; [lia|].
  apply IH in Hf as [H1 H2]; [|lia]. rewrite length_insert in H2. lia.
Qed.

Lemma sum_slot_values_none n :
  sum_list (slot_values <$> replicate n (@None (list ValueType))) = O.
Proof. induction n as [|n IH]; [done|]. cbn. exact IH. Qed.

Lemma sum_slot_values_some (vs : list (list ValueType)) rest :
  sum_list (slot_values <$> ((Some <$> vs) ++ rest))
  = (total_values vs + sum_list (slot_values <$> rest))%nat.
Proof.
  unfold total_values. induction vs as [|v vs IH]; [done|].
  csimpl. rewrite IH. lia.
Qed.

(** The leaf the filling loop builds from part of a projection. *)
Lemma filled_leaf h (keys : list KeyType) vals i cnt sk sd :
  fill_leaf keys vals i 0 cnt LeafNode_slotkey LeafNode_slotdata = Ok (sk, sd) ->
  (i + cnt <= length keys)%nat -> length keys = length vals ->
  Z.of_nat cnt <= leafslotmax + 1 -> slotuse h = Z.of_nat cnt ->
  leaf_fake_consolidate (LeafNode h sk sd)
  = Ok (take cnt (drop i keys), take cnt (drop i vals)) /\
  chain_values (LeafNode h sk sd) = total_values (take cnt (drop i vals)) /\
  sk !! O = (take cnt (drop i keys) ++ drop cnt LeafNode_slotkey) !! O.
Proof.
  intros Hfill Hlen Hl Hcnt Hsu.
  pose proof leafslotmax_bounds as Hmax.
  assert (length (LeafNode_slotkey (KeyType:=KeyType))
          = Z.to_nat (leafslotmax + 1)) as Hlk
    by apply length_replicate.
  assert (length (LeafNode_slotdata (KeyType:=KeyType))
          = Z.to_nat (leafslotmax + 1)) as Hld
    by apply length_replicate.
  rewrite fill_leaf_spec in Hfill by lia.
  cbn [take app] in Hfill. injection Hfill as <- <-.
  assert (length (take cnt (drop i keys)) = cnt) as Hlk'.
  { rewrite length_take, length_drop. lia. }
  assert (length (take cnt (drop i vals)) = cnt) as Hlv'.
  { rewrite length_take, length_drop. lia. }
  split; [|split; [|done]].
  - rewrite (leaf_fake_consolidate_base _ _ _
               (zip (take cnt (drop i keys)) (take cnt (drop i vals)))).
    + by rewrite fst_zip, snd_zip by lia.
    + apply leaf_entries_fill; [lia|]. lia.
  - cbn [chain_values]. rewrite sum_slot_values_some.
    unfold LeafNode_slotdata. rewrite drop_replicate, sum_slot_values_none. lia.
Qed.

Lemma half_bounds (n : nat) : (2 * (n / 2) <= n <= 2 * (n / 2) + 1)%nat.
Proof.
  pose proof (Nat.div_mod_eq n 2). pose proof (Nat.mod_upper_bound n 2). lia.
Qed.

Lemma need_split_leaf (h : NodeHdr KeyType) :
  is_leaf h = true -> need_split h = true -> leafslotmax <= slotuse h.
Proof.
  unfold need_split. intros -> Hn. by apply bool_decide_eq_true in Hn.
Qed.

Lemma total_values_take i (vs : list (list ValueType)) :
  (total_values (take i vs) <= total_values vs)%nat.
Proof. pose proof (total_values_take_drop i vs). lia. Qed.

Lemma total_values_drop i (vs : list (list ValueType)) :
  (total_values (drop i vs) <= total_values vs)%nat.
Proof. pose proof (total_values_take_drop i vs). lia. Qed.

(** The base leaf [consolidate] installs in place of a good chain. *)
Lemma leaf_good_consolidated (g : ghost KeyType) (orinode : Node KeyType) a
    keys vals sk sd :
  let oh := hdr_of orinode in
  let h := LeafNode_hdr a (next_leafnode oh) (low_key oh) (high_key oh)
                        (inf_lowkey oh) (inf_highkey oh) in
  let new_leaf :=
    LeafNode (set_slotuse (ushort (Z.of_nat (length keys))) h) sk sd in
  leaf_good g orinode ->
  leaf_fake_consolidate orinode = Ok (keys, vals) ->
  Z.of_nat (length keys) <= leafslotmax ->
  fill_leaf keys vals 0 0 (length keys) LeafNode_slotkey LeafNode_slotdata
  = Ok (sk, sd) ->
  leaf_good g new_leaf /\ sig_of (hdr_of new_leaf) = sig_of oh /\
  is_leaf (hdr_of new_leaf) = true /\
  slotuse (hdr_of new_leaf) = slotuse oh.
Proof.
  intros oh h new_leaf (Hc & Hr & Hk & Hv & Hsl & Hun) Hf Hmaxk Hfill.
  pose proof (leaf_chain_good_sem _ Hc) as (ks & vs & Hf' & Hs & Hne & Hrg & Hsu).
  rewrite Hf in Hf'. injection Hf' as <- <-.
  pose proof (leaf_chain_good_leaf _ Hc) as Hil.
  pose proof (leaf_fake_consolidate_lengths _ _ _ Hf) as Hl.
  pose proof leafslotmax_bounds as Hmax.
  assert (slotuse (hdr_of new_leaf) = Z.of_nat (length keys)) as Hsu'.
  { cbn. unfold ushort. apply Z.mod_small. lia. }
  destruct (filled_leaf (hdr_of new_leaf) keys vals 0 (length keys) sk sd)
    as (Hfold & Hcv & _); [done|lia|done|lia|done|].
  cbn [drop] in Hfold, Hcv.
  rewrite (take_ge keys), (take_ge vals) in Hfold by lia.
  rewrite (take_ge vals) in Hcv by lia.
  split; [|split; [|split]].
  - split; [|split; [|split; [|split]]].
    + cbn [leaf_chain_good]. split; [done|]. split; [|done].
      exists keys, vals. split; [done|]. split; [done|]. split; [done|].
      split; [|done]. eapply Forall_impl; [exact Hrg|].
      intros k Hk'. exact Hk'.
    + exact Hr.
    + exact Hk.
    + unfold new_leaf. cbn [chain_values] in Hcv |- *. rewrite Hcv.
      pose proof (fold_values _ _ _ Hf). lia.
    + split; [lia|]. intros Hu ks2 vs2 Hf2.
      change (LeafNode (hdr_of new_leaf) sk sd) with new_leaf in Hfold.
      rewrite Hfold in Hf2. injection Hf2 as <- <-. by eapply Hun.
  - unfold sig_of. cbn. unfold oh. by rewrite Hil.
  - done.
  - by rewrite Hsu'.
Qed.

(** The right sibling [create_leaf] builds for a good head that needs a
    split: the upper half of the projection, from the pivot on. *)
Lemma leaf_good_sibling (g : ghost KeyType) (csn : Node KeyType) a ks vs sk sd k0 :
  let ch := hdr_of csn in
  let orisize := slotuse ch in
  let h := set_slotuse (ushort ((orisize + 1) / 2))
             (set_low_key k0
                (LeafNode_hdr a (next_leafnode ch) waste (high_key ch) false
                              (inf_highkey ch))) in
  leaf_good g csn -> need_split ch = true ->
  leaf_fake_consolidate csn = Ok (ks, vs) ->
  fill_leaf ks vs (Z.to_nat (orisize / 2)) 0 (Z.to_nat (orisize - orisize / 2))
            LeafNode_slotkey LeafNode_slotdata = Ok (sk, sd) ->
  at_index sk 0 = Ok k0 ->
  leaf_good g (LeafNode h sk sd) /\
  ks !! (length ks / 2)%nat = Some k0 /\
  Z.of_nat (length ks) <= 2 * (leafslotmax + 1).
Proof.
  intros ch orisize h (Hc & Hr & Hk & Hv & Hsl & Hun) Hns Hf Hfill Hk0.
  pose proof (leaf_chain_good_sem _ Hc) as (ks' & vs' & Hf' & Hs & Hne & Hrg & Hsu).
  rewrite Hf in Hf'. injection Hf' as <- <-.
  pose proof (leaf_chain_good_leaf _ Hc) as Hil.
  pose proof (leaf_fake_consolidate_lengths _ _ _ Hf) as Hl.
  pose proof leafslotmax_bounds as Hmax.
  pose proof (need_split_leaf _ Hil Hns) as Hge.
  fold ch in Hsu, Hge. fold orisize in Hsu, Hge.
  set (n := length ks) in *.
  assert (Z.to_nat (orisize / 2) = (n / 2)%nat) as Hi
    by (rewrite Hsu; apply half_nat).
  assert (Z.to_nat (orisize - orisize / 2) = (n - n / 2)%nat) as Hcnt
    by (rewrite Hsu; apply upper_nat).
  rewrite Hi, Hcnt in Hfill.
  assert (8 <= n)%nat as Hn8 by lia.
  pose proof (half_bounds n) as Hhb.
  assert (n / 2 <= n)%nat as Hhalf by lia.
  assert (0 < n - n / 2)%nat as Hpos by lia.
  assert (1 <= n / 2)%nat as Hlow by lia.
  destruct (fill_leaf_inv _ _ _ _ _ _ _ _ Hfill Hpos) as [_ Hroom].
  assert (length (LeafNode_slotkey (KeyType:=KeyType))
          = Z.to_nat (leafslotmax + 1)) as Hlk
    by apply length_replicate.
  rewrite Hlk in Hroom.
  assert (slotuse h = Z.of_nat (n - n / 2)) as Hsu'.
  { change (slotuse h) with (ushort ((orisize + 1) / 2)).
    rewrite Hsu. rewrite ceil_half. fold n. unfold ushort.
    apply Z.mod_small. lia. }
  destruct (filled_leaf h ks vs (n / 2) (n - n / 2) sk sd)
    as (Hfold & Hcv & Hsk0); [done|fold n; lia|done|lia|done|].
  assert (take (n - n / 2) (drop (n / 2) ks) = drop (n / 2) ks) as Htk.
  { apply take_ge. rewrite length_drop. fold n. lia. }
  assert (take (n - n / 2) (drop (n / 2) vs) = drop (n / 2) vs) as Htv.
  { apply take_ge. rewrite length_drop. lia. }
  rewrite Htk, Htv in Hfold. rewrite Htv in Hcv. rewrite Htk in Hsk0.
  apply at_index_Ok in Hk0. rewrite Hsk0 in Hk0.
  rewrite lookup_app_l in Hk0 by (rewrite length_drop; fold n; lia).
  rewrite lookup_drop, Nat.add_0_r in Hk0.
  assert (key_in_node k0 ch = true) as Hk0r.
  { rewrite Forall_forall in Hrg. apply Hrg.
    by eapply list_elem_of_lookup_2. }
  split; [|split; [done|lia]].
  split; [|split; [|split; [|split]]].
  - cbn [leaf_chain_good]. split; [done|]. split; [|done].
    exists (drop (n / 2) ks), (drop (n / 2) vs).
    split; [done|]. split; [by apply sorted_keys_drop|].
    split; [by apply Forall_drop|]. split.
    + pose proof (sorted_keys_first_least ks (n / 2) k0 Hs Hk0) as Hleast.
      apply Forall_forall. intros k Hkin.
      rewrite Forall_forall in Hleast, Hrg.
      specialize (Hleast k Hkin).
      assert (k ∈ ks) as Hkks.
      { apply list_elem_of_lookup in Hkin as (j & Hj).
        rewrite lookup_drop in Hj. by eapply list_elem_of_lookup_2. }
      specialize (Hrg k Hkks). unfold key_in_node in *.
      apply andb_prop in Hrg as [_ Hhi].
      cbn. unfold key_greaterequal. rewrite Hleast. cbn. exact Hhi.
    + rewrite length_drop. fold n. exact Hsu'.
  - unfold range_ok. cbn. intros _ Hih.
    unfold key_in_node in Hk0r. apply andb_prop in Hk0r as [_ Hhi].
    unfold key_less in Hhi. fold ch in Hhi. by rewrite Hih in Hhi.
  - exact Hk.
  - rewrite Hcv. pose proof (fold_values _ _ _ Hf).
    pose proof (total_values_drop (n / 2) vs). lia.
  - split.
    + cbn [hdr_of]. rewrite Hsu'. fold ch orisize in Hsl. lia.
    + intros Hu ks2 vs2 Hf2. rewrite Hfold in Hf2. injection Hf2 as <- <-.
      apply Forall_drop. by eapply Hun.
Qed.

(** The split delta [split] puts on a good head once the sibling has its
    PID. *)
Lemma leaf_good_split (g0 g : ghost KeyType) (csn : Node KeyType) a q ks vs k0 :
  let ch := hdr_of csn in
  let new_split :=
    SplitDelta_ctor a csn k0 q q (low_key ch) k0 (inf_lowkey ch) false in
  ghost_le g0 g ->
  leaf_good g0 csn -> need_split ch = true ->
  leaf_fake_consolidate csn = Ok (ks, vs) ->
  ks !! (length ks / 2)%nat = Some k0 ->
  Z.of_nat (length ks) <= 2 * (leafslotmax + 1) ->
  sigs g q = Some (true, false, k0) ->
  leaf_good g new_split /\ sig_of (hdr_of new_split) = sig_of ch /\
  is_leaf (hdr_of new_split) = true.
Proof.
  intros ch new_split Hle (Hc & Hr & Hk & Hv & Hsl & Hun) Hns Hf Hk0 Hbound Hq.
  pose proof (leaf_chain_good_sem _ Hc) as (ks' & vs' & Hf' & Hs & Hne & Hrg & Hsu).
  rewrite Hf in Hf'. injection Hf' as <- <-.
  pose proof (leaf_chain_good_leaf _ Hc) as Hil.
  pose proof (leaf_fake_consolidate_lengths _ _ _ Hf) as Hl.
  pose proof leafslotmax_bounds as Hmax.
  pose proof (need_split_leaf _ Hil Hns) as Hge.
  fold ch in Hsu, Hge, Hil.
  set (n := length ks) in *.
  assert (8 <= n)%nat as Hn8 by lia.
  pose proof (half_bounds n) as Hhb.
  assert (n / 2 < n)%nat as Hhalf by lia.
  assert (1 <= n / 2)%nat as Hlow by lia.
  assert (key_in_node k0 ch = true) as Hk0r.
  { rewrite Forall_forall in Hrg. apply Hrg.
    by eapply list_elem_of_lookup_2. }
  assert (Forall (fun k => m_key_less k k0 = true) (take (n / 2) ks)) as Hbelow.
  { apply Forall_lookup. intros j k Hj.
    apply lookup_take_Some in Hj as [Hj Hjl].
    by eapply (sorted_keys_lookup ks j (n / 2)). }
  assert (find_first (fun k => key_greaterequal k k0 false) ks
          = Some (n / 2)%nat) as Hff.
  { eapply find_first_intro; [exact Hk0| |].
    - unfold key_greaterequal. by rewrite key_less_irrefl.
    - eapply Forall_impl; [exact Hbelow|]. intros k Hk'.
      unfold key_greaterequal. by rewrite Hk'. }
  assert (slotuse (hdr_of new_split) = Z.of_nat (n / 2)) as Hsu'.
  { change (slotuse (hdr_of new_split)) with (ushort (slotuse ch / 2)).
    rewrite Hsu. unfold ushort.
    rewrite <-(half_nat n). rewrite Z2Nat.id by (apply Z.div_pos; lia).
    apply Z.mod_small. split; [apply Z.div_pos; lia|].
    apply Z.div_lt_upper_bound; lia. }
  assert (leaf_fake_consolidate new_split
          = Ok (take (n / 2) ks, take (n / 2) vs)) as Hfold.
  { unfold new_split, SplitDelta_ctor.
    rewrite (leaf_fake_consolidate_step _ csn) by done. rewrite Hf.
    cbn [mbind result_bind leaf_apply_delta]. rewrite Hff.
    by rewrite !vec_resize_take by lia. }
  split; [|split].
  - split; [|split; [|split; [|split]]].
    + cbn [new_split SplitDelta_ctor leaf_chain_good hdr_of].
      split; [exact Hil|]. split.
      * exists (take (n / 2) ks), (take (n / 2) vs). split; [exact Hfold|].
        split; [by apply sorted_keys_take|].
        split; [by apply Forall_take|]. split.
        { apply Forall_forall. intros k Hkin.
          rewrite Forall_forall in Hbelow, Hrg.
          specialize (Hbelow k Hkin).
          assert (k ∈ ks) as Hkks.
          { apply elem_of_take in Hkin as (j & Hj & _).
            by eapply list_elem_of_lookup_2. }
          specialize (Hrg k Hkks). unfold key_in_node in *.
          apply andb_prop in Hrg as [Hlo _]. cbn. unfold ch.
          rewrite Hlo. cbn. exact Hbelow. }
        { rewrite length_take. fold n.
          rewrite Nat.min_l by lia. exact Hsu'. }
      * split; [done|]. cbn. done.
    + unfold range_ok. cbn. fold ch. intros Hlo _.
      destruct (lookup_lt_is_Some_2 ks 0) as [kf Hkf]; [fold n; lia|].
      assert (m_key_less kf k0 = true) as Hlt
        by (eapply (sorted_keys_lookup ks 0 (n / 2)); eauto; lia).
      rewrite Forall_forall in Hrg.
      assert (key_in_node kf ch = true) as Hkfr
        by (apply Hrg; by eapply list_elem_of_lookup_2).
      unfold key_in_node, key_greaterequal in Hkfr. rewrite Hlo in Hkfr.
      apply andb_prop in Hkfr as [Hge' _]. apply negb_true_iff in Hge'.
      destruct (m_key_less (low_key ch) k0) eqn:Hcmp; [done|].
      destruct (m_key_less k0 (low_key ch)) eqn:Hcmp2.
      * by rewrite (key_less_trans _ _ _ Hlt Hcmp2) in Hge'.
      * rewrite (key_less_total _ _ Hcmp Hcmp2) in Hge'. congruence.
    + right. cbn. done.
    + cbn [new_split SplitDelta_ctor chain_values]. destruct Hle as [_ Hle]. lia.
    + split.
      * rewrite Hsu'. fold ch in Hsl. lia.
      * intros Hu ks2 vs2 Hf2. rewrite Hfold in Hf2. injection Hf2 as <- <-.
        apply Forall_take. by eapply Hun.
  - unfold sig_of. cbn. fold ch. done.
  - cbn. exact Hil.
Qed.

(** ** The path [search] returns *)

Lemma good_shape (g : ghost KeyType) p (n : Node KeyType) :
  good g p n ->
  shape_ok (is_leaf (hdr_of n)) n /\
  sigs g p = Some (is_leaf (hdr_of n), inf_lowkey (hdr_of n), low_key (hdr_of n)).
Proof.
  intros (_ & Hs & Hg). split; [|done]. unfold shape_ok.
  destruct (is_leaf (hdr_of n)); [by destruct Hg|done].
Qed.

Lemma shape_ok_leaf_node b (n : Node KeyType) :
  shape_ok b n ->
  match n with
  | LeafNode _ _ _ | RecordDelta _ _ _ _ _ => b = true
  | InnerNode _ _ _ | IndexEntryDelta _ _ _ _ _ _ => b = false
  | SplitDelta _ _ _ nx => shape_ok b nx
  | _ => False
  end.
Proof.
  unfold shape_ok. destruct b, n; cbn; tauto.
Qed.

Lemma shape_ok_index_next (h : NodeHdr KeyType) Kp Kq iq pQ nx :
  shape_ok false (IndexEntryDelta h Kp Kq iq pQ nx) -> shape_ok false nx.
Proof. cbn. tauto. Qed.

(** Below the top of the path every page is an inner page; the top is a
    leaf page when the search succeeds. *)
Lemma search_node_kinds (g : ghost KeyType) (t : BWTreeState KeyType) key :
  Inv g t ->
  forall fuel node b top rest res path',
    (exists il lk, sigs g top = Some (b, il, lk)) ->
    shape_ok b node ->
    Forall (inner_page g) rest ->
    search_node fuel t node key (top :: rest) = Ok (res, path') ->
    res <> -1 ->
    exists top' rest',
      path' = top' :: rest' /\ leaf_page g top' /\ Forall (inner_page g) rest'.
Proof.
  intros HI. pose proof HI as (_ & Hlive & _).
  assert (forall p n rest fuel res path',
            (forall node b top rest res path',
                (exists il lk, sigs g top = Some (b, il, lk)) ->
                shape_ok b node ->
                Forall (inner_page g) rest ->
                search_node fuel t node key (top :: rest) = Ok (res, path') ->
                res <> -1 ->
                exists top' rest',
                  path' = top' :: rest' /\ leaf_page g top' /\
                  Forall (inner_page g) rest') ->
            mt_get (mapping_table t) p = Ok (Some n) ->
            Forall (inner_page g) rest ->
            search_node fuel t n key (p :: rest) = Ok (res, path') ->
            res <> -1 ->
            exists top' rest',
              path' = top' :: rest' /\ leaf_page g top' /\
              Forall (inner_page g) rest') as Hchild.
  { intros p n rest0 fuel res path' IH Hget Hrest Hs Hres.
    destruct (good_shape _ _ _ (Hlive _ _ Hget)) as [Hsh Hsig].
    eapply IH; eauto. }
  induction fuel as [|fuel IH];
    intros node b top rest res path' Htop Hsh Hrest Hs Hres; [done|].
  pose proof (shape_ok_leaf_node _ _ Hsh) as Hkind.
  cbn [search_node] in Hs.
  destruct node as [h sk sd|h sk cs|h op k v nx|h Kp pQ nx|h Kp Kq iq pQ nx
                   |h nx|h Kp o nx]; try done.
  - (* LeafNode *)
    apply bind_Ok in Hs as (p & _ & Hs). injection Hs as <- <-. subst b.
    destruct Htop as (il & lk & Ht). exists top, rest. split; [done|].
    split; [by exists il, lk|done].
  - (* InnerNode *)
    subst b.
    assert (Forall (inner_page g) (top :: rest)) as Hall.
    { constructor; [|done]. destruct Htop as (il & lk & Ht). by exists il, lk. }
    destruct (slotuse h =? 0).
    + apply bind_Ok in Hs as (c & _ & Hs).
      apply bind_Ok in Hs as (p & _ & Hs).
      destruct (p =? NULL_PID); [by injection Hs as <- <-|].
      apply bind_Ok in Hs as ([n|] & Hget & Hs);
        [|by injection Hs as <- <-].
      eapply (Hchild p n); eauto.
    + apply bind_Ok in Hs as (i & _ & Hs).
      apply bind_Ok in Hs as (c & _ & Hs).
      apply bind_Ok in Hs as (p & _ & Hs).
      apply bind_Ok in Hs as ([n|] & Hget & Hs);
        [|by injection Hs as <- <-].
      eapply (Hchild p n); eauto.
  - (* RecordDelta *)
    apply bind_Ok in Hs as (p & _ & Hs). injection Hs as <- <-. subst b.
    destruct Htop as (il & lk & Ht). exists top, rest. split; [done|].
    split; [by exists il, lk|done].
  - (* SplitDelta *)
    destruct (key_greaterequal key Kp false).
    + apply bind_Ok in Hs as ([n|] & Hget & Hs);
        [|by injection Hs as <- <-].
      cbn [stack_pop mbind result_bind] in Hs.
      eapply (Hchild pQ n); eauto.
    + eapply (IH nx b top rest); eauto.
  - (* IndexEntryDelta *)
    subst b.
    assert (Forall (inner_page g) (top :: rest)) as Hall.
    { constructor; [|done]. destruct Htop as (il & lk & Ht). by exists il, lk. }
    destruct (_ && _).
    + apply bind_Ok in Hs as ([n|] & Hget & Hs);
        [|by injection Hs as <- <-].
      eapply (Hchild pQ n); eauto.
    + eapply (IH nx false top rest); eauto. by eapply shape_ok_index_next.
Qed.

Lemma search_kinds (g : ghost KeyType) (t : BWTreeState KeyType) key fuel p path :
  Inv g t ->
  search fuel t p key = Ok path ->
  path = [] \/
  exists top rest,
    path = top :: rest /\ leaf_page g top /\ Forall (inner_page g) rest.
Proof.
  intros HI Hs. unfold search in Hs.
  apply bind_Ok in Hs as ([node|] & Hget & Hs); [|injection Hs as <-; by left].
  apply bind_Ok in Hs as ([res path'] & Hsn & Hs).
  destruct (res =? -1) eqn:Hres; injection Hs as <-; [by left|right].
  apply Z.eqb_neq in Hres.
  pose proof HI as (_ & Hlive & _).
  destruct (good_shape _ _ _ (Hlive _ _ Hget)) as [Hsh Hsig].
  eapply (search_node_kinds g t key HI fuel node); eauto.
Qed.

(** What is left of the path after the visited pages are popped. *)
Lemma pop_visited_drop vs : forall path path',
  pop_visited vs path = Ok path' ->
  path' = drop (length vs) path /\ (length vs <= length path)%nat.
Proof.
  induction vs as [|v vs IH]; intros path path' Hp; cbn [pop_visited] in Hp.
  { injection Hp as <-. split; [done|cbn; lia]. }
  destruct path as [|top path]; [done|]. cbn [stack_top mbind result_bind] in Hp.
  destruct (v =? top); [|done]. cbn [stack_pop mbind result_bind] in Hp.
  apply IH in Hp as [-> Hl]. split; [done|cbn; lia].
Qed.

(** *** Consolidation *)

Lemma need_split_assign_pid p (n : Node KeyType) :
  need_split (hdr_of (assign_pid p n)) = need_split (hdr_of n).
Proof. by destruct n. Qed.

Lemma is_leaf_assign_pid p (n : Node KeyType) :
  is_leaf (hdr_of (assign_pid p n)) = is_leaf (hdr_of n).
Proof. by destruct n. Qed.

Lemma kp_consolidate_leaf (g : ghost KeyType) p (orinode : Node KeyType) :
  good g p orinode -> is_leaf (hdr_of orinode) = true ->
  need_split (hdr_of orinode) = false ->
  kp g (consolidate_leaf p orinode) (fun g' r => settled g' p r).
Proof.
  intros Hg Hil Hns. unfold consolidate_leaf.
  apply kp_bind_alloc. intros a.
  assert (good (ghost_alloc g) p orinode) as (Hpid & Hsig & Hgood)
    by (eapply good_mono; [apply ghost_le_alloc|done]).
  rewrite Hil in Hgood.
  sstep. intros [keys vals] Hf.
  destruct (_ || _) eqn:Hc; [apply kp_fail|].
  apply orb_false_elim in Hc as [_ Hmax%Z.ltb_ge].
  sstep. intros [sk sd] Hfill.
  destruct (leaf_good_consolidated (ghost_alloc g) orinode a keys vals sk sd
              Hgood Hf Hmax Hfill) as (Hnew & Hsigeq & Hil' & Hsu').
  set (new_leaf := LeafNode _ sk sd) in *.
  assert (good_new (ghost_alloc g) p new_leaf) as Hgn.
  { split; [by rewrite Hsigeq|]. by rewrite Hil'. }
  eapply kp_bind_s; [by apply kps_table_set|].
  intros [] _; [|by apply kp_ret].
  sstep. intros _ _. apply kp_ret. split; [by apply good_assign|].
  intros _. rewrite need_split_assign_pid.
  unfold need_split in *. rewrite Hil', Hsu'. by rewrite Hil in Hns.
Qed.

Lemma kp_consolidate_inner (g : ghost KeyType) p (orinode : Node KeyType) :
  good g p orinode -> is_leaf (hdr_of orinode) = false ->
  kp g (consolidate_inner p orinode) (fun g' r => settled g' p r).
Proof.
  intros Hg Hil. unfold consolidate_inner.
  apply kp_bind_alloc. intros a.
  assert (good (ghost_alloc g) p orinode) as (Hpid & Hsig & Hgood)
    by (eapply good_mono; [apply ghost_le_alloc|done]).
  sstep. intros [keys childs] Hf.
  destruct (_ || _) eqn:Hc; [apply kp_fail|].
  sstep. intros [sk cs] Hfill. sstep. intros c _. sstep. intros cs' _.
  set (new_inner := InnerNode _ sk cs') in *.
  assert (good_new (ghost_alloc g) p new_inner) as Hgn.
  { split; [|done]. rewrite Hsig. unfold sig_of. cbn. by rewrite Hil. }
  eapply kp_bind_s; [by apply kps_table_set|].
  intros [] _; [|by apply kp_ret].
  sstep. intros _ _. apply kp_ret. split; [by apply good_assign|].
  rewrite is_leaf_assign_pid. done.
Qed.

Lemma kp_consolidate_loop (g : ghost KeyType) fuel p : forall orinode,
  good g p orinode ->
  (is_leaf (hdr_of orinode) = true -> need_split (hdr_of orinode) = false) ->
  kp g (consolidate_loop fuel p orinode) (fun g' r => settled g' p r).
Proof.
  revert g. induction fuel as [|fuel IH]; intros g orinode Hg Hns;
    cbn [consolidate_loop]; [apply kp_fail|].
  destruct (_ <? _); [|by apply kp_ret].
  eapply kp_bind.
  { destruct (is_leaf (hdr_of orinode)) eqn:Hil;
      [apply kp_consolidate_leaf; auto|by apply kp_consolidate_inner]. }
  intros g1 [node|] Hle Hn; [by apply kp_ret|].
  sstep. intros q Hq. sstep. intros n ->%deref_Ok. cbn in Hq.
  destruct (need_split (hdr_of n)) eqn:Hns'; [by apply kp_ret|].
  apply IH; auto.
Qed.

Lemma kp_consolidate (g : ghost KeyType) fuel p :
  kp g (consolidate fuel p) (fun g' r => settled g' p r).
Proof.
  unfold consolidate. sstep. intros q Hq. sstep. intros n ->%deref_Ok.
  cbn in Hq.
  destruct (need_split (hdr_of n)) eqn:Hns; [apply kp_fail|].
  by apply kp_consolidate_loop.
Qed.

(** *** The new sibling *)

Lemma kp_create_leaf (g : ghost KeyType) (csn : Node KeyType) :
  leaf_good g csn -> need_split (hdr_of csn) = true ->
  kp g (create_leaf csn)
     (fun g' r =>
        sigs g' r.1 = Some (true, false, r.2) /\
        exists ks vs,
          leaf_fake_consolidate csn = Ok (ks, vs) /\
          ks !! (length ks / 2)%nat = Some r.2 /\
          Z.of_nat (length ks) <= 2 * (leafslotmax + 1)).
Proof.
  intros Hg Hns. unfold create_leaf.
  apply kp_bind_alloc. intros a.
  assert (leaf_good (ghost_alloc g) csn) as Hg1
    by (eapply leaf_good_mono; [apply ghost_le_alloc|done]).
  sstep. intros [keys vals] Hf.
  sstep. intros [sk sd] Hfill. sstep. intros k0 Hk0.
  destruct (leaf_good_sibling (ghost_alloc g) csn a keys vals sk sd k0
              Hg1 Hns Hf Hfill Hk0) as (Hnew & Hpiv & Hbound).
  eapply kp_bind; [by apply kp_table_add|].
  intros g2 q Hle [Hsig _].
  destruct (q =? NULL_PID); [apply kp_fail|].
  apply kp_ret. cbn [fst snd]. split; [exact Hsig|]. eauto.
Qed.

Lemma kp_create_inner (g : ghost KeyType) (csn : Node KeyType) :
  kp g (create_inner csn) (fun g' r => inner_page g' r.1).
Proof.
  unfold create_inner.
  apply kp_bind_alloc. intros a.
  sstep. intros [keys childs] Hf. sstep. intros cs _.
  sstep. intros [sk cs'] Hfill. sstep. intros k0 Hk0.
  eapply kp_bind; [by apply kp_table_add|].
  intros g2 q Hle [Hsig _].
  destruct (q =? NULL_PID); [apply kp_fail|].
  apply kp_ret. cbn [fst]. eexists _, _. exact Hsig.
Qed.

(** *** Split *)

Lemma inner_good_SplitDelta (g : ghost KeyType) p a (csn : Node KeyType) Kp pQ nl hk :
  good g p csn -> is_leaf (hdr_of csn) = false ->
  good_new g p (SplitDelta_ctor a csn Kp pQ nl (low_key (hdr_of csn)) hk
                                (inf_lowkey (hdr_of csn)) false).
Proof.
  intros (_ & Hsig & Hgood) Hil. rewrite Hil in Hgood.
  unfold good_new, SplitDelta_ctor, sig_of. cbn [hdr_of].
  cbn [prepend set_slotuse Node_ctor is_leaf inf_lowkey low_key].
  rewrite Hil. split; [by rewrite Hsig; unfold sig_of; rewrite Hil|].
  cbn [inner_shape hdr_of is_leaf]. done.
Qed.

Lemma inner_good_IndexEntryDelta (g : ghost KeyType) p a (csn : Node KeyType)
    Kp Kq iq pQ :
  good g p csn -> is_leaf (hdr_of csn) = false ->
  good_new g p
    (IndexEntryDelta_ctor a csn Kp Kq iq pQ (next_leafnode (hdr_of csn))
       (low_key (hdr_of csn)) (high_key (hdr_of csn))
       (inf_lowkey (hdr_of csn)) (inf_highkey (hdr_of csn))).
Proof.
  intros (_ & Hsig & Hgood) Hil. rewrite Hil in Hgood.
  unfold good_new, IndexEntryDelta_ctor, sig_of. cbn [hdr_of].
  cbn [prepend set_slotuse Node_ctor is_leaf inf_lowkey low_key].
  rewrite Hil. split; [by rewrite Hsig; unfold sig_of; rewrite Hil|].
  cbn [inner_shape hdr_of is_leaf]. done.
Qed.

Lemma kp_split_step1 (g : ghost KeyType) p (csn : Node KeyType) :
  good g p csn -> need_split (hdr_of csn) = true ->
  kp g (split_step1 p csn) (fun _ _ => True).
Proof.
  intros Hg Hns. unfold split_step1.
  destruct (is_leaf (hdr_of csn)) eqn:Hil.
  - pose proof Hg as (Hpid & Hsig & Hgood). rewrite Hil in Hgood.
    eapply kp_bind; [by apply kp_create_leaf|].
    intros g1 [q k0] Hle1 (Hq & ks & vs & Hf & Hpiv & Hbound).
    cbn [fst snd] in *.
    sstep. intros r Hr. sstep. intros new_node ->%deref_Ok. cbn in Hr.
    apply kp_bind_alloc. intros a.
    assert (low_key (hdr_of new_node) = k0) as ->.
    { destruct Hr as (_ & Hs & _). rewrite Hq in Hs. unfold sig_of in Hs.
      by injection Hs. }
    assert (ghost_le g (ghost_alloc g1)) as Hle2
      by (eapply ghost_le_trans; [done|apply ghost_le_alloc]).
    destruct (leaf_good_split g (ghost_alloc g1) csn a q ks vs k0
                Hle2 Hgood Hns Hf Hpiv Hbound Hq) as (Hnew & Hsigeq & Hil').
    eapply kp_bind_s.
    { apply kps_table_set. cbn [from_option]. split.
      - rewrite Hsigeq. by apply Hle2.
      - by rewrite Hil'. }
    intros ok _. by apply kp_ret.
  - pose proof Hg as (Hpid & Hsig & Hgood). rewrite Hil in Hgood.
    eapply kp_bind; [by apply kp_create_inner|].
    intros g1 [q k0] Hle1 Hq. cbn [fst snd] in *.
    sstep. intros r Hr. sstep. intros new_node ->%deref_Ok.
    apply kp_bind_alloc. intros a.
    assert (ghost_le g (ghost_alloc g1)) as Hle2
      by (eapply ghost_le_trans; [done|apply ghost_le_alloc]).
    eapply kp_bind_s.
    { apply kps_table_set. cbn [from_option].
      apply inner_good_SplitDelta; [|done]. by eapply good_mono. }
    intros ok _. by apply kp_ret.
Qed.

Lemma kps_create_root_cas (g : ghost KeyType) fuel : forall i cur_root new_root_pid,
  kps g (create_root_cas (KeyType:=KeyType) fuel i cur_root new_root_pid)
      (fun _ => True).
Proof.
  induction fuel as [|fuel IH]; intros i cur_root new_root_pid;
    cbn [create_root_cas]; [apply kps_fail|].
  eapply kps_bind; [apply (kps_read _ _ (fun _ => True)); done|].
  intros r _. destruct (_ =? _); [apply kps_set_root|].
  destruct (_ <? _); [apply IH|apply kps_fail].
Qed.

Lemma kp_create_root (g : ghost KeyType) cur_root new_node_pid (pivotal : KeyType) :
  kp g (create_root cur_root new_node_pid pivotal) (fun _ _ => True).
Proof.
  unfold create_root. apply kp_bind_alloc. intros a.
  sstep. intros sk _. sstep. intros cs _. sstep. intros cs' _.
  eapply kp_bind; [by apply kp_table_add|].
  intros g2 q Hle _. destruct (_ =? _); [apply kp_fail|].
  sstep. intros _ _.
  eapply kp_weaken; [apply kp_of_kps, kps_create_root_cas|done].
Qed.

Lemma inner_page_good (g : ghost KeyType) p (n : Node KeyType) :
  inner_page g p -> good g p n -> is_leaf (hdr_of n) = false.
Proof.
  intros (il & lk & Hp) (_ & Hs & _). rewrite Hp in Hs. unfold sig_of in Hs.
  by injection Hs.
Qed.

Lemma leaf_page_good (g : ghost KeyType) p (n : Node KeyType) :
  leaf_page g p -> good g p n -> is_leaf (hdr_of n) = true.
Proof.
  intros (il & lk & Hp) (_ & Hs & _). rewrite Hp in Hs. unfold sig_of in Hs.
  by injection Hs.
Qed.

Lemma kps_find_parent_loop (g : ghost KeyType) fuel key visited_nodes :
  visited_nodes <> [] ->
  forall path parent_node,
    parent_ok g (parent_node, path) ->
    kps g (find_parent_loop fuel key path visited_nodes parent_node)
        (parent_ok g).
Proof.
  intros Hv. induction fuel as [|fuel IH]; intros path parent_node Hp;
    cbn [find_parent_loop]; [apply kps_fail|].
  destruct (negb _); [|by apply kps_ret].
  eapply kps_bind; [apply (kps_read _ _ (fun _ => True)); done|]. intros r _.
  eapply kps_bind.
  { apply (kps_read _ _ (fun path =>
       path = [] \/
       exists top rest,
         path = top :: rest /\ leaf_page g top /\ Forall (inner_page g) rest)).
    intros t path1 HI Hs. by eapply search_kinds. }
  intros path1 Hk. pstep. intros path2 Hpop.
  pstep. intros parent_pid Htop. pstep. intros q Hq.
  pstep. intros n ->%deref_Ok. cbn in Hq.
  apply pop_visited_drop in Hpop as [-> Hlen].
  rewrite length_reverse in Hlen, Htop |- *.
  assert (Forall (inner_page g) (drop (length visited_nodes) path1)) as Hall.
  { destruct Hk as [->|(top & rest & -> & _ & Hrest)]; [by rewrite drop_nil|].
    destruct visited_nodes as [|v vs]; [done|]. cbn [length drop].
    by apply Forall_drop. }
  apply IH. split; [by exists parent_pid|]. cbn [fst snd]. split; [|done].
  revert Htop Hall. generalize (drop (length visited_nodes) path1).
  intros [|top rest] Htop Hall; cbn in Htop; [done|].
  injection Htop as <-. apply Forall_cons in Hall as [Hi _].
  by eapply inner_page_good.
Qed.

Lemma kps_find_parent (g : ghost KeyType) fuel key path visited_nodes :
  visited_nodes <> [] -> Forall (inner_page g) path ->
  kps g (find_parent fuel key path visited_nodes) (parent_ok g).
Proof.
  intros Hv Hpath. unfold find_parent.
  pstep. intros parent_pid Htop. pstep. intros q Hq.
  pstep. intros n ->%deref_Ok. cbn in Hq.
  apply kps_find_parent_loop; [done|].
  split; [by exists parent_pid|]. cbn [fst snd]. split; [|done].
  destruct path as [|top rest]; cbn in Htop; [done|].
  injection Htop as <-. apply Forall_cons in Hpath as [Hi _].
  by eapply inner_page_good.
Qed.

Lemma kp_split_index_entry (g : ghost KeyType) fuel key visited_nodes Kp pQ
    new_node :
  visited_nodes <> [] ->
  forall path,
    Forall (inner_page g) path ->
    kp g (split_index_entry fuel key path visited_nodes Kp pQ new_node)
       (fun g' r => Forall (inner_page g') r.2).
Proof.
  intros Hv. revert g. induction fuel as [|fuel IH]; intros g path Hpath;
    cbn [split_index_entry]; [apply kp_fail|].
  eapply kp_bind_s; [by apply kps_find_parent|].
  intros [csn path1] ((p & Hg) & Hil & Hpath1). cbn [fst snd] in *.
  sstep. intros check_split_pid Hpid%deref_Ok.
  assert (check_split_pid = p) as ->.
  { destruct Hg as (Hp & _). rewrite Hp in Hpid. by injection Hpid. }
  apply kp_bind_alloc. intros a.
  assert (good (ghost_alloc g) p csn) as Hg'
    by (eapply good_mono; [apply ghost_le_alloc|done]).
  assert (Forall (inner_page (ghost_alloc g)) path1) as Hpath2.
  { eapply Forall_impl; [exact Hpath1|]. intros q.
    apply inner_page_mono, ghost_le_alloc. }
  eapply kp_bind_s.
  { apply kps_table_set. cbn [from_option].
    by apply inner_good_IndexEntryDelta. }
  intros [] _.
  - sstep. intros path2 Hpop. apply kp_ret. cbn [snd].
    destruct path1 as [|top rest]; cbn in Hpop; [done|]. injection Hpop as <-.
    by apply Forall_cons in Hpath2 as [_ ?].
  - sstep. intros _ _. by apply IH.
Qed.

Lemma kp_split_loop (g : ghost KeyType) fuel key :
  forall path visited_nodes check_split_pid check_split_node,
    Forall (inner_page g) path ->
    opt_good g check_split_pid check_split_node ->
    kp g (split_loop fuel key path visited_nodes check_split_pid
                     check_split_node) (fun _ _ => True).
Proof.
  revert g. induction fuel as [|fuel IH];
    intros g path visited_nodes p check_split_node Hpath Hc;
    cbn [split_loop]; [apply kp_fail|].
  sstep. intros csn ->%deref_Ok. cbn in Hc.
  destruct (need_split (hdr_of csn)) eqn:Hns; [|by apply kp_ret].
  eapply kp_bind; [by apply kp_split_step1|].
  intros g1 [[[ok new_node_pid] pivotal] new_node] Hle1 _.
  assert (Forall (inner_page g1) path) as Hpath1.
  { eapply Forall_impl; [exact Hpath|]. intros q. by apply inner_page_mono. }
  destruct ok; cbn [negb].
  - eapply kp_bind; [apply kp_consolidate|]. intros g2 _ Hle2 _.
    assert (Forall (inner_page g2) path) as Hpath2.
    { eapply Forall_impl; [exact Hpath1|]. intros q. by apply inner_page_mono. }
    destruct path as [|p0 path]; [apply kp_create_root|].
    eapply kp_bind.
    { apply kp_split_index_entry; [|done]. by destruct visited_nodes. }
    intros g3 [p' path'] Hle3 Hpath3. cbn [snd] in Hpath3.
    sstep. intros q Hq. sstep. intros csn' Hcsn.
    destruct (negb _).
    + eapply kp_bind; [apply kp_consolidate|]. intros g4 _ _ _.
      by apply kp_ret.
    + by apply IH.
  - sstep. intros old_ptr _.
    eapply kp_bind_s; [by apply kps_table_set|]. intros ok' _.
    destruct (negb ok'); [apply kp_fail|].
    sstep. intros q Hq. by apply IH.
Qed.

Lemma kps_search_root (g : ghost KeyType) fuel key r :
  kps g (read (fun t => search fuel t r key))
      (fun path =>
         path = [] \/
         exists top rest,
           path = top :: rest /\ leaf_page g top /\ Forall (inner_page g) rest).
Proof. apply kps_read. intros t path HI Hs. by eapply search_kinds. Qed.

Lemma kp_split (g : ghost KeyType) fuel key :
  kp g (split fuel key) (fun _ _ => True).
Proof.
  unfold split.
  eapply kp_bind_s; [apply (kps_read _ _ (fun _ => True)); done|]. intros r _.
  eapply kp_bind_s; [apply kps_search_root|]. intros path Hk.
  sstep. intros p Htop. sstep. intros path' Hpop. sstep. intros q Hq.
  apply kp_split_loop; [|done].
  destruct Hk as [->|(top & rest & -> & _ & Hrest)]; cbn in Hpop; [done|].
  by injection Hpop as <-.
Qed.

(** The page [locate_leaf] returns is a leaf page; its head, when there
    is one, is good and needs no split. *)
Lemma kp_locate_leaf (g : ghost KeyType) fuel key :
  kp g (locate_leaf fuel key)
     (fun g' r =>
        from_option
          (fun n => good g' r.1 n /\ is_leaf (hdr_of n) = true /\
                    need_split (hdr_of n) = false)
          True r.2).
Proof.
  unfold locate_leaf.
  eapply kp_bind; [apply kp_split|]. intros g1 _ Hle1 _.
  eapply kp_bind_s; [apply (kps_read _ _ (fun _ => True)); done|]. intros r _.
  eapply kp_bind_s; [apply kps_search_root|]. intros path Hk.
  sstep. intros p Htop.
  assert (leaf_page g1 p) as Hp.
  { destruct Hk as [->|(top & rest & -> & Hl & _)]; cbn in Htop; [done|].
    by injection Htop as <-. }
  eapply kp_bind; [apply kp_consolidate|]. intros g2 [n|] Hle2 Hs;
    apply kp_ret; [|done].
  cbn [snd fst from_option]. destruct Hs as [Hg Hns].
  assert (is_leaf (hdr_of n) = true) as Hil.
  { eapply leaf_page_good; [|done]. by eapply leaf_page_mono. }
  auto.
Qed.

(** *** Insert and delete *)

Lemma kp_insert_entry (g : ghost KeyType) fuel key value :
  kp g (insert_entry fuel key value) (fun _ _ => True).
Proof.
  revert g. induction fuel as [|fuel IH]; intros g; cbn [insert_entry];
    [apply kp_fail|].
  eapply kp_bind; [apply kp_locate_leaf|].
  intros g1 [p [bn|]] Hle1 Hb; cbn in Hb; [|apply IH].
  destruct Hb as (Hg & Hil & Hns).
  destruct (negb (key_in_node key (hdr_of bn))) eqn:Hin; [apply IH|].
  apply negb_false_iff in Hin.
  sstep. intros dup Hdup.
  destruct (_ && _) eqn:Hud; [by apply kp_ret|].
  apply kp_bind_alloc. intros a.
  pose proof Hg as (Hpid & Hsig & Hgood). rewrite Hil in Hgood.
  destruct (leaf_good_insert g1 (ghost_alloc g1) a p bn key value dup)
    as (Hnew & Hsigeq & Hil'); [apply ghost_le_alloc|cbn; lia|done..|].
  eapply kp_bind_s.
  { apply kps_table_set. cbn [from_option]. split.
    - by rewrite Hsigeq.
    - by rewrite Hil'. }
  intros [] _; [by apply kp_ret|apply IH].
Qed.

(** [delete_entry] counts the values of the key in an [int]: the
    invariant is kept while the addresses handed out stay below
    [INT_MAX]. *)
Lemma delete_entry_Inv fuel key value : forall (g : ghost KeyType) t b t',
  Inv g t -> delete_entry fuel key value t = Ok (b, t') ->
  brk t' <= INT_MAX ->
  exists g', ghost_le g g' /\ Inv g' t'.
Proof.
  induction fuel as [|fuel IH]; intros g t b t' HI Hd Hb;
    cbn [delete_entry] in Hd; [done|].
  apply bindM_Ok in Hd as ([p bno] & t1 & Hloc & Hd).
  destruct (kp_locate_leaf g fuel key _ _ _ HI Hloc)
    as (g1 & Hle1 & HI1 & Hpost).
  assert (forall g2 t2,
            ghost_le g1 g2 -> Inv g2 t2 ->
            delete_entry fuel key value t2 = Ok (b, t') ->
            exists g', ghost_le g g' /\ Inv g' t') as Hrec.
  { intros g2 t2 Hle2 HI2 Hd2.
    destruct (IH g2 t2 b t' HI2 Hd2 Hb) as (g' & Hle' & HI').
    exists g'. split; [|done].
    eapply ghost_le_trans; [done|]. by eapply ghost_le_trans. }
  apply bindM_Ok in Hd as (bn & t1' & Hbn & Hd).
  apply lift_Ok in Hbn as [->%deref_Ok ->].
  cbn in Hpost. destruct Hpost as (Hg & Hil & Hns).
  destruct (negb (key_in_node key (hdr_of bn))) eqn:Hin.
  { apply (Hrec g1 t1); [apply ghost_le_refl|done..]. }
  apply negb_false_iff in Hin.
  apply bindM_Ok in Hd as (tv & t1' & Hcp & Hd).
  apply lift_Ok in Hcp as [Hcp ->].
  destruct (tv.2 =? 0) eqn:Hz.
  { apply ret_Ok in Hd as [-> ->]. by exists g1. }
  apply Z.eqb_neq in Hz.
  destruct (tv.1 <? tv.2) eqn:Hlt; [done|].
  apply bindM_Ok in Hd as (ok & t2 & Had & Hd).
  unfold append_delete in Had. cbv zeta in Had.
  apply bindM_Ok in Had as (a & ta & Ha & Had).
  apply alloc_Ok in Ha as [-> ->].
  apply bindM_Ok in Had as (p' & tb & Hp' & Had).
  apply lift_Ok in Hp' as [Hp'%deref_Ok ->].
  pose proof (Inv_alloc _ _ HI1) as HIa.
  destruct ok.
  - apply ret_Ok in Hd as [-> ->].
    pose proof Hg as (Hpid & Hsig & Hgood). rewrite Hil in Hgood.
    assert (p' = p) as -> by congruence.
    pose proof (hdr_of_delete_delta (brk t1) bn key value (tv.2 =? tv.1)) as Hh.
    cbv zeta in Hh. destruct Hh as (h & Heq & Hslot & Hsr & Hnl & Hil').
    rewrite Heq in Had.
    assert (brk t1 + 1 <= INT_MAX) as Hbound.
    { pose proof Had as Had'.
      apply table_set_Ok in Had' as (mt' & _ & ->). exact Hb. }
    destruct HI1 as (_ & _ & _ & _ & Hcap & _).
    destruct (leaf_good_delete g1 (ghost_alloc g1) bn key value tv h
                (tv.2 =? tv.1))
      as (Hnew & Hsigeq); [apply ghost_le_alloc|cbn; lia|done|done|done| |
                           done|done|done|done|done|done|done|].
    { destruct Hgood as (_ & _ & _ & Hv & _). lia. }
    assert (good_new (ghost_alloc g1) p (RecordDelta h DELETE key value bn))
      as Hgn.
    { split; [cbn [hdr_of]; by rewrite Hsigeq|].
      cbn [hdr_of]. rewrite Hil', Hil. exact Hnew. }
    destruct (kps_table_set (ghost_alloc g1) p (Some bn)
                (Some (RecordDelta h DELETE key value bn)) Hgn _ _ _ HIa Had)
      as [HI2 _].
    exists (ghost_alloc g1). split; [|done].
    eapply ghost_le_trans; [done|apply ghost_le_alloc].
  - pose proof Had as Had'.
    apply table_set_Ok in Had' as (mt' & Hs & ->).
    apply mt_set_false in Hs as ->.
    apply (Hrec (ghost_alloc g1) _ (ghost_le_alloc _) HIa Hd).
Qed.

(** *** The constructor *)

Lemma mt_get_ctor p (n : Node KeyType) :
  mt_get MappingTable_ctor p <> Ok (Some n).
Proof.
  unfold mt_get. destruct (p =? NULL_PID); [done|].
  intros Hg. apply bind_Ok in Hg as (blk & Hblk & Hg).
  apply at_idx_Ok in Hblk as [_ Hblk]. cbn [MappingTable_ctor mappingtable_1] in Hblk.
  apply lookup_replicate in Hblk as [-> _]. done.
Qed.

Lemma Inv_ctor (t : BWTreeState KeyType) :
  BWTree_ctor = Ok t -> exists g, Inv g t.
Proof.
  unfold BWTree_ctor. intros Hc.
  apply bind_Ok in Hc as ([newpid mt] & Ha & Hc).
  destruct (0 <=? newpid); [|discriminate]. injection Hc as <-.
  set (leaf := LeafNode_ctor 1 NULL_PID waste waste true true) in *.
  destruct (mt_add_spec MappingTable_ctor (Some leaf))
    as (mt' & Ha' & Hsh & Hnp & Hget & Hother); [done|done|].
  rewrite Ha in Ha'. injection Ha' as -> <-.
  cbn [MappingTable_ctor nextPid] in *.
  set (g := mkGhost (KeyType:=KeyType)
              (fun p => if decide (p = 0) then Some (true, true, waste) else None) 2).
  assert (leaf_good g leaf) as Hleaf.
  { assert (leaf_fake_consolidate leaf = Ok ([], [])) as Hfold by done.
    split; [|split; [|split; [|split]]].
    - cbn [leaf leaf_chain_good LeafNode_ctor]. split; [done|]. split; [|done].
      exists [], []. split; [done|]. split; [done|]. split; [done|].
      split; [done|]. done.
    - intros Hlo. done.
    - by left.
    - cbn [leaf LeafNode_ctor chain_values]. unfold LeafNode_slotdata.
      rewrite sum_slot_values_none. cbn. lia.
    - split.
      + pose proof leafslotmax_bounds. cbn. lia.
      + intros _ ks vs Hf. rewrite Hfold in Hf. by injection Hf as <- <-. }
  exists g. split; [done|]. split.
  { intros p n Hp. cbn [mapping_table] in Hp.
    destruct (decide (p = 0)) as [->|Hne].
    - rewrite Hget in Hp. injection Hp as <-. apply (good_assign g 0 leaf).
      split; [done|]. exact Hleaf.
    - rewrite (Hother p Hne) in Hp. by apply mt_get_ctor in Hp. }
  cbn [mapping_table brk headleaf]. rewrite Hnp. split.
  { intros p s Hp. cbn in Hp. destruct (decide (p = 0)); [lia|done]. }
  split; [done|]. split; [done|]. by exists true, waste.
Qed.

(** *** Reachable states *)

Lemma reachable_Inv (t : BWTreeState KeyType) :
  reachable_within INT_MAX t -> exists g, Inv g t.
Proof.
  induction 1 as [t Hc|fuel key value t b t' _ [g HI] Hi Hb
                 |fuel key value t b t' _ [g HI] Hd Hb].
  - by apply Inv_ctor.
  - destruct (kp_insert_entry g fuel key value _ _ _ HI Hi) as (g' & _ & HI' & _).
    by exists g'.
  - destruct (delete_entry_Inv fuel key value g _ _ _ HI Hd Hb) as (g' & _ & HI').
    by exists g'.
Qed.

(** ** What holds in every reachable state *)

Lemma reachable_within_brk B (t : BWTreeState KeyType) :
  2 <= B -> reachable_within B t -> brk t <= B.
Proof.
  intros HB Hr. destruct Hr as [t Hc| |]; [|done..].
  unfold BWTree_ctor in Hc. apply bind_Ok in Hc as ([newpid mt] & _ & Hc).
  destruct (0 <=? newpid); [|discriminate]. injection Hc as <-. exact HB.
Qed.

Lemma link_ok_sibling (g : ghost KeyType) (t : BWTreeState KeyType) p n m :
  Inv g t ->
  good g p n -> is_leaf (hdr_of n) = true ->
  mt_get (mapping_table t) (next_leafnode (hdr_of n)) = Ok (Some m) ->
  good g (next_leafnode (hdr_of n)) m /\
  inf_highkey (hdr_of n) = false /\
  sig_of (hdr_of m) = (true, false, high_key (hdr_of n)).
Proof.
  intros (_ & Hlive & _) Hg Hil Hm.
  destruct (good_leaf_inv _ _ _ Hg Hil) as (_ & _ & _ & [Hnull|[Hih Hs]]).
  { rewrite Hnull, mt_get_NULL_PID in Hm. done. }
  pose proof (Hlive _ _ Hm) as Hgm. split; [done|]. split; [done|].
  destruct Hgm as (_ & Hsm & _). rewrite Hs in Hsm. congruence.
Qed.

Lemma scan_loop_nonempty (g : ghost KeyType) (t : BWTreeState KeyType) :
  Inv g t ->
  forall fuel node ks0 vs0 ks vs,
    from_option (fun n => exists p, good g p n /\ is_leaf (hdr_of n) = true)
                True node ->
    Forall (fun v => v <> []) vs0 ->
    scan_loop fuel t node ks0 vs0 = Ok (ks, vs) ->
    Forall (fun v => v <> []) vs.
Proof.
  intros HI. induction fuel as [|fuel IH];
    intros node ks0 vs0 ks vs Hn Hne Hs; [done|].
  cbn [scan_loop] in Hs. destruct node as [n|]; [|by simplify_eq].
  cbn in Hn. destruct Hn as (p & Hg & Hil).
  apply bind_Ok in Hs as ([keys values] & Hf & Hs).
  apply bind_Ok in Hs as (nx & Hnx & Hs).
  destruct (good_leaf_inv _ _ _ Hg Hil) as (_ & (ks' & vs' & Hf' & _ & Hne' & _) & _).
  rewrite Hf in Hf'. injection Hf' as <- <-.
  eapply (IH nx (ks0 ++ keys) (vs0 ++ values)); [|by apply Forall_app|exact Hs].
  destruct nx as [m|]; [|done]. cbn.
  destruct (link_ok_sibling g t p n m HI Hg Hil Hnx) as (Hgm & _ & Hsm).
  exists (next_leafnode (hdr_of n)). split; [done|].
  unfold sig_of in Hsm. by injection Hsm.
Qed.

Lemma leaf_chain_good_nodes (n D : Node KeyType) :
  leaf_chain_good n -> D ∈ chain_to_base n ->
  is_leaf (hdr_of D) = true /\
  match D with
  | LeafNode _ _ _ | SplitDelta _ _ _ _ => True
  | RecordDelta _ op _ _ _ => op <> UPDATE
  | _ => False
  end.
Proof.
  induction n as [h sk sd| |h op k v nx IH|h Kp pQ nx IH| | |];
    intros Hg HD; cbn [leaf_chain_good] in Hg; try (by destruct Hg as (_ & _ & [])).
  - cbn in HD. apply list_elem_of_singleton in HD as ->. by destruct Hg.
  - cbn [chain_to_base] in HD. apply elem_of_cons in HD as [->|HD].
    + destruct Hg as (? & _ & _ & _ & ?). done.
    + apply IH; [|done]. by destruct Hg as (_ & _ & ? & _).
  - cbn [chain_to_base] in HD. apply elem_of_cons in HD as [->|HD].
    + by destruct Hg.
    + apply IH; [|done]. by destruct Hg as (_ & _ & ? & _).
Qed.

Lemma inner_shape_nodes (n D : Node KeyType) :
  inner_shape n -> D ∈ chain_to_base n ->
  is_leaf (hdr_of D) = false /\
  match D with
  | InnerNode _ _ _ | SplitDelta _ _ _ _ | IndexEntryDelta _ _ _ _ _ _ => True
  | _ => False
  end.
Proof.
  induction n as [|h sk cs| |h Kp pQ nx IH|h Kp Kq iq pQ nx IH| |];
    intros Hg HD; cbn [inner_shape] in Hg; try (by destruct Hg as (_ & [])).
  - cbn in HD. apply list_elem_of_singleton in HD as ->. by destruct Hg.
  - cbn [chain_to_base] in HD. apply elem_of_cons in HD as [->|HD].
    + by destruct Hg.
    + apply IH; [|done]. by destruct Hg.
  - cbn [chain_to_base] in HD. apply elem_of_cons in HD as [->|HD].
    + by destruct Hg.
    + apply IH; [|done]. by destruct Hg.
Qed.

(** X15: in every state the writers reach from the constructor's while
    at most [INT_MAX] addresses have been handed out, [scan] with fuel for
    two more steps than PIDs have been allocated returns the keys in
    strictly ascending order, each with a non-empty vector of values, and
    [scan_all] returns these vectors one after the other. *)
Theorem scan_ascending (t : BWTreeState KeyType) fuel :
  reachable_within INT_MAX t ->
  (Z.to_nat (nextPid (mapping_table t)) + 2 <= fuel)%nat ->
  exists ks vs,
    scan fuel t [] [] = Ok (ks, vs) /\
    sorted_keys ks = true /\
    length ks = length vs /\
    Forall (fun v => v <> []) vs /\
    scan_all fuel t [] = Ok (concat vs).
Proof.
  intros Hr Hfuel. destruct (reachable_Inv t Hr) as [g HI].
  destruct (scan_sorted_inv g t fuel HI Hfuel) as (ks & vs & Hs & Hso & Hl & Ha).
  exists ks, vs. split; [done|]. split; [done|]. split; [done|].
  split; [|done].
  unfold scan in Hs. apply bind_Ok in Hs as (node & Hn & Hs).
  eapply (scan_loop_nonempty g t HI fuel node [] []); [|done|exact Hs].
  destruct node as [n|]; [|done]. cbn.
  pose proof HI as (_ & Hlive & _ & _ & _ & Hhead).
  exists (headleaf t). split; [by apply Hlive|].
  eapply leaf_page_good; [exact Hhead|by apply Hlive].
Qed.

(** X16: in every such state the head [n] of a leaf page [p] of the
    mapping table carries [p] in its [pid] field, and the chain has a
    projection: [leaf_fake_consolidate] succeeds on it, the keys are in
    strictly ascending order and within the key range of [n], no key is
    left without a value, and [slotuse] of [n] is the number of keys. *)
Theorem leaf_page_projection (t : BWTreeState KeyType) p n :
  reachable_within INT_MAX t ->
  mt_get (mapping_table t) p = Ok (Some n) ->
  is_leaf (hdr_of n) = true ->
  pid (hdr_of n) = Some p /\
  exists ks vs,
    leaf_fake_consolidate n = Ok (ks, vs) /\
    sorted_keys ks = true /\
    length ks = length vs /\
    Forall (fun v => v <> []) vs /\
    Forall (fun k => key_in_node k (hdr_of n) = true) ks /\
    slotuse (hdr_of n) = Z.of_nat (length ks).
Proof.
  intros Hr Hget Hil. destruct (reachable_Inv t Hr) as [g HI].
  pose proof HI as (_ & Hlive & _).
  pose proof (Hlive _ _ Hget) as Hg.
  split; [by destruct Hg|].
  destruct (good_leaf_inv _ _ _ Hg Hil) as (_ & (ks & vs & Hf & Hrest) & _).
  exists ks, vs. split; [done|]. split; [tauto|].
  split; [by eapply leaf_fake_consolidate_lengths|]. tauto.
Qed.

(** X17: in every such state, when the [next_leafnode] of a leaf page
    names a page of the mapping table, that page is a leaf page whose
    lower bound is the upper bound of the first: neither bound is
    infinite and the low key of the sibling is the high key of the
    page. *)
Theorem leaf_sibling_link (t : BWTreeState KeyType) p n m :
  reachable_within INT_MAX t ->
  mt_get (mapping_table t) p = Ok (Some n) ->
  is_leaf (hdr_of n) = true ->
  mt_get (mapping_table t) (next_leafnode (hdr_of n)) = Ok (Some m) ->
  is_leaf (hdr_of m) = true /\
  inf_highkey (hdr_of n) = false /\ inf_lowkey (hdr_of m) = false /\
  low_key (hdr_of m) = high_key (hdr_of n).
Proof.
  intros Hr Hget Hil Hm. destruct (reachable_Inv t Hr) as [g HI].
  pose proof HI as (_ & Hlive & _).
  destruct (link_ok_sibling g t p n m HI (Hlive _ _ Hget) Hil Hm)
    as (_ & Hih & Hs).
  unfold sig_of in Hs. injection Hs as -> -> ->. done.
Qed.

(** X18: in every such state a chain of the mapping table is of one
    kind.  Every node has the [is_leaf] flag of the head.  Under a leaf
    head there are only insert and delete records and split deltas over
    a base leaf; under an inner head only index entries and split deltas
    over a base inner node.  Remove and merge deltas and update records
    do not occur. *)
Theorem chain_node_kinds (t : BWTreeState KeyType) p head D :
  reachable_within INT_MAX t ->
  mt_get (mapping_table t) p = Ok (Some head) ->
  D ∈ chain_to_base head ->
  is_leaf (hdr_of D) = is_leaf (hdr_of head) /\
  match D with
  | LeafNode _ _ _ => is_leaf (hdr_of head) = true
  | RecordDelta _ op _ _ _ => is_leaf (hdr_of head) = true /\ op <> UPDATE
  | InnerNode _ _ _ | IndexEntryDelta _ _ _ _ _ _ =>
      is_leaf (hdr_of head) = false
  | SplitDelta _ _ _ _ => True
  | RemoveDelta _ _ | MergeDelta _ _ _ _ => False
  end.
Proof.
  intros Hr Hget HD. destruct (reachable_Inv t Hr) as [g HI].
  pose proof HI as (_ & Hlive & _).
  destruct (good_shape _ _ _ (Hlive _ _ Hget)) as [Hsh _].
  unfold shape_ok in Hsh. destruct (is_leaf (hdr_of head)).
  - destruct (leaf_chain_good_nodes _ _ Hsh HD) as [Hl Hk].
    split; [done|]. by destruct D.
  - destruct (inner_shape_nodes _ _ Hsh HD) as [Hl Hk].
    split; [done|]. by destruct D.
Qed.

(** X19: in every such state [key_is_in] and [count_pair], run on the
    head of a leaf page for a key of its range, read the projection of
    the page: [key_is_in] tells whether the key has values there, and
    [count_pair] returns their number and the number of those equal to
    the given value; the [int] counters do not wrap. *)
Theorem readers_exact (t : BWTreeState KeyType) p n key value ks vs :
  reachable_within INT_MAX t ->
  mt_get (mapping_table t) p = Ok (Some n) ->
  is_leaf (hdr_of n) = true ->
  leaf_fake_consolidate n = Ok (ks, vs) ->
  key_in_node key (hdr_of n) = true ->
  key_is_in key (Some n) = Ok (negb (bool_decide (vals_of key ks vs = []))) /\
  count_pair key value (Some n)
  = Ok (Z.of_nat (length (vals_of key ks vs)),
        Z.of_nat (length (List.filter (fun v => value_equal v value)
                                      (vals_of key ks vs)))).
Proof.
  intros Hr Hget Hil Hf Hin. destruct (reachable_Inv t Hr) as [g HI].
  pose proof (reachable_within_brk INT_MAX t ltac:(unfold INT_MAX; lia) Hr) as Hb.
  pose proof HI as (_ & Hlive & _ & _ & Hcap & _).
  destruct (Hlive _ _ Hget) as (_ & _ & Hg). rewrite Hil in Hg.
  destruct Hg as (Hc & _ & _ & Hv).
  split; [by apply key_is_in_fold|].
  cbn [count_pair].
  destruct (readers_agree n Hc key ks vs Hf Hin ∅) as [_ ->]; [|lia|lia].
  by rewrite visible_count_empty, visible_pairs_empty, !Z.add_0_l.
Qed.

(** ** What a write does to the projection of its page *)

(** [consolidate] returns the head the mapping table holds. *)
Lemma consolidate_leaf_head p (orinode : Node KeyType) t n t' :
  consolidate_leaf p orinode t = Ok (Some n, t') ->
  mt_get (mapping_table t') p = Ok (Some n).
Proof.
  unfold consolidate_leaf. intros Hc.
  apply bindM_Ok in Hc as (a & t1 & Ha & Hc). apply alloc_Ok in Ha as [-> ->].
  apply bindM_Ok in Hc as ([keys vals] & t2 & Hf & Hc).
  apply lift_Ok in Hf as [Hf ->].
  destruct (_ || _); [done|].
  apply bindM_Ok in Hc as ([sk sd] & t2 & Hfill & Hc).
  apply lift_Ok in Hfill as [Hfill ->].
  apply bindM_Ok in Hc as (ok & t2 & Hset & Hc).
  apply table_set_Ok in Hset as (mt' & Hset & ->).
  destruct ok; [|by apply ret_Ok in Hc as [? _]].
  apply bindM_Ok in Hc as (q & t3 & Hga & Hc).
  unfold garbage_add in Hga. apply bind_Ok in Hga as ([q' gt] & _ & Hga).
  apply ret_Ok in Hc as [Hn Ht']. simplify_eq. cbn [mapping_table].
  by apply mt_set_get in Hset as [-> _].
Qed.

Lemma consolidate_inner_head p (orinode : Node KeyType) t n t' :
  consolidate_inner p orinode t = Ok (Some n, t') ->
  mt_get (mapping_table t') p = Ok (Some n).
Proof.
  unfold consolidate_inner. intros Hc.
  apply bindM_Ok in Hc as (a & t1 & Ha & Hc). apply alloc_Ok in Ha as [-> ->].
  apply bindM_Ok in Hc as ([keys childs] & t2 & Hf & Hc).
  apply lift_Ok in Hf as [Hf ->].
  destruct (_ || _); [done|].
  apply bindM_Ok in Hc as ([sk cs] & t2 & Hfill & Hc).
  apply lift_Ok in Hfill as [Hfill ->].
  apply bindM_Ok in Hc as (c & t2 & Hc0 & Hc). apply lift_Ok in Hc0 as [_ ->].
  apply bindM_Ok in Hc as (cs' & t2 & Hc0 & Hc). apply lift_Ok in Hc0 as [_ ->].
  apply bindM_Ok in Hc as (ok & t2 & Hset & Hc).
  apply table_set_Ok in Hset as (mt' & Hset & ->).
  destruct ok; [|by apply ret_Ok in Hc as [? _]].
  apply bindM_Ok in Hc as (q & t3 & Hga & Hc).
  unfold garbage_add in Hga. apply bind_Ok in Hga as ([q' gt] & _ & Hga).
  apply ret_Ok in Hc as [Hn Ht']. simplify_eq. cbn [mapping_table].
  by apply mt_set_get in Hset as [-> _].
Qed.

Lemma read_Ok {A} (f : BWTreeState KeyType -> result A) t a t' :
  read f t = Ok (a, t') -> f t = Ok a /\ t' = t.
Proof. unfold read. apply lift_Ok. Qed.

Lemma table_get_Ok (t : BWTreeState KeyType) p r t' :
  table_get p t = Ok (r, t') -> mt_get (mapping_table t) p = Ok r /\ t' = t.
Proof. unfold table_get, read. intros Hg. by apply lift_Ok in Hg. Qed.

Lemma consolidate_loop_head fuel p : forall (orinode : Node KeyType) t n t',
  mt_get (mapping_table t) p = Ok (Some orinode) ->
  consolidate_loop fuel p orinode t = Ok (Some n, t') ->
  mt_get (mapping_table t') p = Ok (Some n).
Proof.
  induction fuel as [|fuel IH]; intros orinode t n t' Hg Hc; [done|].
  cbn [consolidate_loop] in Hc.
  destruct (_ <? _); [|by apply ret_Ok in Hc as [[= <-] <-]].
  apply bindM_Ok in Hc as (installed & t1 & Hi & Hc).
  destruct installed as [node|].
  - apply ret_Ok in Hc as [[= <-] <-].
    destruct (is_leaf (hdr_of orinode));
      [by eapply consolidate_leaf_head|by eapply consolidate_inner_head].
  - apply bindM_Ok in Hc as (q & t2 & [Hq ->]%table_get_Ok & Hc).
    apply bindM_Ok in Hc as (o' & t2 & Ho & Hc).
    apply lift_Ok in Ho as [->%deref_Ok ->].
    destruct (need_split (hdr_of o')); [by apply ret_Ok in Hc as [? _]|].
    by eapply IH.
Qed.

Lemma consolidate_head fuel p (t : BWTreeState KeyType) n t' :
  consolidate fuel p t = Ok (Some n, t') ->
  mt_get (mapping_table t') p = Ok (Some n).
Proof.
  unfold consolidate. intros Hc.
  apply bindM_Ok in Hc as (q & t2 & [Hq ->]%table_get_Ok & Hc).
  apply bindM_Ok in Hc as (o & t2 & Ho & Hc).
  apply lift_Ok in Ho as [->%deref_Ok ->].
  destruct (need_split (hdr_of o)); [done|].
  by eapply consolidate_loop_head.
Qed.

Lemma locate_leaf_head fuel key (t : BWTreeState KeyType) p bn t1 :
  locate_leaf fuel key t = Ok ((p, Some bn), t1) ->
  mt_get (mapping_table t1) p = Ok (Some bn).
Proof.
  unfold locate_leaf. intros Hl.
  apply bindM_Ok in Hl as (u & t2 & _ & Hl).
  apply bindM_Ok in Hl as (r & t3 & Hr & Hl).
  apply read_Ok in Hr as [_ ->].
  apply bindM_Ok in Hl as (path & t3 & Hs & Hl).
  apply read_Ok in Hs as [_ ->].
  apply bindM_Ok in Hl as (bp & t3 & Hb & Hl).
  apply lift_Ok in Hb as [_ ->].
  apply bindM_Ok in Hl as (bnode & t3 & Hc & Hl).
  apply ret_Ok in Hl as [Hl ->]. simplify_eq.
  by eapply consolidate_head.
Qed.

(** The last round of a write. *)
Lemma insert_entry_true fuel key value : forall (t : BWTreeState KeyType) t',
  insert_entry fuel key value t = Ok (true, t') ->
  exists p h bn,
    mt_get (mapping_table t') p = Ok (Some (RecordDelta h INSERT key value bn)) /\
    key_in_node key (hdr_of bn) = true.
Proof.
  induction fuel as [|fuel IH]; intros t t' Hi; [done|].
  cbn [insert_entry] in Hi.
  apply bindM_Ok in Hi as ([basic_pid basic_node] & t1 & Hloc & Hi).
  destruct basic_node as [bn|]; [|by eapply IH].
  destruct (key_in_node key (hdr_of bn)) eqn:Hin; cbn [negb] in Hi;
    [|by eapply IH].
  apply bindM_Ok in Hi as (dup & t2 & Hdup & Hi).
  apply lift_Ok in Hdup as [Hdup ->].
  destruct (HasUniqueKeys && dup); [by apply ret_Ok in Hi as [? _]|].
  apply bindM_Ok in Hi as (a & t3 & Ha & Hi). apply alloc_Ok in Ha as [-> ->].
  apply bindM_Ok in Hi as (ok & t4 & Hset & Hi).
  apply table_set_Ok in Hset as (mt' & Hset & ->).
  destruct ok; [|by eapply IH].
  apply ret_Ok in Hi as [_ ->].
  apply mt_set_get in Hset as [Hg _]. cbn [mapping_table] in *.
  destruct (hdr_of_insert_delta (brk t1) basic_pid bn key value dup)
    as (h & Hd & _).
  rewrite Hd in Hg.
  cbn [fmap option_fmap option_map assign_pid with_hdr] in Hg. eauto.
Qed.

Lemma insert_entry_false fuel key value : forall (t : BWTreeState KeyType) t',
  insert_entry fuel key value t = Ok (false, t') ->
  HasUniqueKeys = true /\
  exists p bn,
    mt_get (mapping_table t') p = Ok (Some bn) /\
    key_in_node key (hdr_of bn) = true /\
    key_is_in key (Some bn) = Ok true.
Proof.
  induction fuel as [|fuel IH]; intros t t' Hi; [done|].
  cbn [insert_entry] in Hi.
  apply bindM_Ok in Hi as ([basic_pid basic_node] & t1 & Hloc & Hi).
  destruct basic_node as [bn|]; [|by eapply IH].
  destruct (key_in_node key (hdr_of bn)) eqn:Hin; cbn [negb] in Hi;
    [|by eapply IH].
  apply bindM_Ok in Hi as (dup & t2 & Hdup & Hi).
  apply lift_Ok in Hdup as [Hdup ->].
  destruct (HasUniqueKeys && dup) eqn:Hu.
  - apply ret_Ok in Hi as [_ ->]. apply andb_prop in Hu as [Hu ->].
    split; [done|]. exists basic_pid, bn. split; [|done].
    by eapply locate_leaf_head.
  - apply bindM_Ok in Hi as (a & t3 & Ha & Hi).
    apply bindM_Ok in Hi as (ok & t4 & Hset & Hi).
    destruct ok; [by apply ret_Ok in Hi as [? _]|by eapply IH].
Qed.

Lemma delete_entry_true fuel key value : forall (t : BWTreeState KeyType) t',
  delete_entry fuel key value t = Ok (true, t') ->
  exists p h bn tv,
    mt_get (mapping_table t') p = Ok (Some (RecordDelta h DELETE key value bn)) /\
    key_in_node key (hdr_of bn) = true /\
    count_pair key value (Some bn) = Ok tv /\ tv.2 <> 0.
Proof.
  induction fuel as [|fuel IH]; intros t t' Hd; [done|].
  cbn [delete_entry] in Hd.
  apply bindM_Ok in Hd as ([basic_pid basic_node] & t1 & Hloc & Hd).
  apply bindM_Ok in Hd as (bn & t2 & Hbn & Hd).
  apply lift_Ok in Hbn as [Hbn ->]. apply deref_Ok in Hbn. subst.
  destruct (key_in_node key (hdr_of bn)) eqn:Hin; cbn [negb] in Hd;
    [|by eapply IH].
  apply bindM_Ok in Hd as (tv & t2 & Hcp & Hd).
  apply lift_Ok in Hcp as [Hcp ->].
  destruct (Z.eqb_spec tv.2 0) as [Hz|Hz];
    [by apply ret_Ok in Hd as [? _]|].
  destruct (tv.1 <? tv.2); [discriminate|].
  apply bindM_Ok in Hd as (ok & t3 & Hap & Hd).
  destruct ok; [|by eapply IH].
  apply ret_Ok in Hd as [_ ->].
  apply append_delete_Ok in Hap as (p & h & mt' & Hp & Hs & -> & _).
  apply mt_set_get in Hs as [Hg _].
  cbn [fmap option_fmap option_map assign_pid with_hdr] in Hg.
  eexists p, _, bn, tv. split; [exact Hg|]. done.
Qed.

Lemma delete_entry_false fuel key value : forall (t : BWTreeState KeyType) t',
  delete_entry fuel key value t = Ok (false, t') ->
  exists p bn tv,
    mt_get (mapping_table t') p = Ok (Some bn) /\
    key_in_node key (hdr_of bn) = true /\
    count_pair key value (Some bn) = Ok tv /\ tv.2 = 0.
Proof.
  induction fuel as [|fuel IH]; intros t t' Hd; [done|].
  cbn [delete_entry] in Hd.
  apply bindM_Ok in Hd as ([basic_pid basic_node] & t1 & Hloc & Hd).
  apply bindM_Ok in Hd as (bn & t2 & Hbn & Hd).
  apply lift_Ok in Hbn as [Hbn ->]. apply deref_Ok in Hbn. subst.
  destruct (key_in_node key (hdr_of bn)) eqn:Hin; cbn [negb] in Hd;
    [|by eapply IH].
  apply bindM_Ok in Hd as (tv & t2 & Hcp & Hd).
  apply lift_Ok in Hcp as [Hcp ->].
  destruct (Z.eqb_spec tv.2 0) as [Hz|Hz].
  - apply ret_Ok in Hd as [_ ->]. exists basic_pid, bn, tv.
    split; [by eapply locate_leaf_head|done].
  - destruct (tv.1 <? tv.2); [discriminate|].
    apply bindM_Ok in Hd as (ok & t3 & Hap & Hd).
    destruct ok; [by apply ret_Ok in Hd as [? _]|by eapply IH].
Qed.

(** A live page whose head is a record delta is a leaf page, and the
    chain below the record is a leaf chain with fewer values. *)
Lemma record_head_inv (g : ghost KeyType) (t : BWTreeState KeyType) p h op k v bn :
  Inv g t ->
  mt_get (mapping_table t) p = Ok (Some (RecordDelta h op k v bn)) ->
  leaf_chain_good (RecordDelta h op k v bn) /\ leaf_chain_good bn /\
  same_range h (hdr_of bn) /\
  Z.of_nat (chain_values bn) < brk t.
Proof.
  intros (_ & Hlive & _ & _ & Hcap & _) Hg.
  destruct (Hlive _ _ Hg) as (_ & _ & Hgood).
  destruct (is_leaf (hdr_of (RecordDelta h op k v bn))) eqn:Hil.
  2:{ cbn in Hgood. tauto. }
  destruct Hgood as (Hc & _ & _ & Hv). split; [done|].
  pose proof Hc as (_ & _ & Hbn & Hsr & _). split; [done|]. split; [done|].
  cbn [chain_values] in Hv. lia.
Qed.

(** The readers of a leaf chain find nothing on an inner chain. *)
Lemma key_is_in_inner (n : Node KeyType) key :
  inner_shape n -> forall D, key_is_in_from key n D <> Ok true.
Proof.
  induction n as [|h sk cs| |h Kp pQ nx IH|h Kp Kq iq pQ nx IH| |];
    intros Hs D; cbn [inner_shape] in Hs; try tauto; cbn [key_is_in_from];
    try done.
  destruct (key_greaterequal key Kp false); [done|]. apply IH. tauto.
Qed.

Lemma count_pair_inner (n : Node KeyType) key value :
  inner_shape n ->
  forall D t p r, count_pair_from key value n D t p <> Ok r.
Proof.
  induction n as [|h sk cs| |h Kp pQ nx IH|h Kp Kq iq pQ nx IH| |];
    intros Hs D t p r; cbn [inner_shape] in Hs; try tauto;
    cbn [count_pair_from]; try done.
  destruct (key_greaterequal key Kp false); [done|]. apply IH. tauto.
Qed.

Lemma filter_length_zero {A} (f : A -> bool) l :
  length (List.filter f l) = O -> Forall (fun x => f x = false) l.
Proof.
  induction l as [|x l IH]; intros Hl; [constructor|].
  cbn in Hl. destruct (f x) eqn:Hf; [done|]. constructor; auto.
Qed.

Lemma not_elem_of_erase_value v (vals : list ValueType) :
  v ∉ erase_value v vals.
Proof.
  unfold erase_value. intros Hin%list_elem_of_In%filter_In.
  destruct Hin as [_ Hn]. apply negb_true_iff in Hn.
  assert (value_equal v v = true) as Hv by by apply value_equal_true.
  unfold value_equal in Hv. congruence.
Qed.

(** X20: when [insert_entry] returns true in a state reached as above,
    the page of the key has the chain it had with an insert record for
    the pair on top, and the projection of the page has changed by this
    value only: the key has its former values followed by the new one,
    every other key has the values it had. *)
Theorem insert_entry_adds_value (t : BWTreeState KeyType) fuel key value t' :
  reachable_within INT_MAX t ->
  insert_entry fuel key value t = Ok (true, t') ->
  brk t' <= INT_MAX ->
  exists p h bn ks vs ks' vs',
    mt_get (mapping_table t') p
    = Ok (Some (RecordDelta h INSERT key value bn)) /\
    key_in_node key h = true /\
    leaf_fake_consolidate bn = Ok (ks, vs) /\
    leaf_fake_consolidate (RecordDelta h INSERT key value bn) = Ok (ks', vs') /\
    forall k,
      vals_of k ks' vs'
      = vals_of k ks vs ++ (if key_equal key k then [value] else []).
Proof.
  intros Hr Hi Hb.
  assert (reachable_within INT_MAX t') as Hr' by (by eapply within_insert).
  destruct (reachable_Inv t' Hr') as [g HI].
  destruct (insert_entry_true _ _ _ _ _ Hi) as (p & h & bn & Hg & Hin).
  destruct (record_head_inv g t' _ _ _ _ _ _ HI Hg) as (Hc & Hcb & Hsr & _).
  pose proof (leaf_chain_good_sem _ Hc) as (ks' & vs' & Hf' & _).
  pose proof (leaf_chain_good_sem _ Hcb) as (ks & vs & Hf & _).
  exists p, h, bn, ks, vs, ks', vs'. split; [done|].
  rewrite (leaf_fake_consolidate_step _ bn) in Hf' by done.
  rewrite Hf in Hf'. cbn [mbind result_bind leaf_apply_delta] in Hf'.
  split; [by rewrite (key_in_node_same_range _ _ _ Hsr)|].
  split; [done|]. split.
  { rewrite (leaf_fake_consolidate_step _ bn) by done. by rewrite Hf. }
  intros k. eapply leaf_apply_insert_vals; [|exact Hf'].
  by eapply leaf_fake_consolidate_lengths.
Qed.

(** X21: [insert_entry] returns false in such a state only when the index
    requires unique keys and the projection of the page of the key,
    which the call leaves at the head of the page, holds values for the
    key. *)
Theorem insert_entry_refuses_present (t : BWTreeState KeyType) fuel key value t' :
  reachable_within INT_MAX t ->
  insert_entry fuel key value t = Ok (false, t') ->
  brk t' <= INT_MAX ->
  HasUniqueKeys = true /\
  exists p bn ks vs,
    mt_get (mapping_table t') p = Ok (Some bn) /\
    key_in_node key (hdr_of bn) = true /\
    leaf_fake_consolidate bn = Ok (ks, vs) /\
    vals_of key ks vs <> [].
Proof.
  intros Hr Hi Hb.
  assert (reachable_within INT_MAX t') as Hr' by (by eapply within_insert).
  destruct (reachable_Inv t' Hr') as [g HI].
  destruct (insert_entry_false _ _ _ _ _ Hi) as (Hu & p & bn & Hg & Hin & Hk).
  split; [done|]. pose proof HI as (_ & Hlive & _).
  destruct (good_shape _ _ _ (Hlive _ _ Hg)) as [Hsh _].
  destruct (is_leaf (hdr_of bn)) eqn:Hil.
  2:{ exfalso. cbn in Hsh. by eapply key_is_in_inner. }
  cbn in Hsh.
  pose proof (leaf_chain_good_sem _ Hsh) as (ks & vs & Hf & _).
  exists p, bn, ks, vs. split; [done|]. split; [done|]. split; [done|].
  rewrite (key_is_in_fold _ _ _ _ Hsh Hf Hin) in Hk. injection Hk as Hk.
  apply negb_true_iff, bool_decide_eq_false in Hk. done.
Qed.

(** X22: when [delete_entry] returns true in such a state, the page of
    the key has the chain it had with a delete record for the pair on
    top; the value was among the values of the key, and the projection
    has lost every copy of it and nothing else: the key keeps its other
    values in order, every other key has the values it had. *)
Theorem delete_entry_removes_value (t : BWTreeState KeyType) fuel key value t' :
  reachable_within INT_MAX t ->
  delete_entry fuel key value t = Ok (true, t') ->
  brk t' <= INT_MAX ->
  exists p h bn ks vs ks' vs',
    mt_get (mapping_table t') p
    = Ok (Some (RecordDelta h DELETE key value bn)) /\
    leaf_fake_consolidate bn = Ok (ks, vs) /\
    leaf_fake_consolidate (RecordDelta h DELETE key value bn) = Ok (ks', vs') /\
    (value ∈ vals_of key ks vs) /\
    (value ∉ vals_of key ks' vs') /\
    forall k,
      vals_of k ks' vs'
      = if key_equal key k then erase_value value (vals_of k ks vs)
        else vals_of k ks vs.
Proof.
  intros Hr Hd Hb.
  assert (reachable_within INT_MAX t') as Hr' by (by eapply within_delete).
  destruct (reachable_Inv t' Hr') as [g HI].
  destruct (delete_entry_true _ _ _ _ _ Hd)
    as (p & h & bn & tv & Hg & Hin & Hcp & Hnz).
  destruct (record_head_inv g t' _ _ _ _ _ _ HI Hg) as (Hc & Hcb & Hsr & Hv).
  pose proof (leaf_chain_good_sem _ Hc) as (ks' & vs' & Hf' & _).
  pose proof (leaf_chain_good_sem _ Hcb) as (ks & vs & Hf & Hs & _).
  exists p, h, bn, ks, vs, ks', vs'. split; [done|]. split; [done|].
  split; [done|].
  rewrite (leaf_fake_consolidate_step _ bn) in Hf' by done.
  rewrite Hf in Hf'. cbn [mbind result_bind leaf_apply_delta] in Hf'.
  assert (forall k,
            vals_of k ks' vs'
            = if key_equal key k then erase_value value (vals_of k ks vs)
              else vals_of k ks vs) as Hall.
  { intros k. eapply leaf_apply_delete_vals; [done| |exact Hf'].
    by eapply leaf_fake_consolidate_lengths. }
  split; [|split; [|done]].
  - cbn [count_pair] in Hcp.
    destruct (readers_agree bn Hcb key ks vs Hf Hin ∅) as [_ Hcp'].
    rewrite Hcp' in Hcp by lia.
    rewrite visible_count_empty, visible_pairs_empty, !Z.add_0_l in Hcp.
    injection Hcp as <-. cbn [snd] in Hnz.
    destruct (List.filter _ (vals_of key ks vs)) as [|w l] eqn:Hfl; [done|].
    assert (In w (List.filter (fun v => value_equal v value)
                              (vals_of key ks vs))) as Hw
      by (rewrite Hfl; by left).
    apply filter_In in Hw as [Hw ->%value_equal_true].
    by apply list_elem_of_In.
  - rewrite Hall, key_equal_refl. apply not_elem_of_erase_value.
Qed.

(** X23: [delete_entry] returns false in such a state only when the
    value is not among the values the projection of the page of the key
    holds for the key. *)
Theorem delete_entry_refuses_absent (t : BWTreeState KeyType) fuel key value t' :
  reachable_within INT_MAX t ->
  delete_entry fuel key value t = Ok (false, t') ->
  brk t' <= INT_MAX ->
  exists p bn ks vs,
    mt_get (mapping_table t') p = Ok (Some bn) /\
    key_in_node key (hdr_of bn) = true /\
    leaf_fake_consolidate bn = Ok (ks, vs) /\
    (value ∉ vals_of key ks vs).
Proof.
  intros Hr Hd Hb.
  assert (reachable_within INT_MAX t') as Hr' by (by eapply within_delete).
  destruct (reachable_Inv t' Hr') as [g HI].
  destruct (delete_entry_false _ _ _ _ _ Hd)
    as (p & bn & tv & Hg & Hin & Hcp & Hz).
  pose proof HI as (_ & Hlive & _ & _ & Hcap & _).
  destruct (good_shape _ _ _ (Hlive _ _ Hg)) as [Hsh _].
  destruct (is_leaf (hdr_of bn)) eqn:Hil.
  2:{ exfalso. cbn in Hsh. by eapply count_pair_inner. }
  cbn in Hsh.
  pose proof (leaf_chain_good_sem _ Hsh) as (ks & vs & Hf & _).
  exists p, bn, ks, vs. split; [done|]. split; [done|]. split; [done|].
  destruct (Hlive _ _ Hg) as (_ & _ & Hgood). rewrite Hil in Hgood.
  destruct Hgood as (_ & _ & _ & Hv).
  cbn [count_pair] in Hcp.
  destruct (readers_agree bn Hsh key ks vs Hf Hin ∅) as [_ Hcp'].
  rewrite Hcp' in Hcp by lia.
  rewrite visible_count_empty, visible_pairs_empty, !Z.add_0_l in Hcp.
  injection Hcp as <-. cbn [snd] in Hz.
  assert (length (List.filter (fun v => value_equal v value)
                              (vals_of key ks vs)) = O) as Hz0 by lia.
  apply (filter_length_zero _ _) in Hz0. rewrite Forall_forall in Hz0.
  rename Hz0 into Hz'.
  intros Hel. specialize (Hz' _ Hel). cbn beta in Hz'.
  assert (value_equal value value = true) as Hvv by by apply value_equal_true.
  congruence.
Qed.

(** X24: in a state reached as above, the path [search] returns has a
    leaf page on top and inner pages below it: the head the mapping table
    holds for the top PID has [is_leaf] set, the heads of the others have
    not. *)
Theorem search_path_kinds (t : BWTreeState KeyType) fuel p key top rest :
  reachable_within INT_MAX t ->
  search fuel t p key = Ok (top :: rest) ->
  (forall n, mt_get (mapping_table t) top = Ok (Some n) ->
             is_leaf (hdr_of n) = true) /\
  Forall (fun q => forall n, mt_get (mapping_table t) q = Ok (Some n) ->
                             is_leaf (hdr_of n) = false) rest.
Proof.
  intros Hr Hs. destruct (reachable_Inv t Hr) as [g HI].
  pose proof HI as (_ & Hlive & _).
  destruct (search_kinds g t key fuel p _ HI Hs)
    as [?|(top' & rest' & [= <- <-] & Htop & Hrest)]; [done|].
  split.
  - intros n Hn. eapply leaf_page_good; [done|by apply Hlive].
  - eapply Forall_impl; [exact Hrest|]. intros q Hq n Hn.
    eapply inner_page_good; [done|by apply Hlive].
Qed.

(** The projection of a chain under a split delta whose pivot is the key
    at position [i] of the sorted projection below: the keys before
    [i]. *)
Lemma split_delta_fold h (Kp : KeyType) pQ (csn : Node KeyType) ks vs i :
  leaf_fake_consolidate csn = Ok (ks, vs) ->
  sorted_keys ks = true ->
  ks !! i = Some Kp ->
  leaf_fake_consolidate (SplitDelta h Kp pQ csn) = Ok (take i ks, take i vs) /\
  Forall (fun k => m_key_less k Kp = true) (take i ks).
Proof.
  intros Hf Hs Hi.
  pose proof (leaf_fake_consolidate_lengths _ _ _ Hf) as Hl.
  pose proof (lookup_lt_Some _ _ _ Hi) as Hlt.
  assert (Forall (fun k => m_key_less k Kp = true) (take i ks)) as Hbelow.
  { apply Forall_lookup. intros j k Hj.
    apply lookup_take_Some in Hj as [Hj Hjl].
    by eapply (sorted_keys_lookup ks j i). }
  split; [|done].
  rewrite (leaf_fake_consolidate_step _ csn) by done. rewrite Hf.
  cbn [mbind result_bind leaf_apply_delta].
  rewrite (find_first_intro _ ks i Kp); [|done| |].
  - by rewrite !vec_resize_take by lia.
  - unfold key_greaterequal. by rewrite key_less_irrefl.
  - eapply Forall_impl; [exact Hbelow|]. intros k Hk.
    unfold key_greaterequal. by rewrite Hk.
Qed.

(** X25: a leaf split loses nothing.  When [split_step1] has split a
    full leaf page whose projection is [(keys, vals)], the page links to
    the new sibling, the projection of the page is the first half of the
    keys and values, that of the sibling the rest, every key left on the
    page is below the pivot and no key of the sibling is. *)
Theorem split_keeps_projection (t : BWTreeState KeyType)
    (check_split_pid : PidType) (check_split_node : Node KeyType) keys vals :
  let ch := hdr_of check_split_node in
  let n := length keys in
  mt_get (mapping_table t) check_split_pid = Ok (Some check_split_node) ->
  check_split_pid < nextPid (mapping_table t) ->
  leaf_fake_consolidate check_split_node = Ok (keys, vals) ->
  sorted_keys keys = true ->
  slotuse ch = Z.of_nat n ->
  need_split ch = true -> is_leaf ch = true ->
  Z.of_nat n <= leafslotmax + 1 ->
  mt_shape (mapping_table t) = true -> mt_room (mapping_table t) = true ->
  exists new_node_pid pivotal new_node head t',
    split_step1 check_split_pid check_split_node t
      = Ok ((true, new_node_pid, pivotal, new_node), t') /\
    mt_get (mapping_table t') check_split_pid = Ok (Some head) /\
    mt_get (mapping_table t') new_node_pid = Ok (Some new_node) /\
    next_leafnode (hdr_of head) = new_node_pid /\
    exists ks1 vs1 ks2 vs2,
      leaf_fake_consolidate head = Ok (ks1, vs1) /\
      leaf_fake_consolidate new_node = Ok (ks2, vs2) /\
      ks1 ++ ks2 = keys /\ vs1 ++ vs2 = vals /\
      length ks1 = (n / 2)%nat /\
      Forall (fun k => m_key_less k pivotal = true) ks1 /\
      Forall (fun k => m_key_less k pivotal = false) ks2.
Proof.
  intros ch n Hget Hlt Hfc Hsorted Hsu Hns Hlf Hcap Hsh Hroom.
  pose proof (leaf_fake_consolidate_lengths _ _ _ Hfc) as Hlen.
  destruct (create_leaf_spec t check_split_node keys vals
              Hfc Hsu Hns Hlf Hcap Hsh Hroom)
    as (q & pivotal & t1 & h & slotkey & slotdata & Hcl & Hq & Hes & Hsuh
        & Hlenu & Hpiv & Hlow & Hil & Hhigh & Hih & Hnl & _ & Hqe & Hsh1 & Hoth).
  fold ch n in Hes, Hsuh, Hlenu, Hpiv, Hhigh, Hih, Hnl.
  assert (check_split_pid <> q) as Hne by lia.
  assert (mt_get (mapping_table t1) check_split_pid
          = Ok (Some check_split_node)) as Hget1 by (by rewrite Hoth).
  set (new_split :=
         SplitDelta_ctor (brk t1) check_split_node pivotal q q (low_key ch)
           (low_key h) (inf_lowkey ch) false).
  destruct (mt_set_succeeds (mapping_table t1) check_split_pid
              check_split_node (Some check_split_node) (Some new_split)
              Hget1 (ptr_eq_refl _)) as [mt' Hset].
  destruct (mt_set_true _ _ _ _ _ Hsh1 Hset)
    as (Hp0 & Hsh2 & _ & _ & Hgs & Hos).
  apply andb_true_iff in Hroom as [_ Hr]. apply Z.ltb_lt in Hr.
  exists q, pivotal, (LeafNode h slotkey slotdata),
    (assign_pid check_split_pid new_split),
    (mkBWTree (root t1) mt' (garbage_table t1) (headleaf t1) (brk t1 + 1)).
  split.
  { unfold split_step1, bind. fold ch. rewrite Hlf, Hcl.
    unfold table_get, read, lift. rewrite Hq. cbn [deref].
    unfold alloc, table_set. cbn [mapping_table hdr_of]. fold new_split.
    rewrite Hset. cbn [mbind result_bind]. unfold ret. reflexivity. }
  cbn [mapping_table].
  split; [rewrite Hgs by lia; reflexivity|].
  split; [by rewrite Hos|].
  split; [reflexivity|].
  assert (n / 2 <= n)%nat as Hhalf by (pose proof (half_bounds n); lia).
  destruct (split_delta_fold
              (hdr_of new_split) pivotal q check_split_node keys vals
              (n / 2)%nat Hfc Hsorted Hpiv) as [Hfold Hbelow].
  exists (take (n / 2) keys), (take (n / 2) vals),
    (drop (n / 2) keys), (drop (n / 2) vals).
  split.
  { rewrite leaf_fake_consolidate_assign_pid. exact Hfold. }
  split.
  { rewrite (leaf_fake_consolidate_base _ _ _ _ Hes).
    by rewrite fst_zip, snd_zip by (rewrite !length_drop; lia). }
  split; [apply take_drop|]. split; [apply take_drop|].
  split; [rewrite length_take; fold n; lia|].
  split; [done|]. by apply sorted_keys_first_least.
Qed.

(** ** The point read and the projection *)

Lemma leaf_base_get_value (key : KeyType) slotkey slotdata D :
  forall cnt i ks0 vs0 ks vs,
    copy_leaf_base slotkey slotdata i cnt ks0 vs0 = Ok (ks, vs) ->
    exists ks1 vs1,
      ks = ks0 ++ ks1 /\ vs = vs0 ++ vs1 /\ length ks1 = length vs1 /\
      forall r,
        get_value_leaf key slotkey slotdata D i cnt r
        = Ok (r ++ visible_base key D (zip ks1 vs1)).
Proof.
  induction cnt as [|cnt IH]; intros i ks0 vs0 ks vs Hc; cbn in Hc.
  { injection Hc as <- <-. exists [], []. rewrite !app_nil_r.
    repeat split; try done. intros r. cbn. by rewrite app_nil_r. }
  apply bind_Ok in Hc as (k & Hk & Hc).
  apply bind_Ok in Hc as (p & Hp & Hc).
  apply bind_Ok in Hc as (vals & Hv%deref_Ok & Hc). subst p.
  apply IH in Hc as (ks1 & vs1 & -> & -> & Hl & Hgv).
  exists (k :: ks1), (vals :: vs1). rewrite <-!app_assoc.
  split; [done|]. split; [done|]. split; [cbn; lia|].
  intros r. cbn [get_value_leaf]. rewrite Hk, Hp.
  cbn [mbind result_bind deref].
  assert (visible_base key D (zip (k :: ks1) (vals :: vs1))
          = (if key_equal k key
             then List.filter (fun w => negb (bool_decide (w ∈ D))) vals
             else []) ++ visible_base key D (zip ks1 vs1)) as -> by reflexivity.
  destruct (key_equal k key).
  - rewrite Hgv, get_value_vals_spec. by rewrite <-app_assoc.
  - by rewrite Hgv.
Qed.

Lemma visible_base_not_found (key : KeyType) D ks vs :
  Forall (fun k => key_equal k key = false) ks ->
  visible_base key D (zip ks vs) = [].
Proof.
  revert vs. induction ks as [|k ks IH]; intros vs Hk; [done|].
  destruct vs as [|v vs]; [done|]. apply Forall_cons in Hk as [Hk Hks].
  assert (visible_base key D (zip (k :: ks) (v :: vs))
          = (if key_equal k key
             then List.filter (fun w => negb (bool_decide (w ∈ D))) v
             else []) ++ visible_base key D (zip ks vs)) as -> by reflexivity.
  rewrite Hk. cbn [app]. by apply IH.
Qed.

(** With distinct keys the base leaf has the values of one slot for the
    key. *)
Lemma visible_base_vals_of (key : KeyType) D ks vs :
  sorted_keys ks = true ->
  visible_base key D (zip ks vs)
  = List.filter (fun v => negb (delset_count D v)) (vals_of key ks vs).
Proof.
  revert vs. induction ks as [|k ks IH]; intros vs Hs; [done|].
  destruct vs as [|v vs]; [done|].
  apply sorted_keys_cons in Hs as [Hk Hs].
  specialize (IH vs Hs).
  assert (visible_base key D (zip (k :: ks) (v :: vs))
          = (if key_equal k key
             then List.filter (fun w => negb (bool_decide (w ∈ D))) v
             else []) ++ visible_base key D (zip ks vs)) as -> by reflexivity.
  cbn [vals_of]. destruct (key_equal k key) eqn:He.
  - apply key_equal_true in He as ->.
    rewrite visible_base_not_found by by apply sorted_keys_distinct.
    by rewrite app_nil_r.
  - exact IH.
Qed.

(** [get_value], which reads a chain from the head with a set of deleted
    values, collects the values the projection has for the key, in
    another order. *)
Lemma get_value_loop_fold restart (t : BWTreeState KeyType) (n : Node KeyType) :
  leaf_chain_good n ->
  forall key ks vs,
    leaf_fake_consolidate n = Ok (ks, vs) ->
    key_in_node key (hdr_of n) = true ->
    forall D r fuel,
      (length (chain_to_base n) + 1 <= fuel)%nat ->
      exists l,
        get_value_loop restart fuel t key (Some n) D r = Ok (r ++ l) /\
        l ≡ₚ List.filter (fun v => negb (delset_count D v)) (vals_of key ks vs).
Proof.
  induction n as [h slotkey slotdata| | h op k v nx IH | h Kp pQ nx IH | | | ];
    intros Hg key ks vs Hf Hin D r fuel Hfuel; cbn [leaf_chain_good] in Hg;
    try (exfalso; tauto).
  - (* the base leaf *)
    destruct Hg as (_ & (ks' & vs' & Hf' & Hs & _) & _).
    rewrite Hf in Hf'. injection Hf' as <- <-.
    unfold leaf_fake_consolidate in Hf. cbn in Hf.
    apply bind_Ok in Hf as (base & Hf & Hb). injection Hb as ->.
    apply (leaf_base_get_value key _ _ D) in Hf
      as (ks1 & vs1 & -> & -> & Hl & Hgv).
    cbn [app] in *. cbn [chain_to_base length] in Hfuel.
    destruct fuel as [|[|fuel]]; [lia|lia|].
    cbn [get_value_loop]. rewrite Hgv. cbn [mbind result_bind].
    eexists. split; [reflexivity|]. by rewrite visible_base_vals_of.
  - (* a record delta *)
    destruct Hg as (_ & (ks' & vs' & Hf' & Hs' & _) & Hgx & Hr & Hop).
    rewrite (leaf_fake_consolidate_step _ nx) in Hf by done.
    apply bind_Ok in Hf as ([ks0 vs0] & Hf0 & Ha).
    pose proof (leaf_fake_consolidate_lengths _ _ _ Hf0) as Hl0.
    pose proof (leaf_chain_good_sem _ Hgx) as (ks1 & vs1 & Hf1 & Hs0 & _).
    rewrite Hf0 in Hf1. injection Hf1 as <- <-.
    cbn [hdr_of] in Hin. rewrite (key_in_node_same_range _ _ _ Hr) in Hin.
    specialize (IH Hgx key ks0 vs0 Hf0 Hin).
    cbn [chain_to_base length] in Hfuel.
    destruct fuel as [|fuel]; [lia|].
    cbn [leaf_apply_delta] in Ha. cbn [get_value_loop].
    destruct op; [| |done].
    + (* INSERT *)
      rewrite (leaf_apply_insert_vals _ _ _ _ _ _ _ key Hl0 Ha).
      destruct (key_equal k key).
      2:{ rewrite app_nil_r. apply IH. lia. }
      destruct (IH D (if delset_count D v then r else r ++ [v]) fuel)
        as (l & Hgl & Hperm); [lia|].
      rewrite Hgl. rewrite List.filter_app. cbn [List.filter].
      destruct (delset_count D v); cbn [negb].
      * exists l. split; [done|]. by rewrite app_nil_r.
      * exists (v :: l). split; [by rewrite <-app_assoc|].
        rewrite Hperm. apply Permutation_cons_append.
    + (* DELETE *)
      rewrite (leaf_apply_delete_vals _ _ _ _ _ _ _ key Hs0 Hl0 Ha).
      destruct (key_equal k key); [|apply IH; lia].
      destruct (IH ({[v]} ∪ D) r fuel) as (l & Hgl & Hperm); [lia|].
      exists l. split; [done|]. rewrite Hperm, filter_erase_value.
      erewrite filter_ext_bool; [reflexivity|].
      intros w. cbn beta. apply delset_count_union.
  - (* a split delta *)
    destruct Hg as (_ & _ & Hgx & Hlo & Hil & Hhi & Hih & HKp).
    rewrite (leaf_fake_consolidate_step _ nx) in Hf by done.
    apply bind_Ok in Hf as ([ks0 vs0] & Hf0 & Ha).
    pose proof (leaf_fake_consolidate_lengths _ _ _ Hf0) as Hl0.
    pose proof (leaf_chain_good_sem _ Hgx) as (ks1 & vs1 & Hf1 & Hs0 & _).
    rewrite Hf0 in Hf1. injection Hf1 as <- <-.
    cbn [hdr_of] in Hin.
    destruct (key_in_node_split key Kp h (hdr_of nx) Hlo Hil Hhi Hih HKp Hin)
      as [Hlt Hinx].
    rewrite (leaf_apply_split_vals _ _ _ _ _ _ _ _ key Hs0 Hl0 Ha Hlt).
    cbn [chain_to_base length] in Hfuel.
    destruct fuel as [|fuel]; [lia|].
    cbn [get_value_loop]. unfold key_greaterequal. rewrite Hlt. cbn [negb].
    apply (IH Hgx key ks0 vs0 Hf0 Hinx). lia.
Qed.

(** X27: the point read agrees with the projection.  In a state reached
    as above, when [search] leads to a page whose head covers the key,
    [get_value] appends to the result the values the consolidated
    projection of the page holds for the key, each as often as it occurs
    there, in the order of the chain (newest record first). *)
Theorem get_value_projection (t : BWTreeState KeyType) key fuel p rest head
    ks vs result_ :
  reachable_within INT_MAX t ->
  search fuel t (root t) key = Ok (p :: rest) ->
  mt_get (mapping_table t) p = Ok (Some head) ->
  key_in_node key (hdr_of head) = true ->
  leaf_fake_consolidate head = Ok (ks, vs) ->
  (length (chain_to_base head) + 1 <= fuel)%nat ->
  exists l,
    get_value (S fuel) t key result_ = Ok (result_ ++ l) /\
    l ≡ₚ vals_of key ks vs.
Proof.
  intros Hr Hs Hg Hin Hf Hfuel. destruct (reachable_Inv t Hr) as [gh HI].
  pose proof HI as (_ & Hlive & _).
  destruct (search_kinds gh t key fuel _ _ HI Hs)
    as [?|(top & rest' & [= <- <-] & Htop & _)]; [done|].
  pose proof (Hlive _ _ Hg) as Hgood.
  pose proof (leaf_page_good _ _ _ Htop Hgood) as Hil.
  destruct Hgood as (_ & _ & Hgood). rewrite Hil in Hgood.
  destruct Hgood as (Hc & _).
  assert (forall f r,
            get_value (S f) t key r
            = path ← search f t (root t) key;
              target_node ← stack_top path;
              next ← mt_get (mapping_table t) target_node;
              node ← deref next;
              if negb (is_leaf (hdr_of node)) then Ok r
              else get_value_loop (get_value f t key) f t key next ∅ r)
    as Hgv by reflexivity.
  rewrite Hgv, Hs. cbn [mbind result_bind stack_top]. rewrite Hg.
  cbn [mbind result_bind deref]. rewrite Hil. cbn [negb].
  destruct (get_value_loop_fold (get_value fuel t key) t head Hc key ks vs
              Hf Hin ∅ result_ fuel Hfuel) as (l & Hl & Hperm).
  exists l. split; [done|]. rewrite Hperm.
  assert (forall l0 : list ValueType,
            List.filter (fun v => negb (delset_count ∅ v)) l0 = l0) as ->; [|done].
  induction l0 as [|v l0 IHl]; [done|]. cbn. by rewrite IHl.
Qed.

(** *** Capacity of a leaf page, and indexes with unique keys *)

Lemma vals_of_single (key : KeyType) ks (vs : list (list ValueType)) :
  Forall (fun v => length v = 1%nat) vs ->
  (length (vals_of key ks vs) <= 1)%nat.
Proof.
  revert vs. induction ks as [|k ks IH]; intros vs Hone; [cbn; lia|].
  destruct vs as [|v vs]; [cbn; lia|]. cbn [vals_of].
  apply Forall_cons in Hone as [Hv Hone].
  destruct (key_equal k key); [lia|by apply IH].
Qed.

Lemma good_leaf_fit (g : ghost KeyType) p (n : Node KeyType) :
  good g p n -> is_leaf (hdr_of n) = true -> leaf_fit n.
Proof.
  intros (_ & _ & Hg) Hl. rewrite Hl in Hg.
  by destruct Hg as (_ & _ & _ & _ & Hfit).
Qed.

(** The point read at a page whose head covers the key, under the
    invariant. *)
Lemma get_value_at_page (g : ghost KeyType) (t : BWTreeState KeyType) key fuel
    p rest head ks vs result_ :
  Inv g t ->
  search fuel t (root t) key = Ok (p :: rest) ->
  mt_get (mapping_table t) p = Ok (Some head) ->
  key_in_node key (hdr_of head) = true ->
  leaf_fake_consolidate head = Ok (ks, vs) ->
  (length (chain_to_base head) + 1 <= fuel)%nat ->
  exists l,
    get_value (S fuel) t key result_ = Ok (result_ ++ l) /\
    l ≡ₚ vals_of key ks vs.
Proof.
  intros HI Hs Hg Hin Hf Hfuel.
  pose proof HI as (_ & Hlive & _).
  destruct (search_kinds g t key fuel _ _ HI Hs)
    as [?|(top & rest' & [= <- <-] & Htop & _)]; [done|].
  pose proof (Hlive _ _ Hg) as Hgood.
  pose proof (leaf_page_good _ _ _ Htop Hgood) as Hil.
  destruct Hgood as (_ & _ & Hgood). rewrite Hil in Hgood.
  destruct Hgood as (Hc & _).
  assert (forall f r,
            get_value (S f) t key r
            = path ← search f t (root t) key;
              target_node ← stack_top path;
              next ← mt_get (mapping_table t) target_node;
              node ← deref next;
              if negb (is_leaf (hdr_of node)) then Ok r
              else get_value_loop (get_value f t key) f t key next ∅ r)
    as Hgv by reflexivity.
  rewrite Hgv, Hs. cbn [mbind result_bind stack_top]. rewrite Hg.
  cbn [mbind result_bind deref]. rewrite Hil. cbn [negb].
  destruct (get_value_loop_fold (get_value fuel t key) t head Hc key ks vs
              Hf Hin ∅ result_ fuel Hfuel) as (l & Hl & Hperm).
  exists l. split; [done|]. rewrite Hperm.
  assert (forall l0 : list ValueType,
            List.filter (fun v => negb (delset_count ∅ v)) l0 = l0) as ->; [|done].
  induction l0 as [|v l0 IHl]; [done|]. cbn. by rewrite IHl.
Qed.

(** X28: a leaf page never holds more keys than it has room for.  In a
    state reached from the constructor by [insert_entry] and
    [delete_entry] (addresses below [INT_MAX]), the [slotuse] of the
    head of every leaf page of the mapping table is between 0 and
    [leafslotmax]; the projection of the page has that many keys, and a
    page for which [need_split] holds has exactly [leafslotmax] keys. *)
Theorem leaf_page_capacity (t : BWTreeState KeyType) p n :
  reachable_within INT_MAX t ->
  mt_get (mapping_table t) p = Ok (Some n) ->
  is_leaf (hdr_of n) = true ->
  0 <= slotuse (hdr_of n) <= leafslotmax /\
  (need_split (hdr_of n) = true -> slotuse (hdr_of n) = leafslotmax) /\
  exists ks vs,
    leaf_fake_consolidate n = Ok (ks, vs) /\
    Z.of_nat (length ks) = slotuse (hdr_of n) /\
    Z.of_nat (length vs) = slotuse (hdr_of n).
Proof.
  intros Hr Hget Hil. destruct (reachable_Inv t Hr) as [g HI].
  pose proof HI as (_ & Hlive & _).
  pose proof (Hlive _ _ Hget) as Hg.
  destruct (good_leaf_fit _ _ _ Hg Hil) as [Hsl _].
  destruct (good_leaf_inv _ _ _ Hg Hil)
    as (_ & (ks & vs & Hf & _ & _ & _ & Hsu) & _).
  pose proof (leaf_fake_consolidate_lengths _ _ _ Hf) as Hl.
  split; [lia|]. split.
  - intros Hns. pose proof (need_split_leaf _ Hil Hns). lia.
  - exists ks, vs. split; [done|]. lia.
Qed.

(** X29: an index with unique keys keeps one value per key.  When
    [HasUniqueKeys] is true, in a state reached as above every key of
    the projection of every leaf page has exactly one value, so the
    projection holds at most one value for any key. *)
Theorem unique_keys_single_value (t : BWTreeState KeyType) p n ks vs :
  HasUniqueKeys = true ->
  reachable_within INT_MAX t ->
  mt_get (mapping_table t) p = Ok (Some n) ->
  is_leaf (hdr_of n) = true ->
  leaf_fake_consolidate n = Ok (ks, vs) ->
  Forall (fun v => length v = 1%nat) vs /\
  forall key, (length (vals_of key ks vs) <= 1)%nat.
Proof.
  intros Hu Hr Hget Hil Hf. destruct (reachable_Inv t Hr) as [g HI].
  pose proof HI as (_ & Hlive & _).
  destruct (good_leaf_fit _ _ _ (Hlive _ _ Hget) Hil) as [_ Hun].
  pose proof (Hun Hu ks vs Hf) as Hone.
  split; [done|]. intros key. by apply vals_of_single.
Qed.

(** X30: the point read of an index with unique keys finds at most one
    value.  When [HasUniqueKeys] is true, in a state reached as above,
    when [search] leads to a page whose head covers the key,
    [get_value] succeeds and appends at most one value to the result. *)
Theorem unique_get_value_at_most_one (t : BWTreeState KeyType) key fuel p rest
    head result_ :
  HasUniqueKeys = true ->
  reachable_within INT_MAX t ->
  search fuel t (root t) key = Ok (p :: rest) ->
  mt_get (mapping_table t) p = Ok (Some head) ->
  key_in_node key (hdr_of head) = true ->
  (length (chain_to_base head) + 1 <= fuel)%nat ->
  exists l,
    get_value (S fuel) t key result_ = Ok (result_ ++ l) /\
    (length l <= 1)%nat.
Proof.
  intros Hu Hr Hs Hget Hin Hfuel. destruct (reachable_Inv t Hr) as [g HI].
  pose proof HI as (_ & Hlive & _).
  pose proof (Hlive _ _ Hget) as Hg.
  destruct (search_kinds g t key fuel _ _ HI Hs)
    as [?|(top & rest' & [= <- <-] & Htop & _)]; [done|].
  pose proof (leaf_page_good _ _ _ Htop Hg) as Hil.
  destruct (good_leaf_inv _ _ _ Hg Hil) as (_ & (ks & vs & Hf & _) & _).
  destruct (good_leaf_fit _ _ _ Hg Hil) as [_ Hun].
  destruct (get_value_at_page g t key fuel p rest head ks vs result_
              HI Hs Hget Hin Hf Hfuel) as (l & Hgv & Hperm).
  exists l. split; [done|].
  rewrite (Permutation_length Hperm). apply vals_of_single. by eapply Hun.
Qed.

End Ordered.

End Properties.

(** * The theorems at concrete inputs *)

Lemma count_pair_bounds_witness :
  Z.of_nat (from_option chain_values O (Some small_chain)) <= INT_MAX /\
  count_pair 1 (item 10) (Some small_chain) = Ok (2, 1) /\
  (0 <= 1 <= 2 /\ (2 <? 1) = false).
Proof.
  assert (Z.of_nat (from_option chain_values O (Some small_chain)) <= INT_MAX)
    as Hsz by (vm_compute; discriminate).
  assert (count_pair 1 (item 10) (Some small_chain) = Ok (2, 1))
    as Hc by (vm_compute; reflexivity).
  split; [exact Hsz|]. split; [exact Hc|].
  exact (count_pair_bounds 1 (item 10) (Some small_chain) 2 1 Hsz Hc).
Defined.

Lemma get_value_visible_witness :
  search 9 small_tree (root small_tree) 1 = Ok [0] /\
  mt_get (mapping_table small_tree) 0 = Ok (Some small_chain) /\
  is_leaf (hdr_of small_chain) = true /\
  (exists recs es,
      leaf_chain_view 1 small_chain = Some (recs, es) /\
      (length (chain_to_base small_chain) + 1 <= 9)%nat /\
      get_value 10 small_tree 1 [] = Ok ([] ++ visible_values 1 recs es)) /\
  get_value 10 small_tree 1 [] = Ok [item 10; item 12].
Proof.
  assert (search 9 small_tree (root small_tree) 1 = Ok [0]) as Hs
    by (vm_compute; reflexivity).
  assert (mt_get (mapping_table small_tree) 0 = Ok (Some small_chain)) as Hg
    by (vm_compute; reflexivity).
  assert (is_leaf (hdr_of small_chain) = true) as Hl
    by (vm_compute; reflexivity).
  assert (length (chain_to_base small_chain) + 1 <= 9)%nat as Hf
    by (vm_compute; lia).
  assert (exists recs es, leaf_chain_view 1 small_chain = Some (recs, es))
    as (recs & es & Hv) by (vm_compute; eauto).
  split; [exact Hs|]. split; [exact Hg|]. split; [exact Hl|]. split.
  - exists recs, es. split; [exact Hv|]. split; [exact Hf|].
    exact (get_value_visible small_tree 1 [] 9 0 [] small_chain recs es
             Hs Hg Hl Hv Hf).
  - vm_compute; reflexivity.
Defined.

#[export] Instance ZKeyLaws : KeyLaws Z.
Proof.
  constructor; simpl.
  - apply Z.ltb_irrefl.
  - intros a b c Hab%Z.ltb_lt Hbc%Z.ltb_lt. apply Z.ltb_lt. lia.
  - intros a b Hab%Z.ltb_ge Hba%Z.ltb_ge. lia.
  - intros a b. apply Z.eqb_eq.
Qed.

Lemma split_leaf_upper_half_witness :
  mt_get (mapping_table full_tree) 0 = Ok (Some full_chain) /\
  leaf_fake_consolidate full_chain
  = Ok ([1; 2; 3; 4; 5; 6; 7; 8], [[item 1]; [item 2]; [item 3]; [item 4];
                                   [item 5]; [item 6]; [item 7]; [item 8]]) /\
  need_split (hdr_of full_chain) = true /\
  exists new_node_pid t' h slotkey slotdata hs,
    split_step1 0 full_chain full_tree
    = Ok ((true, new_node_pid, 5, LeafNode h slotkey slotdata), t') /\
    mt_get (mapping_table t') 0
    = Ok (Some (SplitDelta hs 5 new_node_pid full_chain)) /\
    leaf_entries h slotkey slotdata
    = Some [(5, [item 5]); (6, [item 6]); (7, [item 7]); (8, [item 8])] /\
    low_key h = 5.
Proof.
  assert (mt_get (mapping_table full_tree) 0 = Ok (Some full_chain)) as Hg
    by (vm_compute; reflexivity).
  assert (leaf_fake_consolidate full_chain
          = Ok ([1; 2; 3; 4; 5; 6; 7; 8],
                [[item 1]; [item 2]; [item 3]; [item 4];
                 [item 5]; [item 6]; [item 7]; [item 8]])) as Hf
    by (vm_compute; reflexivity).
  assert (need_split (hdr_of full_chain) = true) as Hn
    by (vm_compute; reflexivity).
  split; [exact Hg|]. split; [exact Hf|]. split; [exact Hn|].
  destruct (split_leaf_upper_half full_tree 0 full_chain _ _ Hg
              ltac:(vm_compute; reflexivity) Hf
              ltac:(vm_compute; reflexivity) ltac:(vm_compute; reflexivity)
              Hn ltac:(vm_compute; reflexivity)
              ltac:(vm_compute; discriminate)
              ltac:(vm_compute; reflexivity) ltac:(vm_compute; reflexivity))
    as (q & pivotal & t' & h & slotkey & slotdata & hs & Hs & _ & Hd & He
        & _ & _ & Hp & _ & Hl & _).
  assert (pivotal = 5) as -> by (vm_compute in Hp; congruence).
  exists q, t', h, slotkey, slotdata, hs.
  split; [exact Hs|]. split; [exact Hd|]. split; [exact He|]. exact Hl.
Defined.

Lemma create_inner_first_child_null_witness :
  inner_fake_consolidate wide_inner
  = Ok ([10; 20; 30; 40; 50; 60; 70; 80], [1; 2; 3; 4; 5; 6; 7; 8; 9]) /\
  need_split (hdr_of wide_inner) = true /\
  exists new_inner_pid t' h slotkey childid,
    create_inner wide_inner small_tree = Ok ((new_inner_pid, 50), t') /\
    mt_get (mapping_table t') new_inner_pid
    = Ok (Some (InnerNode h slotkey childid)) /\
    childid !! 0%nat = Some (Some NULL_PID) /\
    take 4 (drop 1 childid) = [Some 6; Some 7; Some 8; Some 9] /\
    take 4 slotkey = [50; 60; 70; 80].
Proof.
  assert (inner_fake_consolidate wide_inner
          = Ok ([10; 20; 30; 40; 50; 60; 70; 80], [1; 2; 3; 4; 5; 6; 7; 8; 9]))
    as Hf by (vm_compute; reflexivity).
  assert (need_split (hdr_of wide_inner) = true) as Hn
    by (vm_compute; reflexivity).
  split; [exact Hf|]. split; [exact Hn|].
  destruct (create_inner_first_child_null small_tree wide_inner _ _ Hf
              ltac:(vm_compute; reflexivity) Hn ltac:(vm_compute; reflexivity)
              ltac:(vm_compute; discriminate)
              ltac:(vm_compute; reflexivity) ltac:(vm_compute; reflexivity))
    as (q & pivotal & t' & h & slotkey & childid & Hc & Hg & H0 & Hcs & Hks
        & _ & Hp & _).
  assert (pivotal = 50) as -> by (vm_compute in Hp; congruence).
  exists q, t', h, slotkey, childid.
  split; [exact Hc|]. split; [exact Hg|]. split; [exact H0|].
  split; [exact Hcs|exact Hks].
Defined.

Lemma consolidate_projection_witness :
  mt_get (mapping_table long_tree) 0 = Ok (Some long_chain) /\
  delta_list_len (hdr_of long_chain) = 9 /\
  node_projection long_chain
  = Ok (LeafProjection [1] [[item 1; item 2; item 3; item 4; item 5;
                             item 6; item 7; item 8; item 9]]) /\
  exists new t1,
    consolidate 1 0 long_tree = Ok (Some new, t1) /\
    delta_list_len (hdr_of new) = 0 /\
    node_projection new
    = Ok (LeafProjection [1] [[item 1; item 2; item 3; item 4; item 5;
                               item 6; item 7; item 8; item 9]]) /\
    consolidate 1 0 t1 = Ok (Some new, t1).
Proof.
  assert (mt_get (mapping_table long_tree) 0 = Ok (Some long_chain)) as Hg
    by (vm_compute; reflexivity).
  assert (node_projection long_chain
          = Ok (LeafProjection [1] [[item 1; item 2; item 3; item 4; item 5;
                                     item 6; item 7; item 8; item 9]])) as Hp
    by (vm_compute; reflexivity).
  split; [exact Hg|]. split; [vm_compute; reflexivity|]. split; [exact Hp|].
  assert (need_split (hdr_of long_chain) = false) as Hn
    by (vm_compute; reflexivity).
  assert (MAX_DELTA_CHAIN_LEN < delta_list_len (hdr_of long_chain)) as Hd
    by (vm_compute; reflexivity).
  assert (mt_shape (mapping_table long_tree) = true) as Hs1
    by (vm_compute; reflexivity).
  assert (mt_shape (garbage_table long_tree) = true) as Hs2
    by (vm_compute; reflexivity).
  assert (mt_room (garbage_table long_tree) = true) as Hr
    by (vm_compute; reflexivity).
  destruct (consolidate_projection long_tree 0 long_chain _ 0%nat Hg Hn Hd
              Hp ltac:(vm_compute; reflexivity) Hs1 Hs2 Hr)
    as (new & t1 & Hc & _ & _ & Hl & Hpn & _ & Hc2).
  exists new, t1. split; [exact Hc|]. split; [exact Hl|].
  split; [exact Hpn|exact Hc2].
Defined.

Lemma search_null_callers_proceed_witness :
  mt_get (mapping_table holed_tree) (root holed_tree) = Ok (Some holed_root) /\
  null_step holed_tree 9 (holed_root, [root holed_tree]) /\
  (exists fuel0, forall fuel, (fuel0 <= fuel)%nat ->
     search fuel holed_tree (root holed_tree) 9 = Ok []) /\
  search 4 holed_tree (root holed_tree) 9 = Ok [] /\
  get_value 5 holed_tree 9 [] = Err Undefined /\
  insert_entry 5 9 (item 9) holed_tree = Err Undefined.
Proof.
  assert (mt_get (mapping_table holed_tree) (root holed_tree)
          = Ok (Some holed_root)) as Hg by (vm_compute; reflexivity).
  assert (null_step holed_tree 9 (holed_root, [root holed_tree])) as Hn.
  { unfold holed_root. eapply (null_inner _ _ _ _ _ _ 1%nat 1).
    - vm_compute. discriminate.
    - vm_compute. reflexivity.
    - vm_compute. reflexivity.
    - vm_compute. reflexivity. }
  assert (search 4 holed_tree (root holed_tree) 9 = Ok []) as Hs
    by (vm_compute; reflexivity).
  destruct (search_null_callers_proceed holed_tree 9) as [[_ Hnull] Hcall].
  destruct (Hcall 4%nat (item 9) [] Hs) as (Hgv & _ & Hi & _).
  split; [exact Hg|]. split; [exact Hn|].
  split; [exact (Hnull _ _ Hg (rtc_refl _ _) Hn)|].
  split; [exact Hs|]. split; [exact Hgv|exact Hi].
Defined.

(** The claim that every caller of [search] treats the empty path as a
    signal to retry fails here: the root PID of [empty_tree] dereferences
    to null, [search] returns the empty path, and [get_value] goes on to
    [path.top()] whatever the budget. *)
Lemma get_value_does_not_retry :
  search 1 empty_tree (root empty_tree) 7 = Ok [] /\
  (forall fuel, get_value (S (S fuel)) empty_tree 7 [] = Err Undefined).
Proof.
  split; [vm_compute; reflexivity|].
  intros fuel. cbn [get_value].
  assert (search (S fuel) empty_tree (root empty_tree) 7 = Ok []) as ->
    by reflexivity.
  reflexivity.
Qed.

Lemma insert_entry_result_witness :
  search 2 small_tree (root small_tree) 1 = Ok [0] /\
  mt_get (mapping_table small_tree) 0 = Ok (Some small_chain) /\
  key_is_in 1 (Some small_chain) = Ok true /\
  key_is_in 5 (Some small_chain) = Ok false /\
  (exists t', @insert_entry Z ZKey 3 1 (item 13) small_tree = Ok (true, t') /\
     exists basic_pid bn h,
       mt_get (mapping_table t') basic_pid
       = Ok (Some (RecordDelta h INSERT 1 (item 13) bn)) /\
       delta_list_len h = delta_list_len (hdr_of bn) + 1) /\
  (exists t',
     @insert_entry Z ZKeyUnique 3 1 (item 13) small_tree = Ok (false, t')) /\
  (exists t',
     @insert_entry Z ZKeyUnique 3 5 (item 50) small_tree = Ok (true, t')).
Proof.
  assert (search 2 small_tree (root small_tree) 1 = Ok [0]) as Hs
    by (vm_compute; reflexivity).
  assert (search 2 small_tree (root small_tree) 5 = Ok [0]) as Hs5
    by (vm_compute; reflexivity).
  assert (mt_get (mapping_table small_tree) 0 = Ok (Some small_chain)) as Hg
    by (vm_compute; reflexivity).
  assert (key_is_in 1 (Some small_chain) = Ok true) as Hk
    by (vm_compute; reflexivity).
  assert (key_is_in 5 (Some small_chain) = Ok false) as Hk5
    by (vm_compute; reflexivity).
  assert (need_split (hdr_of small_chain) = false) as Hn
    by (vm_compute; reflexivity).
  assert (delta_list_len (hdr_of small_chain) <= MAX_DELTA_CHAIN_LEN) as Hd
    by (vm_compute; discriminate).
  assert (key_in_node 1 (hdr_of small_chain) = true) as Hin
    by (vm_compute; reflexivity).
  assert (key_in_node 5 (hdr_of small_chain) = true) as Hin5
    by (vm_compute; reflexivity).
  assert (1 <= 2)%nat as Hf by lia.
  split; [exact Hs|]. split; [exact Hg|]. split; [exact Hk|].
  split; [exact Hk5|].
  split; [|split].
  - destruct (proj2 (@insert_entry_result Z ZKey 1 (item 13)) 2%nat small_tree
                0 [] small_chain true Hf Hs Hg Hn Hd Hin Hk) as [t' Hi].
    exists t'. split; [exact Hi|].
    destruct (proj1 (@insert_entry_result Z ZKey 1 (item 13)) _ _ _ _ Hi)
      as (f0 & t0 & t1 & basic_pid & bn & kd & _ & _ & _ & _ & _ & Ht).
    destruct (Ht eq_refl) as (h & Hm & Hl).
    exists basic_pid, bn, h. split; [exact Hm|exact Hl].
  - exact (proj2 (@insert_entry_result Z ZKeyUnique 1 (item 13)) 2%nat
             small_tree 0 [] small_chain true Hf Hs Hg Hn Hd Hin Hk).
  - exact (proj2 (@insert_entry_result Z ZKeyUnique 5 (item 50)) 2%nat
             small_tree 0 [] small_chain false Hf Hs5 Hg Hn Hd Hin5 Hk5).
Defined.

Lemma delete_entry_result_witness :
  search 2 small_tree (root small_tree) 1 = Ok [0] /\
  mt_get (mapping_table small_tree) 0 = Ok (Some small_chain) /\
  count_pair 1 (item 10) (Some small_chain) = Ok (2, 1) /\
  count_pair 1 (item 11) (Some small_chain) = Ok (2, 0) /\
  (exists t', delete_entry 3 1 (item 10) small_tree = Ok (true, t') /\
     exists p bn h,
       mt_get (mapping_table t') p
       = Ok (Some (RecordDelta h DELETE 1 (item 10) bn)) /\
       delta_list_len h = delta_list_len (hdr_of bn) + 1) /\
  (exists t', delete_entry 3 1 (item 11) small_tree = Ok (false, t')).
Proof.
  assert (search 2 small_tree (root small_tree) 1 = Ok [0]) as Hs
    by (vm_compute; reflexivity).
  assert (mt_get (mapping_table small_tree) 0 = Ok (Some small_chain)) as Hg
    by (vm_compute; reflexivity).
  assert (count_pair 1 (item 10) (Some small_chain) = Ok (2, 1)) as Hc
    by (vm_compute; reflexivity).
  assert (count_pair 1 (item 11) (Some small_chain) = Ok (2, 0)) as Hc0
    by (vm_compute; reflexivity).
  assert (pid (hdr_of small_chain) = Some 0) as Hp
    by (vm_compute; reflexivity).
  assert (need_split (hdr_of small_chain) = false) as Hn
    by (vm_compute; reflexivity).
  assert (delta_list_len (hdr_of small_chain) <= MAX_DELTA_CHAIN_LEN) as Hd
    by (vm_compute; discriminate).
  assert (key_in_node 1 (hdr_of small_chain) = true) as Hin
    by (vm_compute; reflexivity).
  assert (Z.of_nat (chain_values small_chain) <= INT_MAX) as Hsz
    by (vm_compute; discriminate).
  assert (1 <= 2)%nat as Hf by lia.
  split; [exact Hs|]. split; [exact Hg|]. split; [exact Hc|].
  split; [exact Hc0|]. split.
  - destruct (proj2 (delete_entry_result 1 (item 10)) 2%nat small_tree
                0 [] small_chain 2 1 Hf Hs Hg Hp Hn Hd Hin Hsz Hc) as [t' Hi].
    exists t'. split; [exact Hi|].
    destruct (proj1 (delete_entry_result 1 (item 10)) _ _ _ _ Hi)
      as (f0 & t0 & t1 & bp & bn & tc & pc & _ & _ & _ & _ & _ & Ht).
    destruct (Ht eq_refl) as (p & h & _ & Hm & Hl & _).
    exists p, bn, h. split; [exact Hm|exact Hl].
  - exact (proj2 (delete_entry_result 1 (item 11)) 2%nat small_tree
             0 [] small_chain 2 0 Hf Hs Hg Hp Hn Hd Hin Hsz Hc0).
Defined.

(** A run of operations from the constructor ends in a reachable state. *)
Lemma run_ops_reachable fuel ops (t t' : BWTreeState Z) :
  reachable t -> run_ops fuel ops t = Ok t' -> reachable t'.
Proof.
  revert t. induction ops as [|o ops IH]; intros t Hr Hrun;
    cbn [run_ops] in Hrun; [by simplify_eq|].
  apply bind_Ok in Hrun as ([b t1] & Ho & Hrun).
  apply (IH t1); [|done].
  destruct o as [k v|k v];
    [eapply reachable_insert|eapply reachable_delete]; done.
Qed.

Lemma tree_of_reachable ops (t : BWTreeState Z) :
  tree_of ops = Ok t -> reachable t.
Proof.
  unfold tree_of. intros Ht. apply bind_Ok in Ht as (t0 & H0 & Ht).
  eapply run_ops_reachable; [|done]. by apply reachable_ctor.
Qed.

Lemma delta_list_len_invariant_witness :
  reachable small_tree /\
  mt_get (mapping_table small_tree) 0 = Ok (Some small_chain) /\
  small_chain ∈ chain_to_base small_chain /\
  len_step small_chain /\
  delta_list_len (hdr_of small_chain) = 7.
Proof.
  assert (reachable small_tree) as Hr.
  { apply (tree_of_reachable
             [Ins 1 (item 10); Ins 1 (item 11); Ins 2 (item 20);
              Del 1 (item 10); Ins 1 (item 12); Ins 1 (item 10);
              Del 1 (item 11)]).
    vm_compute. reflexivity. }
  assert (mt_get (mapping_table small_tree) 0 = Ok (Some small_chain)) as Hg
    by (vm_compute; reflexivity).
  assert (small_chain ∈ chain_to_base small_chain) as HD
    by apply list_elem_of_here.
  split; [exact Hr|]. split; [exact Hg|]. split; [exact HD|].
  split; [|vm_compute; reflexivity].
  exact (delta_list_len_invariant small_tree 0 small_chain small_chain
           Hr Hg HD).
Defined.

Lemma scan_all_concat_witness :
  scan 4 two_leaf_tree [] []
  = Ok ([1; 2; 3; 4; 5; 6; 7; 8; 9],
        [[item 1]; [item 2]; [item 3]; [item 4]; [item 5]; [item 6];
         [item 7]; [item 8]; [item 9]]) /\
  scan_all 4 two_leaf_tree []
  = Ok [item 1; item 2; item 3; item 4; item 5; item 6; item 7; item 8;
        item 9].
Proof.
  assert (scan 4 two_leaf_tree [] []
          = Ok ([1; 2; 3; 4; 5; 6; 7; 8; 9],
                [[item 1]; [item 2]; [item 3]; [item 4]; [item 5]; [item 6];
                 [item 7]; [item 8]; [item 9]])) as Hs
    by (vm_compute; reflexivity).
  split; [exact Hs|].
  exact (proj1 (scan_all_concat two_leaf_tree 4 _ _ Hs)).
Defined.

(** The chain of [small_tree] is a leaf chain as the operations build
    it. *)
Lemma small_chain_good : leaf_chain_good small_chain.
Proof.
  unfold small_chain.
  repeat match goal with
  | |- leaf_chain_good _ => cbn [leaf_chain_good]
  | |- _ /\ _ => split
  | |- True => exact I
  | |- leaf_sem _ =>
      eexists _, _; split; [vm_compute; reflexivity|];
      split; [vm_compute; reflexivity|];
      split; [repeat constructor; discriminate|];
      split; [repeat constructor|vm_compute; reflexivity]
  | |- same_range _ _ => repeat split
  | |- _ <> UPDATE => discriminate
  | |- _ = _ => reflexivity
  end.
Qed.

Lemma key_is_in_projection_witness :
  leaf_fake_consolidate small_chain
  = Ok ([1; 2], [[item 12; item 10]; [item 20]]) /\
  key_is_in 1 (Some small_chain) = Ok true /\
  key_is_in 3 (Some small_chain) = Ok false.
Proof.
  assert (leaf_fake_consolidate small_chain
          = Ok ([1; 2], [[item 12; item 10]; [item 20]])) as Hf
    by (vm_compute; reflexivity).
  split; [exact Hf|]. split.
  - exact (key_is_in_projection small_chain 1 _ _ small_chain_good Hf
             ltac:(vm_compute; reflexivity)).
  - exact (key_is_in_projection small_chain 3 _ _ small_chain_good Hf
             ltac:(vm_compute; reflexivity)).
Defined.

Lemma count_pair_projection_witness :
  leaf_fake_consolidate small_chain
  = Ok ([1; 2], [[item 12; item 10]; [item 20]]) /\
  count_pair 1 (item 10) (Some small_chain) = Ok (2, 1) /\
  count_pair 2 (item 10) (Some small_chain) = Ok (1, 0).
Proof.
  assert (leaf_fake_consolidate small_chain
          = Ok ([1; 2], [[item 12; item 10]; [item 20]])) as Hf
    by (vm_compute; reflexivity).
  split; [exact Hf|]. split.
  - exact (count_pair_projection small_chain 1 (item 10) _ _ small_chain_good
             Hf ltac:(vm_compute; reflexivity)
             ltac:(vm_compute; discriminate)).
  - exact (count_pair_projection small_chain 2 (item 10) _ _ small_chain_good
             Hf ltac:(vm_compute; reflexivity)
             ltac:(vm_compute; discriminate)).
Defined.

Lemma mapping_table_add_get_witness :
  mt_shape (mapping_table small_tree) = true /\
  mt_room (mapping_table small_tree) = true /\
  nextPid (mapping_table small_tree) = 1 /\
  exists mt',
    mt_add (mapping_table small_tree) (Some wide_inner) = Ok (1, mt') /\
    mt_get mt' 1 = Ok (Some (assign_pid 1 wide_inner)) /\
    mt_get mt' 0 = Ok (Some small_chain) /\
    nextPid mt' = 2.
Proof.
  assert (mt_shape (mapping_table small_tree) = true) as Hsh
    by (vm_compute; reflexivity).
  assert (mt_room (mapping_table small_tree) = true) as Hroom
    by (vm_compute; reflexivity).
  split; [exact Hsh|]. split; [exact Hroom|]. split; [reflexivity|].
  destruct (mapping_table_add_get (mapping_table small_tree) wide_inner
              Hsh Hroom) as (mt' & Ha & Hg & _ & Hother & Hnp & _).
  exists mt'. split; [exact Ha|]. split; [exact Hg|]. split; [|exact Hnp].
  rewrite (Hother 0) by discriminate. vm_compute. reflexivity.
Defined.

Lemma mapping_table_set_cas_witness :
  mt_shape (mapping_table small_tree) = true /\
  exists mt',
    mt_set (mapping_table small_tree) 0 (Some small_chain) (Some wide_inner)
    = Ok (true, mt') /\
    mt_get mt' 0 = Ok (Some (assign_pid 0 wide_inner)) /\
    mt_get mt' 1 = Ok None.
Proof.
  assert (mt_shape (mapping_table small_tree) = true) as Hsh
    by (vm_compute; reflexivity).
  split; [exact Hsh|].
  destruct (mt_set_succeeds (mapping_table small_tree) 0 small_chain
              (Some small_chain) (Some wide_inner)
              ltac:(vm_compute; reflexivity) ltac:(vm_compute; reflexivity))
    as [mt' Hs].
  exists mt'. split; [exact Hs|].
  destruct (mapping_table_set_cas _ _ _ _ _ _ Hsh Hs) as [Ht _].
  destruct (Ht eq_refl) as (_ & Hg & Hother).
  split; [exact Hg|]. rewrite (Hother 1) by discriminate.
  vm_compute. reflexivity.
Defined.

Lemma mapping_table_set_refuses_witness :
  mappingtable_1 (mapping_table small_tree) !! 1%nat = Some None /\
  mt_set (mapping_table small_tree) 1024 None (Some wide_inner)
  = Ok (false, mapping_table small_tree) /\
  mt_get (mapping_table small_tree) 0 = Ok (Some small_chain) /\
  mt_set (mapping_table small_tree) 0 (Some wide_inner) None
  = Ok (false, mapping_table small_tree).
Proof.
  assert (mappingtable_1 (mapping_table small_tree) !! 1%nat = Some None)
    as Hblk by (vm_compute; reflexivity).
  assert (mt_get (mapping_table small_tree) 0 = Ok (Some small_chain)) as Hg
    by (vm_compute; reflexivity).
  split; [exact Hblk|]. split; [|split; [exact Hg|]].
  - exact (proj1 (mapping_table_set_refuses (mapping_table small_tree) 1024
                    None (Some wide_inner) ltac:(vm_compute; discriminate))
                 Hblk).
  - exact (proj2 (mapping_table_set_refuses (mapping_table small_tree) 0
                    (Some wide_inner) None ltac:(vm_compute; discriminate))
                 _ Hg ltac:(discriminate) ltac:(vm_compute; reflexivity)).
Defined.

Lemma mapping_table_remove_witness :
  mt_shape (mapping_table two_leaf_tree) = true /\
  (exists n, mt_get (mapping_table two_leaf_tree) 1 = Ok (Some n)) /\
  (exists mt',
     mt_remove (mapping_table two_leaf_tree) 1 = Ok mt' /\
     mt_get mt' 1 = Ok None /\
     mt_get mt' 0 = mt_get (mapping_table two_leaf_tree) 0) /\
  mt_remove (mapping_table two_leaf_tree) 1024 = Err Undefined.
Proof.
  assert (mt_shape (mapping_table two_leaf_tree) = true) as Hsh
    by (vm_compute; reflexivity).
  assert (exists n, mt_get (mapping_table two_leaf_tree) 1 = Ok (Some n))
    as [n Hn] by (vm_compute; eauto).
  destruct (mapping_table_remove (mapping_table two_leaf_tree) 1 Hsh)
    as [Hlive _].
  destruct (mapping_table_remove (mapping_table two_leaf_tree) 1024 Hsh)
    as [_ Hnull].
  split; [exact Hsh|]. split; [by exists n|]. split.
  - destruct (Hlive n Hn) as (mt' & Hr & Hg & Hother & _).
    exists mt'. split; [exact Hr|]. split; [exact Hg|].
    apply Hother. discriminate.
  - apply Hnull; [vm_compute; discriminate|vm_compute; reflexivity].
Defined.

Lemma mapping_table_get_bounds_witness :
  mt_shape (mapping_table small_tree) = true /\
  mt_get (mapping_table small_tree) 0 = Ok (Some small_chain) /\
  mt_get (mapping_table small_tree) 1048575 = Ok None /\
  mt_get (mapping_table small_tree) 1048576 = Err Undefined.
Proof.
  assert (mt_shape (mapping_table small_tree) = true) as Hsh
    by (vm_compute; reflexivity).
  destruct (mapping_table_get_bounds (mapping_table small_tree) Hsh)
    as (_ & _ & Hout).
  split; [exact Hsh|]. split; [vm_compute; reflexivity|].
  split; [vm_compute; reflexivity|].
  apply Hout. vm_compute. discriminate.
Defined.

Lemma Scan_filters_scan_witness :
  scan 4 two_leaf_tree [] []
  = Ok ([1; 2; 3; 4; 5; 6; 7; 8; 9],
        [[item 1]; [item 2]; [item 3]; [item 4]; [item 5]; [item 6];
         [item 7]; [item 8]; [item 9]]) /\
  Scan 4 two_leaf_tree (fun k => 6 <? k) SCAN_DIRECTION_TYPE_FORWARD
  = Ok (inr [item 7; item 8; item 9]) /\
  Scan 4 two_leaf_tree (fun k => 6 <? k) SCAN_DIRECTION_TYPE_BACKWARD
  = Ok (inr [item 7; item 8; item 9]).
Proof.
  assert (scan 4 two_leaf_tree [] []
          = Ok ([1; 2; 3; 4; 5; 6; 7; 8; 9],
                [[item 1]; [item 2]; [item 3]; [item 4]; [item 5]; [item 6];
                 [item 7]; [item 8]; [item 9]])) as Hs
    by (vm_compute; reflexivity).
  destruct (Scan_filters_scan two_leaf_tree 4 (fun k => 6 <? k) _ _ Hs
              ltac:(vm_compute; discriminate)) as (Hf & Hb & _).
  split; [exact Hs|]. split; [exact Hf|exact Hb].
Defined.

Lemma Scan_all_keys_witness :
  Scan 4 two_leaf_tree (fun _ => true) SCAN_DIRECTION_TYPE_FORWARD
  = Ok (inr [item 1; item 2; item 3; item 4; item 5; item 6; item 7; item 8;
             item 9]) /\
  ScanAllKeys 4 two_leaf_tree
  = Ok [item 1; item 2; item 3; item 4; item 5; item 6; item 7; item 8;
        item 9].
Proof.
  assert (Scan 4 two_leaf_tree (fun _ => true) SCAN_DIRECTION_TYPE_FORWARD
          = Ok (inr [item 1; item 2; item 3; item 4; item 5; item 6; item 7;
                     item 8; item 9])) as HS by (vm_compute; reflexivity).
  split; [exact HS|]. exact (Scan_all_keys two_leaf_tree 4 _ HS).
Defined.

Lemma insert_then_get_value_witness :
  search 10 small_tree (root small_tree) 1 = Ok [0] /\
  mt_get (mapping_table small_tree) 0 = Ok (Some small_chain) /\
  key_is_in 1 (Some small_chain) = Ok true /\
  get_value 11 small_tree 1 [] = Ok [item 10; item 12] /\
  exists t',
    insert_entry 11 1 (item 13) small_tree = Ok (true, t') /\
    get_value 11 t' 1 [] = Ok [item 13; item 10; item 12].
Proof.
  assert (search 10 small_tree (root small_tree) 1 = Ok [0]) as Hs
    by (vm_compute; reflexivity).
  assert (mt_get (mapping_table small_tree) 0 = Ok (Some small_chain)) as Hg
    by (vm_compute; reflexivity).
  assert (key_is_in 1 (Some small_chain) = Ok true) as Hk
    by (vm_compute; reflexivity).
  assert (leaf_chain_view 1 small_chain = Some small_view) as Hv
    by (vm_compute; reflexivity).
  assert (visible_values 1 small_view.1 small_view.2 = [item 10; item 12])
    as Hvis by (vm_compute; reflexivity).
  split; [exact Hs|]. split; [exact Hg|]. split; [exact Hk|].
  destruct (insert_then_get_value small_tree 1 (item 13) 9 0 [] small_chain
              true small_view.1 small_view.2 Hs Hg
              ltac:(vm_compute; reflexivity) ltac:(vm_compute; reflexivity)
              ltac:(vm_compute; discriminate) ltac:(vm_compute; reflexivity)
              ltac:(vm_compute; reflexivity) Hv ltac:(vm_compute; lia) Hk
              ltac:(reflexivity)) as (Hold & t' & Hi & Hnew).
  rewrite Hvis in Hold, Hnew.
  split; [exact Hold|]. exists t'. split; [exact Hi|exact Hnew].
Defined.

Lemma delete_then_get_value_witness :
  search 10 small_tree (root small_tree) 1 = Ok [0] /\
  mt_get (mapping_table small_tree) 0 = Ok (Some small_chain) /\
  count_pair 1 (item 10) (Some small_chain) = Ok (2, 1) /\
  get_value 11 small_tree 1 [] = Ok [item 10; item 12] /\
  exists t',
    delete_entry 11 1 (item 10) small_tree = Ok (true, t') /\
    get_value 11 t' 1 [] = Ok [item 12].
Proof.
  assert (search 10 small_tree (root small_tree) 1 = Ok [0]) as Hs
    by (vm_compute; reflexivity).
  assert (mt_get (mapping_table small_tree) 0 = Ok (Some small_chain)) as Hg
    by (vm_compute; reflexivity).
  assert (count_pair 1 (item 10) (Some small_chain) = Ok (2, 1)) as Hc
    by (vm_compute; reflexivity).
  assert (leaf_chain_view 1 small_chain = Some small_view) as Hv
    by (vm_compute; reflexivity).
  assert (visible_values 1 small_view.1 small_view.2 = [item 10; item 12])
    as Hvis by (vm_compute; reflexivity).
  split; [exact Hs|]. split; [exact Hg|]. split; [exact Hc|].
  destruct (delete_then_get_value small_tree 1 (item 10) 9 0 [] small_chain
              2 1 small_view.1 small_view.2 Hs Hg
              ltac:(vm_compute; reflexivity) ltac:(vm_compute; reflexivity)
              ltac:(vm_compute; reflexivity) ltac:(vm_compute; discriminate)
              ltac:(vm_compute; reflexivity) ltac:(vm_compute; reflexivity)
              Hv ltac:(vm_compute; lia) Hc ltac:(lia))
    as (Hold & t' & Hd & Hnew).
  rewrite Hvis in Hold, Hnew.
  split; [exact Hold|]. exists t'. split; [exact Hd|exact Hnew].
Defined.

Lemma inner_child_index_first_witness :
  inner_child_index 25 [10; 20; 30; 0] 0 3 = Ok 2%nat /\
  inner_child_index 35 [10; 20; 30; 0] 0 3 = Ok 3%nat /\
  inner_child_index 5 [10; 20; 30; 0] 0 3 = Ok 0%nat.
Proof.
  destruct (inner_child_index_first 25 [10; 20; 30; 0] 3 ltac:(cbn; lia))
    as (i & Hi & _).
  split; [|split; vm_compute; reflexivity].
  rewrite Hi. vm_compute in Hi. symmetry. exact Hi.
Defined.

Lemma create_root_two_children_witness :
  mt_shape (mapping_table small_tree) = true /\
  mt_room (mapping_table small_tree) = true /\
  exists t' h slotkey childid,
    create_root 0 5 7 small_tree = Ok (tt, t') /\
    root t' = 1 /\
    mt_get (mapping_table t') 1 = Ok (Some (InnerNode h slotkey childid)) /\
    mt_get (mapping_table t') 0 = Ok (Some small_chain) /\
    slotuse h = 1 /\
    slotkey !! 0%nat = Some 7 /\
    childid !! 0%nat = Some (Some 0) /\
    childid !! 1%nat = Some (Some 5).
Proof.
  assert (mt_shape (mapping_table small_tree) = true) as Hsh
    by (vm_compute; reflexivity).
  assert (mt_room (mapping_table small_tree) = true) as Hroom
    by (vm_compute; reflexivity).
  split; [exact Hsh|]. split; [exact Hroom|].
  destruct (create_root_two_children small_tree 0 5 7 Hsh Hroom
              ltac:(vm_compute; discriminate))
    as (t' & h & slotkey & childid & Hc & Hr & Hg & Hother & Hsu & _ & _ & _
        & Hk & Hc0 & Hc1 & _).
  exists t', h, slotkey, childid.
  assert (root t' = 1) as Hr1 by exact Hr.
  split; [exact Hc|]. split; [exact Hr1|]. rewrite Hr1 in Hg, Hother.
  split; [exact Hg|]. split.
  { rewrite (Hother 0) by discriminate. vm_compute. reflexivity. }
  split; [exact Hsu|]. split; [exact Hk|]. split; [exact Hc0|exact Hc1].
Defined.

Lemma run_ops_within B fuel ops (t t' : BWTreeState Z) :
  reachable_within B t -> ops_within B fuel ops t = true ->
  run_ops fuel ops t = Ok t' -> reachable_within B t'.
Proof.
  revert t. induction ops as [|o ops IH]; intros t Hr Hw Hrun;
    cbn [run_ops ops_within] in Hrun, Hw; [by simplify_eq|].
  apply bind_Ok in Hrun as ([b t1] & Ho & Hrun).
  rewrite Ho in Hw. apply andb_prop in Hw as [Hb%Z.leb_le Hw].
  apply (IH t1); [|done..].
  destruct o as [k v|k v];
    [eapply within_insert|eapply within_delete]; done.
Qed.

Lemma tree_of_within B ops (t : BWTreeState Z) :
  tree_of ops = Ok t ->
  match BWTree_ctor with
  | Ok t0 => ops_within B 64 ops t0
  | Err _ => false
  end = true ->
  reachable_within B t.
Proof.
  unfold tree_of. intros Ht Hw. apply bind_Ok in Ht as (t0 & H0 & Ht).
  rewrite H0 in Hw.
  eapply run_ops_within; [|done..]. by apply within_ctor.
Qed.

Lemma small_tree_within : reachable_within INT_MAX small_tree.
Proof.
  apply (tree_of_within INT_MAX
           [Ins 1 (item 10); Ins 1 (item 11); Ins 2 (item 20);
            Del 1 (item 10); Ins 1 (item 12); Ins 1 (item 10);
            Del 1 (item 11)]); vm_compute; reflexivity.
Qed.

Lemma two_leaf_tree_within : reachable_within INT_MAX two_leaf_tree.
Proof.
  apply (tree_of_within INT_MAX
           [Ins 1 (item 1); Ins 2 (item 2); Ins 3 (item 3);
            Ins 4 (item 4); Ins 5 (item 5); Ins 6 (item 6);
            Ins 7 (item 7); Ins 8 (item 8); Ins 9 (item 9)]);
    vm_compute; reflexivity.
Qed.

Lemma scan_ascending_witness :
  reachable_within INT_MAX two_leaf_tree /\
  nextPid (mapping_table two_leaf_tree) = 3 /\
  exists ks vs,
    scan 5 two_leaf_tree [] [] = Ok (ks, vs) /\
    sorted_keys ks = true /\
    length ks = length vs /\
    Forall (fun v => v <> []) vs /\
    scan_all 5 two_leaf_tree [] = Ok (concat vs).
Proof.
  split; [exact two_leaf_tree_within|]. split; [vm_compute; reflexivity|].
  apply (scan_ascending two_leaf_tree 5 two_leaf_tree_within).
  vm_compute. lia.
Defined.

Lemma leaf_page_projection_witness :
  mt_get (mapping_table small_tree) 0 = Ok (Some small_chain) /\
  is_leaf (hdr_of small_chain) = true /\
  pid (hdr_of small_chain) = Some 0 /\
  exists ks vs,
    leaf_fake_consolidate small_chain = Ok (ks, vs) /\
    sorted_keys ks = true /\
    length ks = length vs /\
    Forall (fun v => v <> []) vs /\
    Forall (fun k => key_in_node k (hdr_of small_chain) = true) ks /\
    slotuse (hdr_of small_chain) = Z.of_nat (length ks).
Proof.
  assert (mt_get (mapping_table small_tree) 0 = Ok (Some small_chain)) as Hg
    by (vm_compute; reflexivity).
  assert (is_leaf (hdr_of small_chain) = true) as Hil by reflexivity.
  split; [exact Hg|]. split; [exact Hil|].
  exact (leaf_page_projection small_tree 0 small_chain small_tree_within
           Hg Hil).
Defined.

Lemma leaf_sibling_link_witness :
  mt_get (mapping_table two_leaf_tree) 0 = Ok (Some two_leaf_left) /\
  next_leafnode (hdr_of two_leaf_left) = 1 /\
  mt_get (mapping_table two_leaf_tree) 1 = Ok (Some two_leaf_right) /\
  is_leaf (hdr_of two_leaf_right) = true /\
  inf_highkey (hdr_of two_leaf_left) = false /\
  inf_lowkey (hdr_of two_leaf_right) = false /\
  low_key (hdr_of two_leaf_right) = high_key (hdr_of two_leaf_left).
Proof.
  assert (mt_get (mapping_table two_leaf_tree) 0 = Ok (Some two_leaf_left))
    as Hl by (vm_compute; reflexivity).
  assert (mt_get (mapping_table two_leaf_tree)
                 (next_leafnode (hdr_of two_leaf_left))
          = Ok (Some two_leaf_right)) as Hr by (vm_compute; reflexivity).
  split; [exact Hl|]. split; [reflexivity|]. split; [exact Hr|].
  exact (leaf_sibling_link two_leaf_tree 0 two_leaf_left two_leaf_right
           two_leaf_tree_within Hl eq_refl Hr).
Defined.

Lemma chain_node_kinds_witness :
  mt_get (mapping_table small_tree) 0 = Ok (Some small_chain) /\
  small_chain ∈ chain_to_base small_chain /\
  is_leaf (hdr_of small_chain) = true /\
  match small_chain with
  | RecordDelta _ op _ _ _ => op <> UPDATE
  | _ => False
  end.
Proof.
  assert (mt_get (mapping_table small_tree) 0 = Ok (Some small_chain)) as Hg
    by (vm_compute; reflexivity).
  assert (small_chain ∈ chain_to_base small_chain) as HD
    by apply list_elem_of_here.
  split; [exact Hg|]. split; [exact HD|].
  exact (proj2 (chain_node_kinds small_tree 0 small_chain small_chain
                  small_tree_within Hg HD)).
Defined.

Lemma readers_exact_witness :
  key_is_in 1 (Some small_chain) = Ok true /\
  count_pair 1 (item 10) (Some small_chain) = Ok (2, 1).
Proof.
  assert (mt_get (mapping_table small_tree) 0 = Ok (Some small_chain)) as Hg
    by (vm_compute; reflexivity).
  assert (leaf_fake_consolidate small_chain
          = Ok ([1; 2], [[item 12; item 10]; [item 20]])) as Hf
    by (vm_compute; reflexivity).
  exact (readers_exact small_tree 0 small_chain 1 (item 10) _ _
           small_tree_within Hg eq_refl Hf eq_refl).
Defined.

Lemma ZKeyUniqueLaws : @KeyLaws Z ZKeyUnique.
Proof.
  constructor; simpl.
  - apply Z.ltb_irrefl.
  - intros a b c Hab%Z.ltb_lt Hbc%Z.ltb_lt. apply Z.ltb_lt. lia.
  - intros a b Hab%Z.ltb_ge Hba%Z.ltb_ge. lia.
  - intros a b. apply Z.eqb_eq.
Qed.

Lemma unique_tree_within : @reachable_within Z ZKeyUnique INT_MAX unique_tree.
Proof.
  apply (@within_insert Z ZKeyUnique INT_MAX 64%nat 1 (item 10) unique_fresh
           true unique_tree).
  - apply within_ctor. vm_compute. reflexivity.
  - vm_compute. reflexivity.
  - apply Z.leb_le. vm_compute. reflexivity.
Qed.

Lemma insert_entry_adds_value_witness :
  insert_entry 64 3 (item 30) small_tree = Ok (true, small_tree_ins) /\
  exists p h bn ks vs ks' vs',
    mt_get (mapping_table small_tree_ins) p
    = Ok (Some (RecordDelta h INSERT 3 (item 30) bn)) /\
    key_in_node 3 h = true /\
    leaf_fake_consolidate bn = Ok (ks, vs) /\
    leaf_fake_consolidate (RecordDelta h INSERT 3 (item 30) bn)
    = Ok (ks', vs') /\
    forall k,
      vals_of k ks' vs'
      = vals_of k ks vs ++ (if key_equal 3 k then [item 30] else []).
Proof.
  assert (insert_entry 64 3 (item 30) small_tree = Ok (true, small_tree_ins))
    as Hi by (vm_compute; reflexivity).
  split; [exact Hi|].
  apply (insert_entry_adds_value small_tree 64 3 (item 30) small_tree_ins
           small_tree_within Hi).
  apply Z.leb_le. vm_compute. reflexivity.
Defined.

Lemma insert_entry_refuses_present_witness :
  @insert_entry Z ZKeyUnique 64 1 (item 11) unique_tree
  = Ok (false, unique_tree) /\
  @HasUniqueKeys Z ZKeyUnique = true /\
  exists p bn ks vs,
    mt_get (mapping_table unique_tree) p = Ok (Some bn) /\
    @key_in_node Z ZKeyUnique 1 (hdr_of bn) = true /\
    @leaf_fake_consolidate Z ZKeyUnique bn = Ok (ks, vs) /\
    @vals_of Z ZKeyUnique 1 ks vs <> [].
Proof.
  assert (@insert_entry Z ZKeyUnique 64 1 (item 11) unique_tree
          = Ok (false, unique_tree)) as Hi by (vm_compute; reflexivity).
  split; [exact Hi|].
  apply (@insert_entry_refuses_present Z ZKeyUnique ZKeyUniqueLaws
           unique_tree 64 1 (item 11) unique_tree unique_tree_within Hi).
  apply Z.leb_le. vm_compute. reflexivity.
Defined.

Lemma delete_entry_removes_value_witness :
  delete_entry 64 1 (item 12) small_tree = Ok (true, small_tree_del) /\
  exists p h bn ks vs ks' vs',
    mt_get (mapping_table small_tree_del) p
    = Ok (Some (RecordDelta h DELETE 1 (item 12) bn)) /\
    leaf_fake_consolidate bn = Ok (ks, vs) /\
    leaf_fake_consolidate (RecordDelta h DELETE 1 (item 12) bn)
    = Ok (ks', vs') /\
    (item 12 ∈ vals_of 1 ks vs) /\
    (item 12 ∉ vals_of 1 ks' vs') /\
    forall k,
      vals_of k ks' vs'
      = if key_equal 1 k then erase_value (item 12) (vals_of k ks vs)
        else vals_of k ks vs.
Proof.
  assert (delete_entry 64 1 (item 12) small_tree = Ok (true, small_tree_del))
    as Hd by (vm_compute; reflexivity).
  split; [exact Hd|].
  apply (delete_entry_removes_value small_tree 64 1 (item 12) small_tree_del
           small_tree_within Hd).
  apply Z.leb_le. vm_compute. reflexivity.
Defined.

Lemma delete_entry_refuses_absent_witness :
  delete_entry 64 1 (item 99) small_tree = Ok (false, small_tree) /\
  exists p bn ks vs,
    mt_get (mapping_table small_tree) p = Ok (Some bn) /\
    key_in_node 1 (hdr_of bn) = true /\
    leaf_fake_consolidate bn = Ok (ks, vs) /\
    (item 99 ∉ vals_of 1 ks vs).
Proof.
  assert (delete_entry 64 1 (item 99) small_tree = Ok (false, small_tree))
    as Hd by (vm_compute; reflexivity).
  split; [exact Hd|].
  apply (delete_entry_refuses_absent small_tree 64 1 (item 99) small_tree
           small_tree_within Hd).
  apply Z.leb_le. vm_compute. reflexivity.
Defined.

Lemma search_path_kinds_witness :
  search 4 two_leaf_tree (root two_leaf_tree) 9 = Ok [1; 2] /\
  (forall n, mt_get (mapping_table two_leaf_tree) 1 = Ok (Some n) ->
             is_leaf (hdr_of n) = true) /\
  Forall (fun q => forall n,
              mt_get (mapping_table two_leaf_tree) q = Ok (Some n) ->
              is_leaf (hdr_of n) = false) [2].
Proof.
  assert (search 4 two_leaf_tree (root two_leaf_tree) 9 = Ok [1; 2]) as Hs
    by (vm_compute; reflexivity).
  split; [exact Hs|].
  exact (search_path_kinds two_leaf_tree 4 (root two_leaf_tree) 9 1 [2]
           two_leaf_tree_within Hs).
Defined.

Lemma split_keeps_projection_witness :
  mt_get (mapping_table full_tree) 0 = Ok (Some full_chain) /\
  leaf_fake_consolidate full_chain
  = Ok ([1; 2; 3; 4; 5; 6; 7; 8], [[item 1]; [item 2]; [item 3]; [item 4];
                                   [item 5]; [item 6]; [item 7]; [item 8]]) /\
  need_split (hdr_of full_chain) = true /\
  exists new_node_pid pivotal new_node head t',
    split_step1 0 full_chain full_tree
    = Ok ((true, new_node_pid, pivotal, new_node), t') /\
    mt_get (mapping_table t') 0 = Ok (Some head) /\
    mt_get (mapping_table t') new_node_pid = Ok (Some new_node) /\
    next_leafnode (hdr_of head) = new_node_pid /\
    exists ks1 vs1 ks2 vs2,
      leaf_fake_consolidate head = Ok (ks1, vs1) /\
      leaf_fake_consolidate new_node = Ok (ks2, vs2) /\
      ks1 ++ ks2 = [1; 2; 3; 4; 5; 6; 7; 8] /\
      vs1 ++ vs2 = [[item 1]; [item 2]; [item 3]; [item 4];
                    [item 5]; [item 6]; [item 7]; [item 8]] /\
      length ks1 = 4%nat /\
      Forall (fun k => m_key_less k pivotal = true) ks1 /\
      Forall (fun k => m_key_less k pivotal = false) ks2.
Proof.
  assert (mt_get (mapping_table full_tree) 0 = Ok (Some full_chain)) as Hg
    by (vm_compute; reflexivity).
  assert (leaf_fake_consolidate full_chain
          = Ok ([1; 2; 3; 4; 5; 6; 7; 8],
                [[item 1]; [item 2]; [item 3]; [item 4];
                 [item 5]; [item 6]; [item 7]; [item 8]])) as Hf
    by (vm_compute; reflexivity).
  assert (need_split (hdr_of full_chain) = true) as Hn
    by (vm_compute; reflexivity).
  split; [exact Hg|]. split; [exact Hf|]. split; [exact Hn|].
  exact (split_keeps_projection full_tree 0 full_chain _ _ Hg
           ltac:(vm_compute; reflexivity) Hf
           ltac:(vm_compute; reflexivity) ltac:(vm_compute; reflexivity)
           Hn ltac:(vm_compute; reflexivity)
           ltac:(vm_compute; discriminate)
           ltac:(vm_compute; reflexivity) ltac:(vm_compute; reflexivity)).
Defined.

Lemma fresh_tree_empty_witness :
  BWTree_ctor = Ok fresh_tree /\
  get_value 3 fresh_tree 7 [] = Ok [] /\
  scan 3 fresh_tree [] [] = Ok ([], []) /\
  scan_all 3 fresh_tree [] = Ok [] /\
  delete_entry 3 7 (item 70) fresh_tree = Ok (false, fresh_tree).
Proof.
  assert (BWTree_ctor = Ok fresh_tree) as Hc by (vm_compute; reflexivity).
  split; [exact Hc|].
  exact (fresh_tree_empty fresh_tree 7 (item 70) 3 [] Hc (le_n 3)).
Defined.

Lemma get_value_projection_witness :
  leaf_fake_consolidate small_chain
  = Ok ([1; 2], [[item 12; item 10]; [item 20]]) /\
  get_value 10 small_tree 1 [] = Ok [item 10; item 12] /\
  exists l,
    get_value 10 small_tree 1 [] = Ok l /\ l ≡ₚ [item 12; item 10].
Proof.
  assert (search 9 small_tree (root small_tree) 1 = Ok [0]) as Hs
    by (vm_compute; reflexivity).
  assert (mt_get (mapping_table small_tree) 0 = Ok (Some small_chain)) as Hg
    by (vm_compute; reflexivity).
  assert (leaf_fake_consolidate small_chain
          = Ok ([1; 2], [[item 12; item 10]; [item 20]])) as Hf
    by (vm_compute; reflexivity).
  split; [exact Hf|]. split; [vm_compute; reflexivity|].
  exact (get_value_projection small_tree 1 9 0 [] small_chain _ _ []
           small_tree_within Hs Hg eq_refl Hf
           ltac:(vm_compute; lia)).
Defined.

Lemma full_tree_within : reachable_within INT_MAX full_tree.
Proof.
  apply (tree_of_within INT_MAX
           [Ins 1 (item 1); Ins 2 (item 2); Ins 3 (item 3);
            Ins 4 (item 4); Ins 5 (item 5); Ins 6 (item 6);
            Ins 7 (item 7); Ins 8 (item 8)]);
    vm_compute; reflexivity.
Qed.

Lemma leaf_page_capacity_witness :
  mt_get (mapping_table full_tree) 0 = Ok (Some full_chain) /\
  is_leaf (hdr_of full_chain) = true /\
  need_split (hdr_of full_chain) = true /\
  0 <= slotuse (hdr_of full_chain) <= leafslotmax /\
  (need_split (hdr_of full_chain) = true ->
   slotuse (hdr_of full_chain) = leafslotmax) /\
  exists ks vs,
    leaf_fake_consolidate full_chain = Ok (ks, vs) /\
    Z.of_nat (length ks) = slotuse (hdr_of full_chain) /\
    Z.of_nat (length vs) = slotuse (hdr_of full_chain).
Proof.
  assert (mt_get (mapping_table full_tree) 0 = Ok (Some full_chain)) as Hg
    by (vm_compute; reflexivity).
  assert (is_leaf (hdr_of full_chain) = true) as Hil by reflexivity.
  split; [exact Hg|]. split; [exact Hil|].
  split; [vm_compute; reflexivity|].
  exact (leaf_page_capacity full_tree 0 full_chain full_tree_within Hg Hil).
Defined.

Lemma unique_keys_single_value_witness :
  @HasUniqueKeys Z ZKeyUnique = true /\
  mt_get (mapping_table unique_tree) 0 = Ok (Some unique_chain) /\
  @leaf_fake_consolidate Z ZKeyUnique unique_chain
  = Ok ([1], [[item 10]]) /\
  Forall (fun v : list ValueType => length v = 1%nat) [[item 10]] /\
  forall key, (length (@vals_of Z ZKeyUnique key [1%Z] [[item 10]]) <= 1)%nat.
Proof.
  assert (mt_get (mapping_table unique_tree) 0 = Ok (Some unique_chain))
    as Hg by (vm_compute; reflexivity).
  assert (@leaf_fake_consolidate Z ZKeyUnique unique_chain
          = Ok ([1], [[item 10]])) as Hf by (vm_compute; reflexivity).
  split; [reflexivity|]. split; [exact Hg|]. split; [exact Hf|].
  exact (@unique_keys_single_value Z ZKeyUnique ZKeyUniqueLaws unique_tree 0
           unique_chain [1] [[item 10]] eq_refl unique_tree_within Hg eq_refl
           Hf).
Defined.

Lemma unique_get_value_at_most_one_witness :
  @HasUniqueKeys Z ZKeyUnique = true /\
  @get_value Z ZKeyUnique 6 unique_tree 1 [] = Ok [item 10] /\
  exists l,
    @get_value Z ZKeyUnique 6 unique_tree 1 [] = Ok l /\ (length l <= 1)%nat.
Proof.
  assert (@search Z ZKeyUnique 5 unique_tree (root unique_tree) 1 = Ok [0])
    as Hs by (vm_compute; reflexivity).
  assert (mt_get (mapping_table unique_tree) 0 = Ok (Some unique_chain))
    as Hg by (vm_compute; reflexivity).
  split; [reflexivity|]. split; [vm_compute; reflexivity|].
  exact (@unique_get_value_at_most_one Z ZKeyUnique ZKeyUniqueLaws unique_tree
           1 5 0 [] unique_chain [] eq_refl unique_tree_within Hs Hg eq_refl
           ltac:(vm_compute; lia)).
Defined.
